(* ===== verification/_CoqProject ===== *)
-Q . S2P
Prelude.v
RdmaProtocol.v
RdmaSession.v
RdmaRing.v
RdmaPack.v
RdmaInvariant.v
RdmaTransfer.v
RdmaTimer.v
RdmaAck.v
RdmaReceive.v
RdmaWire.v
RdmaStep.v
RdmaTyped.v
RdmaDelivery.v
RdmaLiveness.v
RdmaExchange.v
RdmaProperties.v
RdmaNetwork.v
UdpWrite.v
UdpfsProtocol.v
GoPath.v
GoFloat.v
GoText.v
GoTime.v
UdpfsLog.v
UdpfsConnection.v
UdpfsContract.v
UdpfsFrame.v
UdpfsProperties.v
BlockCache.v
CachedReader.v
CompressedFile.v
Cso.v
Zso.v
Chd.v
ChdStub.v
CompressedImage.v
ImageSafety.v
CompressionProperties.v
OsWorld.v
Backend.v
BackendLogic.v
BackendInvariant.v
BackendContract.v
MemOs.v
RomOs.v
BackendProperties.v
BackendData.v
DataProperties.v
ServerMetrics.v
Server.v
ServerContract.v
ServerProperties.v
ServerLifecycle.v
LockOrder.v
Locks.v
ReadOnly.v
Main.v
MainProperties.v
ClientRead.v
ClientRequest.v
ClientWrite.v
