(* ===== verification/Prelude.v ===== *)
(** * udpfsd: a verification development

    udpfsd is a Go server that serves a directory and a block device to PlayStation 2
    clients over UDP.  This library models it from the datagrams to the calls of the
    operating system, and proves what makes it correct.

    ** The program and the files that model it

    A datagram reaches a session of the transport (udprdma/), which hands requests in
    order to the connection of its peer (udpfs/), whose handlers call the file system
    (internal/fs/), which works on files of the system or on compressed images
    (internal/fs/compression/); the replies go back through the session.  The server
    (internal/udpfsd/) keeps one connection for each peer, and the program
    (cmd/udpfsd/) turns flags and environment into its options.

    - Prelude: Go values (bytes, machine integers, slices), the [outcome] of code that
      may panic, record updates, the shared lemmas and automation.  What is used of
      Go's library, written out: [GoFloat] (float64), [GoPath] (strings and
      path/filepath), [GoText] (strconv, sort, fmt, net's host and port), [GoTime].
    - udprdma/: [RdmaProtocol] (protocol.go: headers, discovery), [RdmaSession]
      (session*.go, acks.go, ack_timer.go, metrics.go: the [Session] record and every
      operation on it, under the Go names).  Lemmas: [RdmaRing] (the ring buffer as a
      queue), [RdmaPack] (the packet format), [RdmaInvariant] ([session_ok]),
      [RdmaTransfer] (transfers against the packet [plan]), [RdmaTimer], [RdmaAck],
      [RdmaReceive] (the receiver specification [spec_receive]), [RdmaWire],
      [RdmaStep] (operations as the steps [op] of a machine), [RdmaTyped] (what is put
      on the wire), [RdmaDelivery], [RdmaLiveness], [RdmaExchange] (two sessions and a
      network that loses, repeats and reorders packets); claims in [RdmaProperties]
      and [RdmaNetwork].
    - udpfs/: [UdpfsProtocol] (protocol.go, fs.go, utils.go: messages, errors, flags,
      replies), [UdpfsLog] (utils.go: what a request logs), [UdpfsConnection]
      (connection.go, handlers.go, metrics.go), over the class [FS] of the file system
      interface of fs.go.  [UdpfsContract] is the interface between the two: the class
      [FSContract] of what a file system promises.  [UdpfsFrame]: what a request
      leaves alone; claims in [UdpfsProperties].
    - internal/fs/compression/: [BlockCache] (cache.go), [CachedReader] (reader.go)
      over the class of block readers, [CompressedFile] (the file under an image),
      [Cso], [Zso], [Chd], [ChdStub] (the build without libchdr), [CompressedImage]
      (compression.go), [ImageSafety] (which files can be opened and read without a
      panic, and what is then true of the reader); claims in [CompressionProperties].
    - internal/fs/: [OsWorld] (the class [OS] of operating system calls, its laws [OSLaws],
      file objects),
      [Backend] (backend.go, handles.go, fileops.go, utils.go, in the state monad
      [bk]).  Lemmas: [BackendLogic] (rules for the monad), [BackendInvariant]
      ([backend_ok]), [BackendContract] (the instance of [FSContract]), [BackendData]
      (what the operations do to an open handle); [MemOs] and [RomOs] are small hosts that
      satisfy [OSLaws], the second read-only with a compressed image that satisfies
      [images_ok], for the witnesses; claims in [BackendProperties] and
      [DataProperties].
    - internal/udpfsd/: [UdpWrite] (udpwrite_linux.go, udpwrite_other.go),
      [ServerMetrics] (metrics.go), [Server] (server.go, data.go, discovery.go: the
      goroutines as the steps [server_step] of one machine), [ServerContract]
      ([server_ok]); claims in [UdpWrite], [ServerProperties], [ServerLifecycle] and
      [ReadOnly].  [LockOrder] is a machine of goroutines and mutexes, [Locks] writes
      down which mutexes each operation of the program takes, with the claims about
      deadlocks.  [ClientRead], [ClientRequest] and [ClientWrite] add a client at the other
      end of the network, which is not part of the repository.
    - cmd/udpfsd/: [Main] (main.go); claims in [MainProperties].

    ** How state and operations are represented

    A Go struct is a record, a method a function that takes and returns it; a call
    that may panic returns an [outcome] ([Ok], [Panic], [OutOfFuel]).  Machine
    integers are [Z] with their wrap-around written out ([u8] to [i64]); slices are
    lists, with [slice] and [index] that panic out of range.  Packets sent are
    appended to the log [wire] of the session.  The backend threads its record and the
    operating system through [bk].  Errors are values of [result] and [go_error].

    Atomicity: an operation of a session, which holds its mutex, is one step, and
    the session theorems interleave them with timer expiries in any order.  The data
    handler takes three steps for a datagram (its peer is looked up, the session takes
    the packet, the request is handled), between which the steps of the other
    goroutines fall: ACK timers, cleanups, ticks of the metrics logger, discovery
    requests, and the program closing the server.  A handler that has returned stays
    so.  The orders in which Go ranges over maps are parameters of the operations, so
    theorems hold for each of them.  The mutexes themselves are in [Locks] only: there
    an operation is the sequence of its Lock and Unlock calls, and the calls of all
    goroutines are interleaved.

    Bounds: [handleTransfer_loop] has fuel [transfer_fuel] = 10 (at most SendWindow
    packets are in flight), [pruneAcked_loop] and [retransmitFrom_loop] the ring size
    2048, [Read_loop] the number of bytes wanted, [duration_parts] the length of the
    string; [session_never_panics], [cached_reader_refines_plain] and
    [duration_parts_fuel] show that it is enough: none of them runs out.

    Parameters, because their code is not in the repository: the operating system
    ([OS]), its sockets ([Net], and [counts_messages] for sendmmsg), DEFLATE, zlib and
    LZ4 decompression, libchdr and whether the program is built with it ([Decoders]).
    The hypotheses on them: [OSFiles] is what package os documents of its files;
    [OSHost] is what the code takes for granted of its host without a document (the
    stat of an open file and of a directory just read succeeds, names have at most 255
    bytes), and panics where it is not so ([stat_failure_panics]); [OSLaws] is both.
    [images_ok]: LZ4 and libchdr fill the buffer they get, and every file that can be
    opened as an image has a header and a table that can be allocated
    ([image_file_sane]); others panic ([negative_size_panics]), and on a server that
    is not read-only a client can store one, so there the condition is on the clients
    too.  Every hypothesis has an instance in a witness: [MemOs] with compression off,
    [RomOs] with compression on.

    ** What is proved

    - The whole program ([MainProperties], [ServerProperties], [ReadOnly]): it does not
      panic, whatever arrives and however the goroutines interleave, when requests
      keep to the bounds that the code does not check, no cleanup hits the peer whose
      datagram is being handled, and host and images are as above; started read-only it
      never writes; where its settings come from; peers are isolated in the table;
      cleanup removes the idle peers and theirs only; what a datagram does on every
      branch; and the race of cleanup with a datagram, which does panic.
    - Its life ([ServerLifecycle], [Locks]): Close returns, without that race; the statistics do not
      depend on map orders; the goroutines do not deadlock, except for the race of
      cleanup with a peer reset, which does.
    - End to end ([ClientRead], [ClientRequest], [ClientWrite]): a client that reads an
      image over the network gets its content; the data that a client writes in
      chunks, to a file or to sectors, reach the file as one write of exactly these
      bytes; a client that lists a directory gets all entries, images under the name
      and the size with which they can be opened; and a request with handle and size in
      range gets its one reply.
    - The transport ([RdmaProperties]): exactly-once in-order delivery under loss,
      duplication and reordering, packet 0 out of turn excepted; refinement of the receiver specification and of the
      packet plan; end-to-end transfers; timeouts that end; no stall; the ring bounds.
    - Two sessions and a network ([RdmaNetwork], [UdpWrite]): whatever is lost,
      repeated or reordered, the receiver gets the reply once and in order, the sender
      never believes more than is true, and losses are made good after one timeout, for
      replies whose sequence numbers neither wrap around nor include 0; every datagram
      is a well-formed packet on every platform.
    - Requests ([UdpfsProperties]): each is answered once, by its kind of reply; reply
      round trips; handles across a peer reset; closing.
    - Files ([BackendProperties], [DataProperties]): the handle table is sound and
      writers are exclusive; paths stay below the root; allocation policy; chunked
      writes write exactly their bytes; listings are complete; requests on an image
      are answered with its content.
    - Images ([CompressionProperties]): a reader of an image behaves as a plain file
      with its content whose seeks stay inside (CSO, ZISO, ZSO without plain blocks,
      each with alignment 0 and below 2 GiB; CHD of CDs and of DVDs); round trips with
      the layout of an encoder; the cache is LRU.

    Where the code does not do what it means to, the theorem states what it does
    (NACKs in mid-window, handles out of range, the cleanup race, plain ZSO blocks,
    the last handle at shutdown, the empty stat of images).

    ** Not modelled

    The text of the log lines that handlers and the server write (except the
    statistics and PrintFSInfo), and the usage text.  An open image is the bytes that
    its file had when it was opened: its later reads, seeks and its close are no calls
    of the system, and memory that runs out is no panic of the model.  Parsing the command line is
    package flag's, waiting for a signal package os/signal's.  Socket options
    (socket_unix.go, socket_windows.go): one system call each, without state.  Data
    races on fields that no mutex covers, such as a connection that cleanup sets to nil
    while the data handler reads it: the model has that write at the end of the
    cleanup step.  The interleaving of handlers of one connection with each other does
    not occur: one goroutine handles all datagrams.

    ** Further work

    The end-to-end theorems over the network of [RdmaNetwork], which loses packets,
    instead of one that does not; the exchange of [RdmaNetwork] for replies whose
    sequence numbers wrap around, which needs a bound on the age of packets in the
    network; timer expiries between the two session operations of one
    handler run. *)
From Stdlib Require Export ZArith Lia.
From Stdlib Require Import Strings.Byte.
From stdpp Require Export base tactics numbers option list.

#[global] Open Scope Z_scope.

(** ** Go values *)

(** A Go byte. *)
Abbreviation byte := Byte.byte.

#[export] Instance byte_eq_dec : EqDecision byte := Byte.byte_eq_dec.
#[export] Instance byte_inhabited : Inhabited byte := populate Byte.x00.

(** [b2z] is the Go conversion [int(b)], [z2b] the truncating conversion [byte(z)]. *)
Definition b2z (b : byte) : Z := Z.of_N (Byte.to_N b).

Definition z2b (z : Z) : byte :=
  match Byte.of_N (Z.to_N (z mod 256)) with
  | Some b => b
  | None => Byte.x00
  end.

(** Conversions to the fixed-width integers: wrap-around for the unsigned ones,
    two's complement for the signed ones. *)
Definition u8 (z : Z) : Z := z mod 2 ^ 8.
Definition u16 (z : Z) : Z := z mod 2 ^ 16.
Definition u32 (z : Z) : Z := z mod 2 ^ 32.
Definition u64 (z : Z) : Z := z mod 2 ^ 64.
Definition i32 (z : Z) : Z := (z + 2 ^ 31) mod 2 ^ 32 - 2 ^ 31.
Definition i64 (z : Z) : Z := (z + 2 ^ 63) mod 2 ^ 64 - 2 ^ 63.

(** The length of a Go slice, as the [int] that [len] returns. *)
Definition zlen {A} (l : list A) : Z := Z.of_nat (length l).

(** ** Panics

    A Go expression whose evaluation may panic (a slice or an index out of
    bounds, an explicit [panic]) is an [outcome].  A panic in the server is not
    recovered: it ends the process.  [OutOfFuel] is not a Go outcome: it marks a
    loop of the model whose iteration bound was too small, and the theorems that
    conclude [Ok] show that it does not occur. *)
Inductive panic_reason :=
| SliceOutOfRange
| IndexOutOfRange
| RingBufferFull
| NilDereference
| DivideByZero
| MakeLenOutOfRange
| NegativeWaitGroup.

Inductive outcome (A : Type) :=
| Ok (a : A)
| Panic (why : panic_reason)
| OutOfFuel.

Arguments Ok {A} a.
Arguments Panic {A} why.
Arguments OutOfFuel {A}.

#[export] Instance outcome_ret : MRet outcome := @Ok.
#[export] Instance outcome_bind : MBind outcome := λ A B k m,
  match m with
  | Ok a => k a
  | Panic w => Panic w
  | OutOfFuel => OutOfFuel
  end.

(** Go errors: a call returns a value or an error. *)
Inductive result (E A : Type) :=
| Val (a : A)
| Err (e : E).

Arguments Val {E A} a.
Arguments Err {E A} e.

#[export] Instance panic_reason_eq_dec : EqDecision panic_reason.
Proof. solve_decision. Defined.

#[export] Instance result_eq_dec {E A} `{EqDecision E, EqDecision A} : EqDecision (result E A).
Proof. solve_decision. Defined.

(** ** Slices *)

(** [l[lo:hi]] for a slice whose capacity is its length. *)
Definition slice {A} (l : list A) (lo hi : Z) : outcome (list A) :=
  if (0 <=? lo) && (lo <=? hi) && (hi <=? zlen l)
  then Ok (take (Z.to_nat (hi - lo)) (drop (Z.to_nat lo) l))
  else Panic SliceOutOfRange.

(** [l[i]] *)
Definition index {A} (l : list A) (i : Z) : outcome A :=
  if i <? 0 then Panic IndexOutOfRange
  else match l !! Z.to_nat i with
       | Some x => Ok x
       | None => Panic IndexOutOfRange
       end.

(** [copy(dst[off:], src)] *)
Definition copy_at {A} (off : nat) (src dst : list A) : list A :=
  take off dst ++ take (length dst - off) src ++ drop (off + length src) dst.

(** [encoding/binary]'s little-endian and big-endian conversions: [le_get] reads
    the whole slice it is given, [le_put n] gives the [n] bytes that are written. *)
Fixpoint le_get (bs : list byte) : Z :=
  match bs with
  | [] => 0
  | b :: bs => b2z b + 256 * le_get bs
  end.

Fixpoint le_put (n : nat) (z : Z) : list byte :=
  match n with
  | O => []
  | S n => z2b z :: le_put n (z / 256)
  end.

Definition be_get (bs : list byte) : Z := le_get (reverse bs).

(** [len] bytes of [bs] at [off], and their little-endian value: the reads
    [binary.LittleEndian.UintN(bs[off:off+len])] whose bounds the caller has checked. *)
Definition sub_bytes (bs : list byte) (off len : nat) : list byte := take len (drop off bs).
Definition le_at (bs : list byte) (off len : nat) : Z := le_get (sub_bytes bs off len).

(** ** Functional record update

    [r <| f := v |>] is [r] with field [f] set to [v]; [r <| f ::= g |>] applies
    [g] to the field.  The instances are generated from an eta expansion of the
    record's constructor by [mk_setter]. *)
Class Setter {R T : Type} (proj : R → T) := set_field : (T → T) → R → R.
Arguments set_field {R T} proj {_} _ _.

Declare Scope record_scope.
Delimit Scope record_scope with rec.
Notation "r <| f := v |>" := (set_field f (λ _, v) r)
  (at level 12, f at next level, left associativity) : record_scope.
Notation "r <| f ::= g |>" := (set_field f g r)
  (at level 12, f at next level, left associativity) : record_scope.
#[global] Open Scope record_scope.

Ltac mk_setter eta proj :=
  let e := eval unfold eta in eta in
  let p := eval pattern proj in e in
  match p with
  | ?g _ => let t := eval cbv beta in (fun f r => g (fun x => f (proj x)) r) in exact t
  end.

(** ** Automation *)

(** Arithmetic on lengths, machine words and ring positions: [lia] after the
    division and modulo are turned into equations. *)
Ltac zlia := Z.div_mod_to_equations; lia.

(** Case analysis on the boolean tests of the modelled code. *)
Ltac bool_to_prop :=
  repeat match goal with
  | H : (_ && _)%bool = true |- _ => apply andb_true_iff in H; destruct H
  | H : (_ || _)%bool = false |- _ => apply orb_false_iff in H; destruct H
  | H : negb _ = true |- _ => apply negb_true_iff in H
  | H : negb _ = false |- _ => apply negb_false_iff in H
  | H : (_ <=? _) = true |- _ => apply Z.leb_le in H
  | H : (_ <=? _) = false |- _ => apply Z.leb_gt in H
  | H : (_ <? _) = true |- _ => apply Z.ltb_lt in H
  | H : (_ <? _) = false |- _ => apply Z.ltb_ge in H
  | H : (_ >=? _) = _ |- _ => rewrite Z.geb_leb in H
  | H : (_ >? _) = _ |- _ => rewrite Z.gtb_ltb in H
  | H : (_ =? _) = true |- _ => apply Z.eqb_eq in H
  | H : (_ =? _) = false |- _ => apply Z.eqb_neq in H
  end.

(** Destruct the first scrutinised boolean test of the goal. *)
Ltac case_bool :=
  match goal with
  | |- context [if ?b then _ else _] => let E := fresh "E" in destruct b eqn:E; bool_to_prop
  end.

Create HintDb godb.
Create Rewrite HintDb gobits.
Create Rewrite HintDb golen.

(** ** Shared lemmas *)

Lemma b2z_bound b : 0 <= b2z b < 256.
Proof. unfold b2z. pose proof (Byte.to_N_bounded b). lia. Qed.

Lemma b2z_z2b z : b2z (z2b z) = z mod 256.
Proof.
  unfold b2z, z2b.
  pose proof (Z.mod_pos_bound z 256 eq_refl).
  destruct (Byte.of_N _) as [b|] eqn:E.
  - apply Byte.to_of_N in E. lia.
  - apply Byte.of_N_None_iff in E. lia.
Qed.

Lemma z2b_b2z b : z2b (b2z b) = b.
Proof.
  unfold z2b, b2z. pose proof (Byte.to_N_bounded b).
  rewrite Z.mod_small by lia. by rewrite N2Z.id, Byte.of_to_N.
Qed.

Lemma b2z_inj b c : b2z b = b2z c → b = c.
Proof. intros H. by rewrite <-(z2b_b2z b), H, z2b_b2z. Qed.

Lemma length_le_put n z : length (le_put n z) = n.
Proof. revert z; induction n; intros z; simpl; auto. Qed.

Lemma le_get_put n z : le_get (le_put n z) = z mod 256 ^ Z.of_nat n.
Proof.
  revert z; induction n as [|n IH]; intros z; simpl le_put; simpl le_get.
  - by rewrite Z.mod_1_r.
  - rewrite IH, b2z_z2b, Nat2Z.inj_succ, Z.pow_succ_r by lia.
    rewrite Z.rem_mul_r by (try apply Z.pow_nonzero; lia). lia.
Qed.

Lemma le_get_put_small n z : 0 <= z < 256 ^ Z.of_nat n → le_get (le_put n z) = z.
Proof. intros Hz. rewrite le_get_put. by apply Z.mod_small. Qed.

Lemma i64_small z : - 2 ^ 63 <= z < 2 ^ 63 → i64 z = z.
Proof. intros Hz. unfold i64. rewrite Z.mod_small; lia. Qed.

Lemma i32_u32 z : - 2 ^ 31 <= z < 2 ^ 31 → i32 (u32 z) = z.
Proof. intros Hz. unfold i32, u32. zlia. Qed.

Lemma le_get_bound bs : 0 <= le_get bs < 256 ^ zlen bs.
Proof.
  unfold zlen. induction bs as [|b bs IH]; simpl le_get; simpl length; [lia|].
  pose proof (b2z_bound b). rewrite Nat2Z.inj_succ, Z.pow_succ_r by lia. lia.
Qed.

Lemma le_put_get bs : le_put (length bs) (le_get bs) = bs.
Proof.
  induction bs as [|b bs IH]; simpl; [done|].
  pose proof (b2z_bound b).
  f_equal.
  - apply b2z_inj. rewrite b2z_z2b. zlia.
  - replace ((b2z b + 256 * le_get bs) / 256) with (le_get bs) by zlia. done.
Qed.

(** Bit fields: a field that fits below [n] bits and one shifted above it add up. *)
Lemma lor_shiftl_add a b n :
  0 <= n → 0 <= a < 2 ^ n → Z.lor a (Z.shiftl b n) = a + b * 2 ^ n.
Proof.
  intros Hn Ha. rewrite <-Z.shiftl_mul_pow2 by done.
  symmetry. rewrite Z.add_nocarry_lxor.
  - apply Z.bits_inj'. intros i Hi. rewrite Z.lxor_spec, Z.lor_spec, Z.shiftl_spec by done.
    destruct (decide (i < n)).
    + by rewrite (Z.testbit_neg_r b) by lia; destruct (Z.testbit a i).
    + assert (Z.testbit a i = false) as ->; [|done].
      destruct (decide (a = 0)) as [->|]; [apply Z.bits_0|].
      apply Z.bits_above_log2; [lia|].
      assert (Z.log2 a < n) by (apply Z.log2_lt_pow2; lia). lia.
  - apply Z.bits_inj'. intros i Hi. rewrite Z.land_spec, Z.bits_0, Z.shiftl_spec by done.
    destruct (decide (i < n)).
    + rewrite (Z.testbit_neg_r b) by lia. by destruct (Z.testbit a i).
    + assert (Z.testbit a i = false) as ->; [|done].
      destruct (decide (a = 0)) as [->|]; [apply Z.bits_0|].
      apply Z.bits_above_log2; [lia|].
      assert (Z.log2 a < n) by (apply Z.log2_lt_pow2; lia). lia.
Qed.

(** A mask of [n] ones is the remainder by [2 ^ n]; the masks of the source. *)
Lemma land_mask a n : 0 <= n → Z.land a (2 ^ n - 1) = a mod 2 ^ n.
Proof. intros. rewrite <-Z.land_ones by done. by rewrite Z.ones_equiv, Z.sub_1_r. Qed.

Lemma land_3 a : Z.land a 0x3 = a mod 4.
Proof. exact (land_mask a 2 ltac:(done)). Qed.
Lemma land_F a : Z.land a 0xF = a mod 16.
Proof. exact (land_mask a 4 ltac:(done)). Qed.
Lemma land_FFF a : Z.land a 0xFFF = a mod 4096.
Proof. exact (land_mask a 12 ltac:(done)). Qed.
Lemma land_3FFF a : Z.land a 0x3FFF = a mod 16384.
Proof. exact (land_mask a 14 ltac:(done)). Qed.
Lemma land_u32 a : Z.land a 0xFFFFFFFF = a mod 4294967296.
Proof. exact (land_mask a 32 ltac:(done)). Qed.
Lemma shiftr_div a n : 0 <= n → Z.shiftr a n = a / 2 ^ n.
Proof. intros. by apply Z.shiftr_div_pow2. Qed.

Lemma mod_u16_4096 a : u16 a mod 4096 = a mod 4096.
Proof. unfold u16. change (2 ^ 16) with (4096 * 16). by rewrite Z.rem_mul_r, Z.mul_comm, Z_mod_plus_full, Zmod_mod by lia. Qed.

#[export] Hint Rewrite land_3 land_F land_FFF land_3FFF land_u32 mod_u16_4096 : gobits.
#[export] Hint Rewrite length_le_put @length_app @length_take @length_drop @length_replicate @length_insert : golen.

(** Lengths as integers. *)
Lemma zlen_nonneg {A} (l : list A) : 0 <= zlen l.
Proof. unfold zlen. lia. Qed.

Lemma zlen_app {A} (l k : list A) : zlen (l ++ k) = zlen l + zlen k.
Proof. unfold zlen. rewrite length_app. lia. Qed.

Lemma slice_ok {A} (l : list A) lo hi :
  0 <= lo <= hi → hi <= zlen l →
  slice l lo hi = Ok (take (Z.to_nat (hi - lo)) (drop (Z.to_nat lo) l)).
Proof.
  intros. unfold slice.
  by rewrite (proj2 (Z.leb_le 0 lo)), (proj2 (Z.leb_le lo hi)), (proj2 (Z.leb_le hi _)) by lia.
Qed.

Lemma slice_Ok_inv {A} (l r : list A) lo hi :
  slice l lo hi = Ok r →
  0 <= lo <= hi ∧ hi <= zlen l ∧ r = take (Z.to_nat (hi - lo)) (drop (Z.to_nat lo) l).
Proof. unfold slice. intros H. case_match; bool_to_prop; simplify_eq. auto with lia. Qed.

Lemma length_copy_at {A} off (src dst : list A) : length (copy_at off src dst) = length dst.
Proof.
  unfold copy_at. rewrite !length_app, !length_take, length_drop. lia.
Qed.

(** Overwriting the middle of a list that is split at the right places. *)
Lemma copy_at_mid {A} (pre src old post : list A) off :
  off = length pre → length src = length old →
  copy_at off src (pre ++ old ++ post) = pre ++ src ++ post.
Proof.
  intros -> Hl. unfold copy_at. rewrite !length_app.
  rewrite take_app_length. f_equal.
  rewrite (take_ge src) by lia. f_equal.
  rewrite Hl, <-drop_drop, drop_app_length. by rewrite drop_app_length.
Qed.

Lemma copy_at_front {A} (src old post : list A) :
  length src = length old → copy_at 0 src (old ++ post) = src ++ post.
Proof. intros H. exact (copy_at_mid [] src old post 0 eq_refl H). Qed.

(** Running the outcome monad. *)
Lemma bind_Ok {A B} (a : A) (f : A → outcome B) : (Ok a ≫= f) = f a.
Proof. done. Qed.

Lemma bind_Ok_inv {A B} (m : outcome A) (f : A → outcome B) b :
  m ≫= f = Ok b → ∃ a, m = Ok a ∧ f a = Ok b.
Proof. destruct m; simpl; intros H; [eauto|discriminate|discriminate]. Qed.

#[global] Arguments le_put : simpl never.
#[global] Arguments le_get : simpl never.
#[global] Arguments copy_at : simpl never.
#[global] Arguments slice : simpl never.
#[global] Arguments index : simpl never.
