(* ===== verification/RdmaProtocol.v ===== *)
(** * UDPRDMA packet formats (udprdma/protocol.go)

    The 2-byte base header, the 4-byte discovery and data headers with their bit
    layouts, and the discovery exchange.  [*_Pack] gives the bytes a [Pack]
    method writes at the start of the slice it is given. *)
From S2P Require Import Prelude.

Definition UDPFSPort : Z := 0xF5F6.
Definition Service_UDPFS : Z := 0xF5F5.

Definition SendWindow : Z := 8.
Definition MaxDataPayload : Z := 1408.
(** Durations are in milliseconds. *)
Definition FinAckTimeout : Z := 500.
Definition WindowAckTimeout : Z := 100.
Definition MaxRetransmits : Z := 4.

Definition PacketDiscovery : Z := 0.
Definition PacketInform : Z := 1.
Definition PacketData : Z := 2.

Definition DataFlagACK : Z := 1.
Definition DataFlagFIN : Z := 2.

Definition headerSize : nat := 2.
Definition discHeaderSize : nat := 4.
Definition dataHeaderSize : nat := 4.

(** The errors of the package: those of the [Unpack] functions, and those that
    wrap them.  [InvalidHeader None] is the "invalid header: <nil>" that a packet
    of another type gets. *)
Inductive unpack_error :=
| HeaderTooShort
| DiscHeaderTooShort
| DataHeaderTooShort.

Inductive rdma_error :=
| InvalidHeader (inner : option unpack_error)
| WrongPacketType (t : Z)
| InvalidDiscHeader (inner : unpack_error)
| WrongServiceID (got expected : Z)
| InvalidDataHeader (inner : unpack_error).

Record Header := mkHeader { PacketType : Z; SeqNr : Z }.

Definition UnpackHeader (data : list byte) : result unpack_error Header :=
  if zlen data <? 2 then Err HeaderTooShort
  else
    let val := le_at data 0 2 in
    Val {| PacketType := Z.land val 0xF;
           SeqNr := Z.land (Z.shiftr val 4) 0xFFF |}.

Definition Header_Pack (h : Header) : list byte :=
  let val := Z.lor (Z.land (PacketType h) 0xF)
                   (u16 (Z.shiftl (Z.land (SeqNr h) 0xFFF) 4)) in
  le_put 2 val.

Record DiscHeader := mkDiscHeader { ServiceID : Z; Reserved : Z }.

Definition UnpackDiscHeader (data : list byte) : result unpack_error DiscHeader :=
  if zlen data <? 4 then Err DiscHeaderTooShort
  else Val {| ServiceID := le_at data 0 2; Reserved := le_at data 2 2 |}.

Definition DiscHeader_Pack (d : DiscHeader) : list byte :=
  le_put 2 (ServiceID d) ++ le_put 2 (Reserved d).

Record DataHeader := mkDataHeader {
  SeqNrAck : Z;
  Flags : Z;
  HdrWordCount : Z;
  DataByteCount : Z
}.

Definition UnpackDataHeader (data : list byte) : result unpack_error DataHeader :=
  if zlen data <? 4 then Err DataHeaderTooShort
  else
    let val := le_at data 0 4 in
    Val {| SeqNrAck := u16 (Z.land val 0xFFF);
           Flags := u8 (Z.land (Z.shiftr val 12) 0x3);
           HdrWordCount := u8 (Z.land (Z.shiftr val 14) 0xF);
           DataByteCount := u16 (Z.land (Z.shiftr val 18) 0x3FFF) |}.

Definition DataHeader_Pack (d : DataHeader) : list byte :=
  let val := Z.lor (Z.lor (Z.lor
               (Z.land (SeqNrAck d) 0xFFF)
               (u32 (Z.shiftl (Z.land (Flags d) 0x3) 12)))
               (u32 (Z.shiftl (Z.land (HdrWordCount d) 0xF) 14)))
               (u32 (Z.shiftl (Z.land (DataByteCount d) 0x3FFF) 18)) in
  le_put 4 val.

Definition ProcessDiscoveryPacket (data : list byte) (expectedService : Z)
    : result rdma_error (list byte) :=
  match UnpackHeader data with
  | Err e => Err (InvalidHeader (Some e))
  | Val hdr =>
      if negb (PacketType hdr =? PacketDiscovery) then Err (WrongPacketType (PacketType hdr))
      else
        match UnpackDiscHeader (drop 2 data) with
        | Err e => Err (InvalidDiscHeader e)
        | Val disc =>
            if negb (ServiceID disc =? expectedService)
            then Err (WrongServiceID (ServiceID disc) expectedService)
            else
              let reply := replicate (headerSize + discHeaderSize) (z2b 0) in
              let reply := copy_at 0 (Header_Pack {| PacketType := PacketInform; SeqNr := 1 |}) reply in
              let reply := copy_at headerSize
                             (DiscHeader_Pack {| ServiceID := expectedService; Reserved := 0 |}) reply in
              Val reply
        end
  end.

#[export] Instance unpack_error_eq_dec : EqDecision unpack_error.
Proof. solve_decision. Defined.
#[export] Instance rdma_error_eq_dec : EqDecision rdma_error.
Proof. solve_decision. Defined.
#[export] Instance Header_eq_dec : EqDecision Header.
Proof. solve_decision. Defined.
#[export] Instance DiscHeader_eq_dec : EqDecision DiscHeader.
Proof. solve_decision. Defined.
#[export] Instance DataHeader_eq_dec : EqDecision DataHeader.
Proof. solve_decision. Defined.

(** The values a header's fields can carry on the wire. *)
Definition Header_wf (h : Header) : Prop :=
  0 <= PacketType h < 16 ∧ 0 <= SeqNr h < 4096.
Definition DiscHeader_wf (d : DiscHeader) : Prop :=
  0 <= ServiceID d < 65536 ∧ 0 <= Reserved d < 65536.
Definition DataHeader_wf (d : DataHeader) : Prop :=
  0 <= SeqNrAck d < 4096 ∧ 0 <= Flags d < 4 ∧
  0 <= HdrWordCount d < 16 ∧ 0 <= DataByteCount d < 16384.

(** ** Properties *)

Lemma le_at_app_l (bs rest : list byte) n :
  length bs = n → le_at (bs ++ rest) 0 n = le_get bs.
Proof. intros <-. unfold le_at, sub_bytes. by rewrite drop_0, take_app_length. Qed.

Lemma le_at_bound bs off n : 0 <= le_at bs off n < 256 ^ Z.of_nat n.
Proof.
  unfold le_at. pose proof (le_get_bound (sub_bytes bs off n)) as H.
  assert (zlen (sub_bytes bs off n) <= Z.of_nat n).
  { unfold zlen, sub_bytes. rewrite length_take. lia. }
  pose proof (Z.pow_le_mono_r 256 (zlen (sub_bytes bs off n)) (Z.of_nat n)). lia.
Qed.

Lemma length_Header_Pack h : length (Header_Pack h) = 2%nat.
Proof. apply length_le_put. Qed.
Lemma length_DiscHeader_Pack d : length (DiscHeader_Pack d) = 4%nat.
Proof. unfold DiscHeader_Pack. by rewrite length_app, !length_le_put. Qed.
Lemma length_DataHeader_Pack d : length (DataHeader_Pack d) = 4%nat.
Proof. apply length_le_put. Qed.
#[export] Hint Rewrite length_Header_Pack length_DiscHeader_Pack length_DataHeader_Pack : golen.

(** The packed words as sums of their fields. *)
Lemma header_word_sum t s :
  Z.lor (Z.land t 0xF) (u16 (Z.shiftl (Z.land s 0xFFF) 4)) = t mod 16 + 16 * (s mod 4096).
Proof.
  rewrite land_F, land_FFF. unfold u16. rewrite Z.shiftl_mul_pow2 by lia.
  rewrite (Z.mod_small (_ * _)) by zlia.
  rewrite <-Z.shiftl_mul_pow2, lor_shiftl_add by zlia. lia.
Qed.

Lemma data_word_sum a f h c :
  Z.lor (Z.lor (Z.lor (Z.land a 0xFFF) (u32 (Z.shiftl (Z.land f 0x3) 12)))
               (u32 (Z.shiftl (Z.land h 0xF) 14)))
        (u32 (Z.shiftl (Z.land c 0x3FFF) 18)) =
  a mod 4096 + 4096 * (f mod 4) + 16384 * (h mod 16) + 262144 * (c mod 16384).
Proof.
  rewrite land_3, land_F, land_FFF, land_3FFF. unfold u32.
  rewrite !(Z.mod_small (Z.shiftl _ _)) by (rewrite Z.shiftl_mul_pow2 by lia; zlia).
  rewrite (lor_shiftl_add (a mod 4096)) by zlia.
  rewrite (lor_shiftl_add (a mod 4096 + _)) by zlia.
  rewrite lor_shiftl_add by zlia. lia.
Qed.

(** Reading back a packed header, with any bytes after it. *)
Lemma UnpackHeader_Pack h rest :
  Header_wf h → UnpackHeader (Header_Pack h ++ rest) = Val h.
Proof.
  intros [Ht Hs]. unfold UnpackHeader.
  rewrite zlen_app. unfold zlen at 1. rewrite length_Header_Pack.
  pose proof (zlen_nonneg rest).
  rewrite (proj2 (Z.ltb_ge _ _)) by lia.
  rewrite le_at_app_l by apply length_Header_Pack.
  unfold Header_Pack. rewrite le_get_put, header_word_sum, shiftr_div, land_F, land_FFF by lia.
  destruct h as [t s]; simpl in *. change (256 ^ Z.of_nat 2) with 65536.
  do 2 f_equal; zlia.
Qed.

Lemma UnpackDiscHeader_Pack d rest :
  DiscHeader_wf d → UnpackDiscHeader (DiscHeader_Pack d ++ rest) = Val d.
Proof.
  intros [Ht Hs]. unfold UnpackDiscHeader, DiscHeader_Pack.
  rewrite !zlen_app. unfold zlen at 1 2. rewrite !length_le_put.
  pose proof (zlen_nonneg rest).
  rewrite (proj2 (Z.ltb_ge _ _)) by lia.
  rewrite <-app_assoc, le_at_app_l by apply length_le_put.
  unfold le_at, sub_bytes. rewrite drop_app_length' by (by rewrite length_le_put).
  rewrite take_app_length' by (by rewrite length_le_put).
  rewrite !le_get_put. change (256 ^ Z.of_nat 2) with 65536.
  destruct d; simpl in *. rewrite !Z.mod_small by lia. done.
Qed.

Lemma UnpackDataHeader_Pack d rest :
  DataHeader_wf d → UnpackDataHeader (DataHeader_Pack d ++ rest) = Val d.
Proof.
  intros (Ha & Hf & Hh & Hc). unfold UnpackDataHeader.
  rewrite zlen_app. unfold zlen at 1. rewrite length_DataHeader_Pack.
  pose proof (zlen_nonneg rest).
  rewrite (proj2 (Z.ltb_ge _ _)) by lia.
  rewrite le_at_app_l by apply length_DataHeader_Pack.
  unfold DataHeader_Pack. rewrite le_get_put, data_word_sum.
  rewrite !shiftr_div, land_3, land_F, land_FFF, land_3FFF by lia.
  destruct d as [a f h c]; simpl in *. change (256 ^ Z.of_nat 4) with 4294967296.
  unfold u8, u16. f_equal. f_equal; zlia.
Qed.

(** What [Unpack] returns is always in range. *)
Lemma UnpackHeader_wf data h : UnpackHeader data = Val h → Header_wf h.
Proof.
  unfold UnpackHeader. case_match; [done|]. intros [= <-]. unfold Header_wf; simpl.
  rewrite land_F, land_FFF. split; apply Z.mod_pos_bound; lia.
Qed.

Lemma UnpackDataHeader_wf data d : UnpackDataHeader data = Val d → DataHeader_wf d.
Proof.
  unfold UnpackDataHeader. case_match; [done|]. intros [= <-]. unfold DataHeader_wf; simpl.
  rewrite land_3, land_F, land_FFF, land_3FFF. unfold u8, u16. repeat split; zlia.
Qed.

(** Packing what was unpacked gives the bytes back: no bit of a header is lost. *)
Lemma le_put_at data n :
  Z.of_nat n <= zlen data → le_put n (le_at data 0 n) = take n data.
Proof.
  intros Hn. unfold le_at, sub_bytes. rewrite drop_0.
  rewrite <-(le_put_get (take n data)) at 2. f_equal. rewrite length_take. unfold zlen in Hn. lia.
Qed.

Lemma Header_Pack_Unpack data h : UnpackHeader data = Val h → Header_Pack h = take 2 data.
Proof.
  unfold UnpackHeader. case_bool; [done|]. intros [= <-]. unfold Header_Pack. simpl.
  rewrite header_word_sum, <-le_put_at by lia. f_equal.
  pose proof (le_at_bound data 0 2) as Hb. change (256 ^ Z.of_nat 2) with 65536 in Hb.
  rewrite shiftr_div, land_F, land_FFF by lia. zlia.
Qed.

Lemma DataHeader_Pack_Unpack data d :
  UnpackDataHeader data = Val d → DataHeader_Pack d = take 4 data.
Proof.
  unfold UnpackDataHeader. case_bool; [done|]. intros [= <-]. unfold DataHeader_Pack.
  cbn [SeqNrAck Flags HdrWordCount DataByteCount]. rewrite data_word_sum, <-le_put_at by lia. f_equal.
  pose proof (le_at_bound data 0 4) as Hb. change (256 ^ Z.of_nat 4) with 4294967296 in Hb.
  rewrite !shiftr_div, land_3, land_F, land_FFF, land_3FFF by lia. unfold u8, u16. zlia.
Qed.

(** When a discovery packet is answered, and with what. *)
Lemma le_at_drop data off n : le_at (drop off data) 0 n = le_at data off n.
Proof. unfold le_at, sub_bytes. by rewrite drop_0. Qed.

Lemma ProcessDiscoveryPacket_iff data service reply :
  0 <= service < 65536 →
  ProcessDiscoveryPacket data service = Val reply ↔
  6 <= zlen data ∧ le_at data 0 2 mod 16 = PacketDiscovery ∧ le_at data 2 2 = service ∧
  reply = Header_Pack {| PacketType := PacketInform; SeqNr := 1 |} ++
          DiscHeader_Pack {| ServiceID := service; Reserved := 0 |}.
Proof.
  intros Hs. unfold ProcessDiscoveryPacket, UnpackHeader, UnpackDiscHeader.
  rewrite le_at_drop, land_F. unfold zlen at 2. rewrite length_drop.
  set (inform := Header_Pack _ ++ _).
  change (copy_at headerSize _ _) with inform.
  pose proof (zlen_nonneg data) as Hn. unfold zlen in *.
  repeat (case_bool; simpl PacketType in *; simpl ServiceID in *); split;
    try (intros [=]; fail); try lia; intros H; try (destruct H as (? & ? & ? & ->)); try lia; try done.
  injection H as <-. split_and!; try done; lia.
Qed.
