(* ===== verification/RdmaSession.v ===== *)
(** * UDPRDMA sessions (udprdma/session*.go, acks.go, ack_timer.go, metrics.go)

    The state of one data connection and every operation on it.  A session's
    mutex is held for the whole of each exported operation, so an operation is
    one function on the state.  What the source hands to [writeTo], [writeBatch]
    and [resetCallback] is appended to the [wire] log, in order. *)
From S2P Require Import Prelude RdmaProtocol.

(** ** Data *)

Inductive ackWaitMode := ackWaitNone | ackWaitWindow | ackWaitFin.

#[export] Instance ackWaitMode_eq_dec : EqDecision ackWaitMode.
Proof. solve_decision. Defined.

(** A slot of the transmit ring: the backing array of the slice [data], the
    slice's length, and the sequence number. *)
Record txPacket := mkTxPacket { tx_array : list byte; tx_len : nat; seq : Z }.

Definition tx_data (p : txPacket) : list byte := take (tx_len p) (tx_array p).

(** [t_data = None] is a nil slice: no transfer is pending. *)
Record transfer := mkTransfer {
  t_header : list byte;
  t_data : option (list byte);
  t_offset : Z;
  t_maxChunk : Z
}.

Record metricContainer := mkMetrics {
  packetsTx : Z;
  packetsRx : Z;
  retransmits : Z;
  nacks : Z;
  unexpectedSeqNrs : Z;
  peerNACKs : Z;
  peerResets : Z
}.

Inductive wire_event :=
| WriteTo (pkt : list byte)
| WriteBatch (pkts : list (list byte))
| ResetCallback.

(** [ackTimer] is the pending duration of the timer, [None] when it is stopped;
    [resetCallback] says whether a callback is set. *)
Record Session := mkSession {
  resetCallback : bool;
  txBuffer : list txPacket;
  txWriteIndex : Z;
  txReadIndex : Z;
  s_transfer : transfer;
  metrics : metricContainer;
  txSeqNr : Z;
  txSeqNrAcked : Z;
  rxSeqExpected : Z;
  ackTimer : option Z;
  ackTimerExpectSeq : Z;
  ackTimerSeq : Z;
  ackWait : ackWaitMode;
  retransmitAttempts : Z;
  finPending : bool;
  closed : bool;
  wire : list wire_event
}.

(** Field updates. *)
Definition eta_metrics (m : metricContainer) : metricContainer :=
  mkMetrics (packetsTx m) (packetsRx m) (retransmits m) (nacks m)
    (unexpectedSeqNrs m) (peerNACKs m) (peerResets m).

#[export] Instance set_packetsTx : Setter packetsTx := ltac:(mk_setter eta_metrics packetsTx).
#[export] Instance set_packetsRx : Setter packetsRx := ltac:(mk_setter eta_metrics packetsRx).
#[export] Instance set_retransmits : Setter retransmits := ltac:(mk_setter eta_metrics retransmits).
#[export] Instance set_nacks : Setter nacks := ltac:(mk_setter eta_metrics nacks).
#[export] Instance set_unexpectedSeqNrs : Setter unexpectedSeqNrs :=
  ltac:(mk_setter eta_metrics unexpectedSeqNrs).
#[export] Instance set_peerNACKs : Setter peerNACKs := ltac:(mk_setter eta_metrics peerNACKs).
#[export] Instance set_peerResets : Setter peerResets := ltac:(mk_setter eta_metrics peerResets).

Definition eta_transfer (t : transfer) : transfer :=
  mkTransfer (t_header t) (t_data t) (t_offset t) (t_maxChunk t).

#[export] Instance set_t_header : Setter t_header := ltac:(mk_setter eta_transfer t_header).
#[export] Instance set_t_data : Setter t_data := ltac:(mk_setter eta_transfer t_data).
#[export] Instance set_t_offset : Setter t_offset := ltac:(mk_setter eta_transfer t_offset).
#[export] Instance set_t_maxChunk : Setter t_maxChunk := ltac:(mk_setter eta_transfer t_maxChunk).

Definition eta_session (s : Session) : Session :=
  mkSession (resetCallback s) (txBuffer s) (txWriteIndex s) (txReadIndex s) (s_transfer s)
    (metrics s) (txSeqNr s) (txSeqNrAcked s) (rxSeqExpected s) (ackTimer s)
    (ackTimerExpectSeq s) (ackTimerSeq s) (ackWait s) (retransmitAttempts s)
    (finPending s) (closed s) (wire s).

#[export] Instance set_resetCallback : Setter resetCallback :=
  ltac:(mk_setter eta_session resetCallback).
#[export] Instance set_txBuffer : Setter txBuffer := ltac:(mk_setter eta_session txBuffer).
#[export] Instance set_txWriteIndex : Setter txWriteIndex :=
  ltac:(mk_setter eta_session txWriteIndex).
#[export] Instance set_txReadIndex : Setter txReadIndex :=
  ltac:(mk_setter eta_session txReadIndex).
#[export] Instance set_s_transfer : Setter s_transfer := ltac:(mk_setter eta_session s_transfer).
#[export] Instance set_metrics : Setter metrics := ltac:(mk_setter eta_session metrics).
#[export] Instance set_txSeqNr : Setter txSeqNr := ltac:(mk_setter eta_session txSeqNr).
#[export] Instance set_txSeqNrAcked : Setter txSeqNrAcked :=
  ltac:(mk_setter eta_session txSeqNrAcked).
#[export] Instance set_rxSeqExpected : Setter rxSeqExpected :=
  ltac:(mk_setter eta_session rxSeqExpected).
#[export] Instance set_ackTimer : Setter ackTimer := ltac:(mk_setter eta_session ackTimer).
#[export] Instance set_ackTimerExpectSeq : Setter ackTimerExpectSeq :=
  ltac:(mk_setter eta_session ackTimerExpectSeq).
#[export] Instance set_ackTimerSeq : Setter ackTimerSeq :=
  ltac:(mk_setter eta_session ackTimerSeq).
#[export] Instance set_ackWait : Setter ackWait := ltac:(mk_setter eta_session ackWait).
#[export] Instance set_retransmitAttempts : Setter retransmitAttempts :=
  ltac:(mk_setter eta_session retransmitAttempts).
#[export] Instance set_finPending : Setter finPending := ltac:(mk_setter eta_session finPending).
#[export] Instance set_closed : Setter closed := ltac:(mk_setter eta_session closed).
#[export] Instance set_wire : Setter wire := ltac:(mk_setter eta_session wire).

(** [x++] on a uint64 counter. *)
Definition inc64 (z : Z) : Z := u64 (z + 1).

Definition emit (e : wire_event) (s : Session) : Session := s <| wire ::= λ w, w ++ [e] |>.

(** ** Session life cycle (session.go) *)

Definition txBufferLen : Z := 2048.
Definition txPacketCap : nat := 1500.

Definition NewSession : Session :=
  {| resetCallback := false;
     txBuffer := replicate (Z.to_nat txBufferLen)
                   {| tx_array := replicate txPacketCap (z2b 0); tx_len := txPacketCap; seq := 0 |};
     txWriteIndex := 0;
     txReadIndex := 0;
     s_transfer := {| t_header := []; t_data := None; t_offset := 0; t_maxChunk := 0 |};
     metrics := mkMetrics 0 0 0 0 0 0 0;
     txSeqNr := 0;
     txSeqNrAcked := 0xFFF;
     rxSeqExpected := 0;
     ackTimer := None;
     ackTimerExpectSeq := 0;
     ackTimerSeq := 0;
     ackWait := ackWaitNone;
     retransmitAttempts := 0;
     finPending := false;
     closed := false;
     wire := [] |}.

Definition SetResetCallback (s : Session) : Session := s <| resetCallback := true |>.

(** InFlight returns the number of unacknowledged packets. *)
Definition InFlight (s : Session) : Z :=
  if txReadIndex s =? txWriteIndex s then 0
  else Z.land (u16 (txSeqNr s - txSeqNrAcked s - 1)) 0xFFF.

(** seqBetween reports whether [seq] is in [start, end] on the 12-bit ring. *)
Definition seqBetween (start seq end_ : Z) : bool :=
  let start := Z.land start 0xFFF in
  let seq := Z.land seq 0xFFF in
  let end_ := Z.land end_ 0xFFF in
  if start <=? end_ then (start <=? seq) && (seq <=? end_)
  else (start <=? seq) || (seq <=? end_).

Definition clearTransfer (s : Session) : Session :=
  s <| s_transfer ::= λ t, t <| t_header := [] |> <| t_data := None |> <| t_offset := -1 |> |>.

(** ** The ACK timer (ack_timer.go) *)

Definition stopAckTimer (s : Session) : Session :=
  s <| ackTimerSeq ::= λ n, u16 (n + 1) |> <| ackWait := ackWaitNone |> <| ackTimer := None |>.

Definition armAckTimer (s : Session) : Session :=
  let '(d, mode) :=
    if finPending s then (FinAckTimeout, ackWaitFin) else (WindowAckTimeout, ackWaitWindow) in
  if decide (ackWait s = mode) then s
  else
    let s := s <| ackTimer := None |> in
    let s := s <| ackTimerSeq ::= λ n, u16 (n + 1) |> in
    let s := s <| ackTimerExpectSeq := ackTimerSeq s |> in
    let s := s <| ackWait := mode |> in
    s <| ackTimer := Some d |>.

Definition transferPending (s : Session) : bool :=
  match t_data (s_transfer s) with Some _ => true | None => false end.

Definition updateAckTimer (s : Session) : Session :=
  if InFlight s =? 0 then stopAckTimer s
  else if finPending s || (transferPending s && (SendWindow <=? InFlight s))
  then armAckTimer s
  else stopAckTimer s.

Definition Close (s : Session) : Session :=
  if closed s then s
  else stopAckTimer (s <| closed := true |>).

Definition ResetSession (s : Session) : Session :=
  let s := s <| txSeqNr := 0 |> <| txSeqNrAcked := 0xFFF |> <| txReadIndex := 0 |>
             <| txWriteIndex := 0 |> <| rxSeqExpected := 0 |> in
  let s := stopAckTimer s in
  let s := s <| retransmitAttempts := 0 |> <| finPending := false |>
             <| metrics ::= λ m, m <| peerResets ::= inc64 |> |> in
  let s := clearTransfer s in
  if resetCallback s then emit ResetCallback s else s.

(** resetSendState clears the TX buffer and the ACK timer. *)
Definition resetSendState (s : Session) : Session :=
  let s := s <| txReadIndex := 0 |> <| txWriteIndex := 0 |> in
  let s := stopAckTimer s in
  s <| retransmitAttempts := 0 |> <| finPending := false |>.

(** ** Sending (session_tx.go) *)

(** sendACK sends an ACK or NACK packet (no payload).  The scratch array
    [packetBuf] is a local here: all six bytes that are sent are written first. *)
Definition sendACK (ack : bool) (s : Session) : Session :=
  let flags := if ack then DataFlagACK else 0 in
  let seqAck := Z.land (u16 (rxSeqExpected s - 1)) 0xFFF in
  let seqAck := if negb ack then rxSeqExpected s else seqAck in
  let pkt := replicate (headerSize + dataHeaderSize) (z2b 0) in
  let pkt := copy_at 0 (Header_Pack {| PacketType := PacketData; SeqNr := txSeqNr s |}) pkt in
  let pkt := copy_at headerSize
               (DataHeader_Pack {| SeqNrAck := seqAck; Flags := flags;
                                   HdrWordCount := 0; DataByteCount := 0 |}) pkt in
  let s := emit (WriteTo pkt) s in
  let s := s <| metrics ::= λ m, m <| packetsTx ::= inc64 |> |> in
  if negb ack then s <| metrics ::= λ m, m <| nacks ::= inc64 |> |> else s.

(** [(n + 3) & ^3] *)
Definition pad4 (n : Z) : Z := Z.land (n + 3) (Z.lnot 3).

(** packDataPacket packs one DATA packet into the retransmit ring and advances
    send state.  The slice [data[:n]] of a slot panics when [n] exceeds the
    slot's capacity. *)
Definition packDataPacket (header data : list byte) (fin : bool) (s : Session)
    : outcome (list byte * Session) :=
  let hdrSize := zlen header in
  let dataSize := zlen data in
  let padded := pad4 dataSize in
  let flags := if fin then Z.lor DataFlagACK DataFlagFIN else DataFlagACK in
  slot ← index (txBuffer s) (txWriteIndex s);
  pkt ← slice (tx_array slot) 0
          (hdrSize + padded + Z.of_nat headerSize + Z.of_nat dataHeaderSize);
  let pkt := copy_at 0 (Header_Pack {| PacketType := PacketData; SeqNr := txSeqNr s |}) pkt in
  let pkt := copy_at headerSize
               (DataHeader_Pack {| SeqNrAck := Z.land (u16 (rxSeqExpected s - 1)) 0xFFF;
                                   Flags := flags;
                                   HdrWordCount := u8 (hdrSize / 4);
                                   DataByteCount := u16 padded |}) pkt in
  let off := (headerSize + dataHeaderSize)%nat in
  let pkt := copy_at off header pkt in
  let pkt := copy_at (off + length header) data pkt in
  let pkt := if negb (padded =? dataSize)
             then copy_at (off + length header + length data)
                    (replicate (Z.to_nat (padded - dataSize)) (z2b 0)) pkt
             else pkt in
  let slot' := {| tx_array := pkt ++ drop (length pkt) (tx_array slot);
                  tx_len := length pkt;
                  seq := txSeqNr s |} in
  let s := s <| txBuffer ::= λ b, <[Z.to_nat (txWriteIndex s) := slot']> b |> in
  let s := s <| txWriteIndex ::= λ i, (i + 1) mod txBufferLen |> in
  if txWriteIndex s =? txReadIndex s then Panic RingBufferFull
  else
    let s := s <| txSeqNr ::= λ n, Z.land (u16 (n + 1)) 0xFFF |> in
    let s := s <| metrics ::= λ m, m <| packetsTx ::= inc64 |> |> in
    let s := if fin then s <| finPending := true |> <| retransmitAttempts := 0 |> else s in
    Ok (pkt, s).

(** The loop of [handleTransfer]: [batch] is the batch built so far. *)
Fixpoint handleTransfer_loop (fuel : nat) (batch : list (list byte)) (s : Session)
    : outcome (list (list byte) * Session) :=
  match t_data (s_transfer s) with
  | None => Ok (batch, s)
  | Some data =>
      if negb (InFlight s <? SendWindow) then Ok (batch, s)
      else
        match fuel with
        | O => OutOfFuel
        | S fuel =>
            let header := t_header (s_transfer s) in
            let offset := t_offset (s_transfer s) in
            let maxChunk := t_maxChunk (s_transfer s) in
            if (offset =? 0) && (0 <? zlen header) then
              let firstDataMax :=
                if (zlen header <? MaxDataPayload) && (MaxDataPayload - zlen header <? maxChunk)
                then MaxDataPayload - zlen header else maxChunk in
              let chunkSize := if zlen data <? firstDataMax then zlen data else firstDataMax in
              let fin := zlen data <=? chunkSize in
              chunk ← slice data 0 chunkSize;
              '(pkt, s) ← packDataPacket header chunk fin s;
              let s := s <| s_transfer ::= λ t, t <| t_offset := chunkSize |> |> in
              let s := if fin then clearTransfer s else s in
              handleTransfer_loop fuel (batch ++ [pkt]) s
            else if zlen data <=? offset then Ok (batch, clearTransfer s)
            else
              let chunkSize :=
                if zlen data <? offset + maxChunk then zlen data - offset else maxChunk in
              let fin := zlen data <=? offset + chunkSize in
              chunk ← slice data offset (offset + chunkSize);
              let s := s <| s_transfer ::= λ t, t <| t_offset ::= λ o, o + chunkSize |> |> in
              let s := if fin then clearTransfer s else s in
              '(pkt, s) ← packDataPacket [] chunk fin s;
              handleTransfer_loop fuel (batch ++ [pkt]) s
        end
  end.

(** Every iteration but the first needs fewer than [SendWindow] packets in
    flight and adds one, so ten iterations are enough. *)
Definition transfer_fuel : nat := 10.

Definition handleTransfer (s : Session) : outcome Session :=
  '(batch, s) ← handleTransfer_loop transfer_fuel [] s;
  let s := match batch with [] => s | _ => emit (WriteBatch batch) s end in
  Ok (updateAckTimer s).

Definition SendData (payload : list byte) (s : Session) : outcome Session :=
  let s := resetSendState s in
  handleTransfer (s <| s_transfer := {| t_header := []; t_data := Some payload;
                                        t_offset := 0; t_maxChunk := zlen payload |} |>).

(** [int(math.Ceil(float64(totalBytes) / float64(chunk)))]; the division is exact
    here, as the rounded one is for every transfer the server makes. *)
Definition packetsFor (totalBytes chunk : Z) : Z := (totalBytes + chunk - 1) / chunk.

Definition optimalChunkSize (totalBytes : Z) : Z :=
  fst (foldl (λ '(bestChunk, bestPackets) maxChunk,
                let packets := packetsFor totalBytes maxChunk in
                if packets <? bestPackets then (maxChunk, packets) else (bestChunk, bestPackets))
             (1408, packetsFor totalBytes 1408) [1024; 1280; 1408]).

Definition SendRawDataWithHeader (header data : list byte) (s : Session) : outcome Session :=
  let s := resetSendState s in
  handleTransfer (s <| s_transfer := {| t_header := header; t_data := Some data;
                                        t_offset := 0;
                                        t_maxChunk := optimalChunkSize (zlen data) |} |>).

Definition SendACK (ack : bool) (s : Session) : Session :=
  if ack then sendACK true s else sendACK false s.

(** The loop of [pruneAcked]. *)
Fixpoint pruneAcked_loop (fuel : nat) (seqNrAck : Z) (s : Session) : outcome Session :=
  if txReadIndex s =? txWriteIndex s then Ok s
  else
    match fuel with
    | O => OutOfFuel
    | S fuel =>
        p ← index (txBuffer s) (txReadIndex s);
        if Z.land (u16 (seq p - seqNrAck - 1)) 0xFFF <? 2048 then Ok s
        else pruneAcked_loop fuel seqNrAck
               (s <| txReadIndex ::= λ i, (i + 1) mod txBufferLen |>)
    end.

Definition pruneAcked (seqNrAck : Z) (s : Session) : outcome Session :=
  pruneAcked_loop (Z.to_nat txBufferLen) seqNrAck s.

(** The loop of [retransmitFrom] from index [i]. *)
Fixpoint retransmitFrom_loop (fuel : nat) (i fromSeq : Z) (batch : list (list byte)) (s : Session)
    : outcome (list (list byte) * Session) :=
  if i =? txWriteIndex s then Ok (batch, s)
  else
    match fuel with
    | O => OutOfFuel
    | S fuel =>
        p ← index (txBuffer s) i;
        let diff := Z.land (u16 (seq p - fromSeq)) 0xFFF in
        if 2048 <=? diff then Ok (batch, s)
        else
          let next := (i + 1) mod txBufferLen in
          if negb (seq p =? Z.land (u16 (fromSeq - 1)) 0xFFF) then
            let s := s <| metrics ::= λ m, m <| packetsTx ::= inc64 |> <| retransmits ::= inc64 |> |> in
            retransmitFrom_loop fuel next fromSeq (batch ++ [tx_data p]) s
          else retransmitFrom_loop fuel next fromSeq batch s
    end.

Definition retransmitFrom (fromSeq : Z) (s : Session) : outcome (Z * Session) :=
  '(batch, s) ← retransmitFrom_loop (Z.to_nat txBufferLen) (txReadIndex s) fromSeq [] s;
  let s := match batch with [] => s | _ => emit (WriteBatch batch) s end in
  Ok (zlen batch, s).

(** handleAckTimeout processes FIN or window ACK timeouts. *)
Definition handleAckTimeout (s : Session) : outcome Session :=
  let waitingFin := finPending s in
  let waitingWindow := negb (finPending s) && transferPending s && (SendWindow <=? InFlight s) in
  if negb waitingFin && negb waitingWindow then Ok (stopAckTimer s)
  else
    let s := s <| retransmitAttempts ::= λ n, n + 1 |> in
    let from := Z.land (u16 (txSeqNrAcked s + 1)) 0xFFF in
    '(_, s) ← retransmitFrom from s;
    if retransmitAttempts s <? MaxRetransmits then Ok (armAckTimer s)
    else
      let s := if waitingFin then s <| finPending := false |> else clearTransfer s in
      Ok ((stopAckTimer s) <| retransmitAttempts := 0 |>).

(** The timer's callback (ack_timer.go). *)
Definition ackTimerFunc (s : Session) : outcome Session :=
  if closed s || bool_decide (ackWait s = ackWaitNone)
     || negb (ackTimerExpectSeq s =? ackTimerSeq s)
  then Ok s
  else handleAckTimeout (s <| ackWait := ackWaitNone |>).

(** ** Acknowledgements (acks.go) *)

Definition onAck (seqNrAck : Z) (s : Session) : outcome Session :=
  if txReadIndex s =? txWriteIndex s then Ok s
  else
    let lastSent := Z.land (u16 (txSeqNr s - 1)) 0xFFF in
    if negb (seqBetween (txSeqNrAcked s) seqNrAck lastSent) then Ok s
    else
      let s := s <| txSeqNrAcked := seqNrAck |> in
      s ← pruneAcked seqNrAck s;
      let s := s <| retransmitAttempts := 0 |> in
      if seqNrAck =? lastSent then Ok ((stopAckTimer s) <| finPending := false |>)
      else Ok (updateAckTimer s).

Definition onPeerAck (seq : Z) (s : Session) : outcome Session :=
  s ← onAck seq s;
  if transferPending s then handleTransfer s else Ok s.

Definition onPeerNack (seq : Z) (s : Session) : outcome Session :=
  let s := s <| retransmitAttempts := 0 |> in
  '(_, s) ← retransmitFrom seq s;
  Ok (updateAckTimer s).

(** ** Receiving (session_rx.go)

    [Val None] is the source's [nil, nil]: the packet is consumed by the session. *)
Definition ProcessDataPacket (data : list byte) (s : Session)
    : outcome (result rdma_error (option (list byte)) * Session) :=
  match UnpackHeader data with
  | Err e => Ok (Err (InvalidHeader (Some e)), s)
  | Val hdr =>
      if negb (PacketType hdr =? PacketData) then Ok (Err (InvalidHeader None), s)
      else
        dh ← slice data 2 6;
        match UnpackDataHeader dh with
        | Err e => Ok (Err (InvalidDataHeader e), s)
        | Val header =>
            let s := s <| metrics ::= λ m, m <| packetsRx ::= inc64 |> |> in
            payload ← slice data 6 (zlen data);
            let hdrSize := HdrWordCount header * 4 in
            let payloadSize := hdrSize + DataByteCount header in
            let payloadSize := if zlen payload <? payloadSize then zlen payload else payloadSize in
            let isAck := negb (Z.land (Flags header) DataFlagACK =? 0) in
            let peerAck (s : Session) : outcome Session :=
              if isAck then onPeerAck (SeqNrAck header) s else Ok s in
            if payloadSize =? 0 then
              if isAck then
                s ← onPeerAck (SeqNrAck header) s;
                Ok (Val None, s)
              else
                let s := s <| metrics ::= λ m, m <| peerNACKs ::= inc64 |> |> in
                s ← onPeerNack (SeqNrAck header) s;
                Ok (Val None, s)
            else
              let accept (s : Session) :=
                let s := s <| rxSeqExpected := Z.land (u16 (SeqNr hdr + 1)) 0xFFF |> in
                let s := sendACK true s in
                s ← peerAck s;
                p ← slice payload 0 payloadSize;
                Ok (Val (Some p), s) in
              if negb (SeqNr hdr =? rxSeqExpected s) then
                let prevSeq := Z.land (u16 (rxSeqExpected s - 1)) 0xFFF in
                if SeqNr hdr =? prevSeq then
                  let s := s <| metrics ::= λ m, m <| unexpectedSeqNrs ::= inc64 |> |> in
                  let retransmit := transferPending s in
                  let retransmitFromSeq := Z.land (u16 (txSeqNrAcked s + 1)) 0xFFF in
                  let s := sendACK true s in
                  s ← peerAck s;
                  s ← (if retransmit then onPeerNack retransmitFromSeq s else Ok s);
                  Ok (Val None, s)
                else if SeqNr hdr =? 0 then accept (ResetSession s)
                else
                  let s := s <| metrics ::= λ m, m <| unexpectedSeqNrs ::= inc64 |> |> in
                  let s := sendACK false s in
                  s ← peerAck s;
                  Ok (Val None, s)
              else accept s
        end
  end.

(** ** Session statistics (metrics.go) *)

Record SessionStats := mkSessionStats {
  TotalPacketsTx : Z;
  TotalPacketsRx : Z;
  Retransmits : Z;
  NACKCount : Z;
  UnexpectedSeqNrCount : Z;
  PeerNACKCount : Z;
  PeerResetCount : Z
}.

Definition GetMetrics (s : Session) : SessionStats :=
  {| TotalPacketsTx := packetsTx (metrics s);
     TotalPacketsRx := packetsRx (metrics s);
     Retransmits := retransmits (metrics s);
     NACKCount := nacks (metrics s);
     UnexpectedSeqNrCount := unexpectedSeqNrs (metrics s);
     PeerNACKCount := peerNACKs (metrics s);
     PeerResetCount := peerResets (metrics s) |}.

(** ** The session as a transition system

    One step is one exported operation, or the timer's callback.  [StepTimer]
    runs the callback of an expired timer; [StepStale] runs a callback that
    was already under way when the timer was stopped or re-armed, which can
    happen at any time. *)
Inductive session_op :=
| OpSendData (payload : list byte)
| OpSendRaw (header data : list byte)
| OpSendACK (ack : bool)
| OpPacket (data : list byte)
| OpTimer
| OpStale
| OpSetResetCallback
| OpClose.

Definition step (o : session_op) (s : Session) : outcome Session :=
  match o with
  | OpSendData p => SendData p s
  | OpSendRaw h d => SendRawDataWithHeader h d s
  | OpSendACK a => Ok (SendACK a s)
  | OpPacket d => '(_, s) ← ProcessDataPacket d s; Ok s
  | OpTimer =>
      match ackTimer s with
      | Some _ => ackTimerFunc (s <| ackTimer := None |>)
      | None => Ok s
      end
  | OpStale => ackTimerFunc s
  | OpSetResetCallback => Ok (SetResetCallback s)
  | OpClose => Ok (Close s)
  end.

Fixpoint run (ops : list session_op) (s : Session) : outcome Session :=
  match ops with
  | [] => Ok s
  | o :: ops => s ← step o s; run ops s
  end.
