(* ===== verification/RdmaRing.v ===== *)
(** * The transmit ring as a queue

    The session keeps its unacknowledged packets in an array of [txBufferLen]
    slots between [txReadIndex] and [txWriteIndex].  This file gives the queue
    that the array stands for and the effect of the ring operations on it. *)
From S2P Require Import Prelude RdmaProtocol RdmaSession.

(** [n] slots from index [i] on, wrapping around. *)
Fixpoint slots_from (b : list txPacket) (i : Z) (n : nat) : list txPacket :=
  match n with
  | O => []
  | S n =>
      match b !! Z.to_nat i with
      | Some p => p :: slots_from b ((i + 1) mod txBufferLen) n
      | None => []
      end
  end.

Definition ring_count (w r : Z) : Z := (w - r) mod txBufferLen.

(** The queue: the buffered packets, oldest first. *)
Definition ring_of (b : list txPacket) (w r : Z) : list txPacket :=
  slots_from b r (Z.to_nat (ring_count w r)).

Definition ring (s : Session) : list txPacket := ring_of (txBuffer s) (txWriteIndex s) (txReadIndex s).

(** The array is sound: 2048 slots of 1500 bytes, and both indices in range. *)
Definition slot_ok (p : txPacket) : Prop :=
  length (tx_array p) = txPacketCap ∧ (tx_len p ≤ txPacketCap)%nat.

Lemma zlen_tx_data p : slot_ok p → zlen (tx_data p) <= Z.of_nat txPacketCap.
Proof. intros [_ Hl]. unfold tx_data, zlen. rewrite length_take. lia. Qed.

Record ring_ok (b : list txPacket) (w r : Z) : Prop := {
  ring_ok_len : length b = Z.to_nat txBufferLen;
  ring_ok_slots : Forall slot_ok b;
  ring_ok_w : 0 <= w < txBufferLen;
  ring_ok_r : 0 <= r < txBufferLen
}.

Ltac ring_unfold := unfold ring_count, txBufferLen in *.

(** Facts about the array alone. *)
Section SlotLemmas.
Context (b : list txPacket) (Hlen : length b = Z.to_nat txBufferLen).

Lemma slots_lookup i : 0 <= i < txBufferLen → is_Some (b !! Z.to_nat i).
Proof.
  intros Hi. apply lookup_lt_is_Some_2. rewrite Hlen. ring_unfold. lia.
Qed.

Lemma length_slots_from i n : 0 <= i < txBufferLen → length (slots_from b i n) = n.
Proof.
  revert i; induction n as [|n IH]; intros i Hi; simpl; [done|].
  destruct (slots_lookup i Hi) as [p ->]. simpl. rewrite IH; [done|].
  ring_unfold. zlia.
Qed.

Lemma slots_from_snoc i n p :
  0 <= i < txBufferLen →
  b !! Z.to_nat ((i + Z.of_nat n) mod txBufferLen) = Some p →
  slots_from b i (S n) = slots_from b i n ++ [p].
Proof.
  revert i; induction n as [|n IH]; intros i Hi Hp.
  - simpl. replace ((i + Z.of_nat 0) mod txBufferLen) with i in Hp; [by rewrite Hp|].
    ring_unfold. zlia.
  - change (slots_from b i (S (S n))) with
      (match b !! Z.to_nat i with
       | Some p => p :: slots_from b ((i + 1) mod txBufferLen) (S n) | None => [] end).
    destruct (slots_lookup i Hi) as [q Hq]. simpl slots_from at 2. rewrite Hq.
    rewrite IH; [done| |].
    + ring_unfold. zlia.
    + rewrite <-Hp. do 2 f_equal. ring_unfold. zlia.
Qed.

Lemma slots_from_insert i n j p :
  0 <= i < txBufferLen → 0 <= j < txBufferLen → Z.of_nat n <= (j - i) mod txBufferLen →
  slots_from (<[Z.to_nat j := p]> b) i n = slots_from b i n.
Proof.
  revert i; induction n as [|n IH]; intros i Hi Hj Hn; simpl; [done|].
  rewrite list_lookup_insert_ne; [|ring_unfold; zlia].
  destruct (b !! Z.to_nat i); [|done]. f_equal. apply IH; ring_unfold; zlia.
Qed.
End SlotLemmas.

Lemma ring_of_nil b w r : r = w → ring_of b w r = [].
Proof. intros ->. unfold ring_of, ring_count. by rewrite Z.sub_diag. Qed.

Section RingLemmas.
Context (b : list txPacket) (w r : Z) (Hok : ring_ok b w r).

Lemma ring_index i :
  0 <= i < txBufferLen → ∃ p, b !! Z.to_nat i = Some p ∧ index b i = Ok p ∧ slot_ok p.
Proof.
  intros Hi. destruct (slots_lookup b (ring_ok_len _ _ _ Hok) i Hi) as [p Hp].
  exists p. split_and!; [done| |].
  - unfold index. rewrite (proj2 (Z.ltb_ge i 0)) by lia. by rewrite Hp.
  - eapply Forall_lookup_1; [apply (ring_ok_slots _ _ _ Hok)|done].
Qed.

Lemma zlen_ring_of : zlen (ring_of b w r) = ring_count w r.
Proof.
  unfold zlen, ring_of.
  rewrite length_slots_from; [|apply (ring_ok_len _ _ _ Hok)|apply (ring_ok_r _ _ _ Hok)].
  ring_unfold. zlia.
Qed.

Lemma ring_of_nil_iff : ring_of b w r = [] ↔ r = w.
Proof.
  split; [|apply ring_of_nil]. intros H. pose proof zlen_ring_of as Hl. rewrite H in Hl.
  destruct Hok. unfold zlen in Hl. simpl in Hl. ring_unfold. zlia.
Qed.

(** Reading the oldest packet and moving the read index pops the queue. *)
Lemma ring_of_pop :
  r ≠ w →
  ∃ p, index b r = Ok p ∧ slot_ok p ∧
       ring_of b w r = p :: ring_of b w ((r + 1) mod txBufferLen) ∧
       ring_ok b w ((r + 1) mod txBufferLen).
Proof.
  intros Hne. destruct (ring_index r) as (p & Hp & Hi & Hs); [apply Hok|].
  destruct Hok as [Hlen Hall Hw Hr].
  exists p. split_and!; [done|done| |].
  - unfold ring_of.
    replace (Z.to_nat (ring_count w r)) with
      (S (Z.to_nat (ring_count w ((r + 1) mod txBufferLen)))) by (ring_unfold; zlia).
    simpl. by rewrite Hp.
  - split; [done|done|done|]. ring_unfold. zlia.
Qed.

(** Writing a slot at the write index and moving it pushes on the queue, as long
    as the ring does not become full. *)
Lemma ring_of_push p :
  ring_count w r < txBufferLen - 1 → slot_ok p →
  ring_of (<[Z.to_nat w := p]> b) ((w + 1) mod txBufferLen) r = ring_of b w r ++ [p] ∧
  ring_ok (<[Z.to_nat w := p]> b) ((w + 1) mod txBufferLen) r ∧
  (w + 1) mod txBufferLen ≠ r.
Proof.
  intros Hfull Hp. destruct Hok as [Hlen Hall Hw Hr].
  assert (length (<[Z.to_nat w := p]> b) = Z.to_nat txBufferLen) as Hlen' by by rewrite length_insert.
  split_and!.
  - unfold ring_of.
    replace (Z.to_nat (ring_count ((w + 1) mod txBufferLen) r)) with
      (S (Z.to_nat (ring_count w r))) by (ring_unfold; zlia).
    rewrite slots_from_snoc with (p := p); [|done|done|].
    + f_equal. apply slots_from_insert; [done|ring_unfold; zlia..].
    + replace ((r + Z.of_nat (Z.to_nat (ring_count w r))) mod txBufferLen) with w
        by (ring_unfold; zlia).
      apply list_lookup_insert_eq. rewrite Hlen. ring_unfold. lia.
  - split; [done|by apply Forall_insert|ring_unfold; zlia|done].
  - ring_unfold. zlia.
Qed.
End RingLemmas.
