(* ===== verification/RdmaPack.v ===== *)
(** * What [packDataPacket] puts on the wire and in the ring

    [encode] is the packet format as one expression, with no buffer: the two
    headers, the application header, the data and its padding. *)
From S2P Require Import Prelude RdmaProtocol RdmaSession RdmaRing.

(** One packet to send: the arguments of [packDataPacket]. *)
Record pkt_desc := mkDesc { d_header : list byte; d_chunk : list byte; d_fin : bool }.

Definition data_flags (fin : bool) : Z :=
  if fin then Z.lor DataFlagACK DataFlagFIN else DataFlagACK.

Definition padding (chunk : list byte) : list byte :=
  replicate (Z.to_nat (pad4 (zlen chunk) - zlen chunk)) (z2b 0).

Definition encode_header (sq : Z) : list byte :=
  Header_Pack {| PacketType := PacketData; SeqNr := sq |}.

Definition encode_data_header (rx : Z) (d : pkt_desc) : list byte :=
  DataHeader_Pack {| SeqNrAck := Z.land (u16 (rx - 1)) 0xFFF;
                     Flags := data_flags (d_fin d);
                     HdrWordCount := u8 (zlen (d_header d) / 4);
                     DataByteCount := u16 (pad4 (zlen (d_chunk d))) |}.

Definition encode (rx sq : Z) (d : pkt_desc) : list byte :=
  encode_header sq ++ encode_data_header rx d ++ d_header d ++ d_chunk d ++ padding (d_chunk d).

Definition packet_size (d : pkt_desc) : Z := zlen (d_header d) + pad4 (zlen (d_chunk d)) + 6.

(** The state after a slot has been pushed. *)
Definition push_slot (slot : txPacket) (fin : bool) (s : Session) : Session :=
  let s := s <| txBuffer ::= λ b, <[Z.to_nat (txWriteIndex s) := slot]> b |> in
  let s := s <| txWriteIndex ::= λ i, (i + 1) mod txBufferLen |> in
  let s := s <| txSeqNr ::= λ n, Z.land (u16 (n + 1)) 0xFFF |> in
  let s := s <| metrics ::= λ m, m <| packetsTx ::= inc64 |> |> in
  if fin then s <| finPending := true |> <| retransmitAttempts := 0 |> else s.

Lemma pad4_spec n : pad4 n = 4 * ((n + 3) / 4).
Proof.
  unfold pad4. transitivity (Z.ldiff (n + 3) (Z.ones 2)); [by rewrite Z.ldiff_land|].
  rewrite Z.ldiff_ones_r, Z.shiftl_mul_pow2, Z.shiftr_div_pow2 by lia.
  change (2 ^ 2) with 4. lia.
Qed.

Lemma pad4_bounds n : n <= pad4 n < n + 4.
Proof. rewrite pad4_spec. zlia. Qed.

Lemma zlen_padding c : zlen (padding c) = pad4 (zlen c) - zlen c.
Proof.
  unfold padding. unfold zlen at 1. rewrite length_replicate.
  pose proof (pad4_bounds (zlen c)). lia.
Qed.

Lemma zlen_encode rx sq d : zlen (encode rx sq d) = packet_size d.
Proof.
  unfold encode, packet_size. rewrite !zlen_app, zlen_padding.
  unfold encode_header, encode_data_header, zlen.
  rewrite length_Header_Pack, length_DataHeader_Pack. lia.
Qed.

(** The copies of [packDataPacket] into a buffer of the packet's size produce
    [encode], whatever the buffer held. *)
Lemma pack_copies rx sq d (buf : list byte) :
  zlen buf = packet_size d →
  let pkt := copy_at 0 (encode_header sq) buf in
  let pkt := copy_at headerSize (encode_data_header rx d) pkt in
  let pkt := copy_at (headerSize + dataHeaderSize) (d_header d) pkt in
  let pkt := copy_at (headerSize + dataHeaderSize + length (d_header d)) (d_chunk d) pkt in
  (if negb (pad4 (zlen (d_chunk d)) =? zlen (d_chunk d))
   then copy_at (headerSize + dataHeaderSize + length (d_header d) + length (d_chunk d))
          (padding (d_chunk d)) pkt
   else pkt) = encode rx sq d.
Proof.
  intros Hlen. cbv zeta.
  pose proof (pad4_bounds (zlen (d_chunk d))) as Hp. unfold packet_size in Hlen.
  pose proof (zlen_padding (d_chunk d)) as Hpad.
  destruct d as [h c fin]. simpl d_header in *; simpl d_chunk in *. unfold zlen in *.
  assert (∃ b1 b2 b3 b4 b5, buf = b1 ++ b2 ++ b3 ++ b4 ++ b5 ∧ length b1 = 2%nat ∧
     length b2 = 4%nat ∧ length b3 = length h ∧ length b4 = length c ∧
     length b5 = length (padding c)) as (b1 & b2 & b3 & b4 & b5 & -> & H1 & H2 & H3 & H4 & H5).
  { exists (take 2 buf), (take 4 (drop 2 buf)), (take (length h) (drop 6 buf)),
      (take (length c) (drop (6 + length h) buf)), (drop (6 + length h + length c) buf).
    rewrite !length_take, !length_drop. split_and!; try lia.
    rewrite <-(take_drop 2 buf) at 1. f_equal.
    rewrite <-(take_drop 4 (drop 2 buf)) at 1. f_equal. rewrite drop_drop.
    rewrite <-(take_drop (length h) (drop _ buf)) at 1. f_equal. rewrite drop_drop.
    rewrite <-(take_drop (length c) (drop _ buf)) at 1. f_equal; rewrite ?drop_drop; do 2 f_equal; lia. }
  assert (length (encode_header sq) = 2%nat) as He by apply length_Header_Pack.
  assert (length (encode_data_header rx (mkDesc h c fin)) = 4%nat) as Hd by apply length_DataHeader_Pack.
  rewrite copy_at_front by lia.
  rewrite copy_at_mid by (unfold headerSize; lia).
  rewrite (app_assoc (encode_header sq)).
  rewrite copy_at_mid by (rewrite ?length_app; unfold headerSize, dataHeaderSize; lia).
  rewrite (app_assoc (encode_header sq ++ _)).
  rewrite copy_at_mid by (rewrite ?length_app; unfold headerSize, dataHeaderSize; lia).
  unfold encode; simpl d_header; simpl d_chunk. case_bool.
  - rewrite (app_assoc (_ ++ h)). rewrite <-(app_nil_r b5).
    rewrite copy_at_mid by (rewrite ?length_app; unfold headerSize, dataHeaderSize; lia).
    by rewrite app_nil_r, <-!app_assoc.
  - destruct b5; [|simpl in H5; lia]. destruct (padding c); [|simpl in *; lia].
    by rewrite <-!app_assoc.
Qed.

Lemma packDataPacket_spec s h c fin :
  ring_ok (txBuffer s) (txWriteIndex s) (txReadIndex s) →
  ring_count (txWriteIndex s) (txReadIndex s) < txBufferLen - 1 →
  packet_size (mkDesc h c fin) <= Z.of_nat txPacketCap →
  let pkt := encode (rxSeqExpected s) (txSeqNr s) (mkDesc h c fin) in
  ∃ slot, tx_data slot = pkt ∧ seq slot = txSeqNr s ∧ slot_ok slot ∧
    packDataPacket h c fin s = Ok (pkt, push_slot slot fin s).
Proof.
  intros Hok Hcount Hsize pkt.
  destruct (ring_index _ _ _ Hok (txWriteIndex s)) as (old & Hold & Hidx & Hslot);
    [apply Hok|].
  pose proof (zlen_encode (rxSeqExpected s) (txSeqNr s) (mkDesc h c fin)) as Hpkt.
  fold pkt in Hpkt. destruct Hslot as [Harr Hl].
  pose proof (pad4_bounds (zlen c)). pose proof (zlen_nonneg h). pose proof (zlen_nonneg c).
  set (slot := {| tx_array := pkt ++ drop (length pkt) (tx_array old);
                  tx_len := length pkt; seq := txSeqNr s |}).
  assert ((length pkt ≤ txPacketCap)%nat) by (unfold zlen in Hpkt; lia).
  assert (slot_ok slot) as Hs.
  { split; cbn [slot tx_array tx_len]; [|done]. rewrite length_app, length_drop. lia. }
  exists slot. split_and!; [|done|done|].
  { unfold tx_data; cbn [slot tx_array tx_len]. apply take_app_length. }
  destruct (ring_of_push _ _ _ Hok slot Hcount Hs) as (_ & _ & Hne).
  unfold packDataPacket. rewrite Hidx, bind_Ok.
  change (Z.of_nat headerSize) with 2. change (Z.of_nat dataHeaderSize) with 4.
  unfold packet_size in Hsize, Hpkt; simpl d_header in Hsize, Hpkt; simpl d_chunk in Hsize, Hpkt.
  rewrite slice_ok, bind_Ok by (unfold zlen in *; lia).
  set (buf := take _ _).
  assert (zlen buf = packet_size (mkDesc h c fin)) as Hbuf.
  { unfold buf, zlen. rewrite drop_0, length_take, Harr.
    unfold packet_size; simpl d_header; simpl d_chunk. unfold zlen in *. lia. }
  pose proof (pack_copies (rxSeqExpected s) (txSeqNr s) (mkDesc h c fin) buf Hbuf) as Hcp.
  fold pkt in Hcp. cbv zeta in Hcp |- *.
  unfold encode_header, encode_data_header, data_flags, padding in Hcp.
  simpl d_header in Hcp; simpl d_chunk in Hcp; simpl d_fin in Hcp. rewrite Hcp. clear Hcp.
  fold slot. simpl. rewrite (proj2 (Z.eqb_neq _ _)) by done. by destruct fin.
Qed.
