(* ===== verification/RdmaInvariant.v ===== *)
(** * The session invariant

    [core_inv] relates the ring, the sequence numbers and the pending transfer;
    it does not mention the timer, the counters or the log, so updates of those
    preserve it by conversion.  [timer_inv] is about the ACK timer. *)
From S2P Require Import Prelude RdmaProtocol RdmaSession RdmaRing RdmaPack.

(** Packets sent since the last acknowledged one, on the 12-bit ring. *)
Definition debt_of (tx ack : Z) : Z := (tx - ack - 1) mod 4096.
Definition debt (s : Session) : Z := debt_of (txSeqNr s) (txSeqNrAcked s).

(** The largest payload [SendData] can put in one slot. *)
Definition MaxSingle : Z := 1492.

Definition transfer_ok (t : transfer) : Prop :=
  ∀ d, t_data t = Some d →
    zlen (t_header t) < MaxDataPayload ∧ 0 <= t_maxChunk t <= MaxSingle ∧
    (d ≠ [] → 0 < t_maxChunk t) ∧ 0 <= t_offset t <= zlen d.

(** A DATA packet with the sequence number [sq], of a size that a slot can hold. *)
Definition data_packet_at (sq : Z) (p : list byte) : Prop :=
  0 <= sq < 4096 ∧ zlen p <= Z.of_nat txPacketCap ∧ ∃ rx d, 0 <= rx < 4096 ∧ p = encode rx sq d.

(** Each buffered packet is a DATA packet that carries its own sequence number. *)
Definition slot_wf (p : txPacket) : Prop := data_packet_at (seq p) (tx_data p).

(** A batch of DATA packets. *)
Definition batch_ok (e : wire_event) : Prop :=
  ∃ l, e = WriteBatch l ∧ l ≠ [] ∧ Forall (λ p, ∃ sq, data_packet_at sq p) l.

Record core_inv (b : list txPacket) (w r tx ack rx : Z) (t : transfer) (fin : bool) : Prop := {
  ci_ring : ring_ok b w r;
  ci_tx : 0 <= tx < 4096;
  ci_ack : 0 <= ack < 4096;
  ci_rx : 0 <= rx < 4096;
  ci_seqs : ∀ i p, ring_of b w r !! i = Some p →
              seq p = (tx - ring_count w r + Z.of_nat i) mod 4096;
  ci_wf : Forall slot_wf (ring_of b w r);
  ci_count : ring_count w r <= SendWindow + 1;
  ci_debt : ring_count w r <= debt_of tx ack + 1;
  ci_transfer : transfer_ok t;
  ci_fin : fin = true → t_data t = None
}.

Definition core_ok (s : Session) : Prop :=
  core_inv (txBuffer s) (txWriteIndex s) (txReadIndex s) (txSeqNr s) (txSeqNrAcked s)
    (rxSeqExpected s) (s_transfer s) (finPending s).

Lemma ring_count_bound w r : 0 <= ring_count w r < txBufferLen.
Proof. ring_unfold. zlia. Qed.

Lemma debt_bound tx ack : 0 <= debt_of tx ack < 4096.
Proof. unfold debt_of. zlia. Qed.

Lemma InFlight_spec s :
  InFlight s = if txReadIndex s =? txWriteIndex s then 0 else debt s.
Proof. unfold InFlight. case_bool; [done|]. by rewrite land_FFF, mod_u16_4096. Qed.

Lemma next_seq n : Z.land (u16 (n + 1)) 0xFFF = (n + 1) mod 4096.
Proof. by rewrite land_FFF, mod_u16_4096. Qed.
Lemma prev_seq n : Z.land (u16 (n - 1)) 0xFFF = (n - 1) mod 4096.
Proof. by rewrite land_FFF, mod_u16_4096. Qed.
#[export] Hint Rewrite next_seq prev_seq : gobits.

(** A packet encoded with sequence number [sq] unpacks to it. *)
Lemma encode_unpack rx sq d :
  0 <= sq < 4096 →
  UnpackHeader (encode rx sq d) = Val {| PacketType := PacketData; SeqNr := sq |}.
Proof.
  intros. unfold encode, encode_header. apply UnpackHeader_Pack.
  split; simpl; [unfold PacketData|]; lia.
Qed.

Lemma slot_wf_unpack p :
  slot_wf p → UnpackHeader (tx_data p) = Val {| PacketType := PacketData; SeqNr := seq p |}.
Proof. intros (Hsq & _ & rx & d & _ & ->). by apply encode_unpack. Qed.

(** Pushing the next packet keeps the invariant when the ring is empty or the
    window is open. *)
Lemma core_push b w r tx ack rx t fin slot t' fin' :
  core_inv b w r tx ack rx t fin →
  (r = w ∨ debt_of tx ack < SendWindow) →
  slot_ok slot → seq slot = tx → slot_wf slot → transfer_ok t' →
  (fin' = true → t_data t' = None) →
  core_inv (<[Z.to_nat w := slot]> b) ((w + 1) mod txBufferLen) r
    ((tx + 1) mod 4096) ack rx t' fin'.
Proof.
  intros [Hring Htx Hack Hrx Hseqs Hwf Hcount Hdebt _ _] Hopen Hslot Hsq Hwf' Ht' Hfin'.
  unfold SendWindow in *.
  pose proof (ring_count_bound w r).
  destruct (ring_of_push _ _ _ Hring slot) as (Hpush & Hok & Hne); [ring_unfold; lia|done|].
  assert (ring_count ((w + 1) mod txBufferLen) r = ring_count w r + 1) as Hc.
  { destruct Hring as [_ _ ??]. ring_unfold. zlia. }
  assert (r = w → ring_count w r = 0) by (intros ->; ring_unfold; zlia).
  assert (debt_of ((tx + 1) mod 4096) ack = (debt_of tx ack + 1) mod 4096) as Hd.
  { unfold debt_of. zlia. }
  split; [done|zlia|done|done| | | | |done|done].
  - intros i p. rewrite Hpush, Hc.
    pose proof (zlen_ring_of _ _ _ Hring) as Hl. unfold zlen in Hl.
    intros [Hi|[Hi [Hz <-]%list_lookup_singleton_Some]]%lookup_app_Some.
    + rewrite (Hseqs _ _ Hi). zlia.
    + rewrite Hsq. replace (Z.of_nat i) with (ring_count w r) by lia. zlia.
  - rewrite Hpush. apply Forall_app; split; [done|by constructor].
  - rewrite Hc. unfold SendWindow. lia.
  - rewrite Hc, Hd. pose proof (debt_bound tx ack). zlia.
Qed.
