(* ===== verification/RdmaTransfer.v ===== *)
(** * Transfers: [handleTransfer] against a packet plan

    The specification of a transfer is the list of packets it consists of
    ([plan]), computed from the data alone.  [handleTransfer] is shown to emit
    the next packets of the plan, as many as the window allows, and to keep
    the rest as the plan of the new state. *)
From Equations Require Import Equations.
From S2P Require Import Prelude RdmaProtocol RdmaSession RdmaRing RdmaPack RdmaInvariant.

(** Data cut into chunks of [m + 1] bytes, the last one flagged. *)
Equations chunk_plan (m : nat) (l : list byte) : list pkt_desc by wf (length l) lt :=
  chunk_plan m [] := [];
  chunk_plan m (b :: l) :=
    mkDesc [] (b :: take m l) (bool_decide (drop m l = [])) :: chunk_plan m (drop m l).
Next Obligation. intros. simpl. rewrite length_drop. lia. Qed.

(** The chunk size of the first packet, which also carries the header. *)
Definition first_chunk (t : transfer) : nat :=
  Z.to_nat (Z.min (t_maxChunk t) (MaxDataPayload - zlen (t_header t))).

Definition plan (t : transfer) : list pkt_desc :=
  match t_data t with
  | None => []
  | Some d =>
      let m := Z.to_nat (t_maxChunk t - 1) in
      if (t_offset t =? 0) && (0 <? zlen (t_header t)) then
        mkDesc (t_header t) (take (first_chunk t) d) (bool_decide (drop (first_chunk t) d = []))
          :: chunk_plan m (drop (first_chunk t) d)
      else chunk_plan m (drop (Z.to_nat (t_offset t)) d)
  end.

(** Consecutive sequence numbers for a list of packets. *)
Fixpoint encode_all (rx sq : Z) (ds : list pkt_desc) : list (list byte) :=
  match ds with
  | [] => []
  | d :: ds => encode rx sq d :: encode_all rx ((sq + 1) mod 4096) ds
  end.

(** What sending does not touch. *)
Definition frame (s : Session) :=
  (resetCallback s, txReadIndex s, txSeqNrAcked s, rxSeqExpected s, ackTimer s,
   ackTimerExpectSeq s, ackTimerSeq s, ackWait s, closed s, wire s).

Lemma chunk_plan_step m l :
  l ≠ [] →
  chunk_plan m l =
    mkDesc [] (take (S m) l) (bool_decide (drop (S m) l = [])) :: chunk_plan m (drop (S m) l).
Proof. destruct l as [|b l]; [done|]. intros _. by simp chunk_plan. Qed.

Lemma plan_cleared t : t_data t = None → plan t = [].
Proof. unfold plan. by intros ->. Qed.

(** The next packet of a pending transfer, and the transfer after it, in the
    words of the source. *)
Definition next_packet (t : transfer) (d : list byte) : pkt_desc * transfer :=
  let first := (t_offset t =? 0) && (0 <? zlen (t_header t)) in
  let size :=
    if first then
      let firstDataMax :=
        if (zlen (t_header t) <? MaxDataPayload)
           && (MaxDataPayload - zlen (t_header t) <? t_maxChunk t)
        then MaxDataPayload - zlen (t_header t) else t_maxChunk t in
      if zlen d <? firstDataMax then zlen d else firstDataMax
    else if zlen d <? t_offset t + t_maxChunk t then zlen d - t_offset t else t_maxChunk t in
  let o := if first then 0 else t_offset t in
  let fin := zlen d <=? o + size in
  let chunk := take (Z.to_nat size) (drop (Z.to_nat o) d) in
  let header := if first then t_header t else [] in
  let t' := if fin then mkTransfer [] None (-1) (t_maxChunk t)
            else mkTransfer (t_header t) (Some d) (o + size) (t_maxChunk t) in
  (mkDesc header chunk fin, t').

Lemma drop_nil_iff {A} n (l : list A) : drop n l = [] ↔ (length l ≤ n)%nat.
Proof.
  split; [|apply drop_ge]. intros H. pose proof (length_drop l n) as Hl. rewrite H in Hl.
  simpl in Hl. lia.
Qed.

Lemma nil_length_iff {A} (l : list A) : l = [] ↔ length l = 0%nat.
Proof. destruct l; split; done. Qed.

(** Whether the first packet, with the header, is still to be sent. *)
Definition first_due (t : transfer) : bool := (t_offset t =? 0) && (0 <? zlen (t_header t)).

Lemma first_max_min h mc :
  h < MaxDataPayload →
  (if (h <? MaxDataPayload) && (MaxDataPayload - h <? mc) then MaxDataPayload - h else mc) =
  Z.min mc (MaxDataPayload - h).
Proof.
  intros Hh. rewrite (proj2 (Z.ltb_lt _ _) Hh). simpl. case_bool; lia.
Qed.

Lemma plan_step_first t d :
  transfer_ok t → t_data t = Some d → first_due t = true →
  plan t = fst (next_packet t d) :: plan (snd (next_packet t d)).
Proof.
  intros Hok Hd Hf. destruct (Hok d Hd) as (Hh & Hmc & Hpos & Ho).
  unfold first_due in Hf. unfold plan at 1, next_packet. rewrite Hd, Hf. cbv zeta.
  rewrite first_max_min by done.
  replace (Z.min _ _) with (Z.of_nat (first_chunk t)) by (unfold first_chunk; lia).
  set (fc := first_chunk t). unfold zlen at 1. bool_to_prop.
  assert ((0 < fc)%nat ∨ d = []) as Hfc.
  { destruct d; [by right|left]. unfold fc, first_chunk. specialize (Hpos ltac:(done)). lia. }
  assert (bool_decide (drop fc d = []) = (zlen d <=? 0 + (if zlen d <? Z.of_nat fc then zlen d else Z.of_nat fc))) as Hfin.
  { destruct (bool_decide_reflect (drop fc d = [])) as [E|E];
      rewrite drop_nil_iff in E; symmetry; unfold zlen.
    - apply Z.leb_le. case_bool; lia.
    - apply Z.leb_gt. case_bool; lia. }
  rewrite <-Hfin. simpl fst; simpl snd. f_equal.
  - f_equal. case_bool; unfold zlen in *; rewrite drop_0, ?Nat2Z.id; [|done].
    by rewrite !take_ge by lia.
  - destruct (bool_decide_reflect (drop fc d = [])) as [E|E].
    + rewrite E. simp chunk_plan. by rewrite plan_cleared.
    + rewrite drop_nil_iff in E. unfold plan; simpl.
      rewrite (proj2 (Z.ltb_ge (zlen d) (Z.of_nat fc))) by (unfold zlen; lia).
      rewrite (proj2 (Z.eqb_neq _ 0)) by (destruct Hfc as [?| ->]; simpl in *; lia).
      simpl. do 2 f_equal. lia.
Qed.

Lemma plan_step_rest t d :
  transfer_ok t → t_data t = Some d → first_due t = false → t_offset t < zlen d →
  plan t = fst (next_packet t d) :: plan (snd (next_packet t d)).
Proof.
  intros Hok Hd Hf Hlt. destruct (Hok d Hd) as (Hh & Hmc & Hpos & Ho).
  unfold first_due in Hf. unfold plan at 1, next_packet. rewrite Hd, Hf. cbv zeta.
  assert (0 < t_maxChunk t) by (apply Hpos; intros ->; unfold zlen in Hlt; simpl in *; lia).
  set (o := t_offset t) in *. set (mc := t_maxChunk t) in *.
  set (l := drop (Z.to_nat o) d).
  assert (zlen l = zlen d - o) as Hl by (unfold l, zlen; rewrite length_drop; unfold zlen in *; lia).
  rewrite chunk_plan_step by (intros E; rewrite E in Hl; unfold zlen in *; simpl in *; lia).
  replace (S (Z.to_nat (mc - 1))) with (Z.to_nat mc) by lia.
  set (size := if zlen d <? o + mc then zlen d - o else mc).
  assert (bool_decide (drop (Z.to_nat mc) l = []) = (zlen d <=? o + size)) as Hfin.
  { destruct (bool_decide_reflect (drop (Z.to_nat mc) l = [])) as [E|E];
      rewrite drop_nil_iff in E; symmetry; unfold size, zlen in *.
    - apply Z.leb_le. case_bool; lia.
    - apply Z.leb_gt. case_bool; lia. }
  rewrite Hfin. simpl fst; simpl snd. f_equal.
  - f_equal. unfold size. case_bool; [|done]. unfold zlen in *. by rewrite !take_ge by lia.
  - case_bool.
    + rewrite plan_cleared by done.
      assert (drop (Z.to_nat mc) l = []) as ->; [|by simp chunk_plan].
      by apply bool_decide_eq_true in Hfin.
    + unfold plan; simpl. unfold size in *.
      destruct (zlen d <? o + mc) eqn:E1; bool_to_prop; [lia|].
      rewrite (proj2 (Z.eqb_neq _ 0)) by lia. simpl.
      unfold l. rewrite drop_drop. do 2 f_equal. lia.
Qed.

(** The next packet fits its slot, and what is left is a sound transfer. *)
Lemma next_packet_ok t d :
  transfer_ok t → t_data t = Some d →
  transfer_ok (snd (next_packet t d)) ∧
  packet_size (fst (next_packet t d)) <= Z.of_nat txPacketCap ∧
  (d_fin (fst (next_packet t d)) = true → t_data (snd (next_packet t d)) = None).
Proof.
  intros Hok Hd. destruct (Hok d Hd) as (Hh & Hmc & Hpos & Ho).
  unfold next_packet. cbv zeta. fold (first_due t). rewrite first_max_min by done.
  set (size := if first_due t then if zlen d <? _ then _ else _ else _).
  set (o := if first_due t then 0 else t_offset t).
  pose proof (zlen_nonneg (t_header t)). pose proof (zlen_nonneg d).
  assert (0 <= o) by (unfold o; case_bool; lia).
  assert (0 <= size <= zlen d - o ∧ size <= t_maxChunk t ∧
          (first_due t = true → zlen (t_header t) + size <= MaxDataPayload)) as (Hs1 & Hs2 & Hs3).
  { unfold size, o. destruct (first_due t); unfold MaxDataPayload in *; case_bool; lia. }
  simpl fst; simpl snd. split_and!.
  - intros d' Hd'. case_bool; simpl in *; [done|]. simplify_eq.
    split_and!; [done|lia|lia|done|lia|lia].
  - unfold packet_size; cbn [d_header d_chunk].
    set (c := take _ _). assert (zlen c = size) as ->.
    { unfold c, zlen in *. rewrite length_take, length_drop. lia. }
    pose proof (pad4_bounds size) as Hp. change (Z.of_nat txPacketCap) with 1500.
    unfold MaxDataPayload, MaxSingle in *.
    destruct (first_due t); [lia|]. change (zlen (@nil byte)) with 0.
    assert (pad4 size <= 1492); [|lia]. rewrite pad4_spec. zlia.
  - simpl. by intros ->.
Qed.

(** The state after one iteration of the loop has sent [d]. *)
Definition sent_state (slot : txPacket) (d : pkt_desc) (t : transfer) (s : Session) : Session :=
  (push_slot slot (d_fin d) s) <| s_transfer := t |>.

Lemma push_slot_transfer slot fin s t :
  push_slot slot fin (s <| s_transfer := t |>) = (push_slot slot fin s) <| s_transfer := t |>.
Proof. by destruct fin. Qed.

Lemma s_transfer_push slot fin s : s_transfer (push_slot slot fin s) = s_transfer s.
Proof. by destruct fin. Qed.

(** [packDataPacket] neither reads nor writes the transfer. *)
Lemma packDataPacket_transfer h c fin s t :
  packDataPacket h c fin (s <| s_transfer := t |>) =
  ('(pkt, s') ← packDataPacket h c fin s; Ok (pkt, s' <| s_transfer := t |>)).
Proof.
  unfold packDataPacket. simpl txBuffer. simpl txWriteIndex.
  destruct (index (txBuffer s) (txWriteIndex s)) as [slot| |]; [|done|done].
  rewrite !bind_Ok. destruct (slice _ _ _); [|done|done]. rewrite !bind_Ok. cbv zeta. simpl.
  case_bool; [done|]. by destruct fin.
Qed.

Lemma set_transfer_twice s t t' :
  (s <| s_transfer := t |>) <| s_transfer := t' |> = s <| s_transfer := t' |>.
Proof. done. Qed.

Lemma set_transfer_fun s f : s <| s_transfer ::= f |> = s <| s_transfer := f (s_transfer s) |>.
Proof. done. Qed.

(** One iteration of the loop. *)
Lemma loop_iter fuel batch s d :
  core_ok s → t_data (s_transfer s) = Some d → InFlight s < SendWindow →
  (first_due (s_transfer s) = true ∨ t_offset (s_transfer s) < zlen d) →
  let p := fst (next_packet (s_transfer s) d) in
  let t' := snd (next_packet (s_transfer s) d) in
  let pkt := encode (rxSeqExpected s) (txSeqNr s) p in
  ∃ slot, tx_data slot = pkt ∧ seq slot = txSeqNr s ∧ slot_ok slot ∧
    handleTransfer_loop (S fuel) batch s =
    handleTransfer_loop fuel (batch ++ [pkt]) (sent_state slot p t' s).
Proof.
  intros Hcore Hd Hfl Hmore p t' pkt.
  pose proof (ci_ring _ _ _ _ _ _ _ _ Hcore) as Hring.
  pose proof (ci_count _ _ _ _ _ _ _ _ Hcore) as Hcount.
  pose proof (ci_transfer _ _ _ _ _ _ _ _ Hcore) as Ht.
  destruct (Ht d Hd) as (Hh & Hmc & Hpos & Ho).
  destruct (next_packet_ok _ _ Ht Hd) as (_ & Hsize & _). fold p in Hsize.
  assert (ring_count (txWriteIndex s) (txReadIndex s) < txBufferLen - 1)
    by (unfold SendWindow, txBufferLen in *; lia).
  destruct (packDataPacket_spec s (d_header p) (d_chunk p) (d_fin p)) as
    (slot & Hdata & Hseq & Hslot & Hpack); [done|done|by destruct p|].
  assert (mkDesc (d_header p) (d_chunk p) (d_fin p) = p) as Hp by by destruct p.
  rewrite Hp in Hdata, Hpack. fold pkt in Hdata, Hpack.
  exists slot. split_and!; [done|done|done|].
  cbn [handleTransfer_loop]. rewrite Hd, (proj2 (Z.ltb_lt _ _) Hfl). cbv beta zeta iota delta [negb].
  pose proof (eq_refl : (p, t') = (fst (next_packet (s_transfer s) d), snd (next_packet (s_transfer s) d))) as He.
  rewrite <-surjective_pairing in He. clearbody p t'. subst pkt.
  unfold next_packet in He. fold (first_due (s_transfer s)) in He |- *. cbv zeta in He.
  rewrite first_max_min in He |- * by done.
  pose proof (zlen_nonneg (t_header (s_transfer s))). pose proof (zlen_nonneg d).
  destruct (first_due (s_transfer s)) eqn:Hf.
  - set (size := if zlen d <? _ then _ else _) in He |- *.
    assert (0 <= size <= zlen d) by (unfold size, MaxDataPayload in *; case_bool; lia).
    rewrite slice_ok, bind_Ok by lia. rewrite Z.add_0_l in He. rewrite Z.sub_0_r.
    injection He as -> ->. cbn [d_header d_chunk d_fin] in *. rewrite Hpack, bind_Ok.
    f_equal. clearbody size. clear -Hd. destruct s as [rc b w r t]; simpl in Hd.
    destruct t as [h dd o mc]; simpl in Hd; subst dd.
    by destruct (zlen d <=? size).
  - destruct Hmore as [?|Hmore]; [done|].
    rewrite (proj2 (Z.leb_gt _ _) Hmore).
    set (size := if zlen d <? _ then _ else _) in He |- *.
    assert (0 <= size <= zlen d - t_offset (s_transfer s)) by (unfold size, MaxDataPayload in *; case_bool; lia).
    rewrite slice_ok, bind_Ok by lia.
    replace (t_offset (s_transfer s) + size - t_offset (s_transfer s)) with size by lia.
    injection He as -> ->. cbn [d_header d_chunk d_fin] in *.
    match goal with |- context [packDataPacket _ _ _ ?s'] => set (s1 := s') end.
    match goal with |- context [sent_state _ _ ?t1 _] => assert (s1 = s <| s_transfer := t1 |>) as -> end.
    { unfold s1. clearbody size. clear -Hd. destruct s as [rc b w r t]; simpl in Hd.
      destruct t as [h dd o mc]; simpl in Hd; subst dd. simpl.
      by destruct (zlen d <=? o + size). }
    rewrite packDataPacket_transfer, Hpack. done.
Qed.

Lemma frame_sent slot p t s : frame (sent_state slot p t s) = frame s.
Proof. unfold sent_state, push_slot. by destruct (d_fin p). Qed.

Lemma fields_sent slot p t s :
  txBuffer (sent_state slot p t s) = <[Z.to_nat (txWriteIndex s) := slot]> (txBuffer s) ∧
  txWriteIndex (sent_state slot p t s) = (txWriteIndex s + 1) mod txBufferLen ∧
  txSeqNr (sent_state slot p t s) = (txSeqNr s + 1) mod 4096 ∧
  s_transfer (sent_state slot p t s) = t ∧
  finPending (sent_state slot p t s) = finPending s || d_fin p ∧
  retransmitAttempts (sent_state slot p t s) = if d_fin p then 0 else retransmitAttempts s.
Proof.
  unfold sent_state, push_slot. rewrite <-next_seq.
  destruct (d_fin p); simpl; rewrite ?orb_true_r, ?orb_false_r; done.
Qed.

Lemma frame_inj s s' :
  frame s' = frame s →
  resetCallback s' = resetCallback s ∧ txReadIndex s' = txReadIndex s ∧
  txSeqNrAcked s' = txSeqNrAcked s ∧ rxSeqExpected s' = rxSeqExpected s ∧
  ackTimer s' = ackTimer s ∧ ackTimerExpectSeq s' = ackTimerExpectSeq s ∧
  ackTimerSeq s' = ackTimerSeq s ∧ ackWait s' = ackWait s ∧ closed s' = closed s ∧
  wire s' = wire s.
Proof. unfold frame. intros [=]. by split_and!. Qed.

(** The packets in flight once the ring is not empty. *)
Lemma InFlight_sent slot p t s :
  core_ok s → InFlight s < SendWindow → slot_ok slot →
  let s' := sent_state slot p t s in
  txReadIndex s' ≠ txWriteIndex s' ∧ InFlight s' = (debt s + 1) mod 4096 ∧
  debt s' = (debt s + 1) mod 4096 ∧
  ring s' = ring s ++ [slot].
Proof.
  intros Hcore Hfl Hslot s'.
  destruct (fields_sent slot p t s) as (Hb & Hw & Htx & _).
  destruct (frame_inj _ _ (frame_sent slot p t s)) as (_ & Hr & Hack & _).
  pose proof (ci_ring _ _ _ _ _ _ _ _ Hcore) as Hring.
  pose proof (ci_count _ _ _ _ _ _ _ _ Hcore) as Hcount.
  destruct (ring_of_push _ _ _ Hring slot) as (Hpush & _ & Hne);
    [unfold SendWindow, txBufferLen in *; lia|done|].
  assert (txReadIndex s' ≠ txWriteIndex s') as Hne' by (unfold s'; rewrite Hr, Hw; done).
  assert (debt s' = (debt s + 1) mod 4096) as Hd.
  { unfold debt, debt_of, s'. rewrite Htx, Hack. zlia. }
  split_and!; [done| |done|].
  - rewrite InFlight_spec, (proj2 (Z.eqb_neq _ _)) by done. done.
  - unfold ring, s'. rewrite Hb, Hw, Hr. done.
Qed.

Lemma core_sent s d slot :
  core_ok s → t_data (s_transfer s) = Some d → InFlight s < SendWindow →
  let p := fst (next_packet (s_transfer s) d) in
  let t' := snd (next_packet (s_transfer s) d) in
  tx_data slot = encode (rxSeqExpected s) (txSeqNr s) p →
  seq slot = txSeqNr s → slot_ok slot →
  core_ok (sent_state slot p t' s).
Proof.
  intros Hcore Hd Hfl p t' Hdata Hseq Hslot.
  destruct (fields_sent slot p t' s) as (Hb & Hw & Htx & Ht & Hfin & _).
  destruct (frame_inj _ _ (frame_sent slot p t' s)) as (_ & Hr & Hack & Hrx & _).
  pose proof (ci_transfer _ _ _ _ _ _ _ _ Hcore) as Htr.
  destruct (next_packet_ok _ _ Htr Hd) as (Hok & _ & Hf).
  unfold core_ok. rewrite Hb, Hw, Htx, Ht, Hfin, Hr, Hack, Hrx.
  eapply core_push; [exact Hcore| |done|done| |done|].
  - rewrite InFlight_spec in Hfl. case_match; bool_to_prop; [by left|by right].
  - unfold slot_wf, data_packet_at. rewrite Hseq. split; [apply Hcore|]. split; [by apply zlen_tx_data|].
    exists (rxSeqExpected s), p. split; [apply Hcore|exact Hdata].
  - intros Hb'. apply orb_true_iff in Hb' as [Hb'|Hb']; [|by apply Hf].
    pose proof (ci_fin _ _ _ _ _ _ _ _ Hcore Hb'). congruence.
Qed.

Lemma core_clear s : core_ok s → core_ok (clearTransfer s).
Proof.
  intros [? ? ? ? ? ? ? ? ? ?]. split; try done.
Qed.

(** Fuel that is enough: nine more packets into an empty ring, and one for each
    free place of the window otherwise. *)
Definition fuel_ok (fuel : nat) (s : Session) : Prop :=
  if txReadIndex s =? txWriteIndex s then (9 ≤ fuel)%nat
  else SendWindow - debt s <= Z.of_nat fuel.

(** What the loop achieves from [s], having sent the packets [ds]. *)
Record loop_post (s s' : Session) (ds : list pkt_desc) : Prop := {
  lp_core : core_ok s';
  lp_frame : frame s' = frame s;
  lp_plan : plan (s_transfer s) = ds ++ plan (s_transfer s');
  lp_seq : txSeqNr s' = (txSeqNr s + zlen ds) mod 4096;
  lp_ring : map tx_data (ring s') =
            map tx_data (ring s) ++ encode_all (rxSeqExpected s) (txSeqNr s) ds;
  lp_fin : finPending s' = finPending s || existsb d_fin ds;
  lp_attempts : retransmitAttempts s' = if existsb d_fin ds then 0 else retransmitAttempts s;
  lp_window : transferPending s' = true → SendWindow <= InFlight s';
  lp_open : (ds = [] ∧ InFlight s' = InFlight s) ∨ InFlight s' <= SendWindow ∨
            (zlen ds = 1 ∧ ring s = [])
}.

Lemma loop_post_refl s :
  core_ok s → (transferPending s = true → SendWindow <= InFlight s) → loop_post s s [].
Proof.
  intros Hcore Hw. split; try done.
  - unfold zlen; simpl. rewrite Z.add_0_r, Z.mod_small; [done|apply Hcore].
  - by rewrite app_nil_r.
  - by rewrite orb_false_r.
  - by left.
Qed.

Lemma loop_stop fuel batch s :
  (transferPending s = true → SendWindow <= InFlight s) →
  handleTransfer_loop fuel batch s = Ok (batch, s).
Proof.
  unfold transferPending. intros Hw. destruct fuel; simpl;
    (destruct (t_data (s_transfer s)); [|done]);
    by rewrite (proj2 (Z.ltb_ge _ _)) by auto.
Qed.

(** Prepending one packet. *)
Lemma loop_post_cons s s1 s' p ds slot :
  core_ok s →
  frame s1 = frame s → plan (s_transfer s) = p :: plan (s_transfer s1) →
  txSeqNr s1 = (txSeqNr s + 1) mod 4096 → ring s1 = ring s ++ [slot] →
  tx_data slot = encode (rxSeqExpected s) (txSeqNr s) p →
  finPending s1 = finPending s || d_fin p →
  retransmitAttempts s1 = (if d_fin p then 0 else retransmitAttempts s) →
  (InFlight s1 <= SendWindow ∨ ring s = []) →
  loop_post s1 s' ds → loop_post s s' (p :: ds).
Proof.
  intros Hcore Hf Hp Htx Hring Hslot Hfin Hatt Hopen [H1 H2 H3 H4 H5 H6 H9 H7 H8].
  destruct (frame_inj _ _ Hf) as (_ & _ & _ & Hrx & _).
  split; [done|congruence| | | | | |done|].
  - by rewrite Hp, H3.
  - rewrite H4, Htx. unfold zlen. simpl length. zlia.
  - rewrite H5, Hring, map_app, Htx, Hrx. simpl. by rewrite Hslot, <-app_assoc.
  - rewrite H6, Hfin. simpl. by rewrite orb_assoc.
  - rewrite H9, Hatt. simpl. by destruct (d_fin p), (existsb d_fin ds).
  - right. destruct H8 as [[-> H8]|[?|[? Hn]]].
    + rewrite H8. destruct Hopen; [by left|by right].
    + by left.
    + rewrite Hring in Hn. by destruct (ring s).
Qed.

(** A transfer of which everything has been sent is cleared. *)
Lemma loop_done fuel batch s d :
  core_ok s → t_data (s_transfer s) = Some d → InFlight s < SendWindow →
  ¬ first_due (s_transfer s) = true ∧ ¬ t_offset (s_transfer s) < zlen d →
  loop_post s (clearTransfer s) [] ∧ handleTransfer_loop (S fuel) batch s = Ok (batch, clearTransfer s).
Proof.
  intros Hcore Hd Hopen [Hf%not_true_is_false Hle%Z.nlt_ge]. split.
  - split; try done; [by apply core_clear| | | | |].
    + unfold plan at 1. fold (first_due (s_transfer s)). rewrite Hd, Hf. simpl.
      rewrite drop_ge by (unfold zlen in Hle; lia). by simp chunk_plan.
    + unfold zlen; simpl. rewrite Z.add_0_r, Z.mod_small; [done|apply Hcore].
    + by rewrite app_nil_r.
    + simpl. by rewrite orb_false_r.
    + by left.
  - cbn [handleTransfer_loop]. rewrite Hd, (proj2 (Z.ltb_lt _ _) Hopen). simpl negb. cbv iota zeta.
    fold (first_due (s_transfer s)). rewrite Hf, (proj2 (Z.leb_le _ _) Hle). done.
Qed.

Theorem handleTransfer_loop_spec fuel batch s :
  core_ok s → fuel_ok fuel s →
  ∃ s' ds, loop_post s s' ds ∧
    handleTransfer_loop fuel batch s =
      Ok (batch ++ encode_all (rxSeqExpected s) (txSeqNr s) ds, s').
Proof.
  revert batch s; induction fuel as [|fuel IH]; intros batch s Hcore Hfuel;
    pose proof (InFlight_spec s) as Hfl; unfold fuel_ok in Hfuel.
  { exists s, []. rewrite app_nil_r. destruct (txReadIndex s =? txWriteIndex s); [lia|].
    split; [apply loop_post_refl|apply loop_stop]; auto with lia. }
  destruct (t_data (s_transfer s)) as [d|] eqn:Hd; last first.
  { exists s, []. rewrite app_nil_r. assert (transferPending s ≠ true) by (unfold transferPending; by rewrite Hd).
    split; [by apply loop_post_refl|by apply loop_stop]. }
  destruct (Z.lt_ge_cases (InFlight s) SendWindow) as [Hopen|Hclosed]; last first.
  { exists s, []. rewrite app_nil_r. split; [by apply loop_post_refl|by apply loop_stop]. }
  pose proof (ci_transfer _ _ _ _ _ _ _ _ Hcore) as Ht.
  destruct (decide (first_due (s_transfer s) = true ∨ t_offset (s_transfer s) < zlen d)) as [Hmore|Hdone].
  - destruct (loop_iter fuel batch s d Hcore Hd Hopen Hmore) as (slot & Hdata & Hseq & Hslot & Hloop).
    pose proof (core_sent s d slot Hcore Hd Hopen Hdata Hseq Hslot) as Hcore1.
    set (p := fst (next_packet (s_transfer s) d)) in *.
    set (t1 := snd (next_packet (s_transfer s) d)) in *.
    destruct (InFlight_sent slot p t1 s Hcore Hopen Hslot) as (Hne & Hfl1 & Hdebt1 & Hring).
    destruct (fields_sent slot p t1 s) as (_ & _ & Htx & Htr & Hfin & Hatt).
    pose proof (debt_bound (txSeqNr s) (txSeqNrAcked s)) as Hdb. fold (debt s) in Hdb.
    set (s1 := sent_state slot p t1 s) in *.
    destruct (IH (batch ++ [encode (rxSeqExpected s) (txSeqNr s) p]) s1) as (s' & ds & Hpost & Hrun).
    { done. }
    { unfold fuel_ok. rewrite (proj2 (Z.eqb_neq _ _)), Hdebt1 by done. unfold SendWindow in *.
      destruct (txReadIndex s =? txWriteIndex s); zlia. }
    exists s', (p :: ds). split.
    + apply (loop_post_cons s s1 s' p ds slot); [done|apply frame_sent| |done|done|done|done|done| |done].
      * rewrite Htr. destruct (first_due (s_transfer s)) eqn:Hf;
          [by apply plan_step_first|]. destruct Hmore; [done|]. by apply plan_step_rest.
      * rewrite Hfl1. unfold SendWindow in *. destruct (txReadIndex s =? txWriteIndex s) eqn:E; bool_to_prop.
        -- right. unfold ring. by apply ring_of_nil.
        -- left. zlia.
    + rewrite Hloop, Hrun. destruct (frame_inj _ _ (frame_sent slot p t1 s)) as (_ & _ & _ & Hrx & _).
      fold s1 in Hrx. rewrite Hrx, Htx, <-app_assoc. done.
  - exists (clearTransfer s), []. rewrite app_nil_r. apply (loop_done fuel batch s d); [done..|]. naive_solver.
Qed.
