(* ===== verification/RdmaTimer.v ===== *)
(** * The ACK timer and what a session waits for

    [timer_inv]: a wait mode is recorded exactly while the timer runs, with the
    timeout of that mode.  [wait_inv]: a session that waits for the peer (for the
    ACK of a FIN, or with a full window) has the timer armed. *)
From S2P Require Import Prelude RdmaProtocol RdmaSession RdmaRing RdmaPack RdmaInvariant RdmaTransfer.

Definition mode_timeout (m : ackWaitMode) : option Z :=
  match m with
  | ackWaitNone => None
  | ackWaitWindow => Some WindowAckTimeout
  | ackWaitFin => Some FinAckTimeout
  end.

Record timer_inv (s : Session) : Prop := {
  ti_seq : ackWait s ≠ ackWaitNone → ackTimerExpectSeq s = ackTimerSeq s;
  ti_mode : closed s = false → ackTimer s = mode_timeout (ackWait s);
  ti_attempts : 0 <= retransmitAttempts s < MaxRetransmits
}.

Record wait_inv (s : Session) : Prop := {
  wi_fin : closed s = false → finPending s = true → InFlight s ≠ 0 → ackWait s = ackWaitFin;
  wi_window : transferPending s = true → SendWindow <= InFlight s;
  wi_transfer : closed s = false → transferPending s = true → ackWait s = ackWaitWindow
}.

Record session_ok (s : Session) : Prop := {
  so_core : core_ok s;
  so_timer : timer_inv s;
  so_wait : wait_inv s
}.

(** The timer operations write the four timer fields only. *)
Definition with_timer (t : option Z) (e q : Z) (m : ackWaitMode) (s : Session) : Session :=
  s <| ackTimer := t |> <| ackTimerExpectSeq := e |> <| ackTimerSeq := q |> <| ackWait := m |>.

Lemma stopAckTimer_shape s :
  stopAckTimer s = with_timer None (ackTimerExpectSeq s) (u16 (ackTimerSeq s + 1)) ackWaitNone s.
Proof. by destruct s. Qed.

Lemma armAckTimer_shape s :
  ∃ t e q m, armAckTimer s = with_timer t e q m s.
Proof.
  unfold armAckTimer. destruct s. simpl. destruct finPending; case_decide; simpl.
  all: by repeat eexists.
Qed.

Lemma updateAckTimer_shape s : ∃ t e q m, updateAckTimer s = with_timer t e q m s.
Proof.
  unfold updateAckTimer. rewrite !stopAckTimer_shape.
  repeat case_bool; eauto 10 using armAckTimer_shape.
Qed.

(** Arming records the mode that [finPending] asks for and its timeout. *)
Definition wanted_mode (s : Session) : ackWaitMode :=
  if finPending s then ackWaitFin else ackWaitWindow.

Lemma armAckTimer_mode s :
  ackWait (armAckTimer s) = wanted_mode s ∧
  ackTimer (armAckTimer s) =
    (if decide (ackWait s = wanted_mode s) then ackTimer s else mode_timeout (wanted_mode s)) ∧
  ((ackWait s ≠ ackWaitNone → ackTimerExpectSeq s = ackTimerSeq s) →
   ackTimerExpectSeq (armAckTimer s) = ackTimerSeq (armAckTimer s)) ∧
  closed (armAckTimer s) = closed s.
Proof.
  unfold armAckTimer, wanted_mode. destruct (finPending s); case_decide as E; simpl.
  all: split_and!; try done. all: intros H; apply H; by rewrite E.
Qed.

Lemma arm_timer_inv s : timer_inv s → timer_inv (armAckTimer s).
Proof.
  intros [Hseq Hmode Hatt]. destruct (armAckTimer_mode s) as (Hm & Ht & He & Hc).
  split.
  - intros _. auto.
  - rewrite Hc, Hm, Ht. intros Hcl. case_decide as E; [|done]. by rewrite <-E, Hmode.
  - destruct (armAckTimer_shape s) as (? & ? & ? & ? & ->). done.
Qed.

Lemma stop_timer_inv s : timer_inv s → timer_inv (stopAckTimer s).
Proof. intros [? ? ?]. by split. Qed.

Lemma update_timer_inv s : timer_inv s → timer_inv (updateAckTimer s).
Proof.
  intros H. unfold updateAckTimer. repeat case_bool; auto using arm_timer_inv, stop_timer_inv.
Qed.

(** After [updateAckTimer], whatever the session waits for is guarded by the timer. *)
Lemma update_wait_inv s :
  core_ok s → (transferPending s = true → SendWindow <= InFlight s) → wait_inv (updateAckTimer s).
Proof.
  intros Hcore Hw.
  assert (transferPending s = true → finPending s = false) as Hfin.
  { unfold transferPending. intros Hp. destruct (finPending s) eqn:E; [|done].
    by rewrite (ci_fin _ _ _ _ _ _ _ _ Hcore E) in Hp. }
  destruct (armAckTimer_mode s) as (Hm & _ & _ & _).
  assert (InFlight (updateAckTimer s) = InFlight s ∧ finPending (updateAckTimer s) = finPending s ∧
          transferPending (updateAckTimer s) = transferPending s) as (H1 & H2 & H3).
  { by destruct (updateAckTimer_shape s) as (? & ? & ? & ? & ->). }
  split; rewrite ?H1, ?H2, ?H3; [|done|].
  - intros _ Hf Hn. unfold updateAckTimer.
    rewrite (proj2 (Z.eqb_neq _ _)), Hf by done. simpl. rewrite Hm. unfold wanted_mode. by rewrite Hf.
  - intros _ Hp. unfold updateAckTimer. specialize (Hw Hp).
    rewrite (proj2 (Z.eqb_neq _ _)) by (unfold SendWindow in Hw; lia).
    rewrite Hp, (proj2 (Z.leb_le _ _)), orb_true_r by done.
    rewrite Hm. unfold wanted_mode. by rewrite Hfin.
Qed.

(** [handleTransfer] from any state with a sound core and timer. *)
Record transfer_post (s s' : Session) (ds : list pkt_desc) : Prop := {
  tp_plan : plan (s_transfer s) = ds ++ plan (s_transfer s');
  tp_wire : wire s' = wire s ++
    match ds with
    | [] => []
    | _ => [WriteBatch (encode_all (rxSeqExpected s) (txSeqNr s) ds)]
    end;
  tp_seq : txSeqNr s' = (txSeqNr s + zlen ds) mod 4096;
  tp_acked : txSeqNrAcked s' = txSeqNrAcked s;
  tp_rx : rxSeqExpected s' = rxSeqExpected s;
  tp_closed : closed s' = closed s;
  tp_callback : resetCallback s' = resetCallback s;
  tp_ring : map tx_data (ring s') =
            map tx_data (ring s) ++ encode_all (rxSeqExpected s) (txSeqNr s) ds;
  tp_fin : finPending s' = finPending s || existsb d_fin ds;
  tp_open : (ds = [] ∧ InFlight s' = InFlight s) ∨ InFlight s' <= SendWindow ∨
            (zlen ds = 1 ∧ ring s = [])
}.

Lemma transfer_fuel_ok s : fuel_ok transfer_fuel s.
Proof.
  unfold fuel_ok, transfer_fuel, SendWindow. pose proof (debt_bound (txSeqNr s) (txSeqNrAcked s)).
  unfold debt. case_bool; lia.
Qed.

Theorem handleTransfer_spec s :
  core_ok s → timer_inv s →
  ∃ s' ds, handleTransfer s = Ok s' ∧ session_ok s' ∧ transfer_post s s' ds.
Proof.
  intros Hcore Htimer.
  destruct (handleTransfer_loop_spec transfer_fuel [] s Hcore (transfer_fuel_ok s))
    as (s1 & ds & [H1 H2 H3 H4 H5 H6 H7 H8 H9] & Hrun).
  destruct (frame_inj _ _ H2) as (Hrc & Hr & Hack & Hrx & Ht & He & Hq & Hm & Hcl & Hwire).
  unfold handleTransfer. rewrite Hrun, bind_Ok. cbv zeta.
  match goal with |- context [updateAckTimer ?x] => set (s2 := x) end.
  assert (∃ w, s2 = s1 <| wire := w |> ∧ w = wire s ++
    match ds with [] => [] | _ => [WriteBatch (encode_all (rxSeqExpected s) (txSeqNr s) ds)] end)
    as (w & -> & Hw).
  { unfold s2. rewrite <-Hwire. destruct ds; simpl; [|by eexists].
    exists (wire s1). rewrite app_nil_r. split; [by destruct s1|done]. }
  set (s3 := s1 <| wire := w |>).
  assert (core_ok s3) as Hcore3 by exact H1.
  assert (timer_inv s3) as Htimer3.
  { destruct Htimer as [T1 T2 T3]. unfold s3. split; simpl.
    - by rewrite Hm, He, Hq.
    - by rewrite Hcl, Ht, Hm.
    - rewrite H7. unfold MaxRetransmits in *. case_bool; lia. }
  exists (updateAckTimer s3), ds. split; [done|]. split.
  - split; [|by apply update_timer_inv|by apply update_wait_inv].
    destruct (updateAckTimer_shape s3) as (? & ? & ? & ? & ->). exact H1.
  - destruct (updateAckTimer_shape s3) as (? & ? & ? & ? & ->). by split.
Qed.
