(* ===== verification/RdmaAck.v ===== *)
(** * Acknowledgements, retransmission and timeouts

    What an ACK removes from the ring, what a NACK or a timeout sends again, and
    that each of these operations returns and keeps the session invariant. *)
From S2P Require Import Prelude RdmaProtocol RdmaSession RdmaRing RdmaPack RdmaInvariant RdmaTransfer RdmaTimer.

(** ** Positions on the 12-bit ring *)

Lemma seqBetween_spec a x b :
  0 <= a < 4096 → 0 <= x < 4096 → 0 <= b < 4096 →
  seqBetween a x b = true ↔ (x - a) mod 4096 <= (b - a) mod 4096.
Proof.
  intros. unfold seqBetween. rewrite !land_FFF, !Z.mod_small by lia.
  case_bool; rewrite ?andb_true_iff, ?orb_true_iff, ?Z.leb_le; zlia.
Qed.

(** ** Pruning *)

(** How many of the [k] buffered packets an ACK removes, when [f] packets were
    sent after the acknowledged one. *)
Definition prune_count (k f : Z) : Z :=
  if k <=? f then (if f - k <? 2048 then 0 else k) else k - f.

Lemma prune_loop_spec fuel a s tx :
  ring_ok (txBuffer s) (txWriteIndex s) (txReadIndex s) →
  let k := ring_count (txWriteIndex s) (txReadIndex s) in
  (∀ i p, ring s !! i = Some p → seq p = (tx - k + Z.of_nat i) mod 4096) →
  k <= SendWindow + 1 → k <= Z.of_nat fuel →
  ∃ r', pruneAcked_loop fuel a s = Ok (s <| txReadIndex := r' |>) ∧
    ring_ok (txBuffer s) (txWriteIndex s) r' ∧
    ring_of (txBuffer s) (txWriteIndex s) r' =
      drop (Z.to_nat (prune_count k (debt_of tx a))) (ring s).
Proof.
  revert s. induction fuel as [|fuel IH]; intros s Hok k Hseq Hk Hfuel; unfold ring in *;
    pose proof (ring_count_bound (txWriteIndex s) (txReadIndex s)) as Hkb; fold k in Hkb;
    pose proof (debt_bound tx a) as Hdb.
  - assert (txReadIndex s = txWriteIndex s) as E.
    { destruct Hok as [_ _ ??]. unfold k in Hfuel. ring_unfold. zlia. }
    exists (txReadIndex s). simpl. rewrite (proj2 (Z.eqb_eq _ _) E).
    split_and!; [by destruct s|done|]. rewrite ring_of_nil by done. by rewrite drop_nil.
  - simpl. destruct (txReadIndex s =? txWriteIndex s) eqn:E; bool_to_prop.
    { exists (txReadIndex s).
      split_and!; [by destruct s|done|]. rewrite ring_of_nil by done. by rewrite drop_nil. }
    destruct (ring_of_pop _ _ _ Hok E) as (p & Hidx & _ & Hring & Hok').
    rewrite Hidx, bind_Ok.
    assert (seq p = (tx - k) mod 4096) as Hp.
    { rewrite (Hseq 0%nat p); [f_equal; lia|]. by rewrite Hring. }
    assert (Z.land (u16 (seq p - a - 1)) 4095 = (debt_of tx a - k) mod 4096) as ->.
    { rewrite land_FFF, mod_u16_4096, Hp. unfold debt_of. zlia. }
    assert (ring_count (txWriteIndex s) ((txReadIndex s + 1) mod txBufferLen) = k - 1) as Hk1.
    { destruct Hok as [_ _ ??]. unfold k. ring_unfold. zlia. }
    assert (1 <= k) by (destruct Hok as [_ _ ??]; unfold k; ring_unfold; zlia).
    unfold SendWindow in *. case_bool.
    + exists (txReadIndex s). split_and!; [by destruct s|done|].
      replace (Z.to_nat (prune_count k (debt_of tx a))) with 0%nat; [done|].
      unfold prune_count. repeat case_bool; zlia.
    + destruct (IH (s <| txReadIndex := (txReadIndex s + 1) mod txBufferLen |>)) as (r' & Hrun & Hr1 & Hr2);
        simpl; [done| | rewrite Hk1; lia| rewrite Hk1; lia|].
      { intros i q Hi. rewrite (Hseq (S i) q), Hk1; [f_equal; lia|]. by rewrite Hring. }
      simpl in *. exists r'. split_and!; [exact Hrun|done|].
      rewrite Hr2, Hk1, Hring.
      replace (Z.to_nat (prune_count k (debt_of tx a))) with
        (S (Z.to_nat (prune_count (k - 1) (debt_of tx a)))); [done|].
      unfold prune_count. repeat case_bool; zlia.
Qed.

(** Moving the acknowledged number and the read index together. *)
Lemma core_prune b w r tx ack rx t fin a r' :
  core_inv b w r tx ack rx t fin →
  0 <= a < 4096 → (a - ack) mod 4096 <= ((tx - 1) mod 4096 - ack) mod 4096 →
  ring_ok b w r' →
  ring_of b w r' = drop (Z.to_nat (prune_count (ring_count w r) (debt_of tx a))) (ring_of b w r) →
  core_inv b w r' tx a rx t fin.
Proof.
  intros [Hring Htx Hack Hrx Hseqs Hwf Hcount Hdebt Htr Hfin] Ha Hle Hok' Hr'.
  unfold SendWindow in *.
  set (k := ring_count w r) in *. set (f := debt_of tx a) in *.
  pose proof (ring_count_bound w r) as Hkb. fold k in Hkb.
  pose proof (debt_bound tx a) as Hdb. fold f in Hdb.
  assert (0 <= prune_count k f <= k) as Hj by (unfold prune_count; repeat case_bool; lia).
  assert (ring_count w r' = k - prune_count k f) as Hk'.
  { rewrite <-(zlen_ring_of _ _ _ Hok'), Hr'. unfold zlen. rewrite length_drop.
    pose proof (zlen_ring_of _ _ _ Hring) as Hz. unfold zlen in Hz. unfold k in *. lia. }
  split; try done.
  - intros i p. rewrite Hr', lookup_drop. intros Hi. rewrite (Hseqs _ _ Hi), Hk'. f_equal. lia.
  - rewrite Hr'. by apply Forall_drop.
  - rewrite Hk'. unfold SendWindow. lia.
  - rewrite Hk'. fold f. unfold prune_count. repeat case_bool; lia.
Qed.

(** ** ACKs *)

(** What [onAck] does with an accepted acknowledgement. *)
Definition ack_accepted (a : Z) (s : Session) : bool :=
  negb (txReadIndex s =? txWriteIndex s) &&
  seqBetween (txSeqNrAcked s) a ((txSeqNr s - 1) mod 4096).

Lemma onAck_spec a s :
  core_ok s → timer_inv s → 0 <= a < 4096 →
  ∃ s', onAck a s = Ok s' ∧ core_ok s' ∧ timer_inv s' ∧
    s_transfer s' = s_transfer s ∧ wire s' = wire s ∧ txSeqNr s' = txSeqNr s ∧
    rxSeqExpected s' = rxSeqExpected s ∧ closed s' = closed s ∧
    resetCallback s' = resetCallback s ∧
    if ack_accepted a s then
      txSeqNrAcked s' = a ∧ retransmitAttempts s' = 0 ∧
      ring s' = drop (Z.to_nat (prune_count (zlen (ring s)) (debt_of (txSeqNr s) a))) (ring s) ∧
      (finPending s' = if a =? (txSeqNr s - 1) mod 4096 then false else finPending s) ∧
      (transferPending s = false → wait_inv s')
    else s' = s.
Proof.
  intros Hcore Htimer Ha. unfold onAck, ack_accepted. rewrite !prev_seq.
  destruct (txReadIndex s =? txWriteIndex s) eqn:E; [by exists s; split_and!|]. bool_to_prop.
  simpl negb. rewrite andb_true_l.
  destruct (seqBetween (txSeqNrAcked s) a ((txSeqNr s - 1) mod 4096)) eqn:Hb;
    [|by exists s; split_and!].
  pose proof (ci_ring _ _ _ _ _ _ _ _ Hcore) as Hring.
  pose proof (ci_count _ _ _ _ _ _ _ _ Hcore) as Hcount. unfold SendWindow in Hcount.
  destruct (prune_loop_spec (Z.to_nat txBufferLen) a (s <| txSeqNrAcked := a |>) (txSeqNr s))
    as (r' & Hrun & Hok' & Hr'); [exact Hring|apply Hcore|exact Hcount|unfold txBufferLen; simpl in *; lia|].
  change (ring (s <| txSeqNrAcked := a |>)) with (ring s) in Hr'. simpl in Hok', Hr'.
  unfold pruneAcked. simpl negb. cbv iota zeta. rewrite Hrun, bind_Ok.
  set (s1 := _ <| txReadIndex := r' |> <| retransmitAttempts := 0 |>).
  apply seqBetween_spec in Hb; [|apply Hcore|done|zlia].
  assert (core_ok s1) as Hcore1.
  { refine (core_prune _ _ _ _ _ _ _ _ a r' Hcore Ha Hb Hok' Hr'). }
  assert (timer_inv s1) as Htimer1 by (destruct Htimer; split; simpl; [done|done|unfold MaxRetransmits; lia]).
  assert (ring s1 = drop (Z.to_nat (prune_count (zlen (ring s)) (debt_of (txSeqNr s) a))) (ring s)) as Hring1.
  { unfold ring at 1, s1. simpl. rewrite Hr'. unfold ring at 2. by rewrite (zlen_ring_of _ _ _ Hring). }
  case_bool.
  - eexists; split; [done|]. rewrite stopAckTimer_shape. split_and!; try done.
    + destruct Hcore1. by split.
    + intros Hp. split; [done| |]; unfold transferPending in *; simpl; by rewrite ?Hp.
  - pose proof (update_timer_inv _ Htimer1) as Htimer2.
    assert (transferPending s = false → wait_inv (updateAckTimer s1)) as Hwait.
    { intros Hp. apply update_wait_inv; [done|]. unfold transferPending in *; simpl. by rewrite Hp. }
    eexists; split; [done|].
    destruct (updateAckTimer_shape s1) as (? & ? & ? & ? & Hs). rewrite Hs in *. by split_and!.
Qed.

Lemma core_fin s : core_ok s → transferPending s = true → finPending s = false.
Proof.
  intros Hcore. unfold transferPending. destruct (finPending s) eqn:E; [|done].
  by rewrite (ci_fin _ _ _ _ _ _ _ _ Hcore E).
Qed.

(** What is in the ring, and so what is sent from it, are DATA packets. *)
Lemma ring_packets s : core_ok s → Forall (λ p, ∃ sq, data_packet_at sq p) (map tx_data (ring s)).
Proof.
  intros Hcore. apply Forall_fmap. eapply Forall_impl; [exact (ci_wf _ _ _ _ _ _ _ _ Hcore)|].
  intros p Hp. by exists (seq p).
Qed.

Lemma batch_of l : Forall (λ p, ∃ sq, data_packet_at sq p) l → Forall batch_ok (match l with [] => [] | x :: l => [WriteBatch (x :: l)] end).
Proof. intros Hl. destruct l; constructor; [|constructor]. by eexists. Qed.

Lemma transfer_batch_ok s s' ds :
  session_ok s' → transfer_post s s' ds →
  Forall batch_ok (match ds with [] => [] | _ => [WriteBatch (encode_all (rxSeqExpected s) (txSeqNr s) ds)] end).
Proof.
  intros [Hcore _ _] Hpost. pose proof (ring_packets s' Hcore) as Hr. rewrite (tp_ring _ _ _ Hpost) in Hr.
  apply Forall_app in Hr as [_ Hr]. apply batch_of in Hr. by destruct ds.
Qed.

Theorem onPeerAck_spec a s :
  session_ok s → 0 <= a < 4096 →
  ∃ s', onPeerAck a s = Ok s' ∧ session_ok s' ∧ rxSeqExpected s' = rxSeqExpected s ∧
    (∃ rest, wire s' = wire s ++ rest ∧ Forall batch_ok rest) ∧
    ∃ s1, onAck a s = Ok s1 ∧
      if transferPending s then ∃ ds, transfer_post s1 s' ds else s' = s1.
Proof.
  intros [Hcore Htimer Hwait] Ha.
  destruct (onAck_spec a s Hcore Htimer Ha) as
    (s1 & Hrun & Hcore1 & Htimer1 & Htr & Hwire & _ & Hrx & _ & _ & Hacc).
  assert (transferPending s1 = transferPending s) as Hp by (unfold transferPending; by rewrite Htr).
  unfold onPeerAck. rewrite Hrun, bind_Ok, Hp. destruct (transferPending s) eqn:E.
  - destruct (handleTransfer_spec s1 Hcore1 Htimer1) as (s' & ds & Hrun' & Hok & Hpost).
    exists s'. split_and!; [done|done| | |by eauto].
    + rewrite (tp_rx _ _ _ Hpost). done.
    + rewrite (tp_wire _ _ _ Hpost), Hwire. eexists. split; [done|]. by eapply transfer_batch_ok.
  - exists s1. split_and!; [done| |done|exists []; by rewrite app_nil_r|by eauto].
    split; [done|done|]. destruct (ack_accepted a s); [|by subst].
    by destruct Hacc as (_ & _ & _ & _ & Hw); auto.
Qed.

(** ** Retransmission *)

(** How many buffered packets are sent again, when the oldest one is [g] places
    after the requested sequence number and [k] are buffered. *)
Definition resend_count (k g : Z) : Z := if g <? 2048 then Z.min k (2048 - g) else 0.

Definition resend_metrics (n : nat) (m : metricContainer) : metricContainer :=
  Nat.iter n (λ m, m <| packetsTx ::= inc64 |> <| retransmits ::= inc64 |>) m.

Lemma resend_metrics_S n m :
  resend_metrics (S n) m =
  resend_metrics n (m <| packetsTx ::= inc64 |> <| retransmits ::= inc64 |>).
Proof. unfold resend_metrics. by rewrite Nat.iter_succ_r. Qed.

#[local] Arguments resend_metrics : simpl never.

Lemma retransmit_loop_spec fuel i from batch s base k :
  ring_ok (txBuffer s) (txWriteIndex s) i →
  k = ring_count (txWriteIndex s) i →
  (∀ j p, ring_of (txBuffer s) (txWriteIndex s) i !! j = Some p →
     seq p = (base + Z.of_nat j) mod 4096) →
  k <= SendWindow + 1 → k <= Z.of_nat fuel →
  let g := (base - from) mod 4096 in
  let n := Z.to_nat (resend_count k g) in
  retransmitFrom_loop fuel i from batch s =
    Ok (batch ++ map tx_data (take n (ring_of (txBuffer s) (txWriteIndex s) i)),
        s <| metrics := resend_metrics n (metrics s) |>).
Proof.
  revert i batch s base k. induction fuel as [|fuel IH];
    intros i batch s base k Hok Hk Hseq Hmax Hfuel g n;
    pose proof (ring_count_bound (txWriteIndex s) i) as Hkb; rewrite <-Hk in Hkb.
  - assert (i = txWriteIndex s) as E.
    { destruct Hok as [_ _ ??]. subst k. ring_unfold. zlia. }
    simpl. rewrite (proj2 (Z.eqb_eq _ _) E).
    assert (n = 0%nat) as -> by (unfold n, resend_count; case_bool; lia).
    rewrite app_nil_r. by destruct s.
  - simpl. destruct (i =? txWriteIndex s) eqn:E; bool_to_prop.
    { assert (k = 0) by (subst k; rewrite E; ring_unfold; zlia).
      assert (n = 0%nat) as -> by (unfold n, resend_count; case_bool; lia).
      rewrite app_nil_r. by destruct s. }
    destruct (ring_of_pop _ _ _ Hok E) as (p & Hidx & _ & Hring & Hok').
    rewrite Hidx, bind_Ok.
    assert (seq p = base mod 4096) as Hp by (rewrite (Hseq 0%nat p); [f_equal; lia|by rewrite Hring]).
    rewrite !land_FFF, !mod_u16_4096, Hp.
    assert ((base mod 4096 - from) mod 4096 = g) as -> by (unfold g; zlia).
    assert (1 <= k) by (destruct Hok as [_ _ ??]; subst k; ring_unfold; zlia).
    case_bool.
    { assert (n = 0%nat) as -> by (unfold n, resend_count; case_bool; lia).
      rewrite app_nil_r. by destruct s. }
    rewrite (proj2 (Z.eqb_neq _ _)) by (unfold g in *; zlia). simpl negb. cbv iota.
    set (s1 := s <| metrics ::= _ |>).
    rewrite (IH ((i + 1) mod txBufferLen) (batch ++ [tx_data p]) s1 (base + 1) (k - 1)).
    + assert (n = S (Z.to_nat (resend_count (k - 1) ((base + 1 - from) mod 4096)))) as Hn.
      { unfold n, resend_count, g, SendWindow in *. repeat case_bool; zlia. }
      rewrite Hn, Hring. simpl. rewrite <-app_assoc. simpl. by rewrite resend_metrics_S.
    + exact Hok'.
    + simpl. destruct Hok as [_ _ ??]. subst k. ring_unfold. zlia.
    + simpl. intros j q Hj. rewrite (Hseq (S j) q) by (by rewrite Hring). f_equal. lia.
    + lia.
    + lia.
Qed.

(** The packets a retransmission from [from] sends: all of them from the oldest,
    or none. *)
Definition resend (from : Z) (s : Session) : list (list byte) :=
  let k := zlen (ring s) in
  let g := (txSeqNr s - k - from) mod 4096 in
  map tx_data (take (Z.to_nat (resend_count k g)) (ring s)).

Theorem retransmitFrom_spec from s :
  core_ok s →
  ∃ m, retransmitFrom from s =
    Ok (zlen (resend from s),
        s <| metrics := m |>
          <| wire := wire s ++ match resend from s with [] => [] | l => [WriteBatch l] end |>).
Proof.
  intros Hcore. pose proof (ci_ring _ _ _ _ _ _ _ _ Hcore) as Hring.
  pose proof (ci_count _ _ _ _ _ _ _ _ Hcore) as Hcount.
  unfold retransmitFrom.
  rewrite (retransmit_loop_spec _ (txReadIndex s) from [] s
             (txSeqNr s - ring_count (txWriteIndex s) (txReadIndex s)) _ Hring eq_refl);
    [|apply Hcore|done|unfold SendWindow, txBufferLen in *; lia].
  rewrite bind_Ok. unfold resend, ring. rewrite (zlen_ring_of _ _ _ Hring). simpl app.
  set (l := map tx_data _). eexists. f_equal. f_equal.
  destruct l; simpl; [|done]. rewrite app_nil_r. by destruct s.
Qed.

Lemma resend_batch_ok from s : core_ok s → Forall batch_ok (match resend from s with [] => [] | l => [WriteBatch l] end).
Proof.
  intros Hcore. apply batch_of. unfold resend. cbv zeta. rewrite <- firstn_map. apply Forall_take, ring_packets, Hcore.
Qed.

Lemma core_retransmit s m w : core_ok s → core_ok (s <| metrics := m |> <| wire := w |>).
Proof. done. Qed.

Theorem onPeerNack_spec a s :
  session_ok s →
  ∃ s', onPeerNack a s = Ok s' ∧ session_ok s' ∧ rxSeqExpected s' = rxSeqExpected s ∧
    ring s' = ring s ∧ txSeqNrAcked s' = txSeqNrAcked s ∧ s_transfer s' = s_transfer s ∧
    wire s' = wire s ++ match resend a s with [] => [] | l => [WriteBatch l] end ∧
    txSeqNr s' = txSeqNr s ∧ finPending s' = finPending s ∧ closed s' = closed s.
Proof.
  intros [Hcore Htimer Hwait]. unfold onPeerNack.
  set (s1 := s <| retransmitAttempts := 0 |>).
  destruct (retransmitFrom_spec a s1 Hcore) as [m Hrun]. rewrite Hrun, bind_Ok.
  change (resend a s1) with (resend a s). change (wire s1) with (wire s).
  set (w := wire s ++ _). set (s2 := s1 <| metrics := m |> <| wire := w |>).
  assert (timer_inv s2) as Htimer2.
  { destruct Htimer. split; simpl; [done|done|unfold MaxRetransmits; lia]. }
  assert (wait_inv (updateAckTimer s2)) as Hwait2.
  { apply update_wait_inv; [exact Hcore|]. exact (wi_window _ Hwait). }
  pose proof (update_timer_inv _ Htimer2) as Htimer3.
  exists (updateAckTimer s2). split; [done|].
  destruct (updateAckTimer_shape s2) as (? & ? & ? & ? & Hs). rewrite Hs in *.
  by split_and!.
Qed.

(** ** Timeouts *)

Definition waiting (s : Session) : bool :=
  finPending s || (transferPending s && (SendWindow <=? InFlight s)).

(** The timer is armed anew for what the session waits for. *)
Lemma rearm_ok s :
  core_ok s → ackWait s = ackWaitNone → 0 <= retransmitAttempts s < MaxRetransmits →
  (transferPending s = true → SendWindow <= InFlight s) →
  session_ok (armAckTimer s) ∧ ackWait (armAckTimer s) = wanted_mode s.
Proof.
  intros Hcore Hmode Hatt Hw. destruct (armAckTimer_mode s) as (Hm & Ht & He & Hc). split; [|exact Hm].
  destruct (armAckTimer_shape s) as (t & e & q & m & Hs).
  split; [rewrite Hs; exact Hcore|split|split]; rewrite ?Hm, ?Ht.
  - intros _. apply He. by rewrite Hmode.
  - intros _. rewrite Hmode. unfold wanted_mode. by destruct (finPending s).
  - rewrite Hs. exact Hatt.
  - rewrite Hs. intros _ Hf _. unfold wanted_mode. simpl in Hf. by rewrite Hf.
  - rewrite Hs. exact Hw.
  - rewrite Hs. intros _ Hp. unfold wanted_mode. by rewrite core_fin.
Qed.

Theorem handleAckTimeout_spec s :
  core_ok s → ackWait s = ackWaitNone → 0 <= retransmitAttempts s < MaxRetransmits →
  (transferPending s = true → SendWindow <= InFlight s) →
  ∃ s', handleAckTimeout s = Ok s' ∧ session_ok s' ∧
    rxSeqExpected s' = rxSeqExpected s ∧ closed s' = closed s ∧ ring s' = ring s ∧
    txSeqNr s' = txSeqNr s ∧ txSeqNrAcked s' = txSeqNrAcked s ∧
    if waiting s then
      wire s' = wire s ++ match resend ((txSeqNrAcked s + 1) mod 4096) s with
                          | [] => [] | l => [WriteBatch l] end ∧
      if retransmitAttempts s + 1 <? MaxRetransmits then
        retransmitAttempts s' = retransmitAttempts s + 1 ∧ ackWait s' = wanted_mode s ∧
        finPending s' = finPending s ∧ s_transfer s' = s_transfer s
      else
        retransmitAttempts s' = 0 ∧ ackWait s' = ackWaitNone ∧ ackTimer s' = None ∧
        finPending s' = false ∧ t_data (s_transfer s') = None
    else s' = stopAckTimer s.
Proof.
  intros Hcore Hmode Hatt Hw. unfold handleAckTimeout, waiting.
  assert (negb (finPending s) && negb (negb (finPending s) && transferPending s && (SendWindow <=? InFlight s))
          = negb (finPending s || (transferPending s && (SendWindow <=? InFlight s)))) as ->.
  { by destruct (finPending s), (transferPending s), (SendWindow <=? InFlight s). }
  destruct (finPending s || _) eqn:Hwaiting; simpl negb; cbv iota; last first.
  { exists (stopAckTimer s). apply orb_false_iff in Hwaiting as [Hf Ht].
    assert (transferPending s = false) as Hp.
    { destruct (transferPending s); [|done]. simpl in Ht. bool_to_prop. specialize (Hw eq_refl). lia. }
    split_and!; try done. split; [exact Hcore|by split|].
    unfold transferPending in Hp. split; unfold transferPending; simpl; rewrite ?Hf, ?Hp; done. }
  set (s1 := s <| retransmitAttempts ::= _ |>).
  rewrite next_seq. change (txSeqNrAcked s1) with (txSeqNrAcked s).
  destruct (retransmitFrom_spec ((txSeqNrAcked s + 1) mod 4096) s1 Hcore) as [m ->]. rewrite bind_Ok.
  change (resend _ s1) with (resend ((txSeqNrAcked s + 1) mod 4096) s). change (wire s1) with (wire s).
  set (w := wire s ++ _). set (s2 := s1 <| metrics := m |> <| wire := w |>).
  change (retransmitAttempts s2) with (retransmitAttempts s + 1).
  destruct (retransmitAttempts s + 1 <? MaxRetransmits) eqn:Hlast; bool_to_prop.
  - exists (armAckTimer s2). destruct (rearm_ok s2 Hcore Hmode ltac:(simpl; lia) Hw) as [Hok Hm].
    destruct (armAckTimer_shape s2) as (? & ? & ? & ? & Hs). rewrite Hs in *. by split_and!.
  - assert (finPending s = true ∨ transferPending s = true ∧ finPending s = false) as Hcase.
    { destruct (finPending s); [by left|right]. by destruct (transferPending s). }
    destruct Hcase as [Hf|[Hp Hf]]; rewrite Hf.
    + eexists; split; [done|]. rewrite stopAckTimer_shape.
      pose proof (ci_fin _ _ _ _ _ _ _ _ Hcore Hf) as Hd.
      split_and!; try done. split; [|by split|].
      * destruct Hcore. by split.
      * split; unfold transferPending; simpl; rewrite ?Hd; done.
    + eexists; split; [done|]. rewrite stopAckTimer_shape. split_and!; try done.
      split; [|by split|].
      * exact (core_clear s Hcore).
      * split; simpl; by rewrite ?Hf.
Qed.
