(* ===== verification/RdmaReceive.v ===== *)
(** * Receiving: [ProcessDataPacket] against an abstract receiver

    [parse_packet] reads a DATA packet off the wire; [spec_receive] is the
    receiver as a function of the expected sequence number alone.  The session is
    shown to deliver exactly what the abstract receiver delivers, to answer each
    packet with the right ACK or NACK, and to keep its invariant. *)
From S2P Require Import Prelude RdmaProtocol RdmaSession RdmaRing RdmaPack RdmaInvariant RdmaTransfer RdmaTimer RdmaAck.

(** A DATA packet: its sequence number, its ACK field and flag, and its payload,
    cut to the announced size. *)
Record data_packet := mkDataPacket {
  dp_seq : Z;
  dp_acknr : Z;
  dp_isack : bool;
  dp_payload : list byte
}.

Definition parse_packet (data : list byte) : option data_packet :=
  match UnpackHeader data, UnpackDataHeader (drop 2 data) with
  | Val h, Val dh =>
      if PacketType h =? PacketData then
        Some {| dp_seq := SeqNr h;
                dp_acknr := SeqNrAck dh;
                dp_isack := Z.odd (Flags dh);
                dp_payload := take (Z.to_nat (HdrWordCount dh * 4 + DataByteCount dh)) (drop 6 data) |}
      else None
  | _, _ => None
  end.

(** How a packet with a payload relates to the expected sequence number. *)
Inductive verdict := InOrder | Duplicate | PeerReset | OutOfOrder.

#[export] Instance verdict_eq_dec : EqDecision verdict.
Proof. solve_decision. Defined.

Definition classify (expected seq : Z) : verdict :=
  if seq =? expected then InOrder
  else if seq =? (expected - 1) mod 4096 then Duplicate
  else if seq =? 0 then PeerReset
  else OutOfOrder.

(** The abstract receiver: the payload delivered, if any, and the sequence
    number expected next. *)
Definition spec_receive (expected : Z) (data : list byte) : option (list byte) * Z :=
  match parse_packet data with
  | None => (None, expected)
  | Some p =>
      match dp_payload p with
      | [] => (None, expected)
      | payload =>
          match classify expected (dp_seq p) with
          | InOrder | PeerReset => (Some payload, (dp_seq p + 1) mod 4096)
          | Duplicate | OutOfOrder => (None, expected)
          end
      end
  end.

(** The ACK or NACK that a session with these sequence numbers sends. *)
Definition control_packet (ack : bool) (tx rx : Z) : list byte :=
  Header_Pack {| PacketType := PacketData; SeqNr := tx |} ++
  DataHeader_Pack {| SeqNrAck := if ack then (rx - 1) mod 4096 else rx;
                     Flags := if ack then DataFlagACK else 0;
                     HdrWordCount := 0; DataByteCount := 0 |}.

(** ** Preservation *)

Lemma sendACK_shape ack s :
  ∃ m, sendACK ack s =
    s <| metrics := m |> <| wire := wire s ++ [WriteTo (control_packet ack (txSeqNr s) (rxSeqExpected s))] |>.
Proof.
  unfold sendACK. rewrite prev_seq.
  assert (∀ h d : list byte, length h = 2%nat → length d = 4%nat →
    copy_at headerSize d (copy_at 0 h (replicate (headerSize + dataHeaderSize) (z2b 0))) = h ++ d) as Hc.
  { intros h d Hh Hd. change (replicate _ _) with (replicate 2 (z2b 0) ++ replicate 4 (z2b 0)).
    rewrite copy_at_front by done. rewrite <-(app_nil_r (replicate 4 _)), copy_at_mid by done.
    by rewrite app_nil_r. }
  rewrite Hc by (apply length_Header_Pack || apply length_DataHeader_Pack).
  destruct ack; simpl; eexists; unfold emit; by destruct s.
Qed.

Lemma session_ok_log m w s : session_ok s → session_ok (s <| metrics := m |> <| wire := w |>).
Proof. intros [H1 [T1 T2 T3] [W1 W2 W3]]. split; [exact H1|by split|by split]. Qed.

Lemma session_ok_metrics m s : session_ok s → session_ok (s <| metrics := m |>).
Proof. intros [H1 [T1 T2 T3] [W1 W2 W3]]. split; [exact H1|by split|by split]. Qed.

Lemma session_ok_emit e s : session_ok s → session_ok (emit e s).
Proof. intros [H1 [T1 T2 T3] [W1 W2 W3]]. split; [exact H1|by split|by split]. Qed.

Lemma session_ok_rx n s : session_ok s → 0 <= n < 4096 → session_ok (s <| rxSeqExpected := n |>).
Proof.
  intros [[C1 C2 C3 C4 C5 C6 C7 C8 C9 C10] [T1 T2 T3] [W1 W2 W3]] Hn.
  split; [by split|by split|by split].
Qed.

Lemma sendACK_ok ack s : session_ok s → session_ok (sendACK ack s).
Proof. intros H. destruct (sendACK_shape ack s) as [m ->]. by apply session_ok_log. Qed.

(** An empty ring at index 0. *)
Lemma core_empty b tx ack rx t :
  length b = Z.to_nat txBufferLen → Forall slot_ok b →
  0 <= tx < 4096 → 0 <= ack < 4096 → 0 <= rx < 4096 → transfer_ok t →
  core_inv b 0 0 tx ack rx t false.
Proof.
  intros Hl Hs Htx Hack Hrx Ht. pose proof (debt_bound tx ack).
  assert (ring_count 0 0 = 0) as Hc by done.
  split; rewrite ?Hc, ?ring_of_nil by done; unfold SendWindow; try done; try lia; by split.
Qed.

Lemma reset_send_core s :
  core_ok s → timer_inv s → ∀ t, transfer_ok t →
  core_ok ((resetSendState s) <| s_transfer := t |>) ∧
  timer_inv ((resetSendState s) <| s_transfer := t |>).
Proof.
  intros Hcore [T1 T2 T3] t Ht. destruct Hcore as [[C1 C1' _ _] C2 C3 C4 _ _ _ _ _ _].
  split; [exact (core_empty _ _ _ _ t C1 C1' C2 C3 C4 Ht)|].
  split; simpl; [done|done|unfold MaxRetransmits; lia].
Qed.

Lemma ResetSession_ok s :
  session_ok s →
  session_ok (ResetSession s) ∧ rxSeqExpected (ResetSession s) = 0 ∧
  ring (ResetSession s) = [] ∧ closed (ResetSession s) = closed s ∧
  txSeqNr (ResetSession s) = 0 ∧ transferPending (ResetSession s) = false ∧
  wire (ResetSession s) = wire s ++ (if resetCallback s then [ResetCallback] else []).
Proof.
  intros [[[C1 C1' _ _] C2 C3 C4 _ _ _ _ _ _] [T1 T2 T3] _].
  unfold ResetSession. cbv zeta. set (s1 := clearTransfer _).
  assert (session_ok s1) as Hok.
  { split; [|split; simpl; [done|done|unfold MaxRetransmits; lia]|by split].
    refine (core_empty (txBuffer s) 0 0xFFF 0 _ C1 C1' _ _ _ _); done || lia. }
  change (resetCallback s1) with (resetCallback s).
  destruct (resetCallback s).
  - split; [by apply session_ok_emit|]. by split_and!.
  - split; [done|]. rewrite app_nil_r. by split_and!.
Qed.

(** ** The receive path *)

Lemma le_at_take data n : le_at (take n data) 0 n = le_at data 0 n.
Proof. unfold le_at, sub_bytes. by rewrite !drop_0, take_take, Nat.min_id. Qed.

(** The session's reading of a packet is [parse_packet]. *)
Lemma UnpackDataHeader_slice data :
  6 <= zlen data →
  slice data 2 6 = Ok (take 4 (drop 2 data)) ∧
  UnpackDataHeader (take 4 (drop 2 data)) = UnpackDataHeader (drop 2 data) ∧
  ∃ dh, UnpackDataHeader (drop 2 data) = Val dh.
Proof.
  intros Hlen. split; [by rewrite slice_ok by lia|].
  unfold UnpackDataHeader. rewrite le_at_take.
  unfold zlen in *. rewrite length_take, length_drop.
  rewrite !(proj2 (Z.ltb_ge _ _)) by lia. eauto.
Qed.

Lemma ack_flag_odd f : negb (Z.land f DataFlagACK =? 0) = Z.odd f.
Proof.
  change DataFlagACK with (2 ^ 1 - 1). rewrite land_mask by lia. change (2 ^ 1) with 2.
  rewrite Zmod_odd. by destruct (Z.odd f).
Qed.

(** The answer to a packet with a payload, after which more packets may follow. *)
Definition reply_of (s : Session) (p : data_packet) : list wire_event :=
  match classify (rxSeqExpected s) (dp_seq p) with
  | InOrder => [WriteTo (control_packet true (txSeqNr s) ((dp_seq p + 1) mod 4096))]
  | Duplicate => [WriteTo (control_packet true (txSeqNr s) (rxSeqExpected s))]
  | PeerReset => (if resetCallback s then [ResetCallback] else []) ++ [WriteTo (control_packet true 0 1)]
  | OutOfOrder => [WriteTo (control_packet false (txSeqNr s) (rxSeqExpected s))]
  end.

Definition wire_ext (w : list wire_event) (s s' : Session) : Prop :=
  ∃ rest, wire s' = (wire s ++ w) ++ rest ∧ Forall batch_ok rest.

(** The optional ACK of the peer. *)
Lemma peer_ack_opt (b : bool) a s :
  session_ok s → 0 <= a < 4096 →
  ∃ s', (if b then onPeerAck a s else Ok s) = Ok s' ∧ session_ok s' ∧
    rxSeqExpected s' = rxSeqExpected s ∧ wire_ext [] s s'.
Proof.
  intros Hok Ha. unfold wire_ext. destruct b.
  - destruct (onPeerAck_spec a s Hok Ha) as (s' & ? & ? & ? & (rest & ? & ?) & _).
    exists s'. split_and!; try done. exists rest. by rewrite app_nil_r.
  - exists s. split_and!; try done. exists []. by rewrite !app_nil_r.
Qed.

(** Accepting a payload: move on, acknowledge, take the peer's ACK. *)
Lemma accept_spec (b : bool) a sq n (payload : list byte) s :
  session_ok s → 0 <= a < 4096 → 0 <= n <= zlen payload →
  let s1 := s <| rxSeqExpected := Z.land (u16 (sq + 1)) 0xFFF |> in
  ∃ s', (s ← (if b then onPeerAck a (sendACK true s1) else Ok (sendACK true s1));
         p ← slice payload 0 n; Ok (@Val rdma_error _ (Some p), s)) =
        Ok (Val (Some (take (Z.to_nat n) payload)), s') ∧
    session_ok s' ∧ rxSeqExpected s' = (sq + 1) mod 4096 ∧
    wire_ext [WriteTo (control_packet true (txSeqNr s) ((sq + 1) mod 4096))] s s'.
Proof.
  intros Hok Ha Hn s1.
  assert (session_ok s1) as Hok1 by (apply session_ok_rx; [done|rewrite next_seq; zlia]).
  assert (rxSeqExpected s1 = (sq + 1) mod 4096) as Hrx by (unfold s1; simpl; apply next_seq).
  destruct (peer_ack_opt b a (sendACK true s1) (sendACK_ok _ _ Hok1) Ha) as (s' & -> & Hok' & Hrx' & (rest & Hw & Hb)).
  rewrite bind_Ok, slice_ok, bind_Ok by lia. rewrite Z.sub_0_r, drop_0.
  exists s'. destruct (sendACK_shape true s1) as [m Hs]. rewrite Hs in Hrx', Hw.
  rewrite Hrx in Hw. split_and!; [done|done|by rewrite Hrx'|]. exists rest. rewrite Hw.
  split; [by rewrite app_nil_r|done].
Qed.

(** What the session does with a packet of at least six bytes. *)
Record receive_post (data : list byte) (s s' : Session)
    (res : result rdma_error (option (list byte))) : Prop := {
  rp_ok : session_ok s';
  rp_rx : rxSeqExpected s' = snd (spec_receive (rxSeqExpected s) data);
  rp_res : match parse_packet data with
           | None => ∃ e, res = Err e
           | Some _ => res = Val (fst (spec_receive (rxSeqExpected s) data))
           end;
  rp_wire : match parse_packet data with
            | None => s' = s
            | Some p =>
                match dp_payload p with
                | [] => wire_ext [] s s'
                | _ => wire_ext (reply_of s p) s s'
                end
            end
}.

Lemma set_metrics_eq s f : s <| metrics ::= f |> = s <| metrics := f (metrics s) |>.
Proof. done. Qed.

Section ReceivePost.
Context (data : list byte) (s s' : Session) (p : data_packet).
Context (Hparse : parse_packet data = Some p) (Hne : dp_payload p ≠ []).
Context (Hok : session_ok s') (Hwire : wire_ext (reply_of s p) s s').

Lemma receive_post_deliver :
  classify (rxSeqExpected s) (dp_seq p) = InOrder ∨ classify (rxSeqExpected s) (dp_seq p) = PeerReset →
  rxSeqExpected s' = (dp_seq p + 1) mod 4096 →
  receive_post data s s' (Val (Some (dp_payload p))).
Proof.
  intros Hc Hrx. split; [done| | |]; unfold spec_receive; rewrite Hparse;
    (destruct (dp_payload p); [done|]); destruct Hc as [Hc|Hc]; rewrite ?Hc; done.
Qed.

Lemma receive_post_drop :
  classify (rxSeqExpected s) (dp_seq p) = Duplicate ∨ classify (rxSeqExpected s) (dp_seq p) = OutOfOrder →
  rxSeqExpected s' = rxSeqExpected s →
  receive_post data s s' (Val None).
Proof.
  intros Hc Hrx. split; [done| | |]; unfold spec_receive; rewrite Hparse;
    (destruct (dp_payload p); [done|]); destruct Hc as [Hc|Hc]; rewrite ?Hc; done.
Qed.
End ReceivePost.

(** Answering a packet that is not accepted. *)
Lemma refuse_spec ack (b : bool) a m s :
  session_ok s → 0 <= a < 4096 →
  ∃ s', (if b then onPeerAck a (sendACK ack (s <| metrics := m |>))
         else Ok (sendACK ack (s <| metrics := m |>))) = Ok s' ∧
    session_ok s' ∧ rxSeqExpected s' = rxSeqExpected s ∧
    wire_ext [WriteTo (control_packet ack (txSeqNr s) (rxSeqExpected s))] s s'.
Proof.
  intros Hok Ha. set (s1 := s <| metrics := m |>).
  assert (session_ok s1) as Hok1 by by apply session_ok_metrics.
  destruct (peer_ack_opt b a (sendACK ack s1) (sendACK_ok _ _ Hok1) Ha)
    as (s2 & Hrun2 & Hok2 & Hrx2 & (rest2 & Hw2 & Hb2)).
  destruct (sendACK_shape ack s1) as [m' Hs]. rewrite Hs in Hrx2, Hw2.
  exists s2. split_and!; [done|done|done|]. exists rest2. rewrite Hw2. simpl.
  split; [by rewrite app_nil_r|done].
Qed.

Lemma nack_opt (b : bool) a s :
  session_ok s →
  ∃ s', (if b then onPeerNack a s else Ok s) = Ok s' ∧ session_ok s' ∧
    rxSeqExpected s' = rxSeqExpected s ∧ wire_ext [] s s'.
Proof.
  intros Hok. unfold wire_ext. destruct b.
  - destruct (onPeerNack_spec a s Hok) as (s3 & H1 & H2 & H3 & _ & _ & _ & H4 & _).
    exists s3. split_and!; [done|done|done|]. rewrite (app_nil_r (wire s)). eexists. split; [done|].
    apply resend_batch_ok, Hok.
  - exists s. split_and!; try done. exists []. by rewrite !app_nil_r.
Qed.

Lemma wire_ext_trans w s1 s2 s3 : wire_ext w s1 s2 → wire_ext [] s2 s3 → wire_ext w s1 s3.
Proof.
  intros (r & H & Hb) (r' & H' & Hb'). exists (r ++ r'). split; [by rewrite H', H, app_nil_r, <-!app_assoc|].
  by apply Forall_app.
Qed.

(** The part of [ProcessDataPacket] for a packet with a payload. *)
Definition receive_payload (p : data_packet) (n : Z) (payload : list byte) (s : Session)
    : outcome (result rdma_error (option (list byte)) * Session) :=
  let peerAck s := if dp_isack p then onPeerAck (dp_acknr p) s else Ok s in
  let accept (s : Session) :=
    let s := s <| rxSeqExpected := Z.land (u16 (dp_seq p + 1)) 0xFFF |> in
    let s := sendACK true s in
    s ← peerAck s;
    q ← slice payload 0 n;
    Ok (Val (Some q), s) in
  if negb (dp_seq p =? rxSeqExpected s) then
    if dp_seq p =? Z.land (u16 (rxSeqExpected s - 1)) 0xFFF then
      let s := s <| metrics ::= λ m, m <| unexpectedSeqNrs ::= inc64 |> |> in
      let retransmit := transferPending s in
      let retransmitFromSeq := Z.land (u16 (txSeqNrAcked s + 1)) 0xFFF in
      let s := sendACK true s in
      s ← peerAck s;
      s ← (if retransmit then onPeerNack retransmitFromSeq s else Ok s);
      Ok (Val None, s)
    else if dp_seq p =? 0 then accept (ResetSession s)
    else
      let s := s <| metrics ::= λ m, m <| unexpectedSeqNrs ::= inc64 |> |> in
      let s := sendACK false s in
      s ← peerAck s;
      Ok (Val None, s)
  else accept s.

Lemma receive_payload_spec data s p n payload :
  session_ok s → 0 < n <= zlen payload → 0 <= dp_acknr p < 4096 → 0 <= dp_seq p < 4096 →
  parse_packet data = Some p → dp_payload p = take (Z.to_nat n) payload →
  ∃ res s', receive_payload p n payload s = Ok (res, s') ∧ receive_post data s s' res.
Proof.
  intros Hok Hn Ha Hsq Hparse Hpay.
  assert (dp_payload p ≠ []) as Hne.
  { rewrite Hpay. intros E. apply (f_equal length) in E. rewrite length_take in E.
    unfold zlen in *. simpl in E. lia. }
  unfold receive_payload. rewrite prev_seq. cbv zeta.
  assert (classify (rxSeqExpected s) (dp_seq p) = classify (rxSeqExpected s) (dp_seq p)) as Hc by done.
  unfold classify in Hc at 2.
  assert (reply_of s p = reply_of s p) as Hr by done. unfold reply_of in Hr at 2. rewrite Hc in Hr.
  destruct (dp_seq p =? rxSeqExpected s) eqn:E1; simpl negb; cbv iota.
  - destruct (accept_spec (dp_isack p) (dp_acknr p) (dp_seq p) n payload s Hok Ha ltac:(lia))
      as (s' & Hrun & Hok' & Hrx & Hw).
    rewrite <-Hpay in Hrun. rewrite <-Hr in Hw. eexists _, s'.
    split; [exact Hrun|]. apply receive_post_deliver with (p := p); auto.
  - destruct (dp_seq p =? (rxSeqExpected s - 1) mod 4096) eqn:E2; [|destruct (dp_seq p =? 0) eqn:E3].
    + rewrite (set_metrics_eq s).
      edestruct (refuse_spec true (dp_isack p)) as (s2 & -> & Hok2 & Hrx2 & Hw2); [exact Hok|exact Ha|].
      rewrite bind_Ok. edestruct nack_opt as (s3 & -> & Hok3 & Hrx3 & Hw3); [exact Hok2|].
      rewrite bind_Ok. eexists _, s3. split; [done|].
      apply receive_post_drop with (p := p); auto; [|congruence].
      rewrite Hr. by eapply wire_ext_trans.
    + destruct (ResetSession_ok s Hok) as (Hok0 & _ & _ & _ & Htx0 & _ & Hw0).
      destruct (accept_spec (dp_isack p) (dp_acknr p) (dp_seq p) n payload _ Hok0 Ha ltac:(lia))
        as (s' & Hrun & Hok' & Hrx & (rest & Hw & Hb)).
      rewrite <-Hpay in Hrun. eexists _, s'.
      split; [exact Hrun|]. apply receive_post_deliver with (p := p); auto.
      rewrite Hr. exists rest. split; [|exact Hb]. rewrite Hw, Hw0, Htx0. bool_to_prop. by rewrite E3, <-!app_assoc.
    + rewrite (set_metrics_eq s).
      edestruct (refuse_spec false (dp_isack p)) as (s2 & -> & Hok2 & Hrx2 & Hw2); [exact Hok|exact Ha|].
      rewrite bind_Ok. eexists _, s2. split; [done|].
      apply receive_post_drop with (p := p); auto. by rewrite Hr.
Qed.

(** A control packet: the payload is empty. *)
Lemma receive_control data s p m m' :
  session_ok s → parse_packet data = Some p → dp_payload p = [] → 0 <= dp_acknr p < 4096 →
  ∃ res s',
    (if dp_isack p then
       s ← onPeerAck (dp_acknr p) (s <| metrics := m |>); Ok (@Val rdma_error _ None, s)
     else
       s ← onPeerNack (dp_acknr p) (s <| metrics := m' |>); Ok (Val None, s)) = Ok (res, s') ∧
    receive_post data s s' res.
Proof.
  intros Hok Hparse Hpay Ha.
  assert (∀ m s', session_ok s' → rxSeqExpected s' = rxSeqExpected (s <| metrics := m |>) →
    wire_ext [] (s <| metrics := m |>) s' → receive_post data s s' (Val None)) as Hpost.
  { intros mm s' Hok' Hrx Hw. unfold wire_ext in *. simpl in *.
    split; [done| | |]; unfold spec_receive; by rewrite Hparse, Hpay. }
  destruct (dp_isack p).
  - destruct (peer_ack_opt true (dp_acknr p) _ (session_ok_metrics m s Hok) Ha) as (s' & -> & ? & ? & ?).
    eexists _, s'. split; [done|]. by eapply Hpost.
  - destruct (nack_opt true (dp_acknr p) _ (session_ok_metrics m' s Hok)) as (s' & -> & ? & ? & ?).
    eexists _, s'. split; [done|]. by eapply Hpost.
Qed.

(** Processing, by the content of the packet: nothing for a datagram that is no
    DATA packet; otherwise the packet is counted and handled as a control packet or
    as one with a payload, of [n] bytes. *)
Definition count_rx (s : Session) : metricContainer := metrics s <| packetsRx ::= inc64 |>.

Definition receive_ctl (p : data_packet) (s : Session)
    : outcome (result rdma_error (option (list byte)) * Session) :=
  if dp_isack p then s ← onPeerAck (dp_acknr p) s; Ok (Val None, s)
  else
    let s := s <| metrics ::= λ m, m <| peerNACKs ::= inc64 |> |> in
    s ← onPeerNack (dp_acknr p) s; Ok (Val None, s).

Lemma ProcessDataPacket_run data s :
  6 <= zlen data →
  match parse_packet data with
  | None => ∃ e, ProcessDataPacket data s = Ok (Err e, s)
  | Some p =>
      0 <= dp_acknr p < 4096 ∧ 0 <= dp_seq p < 4096 ∧
      ∃ n, 0 <= n <= zlen (drop 6 data) ∧ dp_payload p = take (Z.to_nat n) (drop 6 data) ∧
        ProcessDataPacket data s =
          if n =? 0 then receive_ctl p (s <| metrics := count_rx s |>)
          else receive_payload p n (drop 6 data) (s <| metrics := count_rx s |>)
  end.
Proof.
  intros Hlen. destruct (UnpackDataHeader_slice data Hlen) as (Hslice & Hdh & dh & Hdh').
  unfold ProcessDataPacket, parse_packet.
  destruct (UnpackHeader data) as [h|e] eqn:Hh; [|by eexists]. rewrite Hdh'.
  destruct (PacketType h =? PacketData) eqn:Ht; simpl negb; cbv iota; [|by eexists].
  rewrite Hslice, bind_Ok, Hdh, Hdh'. cbv zeta. rewrite set_metrics_eq.
  rewrite slice_ok, bind_Ok by lia. set (payload := take _ (drop (Z.to_nat 6) data)). rewrite ack_flag_odd.
  assert (payload = drop 6 data) as Hpayload.
  { unfold payload. apply take_ge. rewrite length_drop. unfold zlen in *. lia. }
  clearbody payload. subst payload.
  pose proof (UnpackHeader_wf _ _ Hh) as [_ Hsq].
  pose proof (UnpackDataHeader_wf _ _ Hdh') as (Ha & _ & Hw & Hc).
  split; [exact Ha|]. split; [exact Hsq|].
  set (n := if zlen (drop 6 data) <? _ then _ else _). exists n.
  split; [unfold n; pose proof (zlen_nonneg (drop 6 data)); case_bool; lia|].
  split; [|reflexivity]. unfold n. simpl dp_payload. case_bool; [|done].
  unfold zlen in *. by rewrite !take_ge by lia.
Qed.

Theorem ProcessDataPacket_spec data s :
  session_ok s → 6 <= zlen data →
  ∃ res s', ProcessDataPacket data s = Ok (res, s') ∧ receive_post data s s' res.
Proof.
  intros Hok Hlen. pose proof (ProcessDataPacket_run data s Hlen) as Hrun.
  destruct (parse_packet data) as [p|] eqn:Hparse; last first.
  { destruct Hrun as [e Hrun]. eexists _, s. split; [exact Hrun|].
    split; [done| | |]; unfold spec_receive; rewrite Hparse; eauto. }
  destruct Hrun as (Ha & Hsq & n & Hn & Hpay & ->).
  set (s1 := s <| metrics := count_rx s |>).
  assert (session_ok s1) as Hok1 by by apply session_ok_metrics.
  destruct (n =? 0) eqn:En; bool_to_prop.
  - unfold receive_ctl. rewrite set_metrics_eq. apply (receive_control data s p); [done|done| |done].
    by rewrite Hpay, En.
  - destruct (receive_payload_spec data s1 p n (drop 6 data)) as (res & s' & Hrun & Hpost);
      [done|lia|done|done|done|done|].
    exists res, s'. split; [exact Hrun|].
    destruct Hpost as [P1 P2 P3 P4]. split; [done|exact P2|exact P3|]. rewrite Hparse in *. exact P4.
Qed.
