(* ===== verification/RdmaWire.v ===== *)
(** * What the wire log of a session says about resets

    Only [ResetSession] calls the reset callback: every other operation leaves the
    reset entries of the log as they are. *)
From S2P Require Import Prelude RdmaProtocol RdmaSession RdmaPack RdmaInvariant RdmaTimer RdmaAck RdmaReceive.

Definition is_reset (e : wire_event) : bool := match e with ResetCallback => true | _ => false end.

(** The calls of the reset callback so far. *)
Definition resets (s : Session) : list wire_event := List.filter is_reset (wire s).

(** Whether the callback is set, with the log, and with its resets only. *)
Definition log (s : Session) : bool * list wire_event := (resetCallback s, wire s).
Definition reset_log (s : Session) : bool * list wire_event := (resetCallback s, resets s).

Lemma reset_log_log s s' : log s' = log s → reset_log s' = reset_log s.
Proof. unfold log, reset_log, resets. by intros [= -> ->]. Qed.

Lemma reset_log_emit e s : is_reset e = false → reset_log (emit e s) = reset_log s.
Proof.
  intros He. unfold reset_log, resets, emit. simpl. rewrite List.filter_app. simpl. by rewrite He, app_nil_r.
Qed.

Lemma update_log s : log (updateAckTimer s) = log s.
Proof. by destruct (updateAckTimer_shape s) as (t & e & q & m & ->). Qed.

Lemma sendACK_reset_log ack s : reset_log (sendACK ack s) = reset_log s.
Proof.
  destruct (sendACK_shape ack s) as [m Hs]. rewrite Hs. unfold reset_log, resets. simpl.
  rewrite List.filter_app. simpl. by rewrite app_nil_r.
Qed.

Lemma pack_log h d fin s pkt s' : packDataPacket h d fin s = Ok (pkt, s') → log s' = log s.
Proof.
  unfold packDataPacket. cbv zeta. intros Hr.
  apply bind_Ok_inv in Hr as (slot & _ & Hr). apply bind_Ok_inv in Hr as (b & _ & Hr).
  destruct (txWriteIndex _ =? _); [done|]. injection Hr as _ <-. by destruct fin.
Qed.

Lemma transfer_loop_log n batch s batch' s' :
  handleTransfer_loop n batch s = Ok (batch', s') → log s' = log s.
Proof.
  revert batch s. induction n as [|n IH]; intros batch s; cbn [handleTransfer_loop];
    destruct (t_data (s_transfer s)) as [data|]; try (by intros [= _ <-]);
    (destruct (negb _); [by intros [= _ <-]|]); [done|]. cbv zeta.
  case_match; [|case_match; [by intros [= _ <-]|]]; intros Hr.
  - apply bind_Ok_inv in Hr as (chunk & _ & Hr). apply bind_Ok_inv in Hr as ([pkt s1] & Hp & Hr).
    apply IH in Hr. apply pack_log in Hp. rewrite Hr. by case_match.
  - apply bind_Ok_inv in Hr as (chunk & _ & Hr). apply bind_Ok_inv in Hr as ([pkt s1] & Hp & Hr).
    apply IH in Hr. apply pack_log in Hp. rewrite Hr, Hp. by case_match.
Qed.

Lemma handleTransfer_reset_log s s' : handleTransfer s = Ok s' → reset_log s' = reset_log s.
Proof.
  unfold handleTransfer. intros Hr. apply bind_Ok_inv in Hr as ([batch s1] & Hl & Hr).
  injection Hr as <-. apply transfer_loop_log, reset_log_log in Hl. rewrite (reset_log_log _ _ (update_log _)).
  destruct batch; [done|]. by rewrite reset_log_emit.
Qed.

Lemma prune_log n a s s' : pruneAcked_loop n a s = Ok s' → log s' = log s.
Proof.
  revert s. induction n as [|n IH]; intros s; cbn [pruneAcked_loop]; (case_match; [by intros [= <-]|]); [done|].
  intros Hr. apply bind_Ok_inv in Hr as (p & _ & Hr). case_match; [by injection Hr as <-|]. by apply IH in Hr.
Qed.

Lemma pruneAcked_log a s s' : pruneAcked a s = Ok s' → log s' = log s.
Proof. unfold pruneAcked. generalize (Z.to_nat txBufferLen). intros n. apply prune_log. Qed.

Lemma onAck_log a s s' : onAck a s = Ok s' → log s' = log s.
Proof.
  unfold onAck. intros Ha. destruct (txReadIndex s =? txWriteIndex s); [by injection Ha as <-|].
  cbv zeta in Ha. destruct (negb _); [by injection Ha as <-|]. apply bind_Ok_inv in Ha as (s1 & Hp & Ha).
  apply pruneAcked_log in Hp. assert (log s1 = log s) as <- by exact Hp. clear Hp.
  destruct (a =? _); injection Ha as <-; [reflexivity|by rewrite update_log].
Qed.

Lemma onPeerAck_reset_log a s s' : onPeerAck a s = Ok s' → reset_log s' = reset_log s.
Proof.
  unfold onPeerAck. intros Hr. apply bind_Ok_inv in Hr as (s1 & Ha & Hr).
  apply onAck_log, reset_log_log in Ha. rewrite <-Ha.
  destruct (transferPending s1); [by apply handleTransfer_reset_log|by injection Hr as <-].
Qed.

Lemma retransmit_log n i f batch s batch' s' :
  retransmitFrom_loop n i f batch s = Ok (batch', s') → log s' = log s.
Proof.
  revert i batch s. induction n as [|n IH]; intros i batch s; cbn [retransmitFrom_loop];
    (case_match; [by intros [= _ <-]|]); [done|]. intros Hr. apply bind_Ok_inv in Hr as (p & _ & Hr).
  cbv zeta in Hr. destruct (2048 <=? _); [by injection Hr as _ <-|]. by destruct (negb _); apply IH in Hr.
Qed.

Lemma retransmitFrom_reset_log f s n s' : retransmitFrom f s = Ok (n, s') → reset_log s' = reset_log s.
Proof.
  unfold retransmitFrom. generalize (Z.to_nat txBufferLen). intros fuel Hl.
  apply bind_Ok_inv in Hl as ([batch s2] & Hl & Hr). injection Hr as _ <-.
  apply retransmit_log, reset_log_log in Hl. destruct batch; [done|]. by rewrite reset_log_emit.
Qed.

Lemma onPeerNack_reset_log a s s' : onPeerNack a s = Ok s' → reset_log s' = reset_log s.
Proof.
  unfold onPeerNack. intros Hr. apply bind_Ok_inv in Hr as ([n s1] & Hf & Hr). injection Hr as <-.
  apply retransmitFrom_reset_log in Hf. rewrite (reset_log_log _ _ (update_log _)). by rewrite Hf.
Qed.

(** The calls of the reset callback that processing a packet makes: one, when the
    packet makes the session take its peer for restarted. *)
Definition packet_resets (s : Session) (data : list byte) : list wire_event :=
  match parse_packet data with
  | Some p =>
      match dp_payload p with
      | [] => []
      | _ =>
          match classify (rxSeqExpected s) (dp_seq p) with
          | PeerReset => if resetCallback s then [ResetCallback] else []
          | _ => []
          end
      end
  | None => []
  end.

Lemma peer_ack_reset_log (b : bool) a s s' : (if b then onPeerAck a s else Ok s) = Ok s' → reset_log s' = reset_log s.
Proof. destruct b; [apply onPeerAck_reset_log|by intros [= <-]]. Qed.

Lemma nack_opt_reset_log (b : bool) a s s' : (if b then onPeerNack a s else Ok s) = Ok s' → reset_log s' = reset_log s.
Proof. destruct b; [apply onPeerNack_reset_log|by intros [= <-]]. Qed.

Lemma ResetSession_reset_log s :
  reset_log (ResetSession s) = (resetCallback s, resets s ++ (if resetCallback s then [ResetCallback] else [])).
Proof.
  unfold ResetSession, reset_log. cbv zeta. simpl. destruct (resetCallback s) eqn:E; simpl.
  - unfold resets. simpl. by rewrite E, List.filter_app.
  - by rewrite E, app_nil_r.
Qed.

Lemma refuse_reset_log ack (b : bool) a m s s' :
  (if b then onPeerAck a (sendACK ack (s <| metrics := m |>)) else Ok (sendACK ack (s <| metrics := m |>))) = Ok s' →
  reset_log s' = reset_log s.
Proof. intros Hr. apply peer_ack_reset_log in Hr. by rewrite Hr, sendACK_reset_log. Qed.

Lemma receive_payload_reset_log p n payload s res s' :
  receive_payload p n payload s = Ok (res, s') →
  reset_log s' = (resetCallback s, resets s ++
    match classify (rxSeqExpected s) (dp_seq p) with
    | PeerReset => if resetCallback s then [ResetCallback] else []
    | _ => []
    end).
Proof.
  assert (∀ s0 n0 res s', (s1 ← (if dp_isack p then onPeerAck (dp_acknr p) (sendACK true (s0 <| rxSeqExpected := n0 |>))
                            else Ok (sendACK true (s0 <| rxSeqExpected := n0 |>)));
                     q ← slice payload 0 n; Ok (@Val rdma_error _ (Some q), s1)) = Ok (res, s') →
            reset_log s' = reset_log s0) as Haccept.
  { intros s0 n0 res' s1 Hr. apply bind_Ok_inv in Hr as (s2 & Ha & Hr).
    apply bind_Ok_inv in Hr as (q & _ & Hr). injection Hr as _ <-. apply peer_ack_reset_log in Ha.
    by rewrite Ha, sendACK_reset_log. }
  unfold receive_payload, classify. rewrite prev_seq. cbv zeta.
  destruct (dp_seq p =? rxSeqExpected s); simpl negb; cbv iota.
  { rewrite app_nil_r. apply Haccept. }
  destruct (dp_seq p =? (rxSeqExpected s - 1) mod 4096); [|destruct (dp_seq p =? 0)].
  - rewrite app_nil_r, (set_metrics_eq s). intros Hr. apply bind_Ok_inv in Hr as (s1 & Ha & Hr).
    apply bind_Ok_inv in Hr as (s2 & Hn & Hr). injection Hr as _ <-.
    apply refuse_reset_log in Ha. apply nack_opt_reset_log in Hn. by rewrite Hn, Ha.
  - intros Hr. apply Haccept in Hr. by rewrite Hr, ResetSession_reset_log.
  - rewrite app_nil_r, (set_metrics_eq s). intros Hr. apply bind_Ok_inv in Hr as (s1 & Ha & Hr).
    injection Hr as _ <-. by apply refuse_reset_log in Ha.
Qed.

Lemma ProcessDataPacket_reset_log data s res s' :
  6 <= zlen data → ProcessDataPacket data s = Ok (res, s') →
  reset_log s' = (resetCallback s, resets s ++ packet_resets s data).
Proof.
  intros Hlen Hr. pose proof (ProcessDataPacket_run data s Hlen) as Hrun. unfold packet_resets.
  destruct (parse_packet data) as [p|]; last first.
  { destruct Hrun as [e Hrun]. rewrite Hrun in Hr. injection Hr as _ <-. by rewrite app_nil_r. }
  destruct Hrun as (_ & _ & n & Hn & Hpay & Hrun). rewrite Hrun in Hr. rewrite Hpay.
  destruct (n =? 0) eqn:En; bool_to_prop.
  - rewrite En. simpl. rewrite app_nil_r. unfold receive_ctl in Hr.
    destruct (dp_isack p); apply bind_Ok_inv in Hr as (s1 & Ha & Hr); injection Hr as _ <-.
    + by apply onPeerAck_reset_log in Ha.
    + by apply onPeerNack_reset_log in Ha.
  - destruct (take (Z.to_nat n) (drop 6 data)) as [|x l] eqn:Et.
    { exfalso. apply (f_equal length) in Et. rewrite length_take in Et. unfold zlen in *. simpl in Et. lia. }
    by apply receive_payload_reset_log in Hr.
Qed.

(** Sending and timeouts. *)
Lemma start_reset_log t s : reset_log (resetSendState s <| s_transfer := t |>) = reset_log s.
Proof. unfold resetSendState, stopAckTimer. cbv zeta. by destruct s. Qed.

Lemma SendData_reset_log p s s' : SendData p s = Ok s' → reset_log s' = reset_log s.
Proof. unfold SendData. cbv zeta. intros Hr. apply handleTransfer_reset_log in Hr. by rewrite Hr, start_reset_log. Qed.

Lemma SendRaw_reset_log h d s s' : SendRawDataWithHeader h d s = Ok s' → reset_log s' = reset_log s.
Proof.
  unfold SendRawDataWithHeader. cbv zeta. intros Hr. apply handleTransfer_reset_log in Hr.
  by rewrite Hr, start_reset_log.
Qed.

Lemma armAckTimer_log s : log (armAckTimer s) = log s.
Proof. by destruct (armAckTimer_shape s) as (t & e & q & m & ->). Qed.

Lemma stopAckTimer_log s : log (stopAckTimer s) = log s.
Proof. by rewrite stopAckTimer_shape. Qed.

Lemma handleAckTimeout_reset_log s s' : handleAckTimeout s = Ok s' → reset_log s' = reset_log s.
Proof.
  unfold handleAckTimeout. cbv zeta.
  destruct (_ && _); [intros [= <-]; apply reset_log_log, stopAckTimer_log|]. intros Hr.
  apply bind_Ok_inv in Hr as ([n s1] & Hf & Hr). apply retransmitFrom_reset_log in Hf.
  assert (reset_log s1 = reset_log s) as <- by exact Hf. clear Hf.
  destruct (retransmitAttempts s1 <? MaxRetransmits); injection Hr as <-.
  { apply reset_log_log, armAckTimer_log. }
  apply reset_log_log. destruct (finPending s); [exact (stopAckTimer_log _)|exact (stopAckTimer_log _)].
Qed.

Lemma timer_reset_log s s' : step OpTimer s = Ok s' → reset_log s' = reset_log s.
Proof.
  cbn [step]. destruct (ackTimer s); [|by intros [= <-]]. unfold ackTimerFunc.
  destruct (_ || _); [by intros [= <-]|]. intros Hr. by apply handleAckTimeout_reset_log in Hr.
Qed.
