(* ===== verification/RdmaStep.v ===== *)
(** * Every operation keeps the session invariant

    Each operation of the transition system returns, and preserves
    [session_ok], under the conditions its callers meet ([op_ok]). *)
From S2P Require Import Prelude RdmaProtocol RdmaSession RdmaRing RdmaPack RdmaInvariant RdmaTransfer RdmaTimer RdmaAck RdmaReceive.

(** What the callers guarantee: the UDPFS layer sends single messages of at most
    [MaxSingle] bytes and an 8-byte header before raw data, and the server drops
    packets shorter than six bytes. *)
Definition op_ok (o : session_op) : Prop :=
  match o with
  | OpSendData p => zlen p <= MaxSingle
  | OpSendRaw h _ => zlen h < MaxDataPayload
  | OpPacket d => 6 <= zlen d
  | _ => True
  end.

#[export] Instance op_ok_dec o : Decision (op_ok o).
Proof. destruct o; simpl; apply _. Defined.

Lemma packetsFor_mono n a b : 0 <= n → 0 < a <= b → packetsFor n b <= packetsFor n a.
Proof.
  intros Hn Hab. unfold packetsFor.
  apply Z.div_le_lower_bound; [lia|].
  destruct (Z.eq_dec n 0) as [->|].
  { replace (0 + b - 1) with (b - 1) by lia. rewrite Z.div_small by lia. lia. }
  pose proof (Z.mul_div_le (n + b - 1) b ltac:(lia)).
  set (q := (n + b - 1) / b) in *.
  assert (0 <= q) by (apply Z.div_pos; lia).
  assert (q <= n \/ n < q) as [?|?] by lia; nia.
Qed.

Lemma optimalChunkSize_1408 n : 0 <= n → optimalChunkSize n = 1408.
Proof.
  intros Hn. unfold optimalChunkSize.
  pose proof (packetsFor_mono n 1024 1408 Hn ltac:(lia)).
  pose proof (packetsFor_mono n 1280 1408 Hn ltac:(lia)).
  cbn [foldl]. rewrite (proj2 (Z.ltb_ge _ _)) by lia.
  rewrite (proj2 (Z.ltb_ge _ _)) by lia. by rewrite Z.ltb_irrefl.
Qed.

Lemma slot_ok_zero : slot_ok {| tx_array := replicate txPacketCap (z2b 0); tx_len := txPacketCap; seq := 0 |}.
Proof. split; cbn [tx_array tx_len]; [apply length_replicate|done]. Qed.

Lemma NewSession_ok : session_ok NewSession.
Proof.
  split.
  - refine (core_empty _ 0 0xFFF 0 _ _ _ _ _ _ _); try lia; [| |done].
    + apply length_replicate.
    + apply Forall_replicate, slot_ok_zero.
  - by split.
  - by split.
Qed.

(** Both send operations start a transfer on an empty ring. *)
Lemma start_transfer t s :
  session_ok s → transfer_ok t →
  let s0 := (resetSendState s) <| s_transfer := t |> in
  ∃ s' ds, handleTransfer s0 = Ok s' ∧ session_ok s' ∧ transfer_post s0 s' ds ∧ ring s0 = [].
Proof.
  intros [Hcore Htimer _] Ht s0. destruct (reset_send_core s Hcore Htimer t Ht) as [Hc Hi].
  destruct (handleTransfer_spec s0 Hc Hi) as (s' & ds & ? & ? & ?). eauto 10.
Qed.

Lemma SendData_transfer_ok payload :
  zlen payload <= MaxSingle → transfer_ok (mkTransfer [] (Some payload) 0 (zlen payload)).
Proof.
  intros Hlen d [= <-]. pose proof (zlen_nonneg payload). simpl. split_and!; try lia; try done.
  intros Hne. destruct payload; [done|]. unfold zlen in *. simpl in *. lia.
Qed.

Lemma SendRaw_transfer_ok header data :
  zlen header < MaxDataPayload →
  transfer_ok (mkTransfer header (Some data) 0 (optimalChunkSize (zlen data))).
Proof.
  intros Hlen d [= <-]. pose proof (zlen_nonneg data). simpl.
  rewrite optimalChunkSize_1408 by done. unfold MaxSingle. split_and!; try lia; done.
Qed.

Lemma SendData_ok payload s :
  session_ok s → zlen payload <= MaxSingle → ∃ s', SendData payload s = Ok s' ∧ session_ok s'.
Proof.
  intros Hok Hl.
  destruct (start_transfer _ s Hok (SendData_transfer_ok payload Hl)) as (s' & _ & H & ? & _).
  exists s'. split; [exact H|done].
Qed.

Lemma SendRaw_ok header data s :
  session_ok s → zlen header < MaxDataPayload →
  ∃ s', SendRawDataWithHeader header data s = Ok s' ∧ session_ok s'.
Proof.
  intros Hok Hl.
  destruct (start_transfer _ s Hok (SendRaw_transfer_ok header data Hl)) as (s' & _ & H & ? & _).
  exists s'. split; [exact H|done].
Qed.

Lemma ackTimerFunc_spec s :
  core_ok s → 0 <= retransmitAttempts s < MaxRetransmits →
  (transferPending s = true → SendWindow <= InFlight s) →
  (ackWait s ≠ ackWaitNone → ackTimerExpectSeq s = ackTimerSeq s) →
  if closed s || bool_decide (ackWait s = ackWaitNone) then ackTimerFunc s = Ok s
  else
    ∃ s', ackTimerFunc s = Ok s' ∧ session_ok s' ∧
      handleAckTimeout (s <| ackWait := ackWaitNone |>) = Ok s'.
Proof.
  intros Hcore Hatt Hw Hseq. unfold ackTimerFunc.
  destruct (closed s); simpl; [done|]. case_bool_decide as Hm; simpl; [done|].
  rewrite Hseq, Z.eqb_refl by done. simpl.
  destruct (handleAckTimeout_spec (s <| ackWait := ackWaitNone |>)) as (s' & -> & Hok & _);
    [exact Hcore|done|done|exact Hw|]. eauto.
Qed.

Lemma session_ok_stop_timer s :
  session_ok s → closed s = true ∨ ackTimer s = None → session_ok (s <| ackTimer := None |>).
Proof.
  intros [Hcore [T1 T2 T3] [W1 W2 W3]] Hor. split; [exact Hcore| |split; [exact W1|exact W2|exact W3]].
  split; [exact T1| |exact T3]. intros Hc. destruct Hor as [Hcl|Hnone]; [|by rewrite <-Hnone; apply T2].
  change (closed s = false) in Hc. congruence.
Qed.

Lemma timer_expire_ok s :
  session_ok s → is_Some (ackTimer s) →
  ∃ s', ackTimerFunc (s <| ackTimer := None |>) = Ok s' ∧ session_ok s'.
Proof.
  intros Hok [d Hd]. pose proof Hok as [Hcore [T1 T2 T3] [W1 W2 W3]].
  set (s0 := s <| ackTimer := None |>).
  pose proof (ackTimerFunc_spec s0 Hcore T3 W2 T1) as H.
  change (closed s0) with (closed s) in H. change (ackWait s0) with (ackWait s) in H.
  destruct (closed s || bool_decide (ackWait s = ackWaitNone)) eqn:Hb.
  - exists s0. split; [exact H|]. apply session_ok_stop_timer; [done|].
    apply orb_true_iff in Hb as [Hc|Hm%bool_decide_eq_true]; [by left|].
    destruct (closed s) eqn:Hc; [by left|]. rewrite T2, Hm in Hd by done. done.
  - destruct H as (s' & H1 & H2 & _). exists s'. exact (conj H1 H2).
Qed.

Theorem step_ok o s :
  session_ok s → op_ok o → ∃ s', step o s = Ok s' ∧ session_ok s'.
Proof.
  intros Hok Ho. destruct o as [p|h d|a|d| | | |]; cbn [step op_ok] in *.
  - by apply SendData_ok.
  - by apply SendRaw_ok.
  - eexists; split; [done|]. destruct a; by apply sendACK_ok.
  - destruct (ProcessDataPacket_spec d s Hok Ho) as (res & s' & -> & Hp). rewrite bind_Ok.
    eexists; split; [done|]. apply (rp_ok _ _ _ _ Hp).
  - destruct (ackTimer s) as [t|] eqn:E; [|eauto]. apply timer_expire_ok; [done|by rewrite E].
  - destruct Hok as [Hcore [T1 T2 T3] [W1 W2 W3]].
    pose proof (ackTimerFunc_spec s Hcore T3 W2 T1) as H.
    destruct (closed s || _); [|destruct H as (s' & ? & ? & _); eauto].
    eexists. split; [exact H|]. by split; [|split|split].
  - eexists; split; [done|]. destruct Hok as [Hcore [T1 T2 T3] [W1 W2 W3]].
    split; [exact Hcore|by split|by split].
  - eexists; split; [done|]. unfold Close. case_bool; [done|].
    destruct Hok as [Hcore [T1 T2 T3] [W1 W2 W3]].
    split; [exact Hcore|by split|by split].
Qed.

Lemma run_ok ops s :
  session_ok s → Forall op_ok ops → ∃ s', run ops s = Ok s' ∧ session_ok s'.
Proof.
  revert s; induction ops as [|o ops IH]; intros s Hok Hops; simpl; [eauto|].
  apply Forall_cons_1 in Hops as [Ho Hops].
  destruct (step_ok o s Hok Ho) as (s1 & -> & Hok1). rewrite bind_Ok. auto.
Qed.
