(* ===== verification/RdmaTyped.v ===== *)
(** * What a session puts on the wire

    Every event that a session hands to the socket, first transmission or
    retransmission, is a well-formed control packet or a batch of well-formed DATA
    packets. *)
From S2P Require Import Prelude RdmaProtocol RdmaSession RdmaRing RdmaPack RdmaInvariant RdmaTransfer RdmaTimer RdmaAck RdmaReceive RdmaStep.

Definition event_typed (e : wire_event) : Prop :=
  match e with
  | WriteTo p => ∃ ack tx rx, 0 <= tx < 4096 ∧ 0 <= rx < 4096 ∧ p = control_packet ack tx rx
  | WriteBatch l => l ≠ [] ∧ Forall (λ p, ∃ sq, data_packet_at sq p) l
  | ResetCallback => True
  end.

(** The packets among the events. *)
Definition packets_of_event (e : wire_event) : list (list byte) :=
  match e with WriteTo p => [p] | WriteBatch ps => ps | ResetCallback => [] end.

Definition packets_of (l : list wire_event) : list (list byte) := concat (map packets_of_event l).

Lemma packets_of_cons e l : packets_of (e :: l) = packets_of_event e ++ packets_of l.
Proof. reflexivity. Qed.

Definition grows (s s' : Session) : Prop := ∃ es, wire s' = wire s ++ es ∧ Forall event_typed es.

Lemma grows_refl s s' : wire s' = wire s → grows s s'.
Proof. intros Hw. exists []. by rewrite app_nil_r. Qed.

Lemma batches_typed es : Forall batch_ok es → Forall event_typed es.
Proof. intros Hb. eapply Forall_impl; [exact Hb|]. by intros e (l & -> & Hl). Qed.

Lemma grows_batches s s' rest : wire s' = wire s ++ rest → Forall batch_ok rest → grows s s'.
Proof. intros Hw Hb. exists rest. split; [done|by apply batches_typed]. Qed.

Lemma reply_typed s p : session_ok s → 0 <= dp_seq p → Forall event_typed (reply_of s p).
Proof.
  intros [Hcore _ _] Hp. pose proof (ci_tx _ _ _ _ _ _ _ _ Hcore). pose proof (ci_rx _ _ _ _ _ _ _ _ Hcore).
  assert (∀ ack tx rx, 0 <= tx < 4096 → 0 <= rx < 4096 → Forall event_typed [WriteTo (control_packet ack tx rx)]) as Hc.
  { intros ack tx rx ??. constructor; [by exists ack, tx, rx|constructor]. }
  assert (0 <= (dp_seq p + 1) mod 4096 < 4096) by zlia. unfold reply_of.
  destruct (classify _ _); [by apply Hc..| |by apply Hc]. apply Forall_app. split; [|apply Hc; lia].
  destruct (resetCallback s); [by repeat constructor|constructor].
Qed.

Lemma timer_grows s s' :
  core_ok s → timer_inv s → wait_inv s → handleAckTimeout (s <| ackWait := ackWaitNone |>) = Ok s' → grows s s'.
Proof.
  intros Hcore [_ _ T3] [_ W2 _] Hr.
  destruct (handleAckTimeout_spec (s <| ackWait := ackWaitNone |>)) as (s1 & Hr1 & _ & _ & _ & _ & _ & _ & Hw);
    [exact Hcore|done|exact T3|exact W2|]. rewrite Hr in Hr1. injection Hr1 as <-.
  destruct (waiting _).
  - destruct Hw as [Hw _]. eapply grows_batches; [exact Hw|]. by apply (resend_batch_ok _ (s <| ackWait := ackWaitNone |>)).
  - subst s'. by apply grows_refl.
Qed.

Lemma callback_grows s s' :
  core_ok s → timer_inv s → wait_inv s → ackTimerFunc s = Ok s' → grows s s'.
Proof.
  intros Hcore Ht Hw. unfold ackTimerFunc. destruct (_ || _); [intros [= <-]; by apply grows_refl|].
  by apply timer_grows.
Qed.

Lemma expire_grows s s' :
  core_ok s → timer_inv s → wait_inv s →
  match ackTimer s with Some _ => ackTimerFunc (s <| ackTimer := None |>) | None => Ok s end = Ok s' → grows s s'.
Proof.
  intros Hcore [T1 T2 T3] [W1 W2 W3]. destruct (ackTimer s); [|intros [= <-]; by apply grows_refl].
  unfold ackTimerFunc. destruct (_ || _); [intros [= <-]; by apply grows_refl|]. intros Hr.
  destruct (handleAckTimeout_spec (s <| ackTimer := None |> <| ackWait := ackWaitNone |>))
    as (s1 & Hr1 & _ & _ & _ & _ & _ & _ & Hw); [exact Hcore|done|exact T3|exact W2|].
  rewrite Hr in Hr1. injection Hr1 as <-. destruct (waiting _).
  - destruct Hw as [Hw _]. eapply grows_batches; [exact Hw|].
    by apply (resend_batch_ok _ (s <| ackTimer := None |> <| ackWait := ackWaitNone |>)).
  - subst s'. by apply grows_refl.
Qed.

Lemma transfer_grows t s s' :
  session_ok s → transfer_ok t → handleTransfer ((resetSendState s) <| s_transfer := t |>) = Ok s' → grows s s'.
Proof.
  intros Hok Ht Hr. destruct (start_transfer t s Hok Ht) as (s1 & ds & Hr1 & Hok1 & Hpost & _).
  rewrite Hr in Hr1. injection Hr1 as <-. eapply grows_batches; [exact (tp_wire _ _ _ Hpost)|].
  by eapply transfer_batch_ok.
Qed.

Lemma SendData_start p s :
  SendData p s = handleTransfer ((resetSendState s) <| s_transfer := mkTransfer [] (Some p) 0 (zlen p) |>).
Proof. reflexivity. Qed.

Lemma SendRaw_start h d s :
  SendRawDataWithHeader h d s =
  handleTransfer ((resetSendState s) <| s_transfer := mkTransfer h (Some d) 0 (optimalChunkSize (zlen d)) |>).
Proof. reflexivity. Qed.

Lemma packet_grows data s res s' :
  session_ok s → 6 <= zlen data → ProcessDataPacket data s = Ok (res, s') → grows s s'.
Proof.
  intros Hok Hl Hr. destruct (ProcessDataPacket_spec data s Hok Hl) as (res1 & s1 & Hr1 & Hpost).
  rewrite Hr in Hr1. injection Hr1 as <- <-. pose proof (rp_wire _ _ _ _ Hpost) as Hw.
  pose proof (ProcessDataPacket_run data s Hl) as Hrun. destruct (parse_packet data) as [p|]; [|subst; by apply grows_refl].
  destruct Hrun as (_ & Hsq & _). destruct (dp_payload p); destruct Hw as (rest & Hw & Hb); apply batches_typed in Hb.
  - exists rest. by rewrite Hw, app_nil_r.
  - exists (reply_of s p ++ rest). split; [by rewrite Hw, app_assoc|]. apply Forall_app. split; [|done].
    apply reply_typed; [done|lia].
Qed.

Lemma SendData_grows p s s' : session_ok s → zlen p <= MaxSingle → SendData p s = Ok s' → grows s s'.
Proof. intros Hok Hp. rewrite SendData_start. exact (transfer_grows _ s s' Hok (SendData_transfer_ok p Hp)). Qed.

Lemma SendRaw_grows h d s s' :
  session_ok s → zlen h < MaxDataPayload → SendRawDataWithHeader h d s = Ok s' → grows s s'.
Proof. intros Hok Hh. rewrite SendRaw_start. exact (transfer_grows _ s s' Hok (SendRaw_transfer_ok h d Hh)). Qed.

Lemma SendACK_grows a s : core_ok s → grows s (SendACK a s).
Proof.
  intros Hcore. assert (∀ b, grows s (sendACK b s)) as Hg; [|unfold SendACK; destruct a; apply Hg].
  intros b. destruct (sendACK_shape b s) as [m Hs]. rewrite Hs. eexists. split; [reflexivity|].
  pose proof (ci_tx _ _ _ _ _ _ _ _ Hcore). pose proof (ci_rx _ _ _ _ _ _ _ _ Hcore).
  constructor; [|constructor]. exists b, (txSeqNr s), (rxSeqExpected s). split_and!; lia || done.
Qed.

Lemma Close_grows s : grows s (Close s).
Proof. apply grows_refl. unfold Close. by destruct (closed s). Qed.

Lemma step_grows o s s' : session_ok s → op_ok o → step o s = Ok s' → grows s s'.
Proof.
  intros Hok Ho. pose proof Hok as [Hcore Ht Hw]. destruct o as [p|h d|a|d| | | |]; cbn [step op_ok] in *.
  - by apply SendData_grows.
  - by apply SendRaw_grows.
  - intros [= <-]. by apply SendACK_grows.
  - intros Hr. apply bind_Ok_inv in Hr as ([res s1] & Hp & Hr). injection Hr as <-. by eapply packet_grows.
  - by apply expire_grows.
  - by apply callback_grows.
  - intros [= <-]. by apply grows_refl.
  - intros [= <-]. apply Close_grows.
Qed.

Lemma run_typed ops s s' :
  session_ok s → Forall op_ok ops → run ops s = Ok s' → Forall event_typed (wire s) → Forall event_typed (wire s').
Proof.
  revert s. induction ops as [|o ops IH]; intros s Hok Ho Hr Hs; cbn [run] in Hr; [by injection Hr as <-|].
  apply Forall_cons in Ho as [Ho Hos]. destruct (step_ok o s Hok Ho) as (s1 & H1 & Hok1).
  rewrite H1, bind_Ok in Hr. apply (IH s1); [done..|]. destruct (step_grows o s s1 Hok Ho H1) as (es & -> & He).
  by apply Forall_app.
Qed.

(** Both kinds of packet are read back as DATA packets. *)
Lemma typed_packet_parses e p :
  event_typed e → p ∈ packets_of_event e → ∃ q, parse_packet p = Some q ∧ 6 <= zlen p <= Z.of_nat txPacketCap.
Proof.
  assert (∀ p h, 6 <= zlen p → UnpackHeader p = Val h → PacketType h = PacketData →
    ∃ q, parse_packet p = Some q) as Hparse.
  { intros q h Hl Hh Ht. destruct (UnpackDataHeader_slice q Hl) as (_ & _ & dh & Hdh). unfold parse_packet.
    rewrite Hh, Hdh, Ht, Z.eqb_refl. by eexists. }
  intros He. destruct e as [x|l|]; cbn [event_typed packets_of_event] in *.
  - destruct He as (ack & tx & rx & Htx & Hrx & ->). intros [->|?%not_elem_of_nil]%elem_of_cons; [|done].
    assert (zlen (control_packet ack tx rx) = 6) as Hl.
    { unfold control_packet, zlen. rewrite length_app, length_Header_Pack, length_DataHeader_Pack. done. }
    destruct (Hparse (control_packet ack tx rx) {| PacketType := PacketData; SeqNr := tx |}) as [q Hq];
      [lia| |done|exists q; split; [done|rewrite Hl; done]].
    apply UnpackHeader_Pack. split; simpl; [unfold PacketData|]; lia.
  - destruct He as [_ Hl]. intros Hp. rewrite Forall_forall in Hl. destruct (Hl p Hp) as (sq & Hsq & Hmax & rx & d & _ & ->).
    assert (6 <= zlen (encode rx sq d)) as Hmin.
    { rewrite zlen_encode. unfold packet_size. pose proof (zlen_nonneg (d_header d)). pose proof (zlen_nonneg (d_chunk d)).
      pose proof (pad4_bounds (zlen (d_chunk d))). lia. }
    destruct (Hparse (encode rx sq d) {| PacketType := PacketData; SeqNr := sq |} Hmin (encode_unpack rx sq d Hsq) eq_refl)
      as [q Hq]. exists q. split; [done|lia].
  - by intros ?%not_elem_of_nil.
Qed.

Lemma typed_packets_parse l p :
  Forall event_typed l → p ∈ packets_of l → ∃ q, parse_packet p = Some q ∧ 6 <= zlen p <= Z.of_nat txPacketCap.
Proof.
  intros Hl Hp. induction Hl as [|e l He _ IH]; [by apply not_elem_of_nil in Hp|].
  rewrite packets_of_cons in Hp. apply elem_of_app in Hp as [Hp|Hp]; [by apply (typed_packet_parses e)|by apply IH].
Qed.
