(* ===== verification/RdmaDelivery.v ===== *)
(** * What a transfer delivers

    The packets of a plan carry the transfer's data exactly once and in order;
    a packet that is encoded parses back to its contents; and the receiver's
    specification, run over an arbitrary arrival sequence of numbered packets,
    delivers them exactly once and in order. *)
From Equations Require Import Equations.
From S2P Require Import Prelude RdmaProtocol RdmaSession RdmaRing RdmaPack RdmaInvariant RdmaTransfer RdmaTimer RdmaAck RdmaReceive.

(** ** The contents of a plan *)

(** FIN on the last packet only. *)
Definition fin_last (fins : list bool) : Prop :=
  ∃ n, fins = replicate n false ++ [true].

Lemma fin_last_cons fins : fin_last fins → fin_last (false :: fins).
Proof. intros [n ->]. by exists (S n). Qed.

Record plan_content (m : Z) (data : list byte) (ds : list pkt_desc) : Prop := {
  pc_data : concat (map d_chunk ds) = data;
  pc_headers : Forall (λ d, d_header d = []) ds;
  pc_sizes : Forall (λ d, 0 < zlen (d_chunk d) <= m) ds;
  pc_fin : ds ≠ [] → fin_last (map d_fin ds)
}.

Lemma chunk_plan_nil m l : chunk_plan m l = [] ↔ l = [].
Proof. destruct l; simp chunk_plan; split; done. Qed.

Lemma chunk_plan_content m l : plan_content (Z.of_nat m + 1) l (chunk_plan m l).
Proof.
  induction l as [l IH] using (induction_ltof1 _ length). unfold ltof in IH.
  destruct (decide (l = [])) as [->|Hne]; [by simp chunk_plan|].
  assert (0 < length l)%nat by (destruct l; simpl in *; [done|lia]).
  destruct (IH (drop (S m) l)) as [Hd Hh Hs Hf]; [rewrite length_drop; lia|].
  rewrite chunk_plan_step by done. split; simpl.
  - by rewrite Hd, take_drop.
  - by constructor.
  - constructor; [|done]. simpl. unfold zlen. rewrite length_take. lia.
  - intros _. destruct (bool_decide_reflect (drop (S m) l = [])) as [E|E].
    + rewrite E. simp chunk_plan. by exists 0%nat.
    + apply fin_last_cons, Hf. by rewrite chunk_plan_nil.
Qed.

(** The packets of a reply with a header. *)
Record reply_plan (header data : list byte) (ds : list pkt_desc) : Prop := {
  rpl_data : concat (map d_chunk ds) = data;
  rpl_headers : map d_header ds = header :: replicate (length ds - 1) [];
  rpl_sizes : Forall (λ d, 0 < zlen (d_header d) + zlen (d_chunk d) <= MaxDataPayload) ds;
  rpl_fin : fin_last (map d_fin ds)
}.

Lemma map_const {A B} (f : A → B) c l : Forall (λ x, f x = c) l → map f l = replicate (length l) c.
Proof. induction 1; simpl; congruence. Qed.

Lemma plan_with_header header data :
  0 < zlen header < MaxDataPayload →
  reply_plan header data (plan (mkTransfer header (Some data) 0 MaxDataPayload)).
Proof.
  intros Hh. unfold plan. cbn [t_data t_offset t_header t_maxChunk].
  rewrite Z.eqb_refl, (proj2 (Z.ltb_lt _ _)) by lia. cbn [andb].
  set (k := first_chunk _). set (m := Z.to_nat _).
  assert (Z.of_nat k = MaxDataPayload - zlen header) as Hk.
  { unfold k, first_chunk. cbn [t_header t_maxChunk]. lia. }
  assert (Z.of_nat m + 1 = MaxDataPayload) as Hm by (unfold m, MaxDataPayload; lia).
  destruct (chunk_plan_content m (drop k data)) as [Hd Hhs Hs Hf]. rewrite Hm in Hs.
  split; simpl.
  - by rewrite Hd, take_drop.
  - f_equal. rewrite Nat.sub_0_r. by apply map_const.
  - constructor.
    + simpl. unfold zlen at 2 4. rewrite length_take. lia.
    + apply Forall_forall. intros d Hin. rewrite Forall_forall in Hhs, Hs.
      rewrite (Hhs d Hin). specialize (Hs d Hin).
      change (zlen (@nil byte)) with 0. lia.
  - destruct (bool_decide_reflect (drop k data = [])) as [E|E].
    + rewrite E. simp chunk_plan. by exists 0%nat.
    + apply fin_last_cons, Hf. by rewrite chunk_plan_nil.
Qed.

(** ** Reading a packet back *)

Definition payload_of (d : pkt_desc) : list byte := d_header d ++ d_chunk d ++ padding (d_chunk d).

(** The header words and the padded data fit their bit fields. *)
Definition desc_ok (d : pkt_desc) : Prop :=
  zlen (d_header d) mod 4 = 0 ∧ zlen (d_header d) < 64 ∧ zlen (d_chunk d) <= 16380.

Lemma land_data_flags fin : Z.odd (data_flags fin) = true.
Proof. by destruct fin. Qed.

Lemma encode_parse rx sq d :
  desc_ok d → 0 <= sq < 4096 →
  parse_packet (encode rx sq d) =
    Some {| dp_seq := sq; dp_acknr := (rx - 1) mod 4096; dp_isack := true;
            dp_payload := payload_of d |}.
Proof.
  intros (Hm & Hh & Hc) Hsq. unfold parse_packet. rewrite encode_unpack by done.
  unfold encode. rewrite (drop_app_length' (encode_header sq)) by (symmetry; apply length_Header_Pack).
  unfold encode_data_header. pose proof (pad4_bounds (zlen (d_chunk d))) as Hp.
  pose proof (zlen_nonneg (d_header d)). pose proof (zlen_nonneg (d_chunk d)).
  pose proof (pad4_spec (zlen (d_chunk d))) as Hps.
  assert (pad4 (zlen (d_chunk d)) < 16384) by zlia.
  rewrite UnpackDataHeader_Pack.
  2: { rewrite prev_seq. split; cbn [SeqNrAck Flags HdrWordCount DataByteCount]; [zlia|].
       unfold u8, u16. split; [by destruct (d_fin d)|]. split; [zlia|].
       rewrite Z.mod_small by lia. lia. }
  cbn [PacketType SeqNr SeqNrAck Flags HdrWordCount DataByteCount].
  rewrite Z.eqb_refl, prev_seq, land_data_flags. do 2 f_equal.
  rewrite app_assoc, drop_app_length'
    by (rewrite length_app; unfold encode_header; by rewrite length_Header_Pack, length_DataHeader_Pack).
  rewrite take_ge; [done|].
  assert (zlen (payload_of d) = zlen (d_header d) + pad4 (zlen (d_chunk d))) as Hl.
  { unfold payload_of. rewrite !zlen_app, zlen_padding. lia. }
  unfold payload_of, zlen in Hl. unfold u8, u16. unfold zlen in *. zlia.
Qed.

(** ** Delivery over a sequence of arrivals *)

Fixpoint receive_all (expected : Z) (pkts : list (list byte)) : list (list byte) * Z :=
  match pkts with
  | [] => ([], expected)
  | p :: pkts =>
      let '(o, expected) := spec_receive expected p in
      let '(os, expected) := receive_all expected pkts in
      (option_list o ++ os, expected)
  end.

(** The session fed with the packets of its peer, as the data handler does; the
    payloads it returns, in order. *)
Fixpoint process_all (pkts : list (list byte)) (s : Session)
    : outcome (list (list byte) * Session) :=
  match pkts with
  | [] => Ok ([], s)
  | p :: pkts =>
      '(r, s) ← ProcessDataPacket p s;
      '(os, s) ← process_all pkts s;
      Ok (match r with Val (Some o) => o :: os | _ => os end, s)
  end.

Lemma process_all_refines pkts s :
  session_ok s → Forall (λ p, 6 <= zlen p) pkts →
  ∃ s', process_all pkts s = Ok (fst (receive_all (rxSeqExpected s) pkts), s') ∧ session_ok s' ∧
    rxSeqExpected s' = snd (receive_all (rxSeqExpected s) pkts).
Proof.
  intros Hok Hall. revert s Hok. induction Hall as [|p pkts Hp Hall IH]; intros s Hok; cbn [process_all].
  { exists s. done. }
  destruct (ProcessDataPacket_spec p s Hok Hp) as (res & s1 & -> & [Hok1 Hrx Hres _]).
  rewrite bind_Ok. destruct (IH s1 Hok1) as (s2 & -> & Hok2 & Hrx2).
  rewrite bind_Ok. exists s2. rewrite Hrx in *. cbn [receive_all].
  destruct (spec_receive (rxSeqExpected s) p) as [o e] eqn:E. cbn [fst snd] in *.
  destruct (receive_all e pkts) as [os e'] eqn:E'. cbn [fst snd] in *.
  split_and!; [|done|done]. do 2 f_equal.
  destruct (parse_packet p) as [q|] eqn:Eq.
  - rewrite Hres. by destruct o.
  - destruct Hres as [er ->]. unfold spec_receive in E. rewrite Eq in E. by simplify_eq.
Qed.

Section Stream.
(** A stream of packets numbered from [base] on; [rx] is what they acknowledge. *)
Context (base rx : Z) (ds : list pkt_desc).
Hypothesis (Hds : Forall (λ d, desc_ok d ∧ payload_of d ≠ []) ds).

Definition stream_seq (i : nat) : Z := (base + Z.of_nat i) mod 4096.

(** Packet [i] of the stream, as the sender encodes it. *)
Definition stream_packet (i : nat) : list byte :=
  match ds !! i with
  | Some d => encode rx (stream_seq i) d
  | None => []
  end.

(** An arrival the receiver can tell apart: less than one round of sequence
    numbers away from the next expected packet, and not the number 0 out of
    turn, which announces a restarted peer. *)
Definition arrival_ok (e i : nat) : Prop :=
  (i < length ds)%nat ∧ Z.abs (Z.of_nat i - Z.of_nat e) < 4095 ∧
  (stream_seq i = 0 → i = e ∨ S i = e).

Definition next_expected (e i : nat) : nat := if (i =? e)%nat then S e else e.
Definition advance : nat → list nat → nat := foldl next_expected.

Fixpoint arrivals_ok (e : nat) (arr : list nat) : Prop :=
  match arr with
  | [] => True
  | i :: arr => arrival_ok e i ∧ arrivals_ok (next_expected e i) arr
  end.

Lemma stream_receive e i :
  arrival_ok e i →
  spec_receive (stream_seq e) (stream_packet i) =
    (if (i =? e)%nat then payload_of <$> ds !! i else None, stream_seq (next_expected e i)).
Proof.
  intros (Hi & Hd & Hz). unfold stream_packet, next_expected.
  destruct (lookup_lt_is_Some_2 ds i Hi) as [d Hl]. rewrite Hl.
  destruct (Forall_lookup_1 _ _ _ _ Hds Hl) as [Hok Hne].
  unfold spec_receive. rewrite encode_parse by (done || unfold stream_seq; zlia).
  cbn [dp_payload dp_seq]. destruct (payload_of d) as [|b l] eqn:Ep; [done|].
  unfold classify, stream_seq in *. destruct (Nat.eqb_spec i e) as [->|Hie].
  - rewrite Z.eqb_refl. simpl. rewrite Ep. f_equal. zlia.
  - rewrite (proj2 (Z.eqb_neq _ _)) by zlia. case_bool; [done|].
    rewrite (proj2 (Z.eqb_neq _ 0)); [done|]. intros H0. specialize (Hz H0). zlia.
Qed.

Lemma advance_le e arr : (e ≤ advance e arr)%nat.
Proof.
  revert e; induction arr as [|i arr IH]; intros e; simpl; [done|].
  etrans; [|apply IH]. unfold next_expected. case_match; lia.
Qed.

(** Whatever arrives, the receiver delivers the next packets of the stream in
    order, each once. *)
Lemma stream_delivery e arr :
  arrivals_ok e arr →
  receive_all (stream_seq e) (map stream_packet arr) =
    (map payload_of (take (advance e arr - e) (drop e ds)), stream_seq (advance e arr)).
Proof.
  revert e; induction arr as [|i arr IH]; intros e; simpl.
  { by rewrite Nat.sub_diag. }
  intros [Hi Harr]. rewrite (stream_receive e i Hi), (IH _ Harr).
  pose proof (advance_le (next_expected e i) arr) as Hle. f_equal.
  unfold next_expected in *. destruct (Nat.eqb_spec i e) as [->|Hie]; [|done].
  destruct Hi as (Hi & _). destruct (lookup_lt_is_Some_2 ds e Hi) as [d Hl]. rewrite Hl.
  set (a := advance (S e) arr) in *.
  rewrite (drop_S _ _ _ Hl).
  replace (a - e)%nat with (S (a - S e)) by lia. done.
Qed.

(** Every packet that arrives in its turn at least once is delivered. *)
Lemma advance_complete e k arr : List.seq e k `sublist_of` arr → (e + k ≤ advance e arr)%nat.
Proof.
  revert e k; induction arr as [|i arr IH]; intros e k Hs; simpl.
  { apply sublist_nil_r in Hs. destruct k; simpl in *; [lia|done]. }
  destruct k as [|k]; simpl in Hs.
  { rewrite Nat.add_0_r. etrans; [|apply advance_le]. unfold next_expected. case_match; lia. }
  unfold next_expected. destruct (Nat.eqb_spec i e) as [->|Hie].
  - assert (List.seq (S e) k `sublist_of` arr) as Hs'.
    { inversion Hs; simplify_eq; [done|]. etrans; [|done]. by apply sublist_cons. }
    specialize (IH _ _ Hs'). lia.
  - apply (IH e (S k)). inversion Hs; simplify_eq; done.
Qed.
End Stream.

(** ** A plan that arrives as it was sent *)

Lemma encode_all_stream rx base ds k :
  0 <= base → encode_all rx ((base + Z.of_nat k) mod 4096) (drop k ds) =
  map (stream_packet base rx ds) (List.seq k (length ds - k)).
Proof.
  intros Hb. remember (length ds - k)%nat as n eqn:Hn. revert k Hn.
  induction n as [|n IH]; intros k Hn.
  { by rewrite drop_ge by lia. }
  destruct (lookup_lt_is_Some_2 ds k ltac:(lia)) as [d Hd].
  rewrite (drop_S _ _ _ Hd). simpl. f_equal.
  - unfold stream_packet. by rewrite Hd.
  - rewrite <-IH by lia. f_equal. zlia.
Qed.

Lemma arrivals_in_order base ds e n :
  (e + n ≤ length ds)%nat → arrivals_ok base ds e (List.seq e n).
Proof.
  revert e; induction n as [|n IH]; intros e Hle; simpl; [done|]. split.
  - split; [lia|]. split; [lia|by left].
  - unfold next_expected. rewrite Nat.eqb_refl. apply IH. lia.
Qed.

Lemma advance_in_order e n : advance e (List.seq e n) = (e + n)%nat.
Proof.
  revert e; induction n as [|n IH]; intros e; simpl; [lia|].
  unfold next_expected. rewrite Nat.eqb_refl, IH. lia.
Qed.

Lemma receive_encoded base rx ds :
  0 <= base < 4096 → Forall (λ d, desc_ok d ∧ payload_of d ≠ []) ds →
  receive_all base (encode_all rx base ds) =
    (map payload_of ds, (base + zlen ds) mod 4096).
Proof.
  intros Hb Hds. pose proof (encode_all_stream rx base ds 0 ltac:(lia)) as He.
  rewrite Z.add_0_r, Z.mod_small, drop_0, Nat.sub_0_r in He by done. rewrite He.
  pose proof (stream_delivery base rx ds Hds 0 _ (arrivals_in_order base ds 0 (length ds) ltac:(lia))) as Hs.
  unfold stream_seq in Hs at 1. rewrite Z.add_0_r, Z.mod_small in Hs by done. rewrite Hs.
  rewrite advance_in_order, Nat.add_0_l, Nat.sub_0_r, drop_0, firstn_all. done.
Qed.

Lemma reply_plan_desc_ok header data ds :
  reply_plan header data ds → zlen header mod 4 = 0 → 0 < zlen header < 64 →
  Forall (λ d, desc_ok d ∧ payload_of d ≠ []) ds.
Proof.
  intros [Hd Hh Hs Hf] Hm Hl.
  assert (Forall (λ h, h = header ∨ h = []) (map d_header ds)) as Hhs.
  { rewrite Hh. constructor; [by left|]. apply Forall_replicate. by right. }
  rewrite Forall_map in Hhs. unfold MaxDataPayload in Hs.
  eapply Forall_impl; [apply Forall_and; exact (conj Hs Hhs)|].
  simpl. intros d [Hsz Hhd]. pose proof (zlen_nonneg (d_chunk d)). split.
  - unfold desc_ok. destruct Hhd as [Hx|Hx]; rewrite Hx in *; [lia|].
    change (zlen (@nil byte)) with 0 in *. split_and!; [done|lia|lia].
  - unfold payload_of. intros [Hn1 [Hn2 _]%app_nil]%app_nil.
    rewrite Hn1, Hn2 in Hsz. unfold zlen in Hsz. simpl in Hsz. lia.
Qed.

Lemma encode_all_long rx sq ds : Forall (λ p, 6 <= zlen p) (encode_all rx sq ds).
Proof.
  revert sq; induction ds as [|d ds IH]; intros sq; simpl; constructor; [|apply IH].
  rewrite zlen_encode. unfold packet_size.
  pose proof (pad4_bounds (zlen (d_chunk d))). pose proof (zlen_nonneg (d_chunk d)).
  pose proof (zlen_nonneg (d_header d)). lia.
Qed.

Lemma stream_long base rx ds e arr :
  arrivals_ok base ds e arr → Forall (λ p, 6 <= zlen p) (map (stream_packet base rx ds) arr).
Proof.
  revert e; induction arr as [|i arr IH]; intros e; simpl; [done|]. intros [[Hi _] Harr].
  constructor; [|exact (IH _ Harr)]. unfold stream_packet.
  destruct (lookup_lt_is_Some_2 ds i Hi) as [d ->].
  exact (Forall_inv (encode_all_long rx (stream_seq base i) [d])).
Qed.
