(* ===== verification/RdmaLiveness.v ===== *)
(** * Progress: acknowledged transfers complete, unacknowledged ones are given up

    [drive] lets a peer acknowledge everything that has been sent until the
    session waits for nothing more: the whole plan is then on the wire.  Without
    acknowledgements, the timer retransmits the buffered packets [MaxRetransmits]
    times and gives up. *)
From Equations Require Import Equations.
From S2P Require Import Prelude RdmaProtocol RdmaSession RdmaRing RdmaPack RdmaInvariant RdmaTransfer RdmaTimer RdmaAck RdmaReceive RdmaStep RdmaTyped RdmaDelivery.

(** The packets of the batches in a log. *)
Definition batched (w : list wire_event) : list (list byte) :=
  concat (map (λ e, match e with WriteBatch l => l | _ => [] end) w).

Lemma batched_app w1 w2 : batched (w1 ++ w2) = batched w1 ++ batched w2.
Proof. unfold batched. by rewrite map_app, concat_app. Qed.

Lemma encode_all_app rx sq a b :
  0 <= sq < 4096 →
  encode_all rx sq (a ++ b) = encode_all rx sq a ++ encode_all rx ((sq + zlen a) mod 4096) b.
Proof.
  revert sq; induction a as [|d a IH]; intros sq Hsq; simpl.
  { unfold zlen. simpl. by rewrite Z.add_0_r, Z.mod_small. }
  rewrite IH by zlia. do 3 f_equal. unfold zlen. simpl length. zlia.
Qed.

(** ** Control packets *)

Lemma control_parse (ack : bool) tx rx :
  0 <= tx < 4096 → 0 <= rx < 4096 →
  UnpackHeader (control_packet ack tx rx) = Val {| PacketType := PacketData; SeqNr := tx |} ∧
  zlen (control_packet ack tx rx) = 6 ∧
  UnpackDataHeader (drop 2 (control_packet ack tx rx)) =
    Val {| SeqNrAck := if ack then (rx - 1) mod 4096 else rx;
           Flags := if ack then DataFlagACK else 0; HdrWordCount := 0; DataByteCount := 0 |}.
Proof.
  intros Htx Hrx. unfold control_packet. split_and!.
  - apply UnpackHeader_Pack. split; cbn [PacketType SeqNr]; [unfold PacketData|]; lia.
  - rewrite zlen_app. unfold zlen. by rewrite length_Header_Pack, length_DataHeader_Pack.
  - rewrite drop_app_length' by (symmetry; apply length_Header_Pack).
    rewrite <-(app_nil_r (DataHeader_Pack _)). apply UnpackDataHeader_Pack.
    destruct ack; split; cbn [SeqNrAck Flags HdrWordCount DataByteCount];
      split_and!; unfold DataFlagACK; try lia; zlia.
Qed.

(** A control packet is consumed by the acknowledgement handling. *)
Lemma ProcessDataPacket_control (ack : bool) tx rx s :
  0 <= tx < 4096 → 0 <= rx < 4096 →
  ∃ m, ProcessDataPacket (control_packet ack tx rx) s =
    (s ← (if ack then onPeerAck ((rx - 1) mod 4096) (s <| metrics := m |>)
          else onPeerNack rx (s <| metrics := m |>));
     Ok (Val None, s)).
Proof.
  intros Htx Hrx. destruct (control_parse ack tx rx Htx Hrx) as (Hh & Hl & Hd).
  set (pkt := control_packet ack tx rx) in *.
  destruct (UnpackDataHeader_slice pkt ltac:(lia)) as (Hs & Hd' & _).
  unfold ProcessDataPacket. rewrite Hh. cbn [PacketType negb]. rewrite Z.eqb_refl. cbn [negb].
  rewrite Hs, bind_Ok, Hd', Hd. cbv zeta. rewrite slice_ok, bind_Ok by lia.
  cbn [HdrWordCount DataByteCount SeqNrAck Flags].
  assert (take (Z.to_nat (zlen pkt - 6)) (drop (Z.to_nat 6) pkt) = []) as -> by (rewrite Hl; done).
  change (zlen (@nil byte)) with 0. rewrite set_metrics_eq.
  destruct ack; simpl; eexists; done.
Qed.

(** ** Acknowledged transfers *)

(** A session that is waiting for its last packet, or for nothing. *)
Record settled (s : Session) : Prop := {
  se_ok : session_ok s;
  se_fin : finPending s = true → ring s ≠ [];
  se_idle : transferPending s = false → finPending s = false → ring s = []
}.

Lemma plan_fin t : transfer_ok t → plan t ≠ [] → existsb d_fin (plan t) = true.
Proof.
  intros Ht Hne.
  assert (∀ l, fin_last (map d_fin l) → existsb d_fin l = true) as Hlast.
  { intros l [n Hl]. apply existsb_exists.
    assert (In true (map d_fin l)) as (d & Hd & Hin)%in_map_iff; [|by exists d].
    rewrite Hl. apply in_or_app. right. by left. }
  unfold plan in *. destruct (t_data t) as [d|]; [|done]. case_bool.
  - simpl. destruct (bool_decide_reflect (drop (first_chunk t) d = [])) as [|E]; [done|]. simpl.
    apply Hlast, (pc_fin _ _ _ (chunk_plan_content _ _)). by rewrite chunk_plan_nil.
  - by apply Hlast, (pc_fin _ _ _ (chunk_plan_content _ _)).
Qed.

Lemma ring_nil_InFlight s : core_ok s → ring s = [] → InFlight s = 0.
Proof.
  intros Hcore Hr. rewrite InFlight_spec.
  apply (ring_of_nil_iff _ _ _ (ci_ring _ _ _ _ _ _ _ _ Hcore)) in Hr.
  by rewrite Hr, Z.eqb_refl.
Qed.

(** Sending on an empty ring settles the session; a transfer that is still
    pending has put packets on the wire. *)
Lemma transfer_settles s s' ds :
  core_ok s → ring s = [] → finPending s = false →
  session_ok s' → transfer_post s s' ds →
  settled s' ∧ (transferPending s' = true → ds ≠ []).
Proof.
  intros Hcore Hr Hf Hok' Hpost. split.
  - split; [done| |].
    + rewrite (tp_fin _ _ _ Hpost), Hf. intros Hds Hr'.
      pose proof (tp_ring _ _ _ Hpost) as Hring. rewrite Hr, Hr' in Hring. by destruct ds.
    + intros Hp' Hf'. rewrite (tp_fin _ _ _ Hpost), Hf in Hf'.
      assert (plan (s_transfer s) = ds) as Hplan.
      { rewrite (tp_plan _ _ _ Hpost), plan_cleared, app_nil_r; [done|].
        unfold transferPending in Hp'. by destruct (t_data _). }
      assert (ds = []) as ->.
      { destruct ds; [done|]. rewrite <-Hplan, plan_fin in Hf'; [done|apply Hcore|by rewrite Hplan]. }
      pose proof (tp_ring _ _ _ Hpost) as Hring. rewrite Hr in Hring. by apply map_eq_nil in Hring.
  - intros Hp ->. pose proof (wi_window _ (so_wait _ Hok') Hp) as Hw.
    destruct (tp_open _ _ _ Hpost) as [[_ Ho]|[Ho|[Ho _]]].
    + rewrite Ho, ring_nil_InFlight in Hw by done. by unfold SendWindow in Hw.
    + pose proof (tp_ring _ _ _ Hpost) as Hring. rewrite Hr in Hring. apply map_eq_nil in Hring.
      rewrite ring_nil_InFlight in Hw by (done || apply Hok'). by unfold SendWindow in Hw.
    + done.
Qed.

(** The peer acknowledges the last packet sent. *)
Definition last_sent (s : Session) : Z := (txSeqNr s - 1) mod 4096.

Lemma onAck_last s :
  session_ok s → ring s ≠ [] →
  ∃ s', onAck (last_sent s) s = Ok s' ∧ core_ok s' ∧ timer_inv s' ∧ ring s' = [] ∧
    finPending s' = false ∧ s_transfer s' = s_transfer s ∧ wire s' = wire s ∧
    txSeqNr s' = txSeqNr s ∧ rxSeqExpected s' = rxSeqExpected s.
Proof.
  intros [Hcore Htimer Hwait] Hne.
  pose proof (ci_tx _ _ _ _ _ _ _ _ Hcore) as Htx. pose proof (ci_ack _ _ _ _ _ _ _ _ Hcore) as Hak.
  destruct (onAck_spec (last_sent s) s Hcore Htimer ltac:(unfold last_sent; zlia))
    as (s' & Hrun & Hc' & Ht' & Htr & Hwire & Htx' & Hrx & _ & _ & Hif).
  exists s'. split; [done|].
  assert (ack_accepted (last_sent s) s = true) as Hacc.
  { unfold ack_accepted. apply andb_true_iff. split.
    - apply negb_true_iff, Z.eqb_neq. intros Hr. apply Hne.
      by apply (ring_of_nil_iff _ _ _ (ci_ring _ _ _ _ _ _ _ _ Hcore)).
    - apply seqBetween_spec; unfold last_sent; zlia. }
  rewrite Hacc in Hif. destruct Hif as (_ & _ & Hring & Hfin & _).
  assert (debt_of (txSeqNr s) (last_sent s) = 0) as Hd by (unfold debt_of, last_sent; zlia).
  assert (0 < zlen (ring s)) by (destruct (ring s); [done|unfold zlen; simpl; lia]).
  split_and!; try done.
  - rewrite Hring, Hd. unfold prune_count. rewrite (proj2 (Z.leb_gt _ _)) by lia.
    apply drop_ge. unfold zlen. lia.
  - unfold last_sent in Hfin. by rewrite Z.eqb_refl in Hfin.
Qed.

(** One acknowledgement of everything sent. *)
Definition ack_everything (s : Session) : outcome Session :=
  '(_, s) ← ProcessDataPacket (control_packet true 0 (txSeqNr s)) s; Ok s.

Lemma ack_everything_spec s :
  session_ok s → ring s ≠ [] →
  ∃ s' ds, ack_everything s = Ok s' ∧ settled s' ∧
    plan (s_transfer s) = ds ++ plan (s_transfer s') ∧
    batched (wire s') = batched (wire s) ++ encode_all (rxSeqExpected s) (txSeqNr s) ds ∧
    txSeqNr s' = (txSeqNr s + zlen ds) mod 4096 ∧ rxSeqExpected s' = rxSeqExpected s ∧
    (transferPending s' = true → ds ≠ []) ∧
    (transferPending s = false ∨ ds = [] → finPending s' = false ∧ transferPending s' = false).
Proof.
  intros Hok Hne. pose proof (ci_tx _ _ _ _ _ _ _ _ (so_core _ Hok)) as Htx.
  destruct (ProcessDataPacket_control true 0 (txSeqNr s) s ltac:(lia) Htx) as [m Hm].
  set (s0 := s <| metrics := m |>) in *. assert (session_ok s0) as Hok0 by by apply session_ok_metrics.
  destruct (onAck_last s0 Hok0 Hne) as (s1 & H1 & Hc1 & Ht1 & Hr1 & Hf1 & Htr1 & Hw1 & Htx1 & Hrx1).
  unfold ack_everything. rewrite Hm. unfold onPeerAck. change ((txSeqNr s - 1) mod 4096) with (last_sent s0).
  rewrite H1, bind_Ok. assert (transferPending s1 = transferPending s) as Hp.
  { unfold transferPending. by rewrite Htr1. }
  rewrite Hp. destruct (transferPending s) eqn:Hps.
  - destruct (handleTransfer_spec s1 Hc1 Ht1) as (s2 & ds & -> & Hok2 & Hpost).
    destruct (transfer_settles s1 s2 ds Hc1 Hr1 Hf1 Hok2 Hpost) as [Hset Hprog].
    exists s2, ds. split; [done|]. split; [done|]. split_and!.
    + by rewrite <-(tp_plan _ _ _ Hpost), Htr1.
    + rewrite (tp_wire _ _ _ Hpost), batched_app, Hw1, Htx1, Hrx1. f_equal.
      destruct ds; [done|]. exact (app_nil_r _).
    + by rewrite (tp_seq _ _ _ Hpost), Htx1.
    + by rewrite (tp_rx _ _ _ Hpost), Hrx1.
    + done.
    + intros [?| ->]; [done|]. rewrite (tp_fin _ _ _ Hpost), Hf1. split; [done|].
      destruct (transferPending s2); [|done]. by destruct Hprog.
  - assert (plan (s_transfer s) = []) as Hplan.
    { apply plan_cleared. unfold transferPending in Hps. by destruct (t_data _). }
    exists s1, []. simpl. rewrite Htr1, Hw1, Htx1, Hrx1, app_nil_r, Hp, Z.add_0_r, Z.mod_small by done.
    split_and!; try done. split; [|by rewrite Hf1|done].
    split; [done|done|]. split; rewrite ?Hf1, ?Hp; done.
Qed.

(** Let the peer acknowledge until nothing is outstanding. *)
Fixpoint drive (fuel : nat) (s : Session) : outcome Session :=
  if transferPending s || finPending s then
    match fuel with
    | O => OutOfFuel
    | S fuel => s ← ack_everything s; drive fuel s
    end
  else Ok s.

Lemma drive_idle fuel s :
  transferPending s = false → finPending s = false → drive fuel s = Ok s.
Proof. intros Hp Hf. destruct fuel; cbn [drive]; rewrite Hp, Hf; reflexivity. Qed.

Lemma settled_busy s : settled s → transferPending s || finPending s = true → ring s ≠ [].
Proof.
  intros [Hok Hf _]. destruct (transferPending s) eqn:Hp; [|exact Hf]. intros _ Hr.
  pose proof (wi_window _ (so_wait _ Hok) Hp) as Hw.
  rewrite ring_nil_InFlight in Hw by (done || apply Hok). by unfold SendWindow in Hw.
Qed.

Lemma drive_spec fuel s :
  settled s → (length (plan (s_transfer s)) < fuel)%nat →
  ∃ s', drive fuel s = Ok s' ∧ settled s' ∧ transferPending s' = false ∧ finPending s' = false ∧
    txSeqNr s' = (txSeqNr s + zlen (plan (s_transfer s))) mod 4096 ∧ rxSeqExpected s' = rxSeqExpected s ∧
    batched (wire s') = batched (wire s) ++
      encode_all (rxSeqExpected s) (txSeqNr s) (plan (s_transfer s)).
Proof.
  revert s; induction fuel as [|fuel IH]; intros s Hset Hlen; [lia|]. cbn [drive].
  pose proof (se_ok _ Hset) as Hok. pose proof (ci_tx _ _ _ _ _ _ _ _ (so_core _ Hok)) as Htxs.
  destruct (transferPending s || finPending s) eqn:Hb; last first.
  { apply orb_false_iff in Hb as [Hp Hf]. exists s.
    rewrite plan_cleared by (unfold transferPending in Hp; by destruct (t_data _)).
    simpl. rewrite app_nil_r, Z.add_0_r, Z.mod_small by done. split_and!; auto. }
  pose proof (settled_busy s Hset Hb) as Hne.
  destruct (ack_everything_spec s Hok Hne)
    as (s1 & ds & -> & Hset1 & Hplan & Hw & Htx & Hrx & Hprog & Hdone).
  rewrite bind_Ok.
  assert (∀ s', batched (wire s') = batched (wire s1) ++
      encode_all (rxSeqExpected s1) (txSeqNr s1) (plan (s_transfer s1)) →
    batched (wire s') = batched (wire s) ++
      encode_all (rxSeqExpected s) (txSeqNr s) (plan (s_transfer s))) as Hwire.
  { intros s' ->. rewrite Hw, Hplan, Htx, Hrx, <-app_assoc. f_equal. symmetry. by apply encode_all_app. }
  assert ((txSeqNr s1 + zlen (plan (s_transfer s1))) mod 4096 =
          (txSeqNr s + zlen (plan (s_transfer s))) mod 4096) as Hseq.
  { rewrite Htx, Hplan, zlen_app, Zplus_mod_idemp_l. f_equal. lia. }
  destruct (decide (transferPending s = false ∨ ds = [])) as [Hd|Hd].
  - destruct (Hdone Hd) as [Hf Hp]. exists s1. split; [exact (drive_idle fuel s1 Hp Hf)|].
    pose proof (plan_cleared (s_transfer s1)) as Hpl. unfold transferPending in Hp.
    rewrite Hpl in Hseq, Hwire by (by destruct (t_data _)).
    split_and!; [done..| |done|apply Hwire; by rewrite app_nil_r].
    rewrite <- Hseq. change (zlen (@nil pkt_desc)) with 0. rewrite Z.add_0_r, Z.mod_small; [done|].
    exact (ci_tx _ _ _ _ _ _ _ _ (so_core _ (se_ok _ Hset1))).
  - assert (ds ≠ []) as Hds by (intros ->; apply Hd; by right).
    assert (length (plan (s_transfer s1)) < fuel)%nat as Hlen1.
    { rewrite Hplan, length_app in Hlen. destruct ds; [done|]. simpl in Hlen. lia. }
    destruct (IH s1 Hset1 Hlen1) as (s' & Hrun & A1 & A2 & A3 & A4 & A5 & Hw').
    exists s'. split_and!; [exact Hrun|done..|by rewrite A4|by rewrite A5|exact (Hwire s' Hw')].
Qed.

(** A transfer, sent and acknowledged: everything is sent, nothing is left, and a
    session that expects the sender's next number gets it. *)
Lemma handleTransfer_delivers fuel t s r :
  session_ok s → session_ok r → rxSeqExpected r = txSeqNr s → transfer_ok t →
  Forall (λ d, desc_ok d ∧ payload_of d ≠ []) (plan t) → (length (plan t) < fuel)%nat →
  ∃ s1 s' r' pkts, handleTransfer ((resetSendState s) <| s_transfer := t |>) = Ok s1 ∧ settled s1 ∧
    drive fuel s1 = Ok s' ∧ settled s' ∧ transferPending s' = false ∧ finPending s' = false ∧
    rxSeqExpected s' = rxSeqExpected s ∧ batched (wire s') = batched (wire s) ++ pkts ∧
    process_all pkts r = Ok (map payload_of (plan t), r') ∧ session_ok r' ∧ rxSeqExpected r' = txSeqNr s' ∧
    txSeqNr s' = (txSeqNr s + zlen (plan t)) mod 4096.
Proof.
  intros Hs Hr Hrx Ht Hds Hfuel. set (ds := plan t) in *.
  destruct (start_transfer t s Hs Ht) as (s1 & ds1 & Hrun & Hok1 & Hpost & Hring).
  set (s0 := (resetSendState s) <| s_transfer := t |>) in *.
  destruct (reset_send_core s (so_core _ Hs) (so_timer _ Hs) t Ht) as [Hc0 _]. fold s0 in Hc0.
  destruct (transfer_settles s0 s1 ds1 Hc0 Hring eq_refl Hok1 Hpost) as [Hset _].
  pose proof (tp_plan _ _ _ Hpost) as Hplan. change (plan (s_transfer s0)) with ds in Hplan.
  destruct (drive_spec fuel s1 Hset) as (s' & Hdrive & Hset' & Hp & Hf & Htx' & Hrx' & Hb).
  { rewrite Hplan, length_app in Hfuel. lia. }
  pose proof (ci_tx _ _ _ _ _ _ _ _ (so_core _ Hs)) as Htx.
  rewrite (tp_wire _ _ _ Hpost), batched_app in Hb. rewrite (tp_rx _ _ _ Hpost) in Hb, Hrx'.
  rewrite (tp_seq _ _ _ Hpost) in Hb, Htx'. change (wire s0) with (wire s) in Hb.
  change (rxSeqExpected s0) with (rxSeqExpected s) in *. change (txSeqNr s0) with (txSeqNr s) in *.
  assert (batched (wire s') = batched (wire s) ++ encode_all (rxSeqExpected s) (txSeqNr s) ds) as Hbatch.
  { rewrite Hb, Hplan, encode_all_app, <-app_assoc by done. do 2 f_equal. destruct ds1; [done|]. exact (app_nil_r _). }
  pose proof (receive_encoded (txSeqNr s) (rxSeqExpected s) ds Htx Hds) as Hrecv.
  destruct (process_all_refines (encode_all (rxSeqExpected s) (txSeqNr s) ds) r Hr) as (r' & Hproc & Hokr & Hrxr);
    [apply encode_all_long|]. rewrite Hrx, Hrecv in Hproc, Hrxr. cbn [fst snd] in Hproc, Hrxr.
  assert (txSeqNr s' = (txSeqNr s + zlen ds) mod 4096) as Hseq.
  { rewrite Htx', Hplan, zlen_app, Zplus_mod_idemp_l. f_equal. lia. }
  exists s1, s', r', (encode_all (rxSeqExpected s) (txSeqNr s) ds). split_and!; try done. by rewrite Hseq.
Qed.

(** A reply. *)
Lemma transfer_delivers fuel header data s r :
  session_ok s → session_ok r → rxSeqExpected r = txSeqNr s →
  zlen header mod 4 = 0 → 0 < zlen header < 64 →
  let ds := plan (mkTransfer header (Some data) 0 (optimalChunkSize (zlen data))) in
  (length ds < fuel)%nat →
  ∃ s1 s' r' pkts, SendRawDataWithHeader header data s = Ok s1 ∧ settled s1 ∧
    drive fuel s1 = Ok s' ∧ settled s' ∧ transferPending s' = false ∧ finPending s' = false ∧
    rxSeqExpected s' = rxSeqExpected s ∧ batched (wire s') = batched (wire s) ++ pkts ∧
    process_all pkts r = Ok (map payload_of ds, r') ∧ session_ok r' ∧ rxSeqExpected r' = txSeqNr s' ∧
    txSeqNr s' = (txSeqNr s + zlen ds) mod 4096.
Proof.
  intros Hs Hr Hrx Hm Hh ds Hfuel. rewrite SendRaw_start. apply handleTransfer_delivers; [done..| | |done].
  - apply SendRaw_transfer_ok. unfold MaxDataPayload. lia.
  - eapply reply_plan_desc_ok; [|exact Hm|exact Hh]. rewrite optimalChunkSize_1408 by apply zlen_nonneg.
    apply plan_with_header. unfold MaxDataPayload. lia.
Qed.

(** A message in one packet. *)
Lemma plan_single p : p ≠ [] → plan (mkTransfer [] (Some p) 0 (zlen p)) = [mkDesc [] p true].
Proof.
  intros Hne. unfold plan. cbn [t_data t_offset t_header t_maxChunk]. change (zlen (@nil byte)) with 0. cbn [Z.eqb Z.ltb Z.compare andb].
  rewrite drop_0, chunk_plan_step by done.
  assert (S (Z.to_nat (zlen p - 1)) = length p) as -> by (destruct p; [done|unfold zlen; simpl; lia]).
  rewrite firstn_all, drop_all. by simp chunk_plan.
Qed.

Lemma message_delivers p s r :
  session_ok s → session_ok r → rxSeqExpected r = txSeqNr s → p ≠ [] → zlen p <= MaxSingle →
  ∃ s1 s' r' pkts, SendData p s = Ok s1 ∧ settled s1 ∧
    drive 2 s1 = Ok s' ∧ settled s' ∧ transferPending s' = false ∧ finPending s' = false ∧
    rxSeqExpected s' = rxSeqExpected s ∧ batched (wire s') = batched (wire s) ++ pkts ∧
    process_all pkts r = Ok ([p ++ padding p], r') ∧ session_ok r' ∧ rxSeqExpected r' = txSeqNr s'.
Proof.
  intros Hs Hr Hrx Hne Hl. pose proof (plan_single p Hne) as Hplan. rewrite SendData_start.
  destruct (handleTransfer_delivers 2 (mkTransfer [] (Some p) 0 (zlen p)) s r Hs Hr Hrx)
    as (s1 & s' & r' & pkts & H1 & H2 & H3 & H4 & H5 & H6 & H7 & H8 & H9 & H10 & H11 & _).
  - by apply SendData_transfer_ok.
  - rewrite Hplan. constructor; [|done]. split; [|unfold payload_of; simpl; by destruct p].
    unfold desc_ok. cbn [d_header d_chunk]. change (zlen (@nil byte)) with 0. unfold MaxSingle in Hl. split_and!; [done|lia|lia].
  - rewrite Hplan. simpl. lia.
  - rewrite Hplan in H9. exists s1, s', r', pkts. by split_and!.
Qed.

(** ** Unacknowledged packets *)

(** The batch that a timeout puts on the wire. *)
Definition timeout_batch (s : Session) : list wire_event :=
  match resend ((txSeqNrAcked s + 1) mod 4096) s with [] => [] | l => [WriteBatch l] end.

(** As long as fewer than half of the sequence numbers are unacknowledged, that
    is every buffered packet, as it was first sent. *)
Lemma resend_everything s :
  zlen (ring s) <= debt s < 2048 →
  resend ((txSeqNrAcked s + 1) mod 4096) s = map tx_data (ring s).
Proof.
  intros Hd. unfold resend. set (k := zlen (ring s)) in *. pose proof (zlen_nonneg (ring s)).
  replace ((txSeqNr s - k - (txSeqNrAcked s + 1) mod 4096) mod 4096) with (debt s - k).
  2: { unfold debt, debt_of in *. fold k in H. zlia. }
  unfold resend_count. rewrite (proj2 (Z.ltb_lt _ _)) by lia.
  rewrite Z.min_l by lia. unfold k, zlen. by rewrite Nat2Z.id, firstn_all.
Qed.

Lemma InFlight_ring s :
  core_ok s → InFlight s = if decide (ring s = []) then 0 else debt s.
Proof.
  intros Hcore. rewrite InFlight_spec.
  pose proof (ring_of_nil_iff _ _ _ (ci_ring _ _ _ _ _ _ _ _ Hcore)) as Hiff.
  case_decide as Hr; case_bool; try done.
  - by apply Hiff in Hr.
  - by apply Hiff in E.
Qed.

(** What a retransmission leaves as it is. *)
Definition same_window (s s' : Session) : Prop :=
  ring s' = ring s ∧ txSeqNr s' = txSeqNr s ∧ txSeqNrAcked s' = txSeqNrAcked s ∧
  closed s' = closed s.

Lemma waiting_same s s' :
  core_ok s → core_ok s' → same_window s s' →
  finPending s' = finPending s → s_transfer s' = s_transfer s → waiting s' = waiting s.
Proof.
  intros Hc Hc' (Hr & Htx & Hak & _) Hf Ht. unfold waiting, transferPending.
  rewrite !InFlight_ring, Hr, Hf, Ht by done. unfold debt. by rewrite Htx, Hak.
Qed.

(** One expiry of the timer of a waiting session. *)
Lemma timer_step s :
  session_ok s → closed s = false → ackWait s ≠ ackWaitNone → waiting s = true →
  ∃ s', step OpTimer s = Ok s' ∧ session_ok s' ∧ same_window s s' ∧
    wire s' = wire s ++ timeout_batch s ∧
    if retransmitAttempts s + 1 <? MaxRetransmits then
      retransmitAttempts s' = retransmitAttempts s + 1 ∧ ackWait s' ≠ ackWaitNone ∧
      waiting s' = true
    else
      retransmitAttempts s' = 0 ∧ ackWait s' = ackWaitNone ∧ ackTimer s' = None ∧
      finPending s' = false ∧ transferPending s' = false.
Proof.
  intros [Hcore [T1 T2 T3] [W1 W2 W3]] Hcl Hm Hwait. cbn [step].
  destruct (ackTimer s) as [d|] eqn:Ht; last first.
  { specialize (T2 Hcl). by destruct (ackWait s). }
  set (s0 := s <| ackTimer := None |>). set (s1 := s0 <| ackWait := ackWaitNone |>).
  pose proof (ackTimerFunc_spec s0 Hcore T3 W2 T1) as H.
  change (closed s0) with (closed s) in H. change (ackWait s0) with (ackWait s) in H.
  rewrite Hcl, bool_decide_eq_false_2 in H by done. destruct H as (s' & Hrun & Hok' & Hto).
  exists s'. split; [exact Hrun|]. split; [done|].
  destruct (handleAckTimeout_spec s1 Hcore eq_refl T3 W2)
    as (s'' & Hto' & _ & Hrx & Hcl' & Hring & Htx & Hak & Hif).
  fold s1 in Hto. rewrite Hto in Hto'. injection Hto' as <-.
  change (waiting s1) with (waiting s) in Hif. rewrite Hwait in Hif. destruct Hif as [Hw Hif].
  assert (same_window s s') as Hsame by (exact (conj Hring (conj Htx (conj Hak Hcl')))).
  split; [done|]. split; [exact Hw|].
  change (retransmitAttempts s1) with (retransmitAttempts s) in Hif.
  destruct (retransmitAttempts s + 1 <? MaxRetransmits).
  - destruct Hif as (Ha & Hm' & Hf' & Ht'). split; [done|]. split.
    + rewrite Hm'. unfold wanted_mode. by destruct (finPending s1).
    + by rewrite (waiting_same s s' Hcore (so_core _ Hok') Hsame Hf' Ht').
  - destruct Hif as (Ha & Hm' & Htm & Hf' & Ht'). unfold transferPending. by rewrite Ht'.
Qed.

(** With no packet from the peer, the buffered packets are sent once more per
    remaining attempt, and then the session waits for nothing. *)
Lemma timers_give_up n s :
  session_ok s → closed s = false → ackWait s ≠ ackWaitNone → waiting s = true →
  retransmitAttempts s = MaxRetransmits - Z.of_nat (S n) →
  ∃ s', run (replicate (S n) OpTimer) s = Ok s' ∧ session_ok s' ∧ same_window s s' ∧
    wire s' = wire s ++ concat (replicate (S n) (timeout_batch s)) ∧
    ackTimer s' = None ∧ finPending s' = false ∧ transferPending s' = false.
Proof.
  revert s; induction n as [|n IH]; intros s Hok Hcl Hm Hwait Hatt;
    destruct (timer_step s Hok Hcl Hm Hwait) as (s1 & Hstep & Hok1 & Hsame1 & Hw1 & Hif).
  - change (run (replicate 1 OpTimer) s) with (s ← step OpTimer s; Ok s).
    rewrite Hstep, bind_Ok. exists s1. rewrite (proj2 (Z.ltb_ge _ _)) in Hif by lia.
    destruct Hif as (_ & _ & H1 & H2 & H3).
    cbn [replicate concat]. rewrite app_nil_r. auto 10.
  - rewrite (proj2 (Z.ltb_lt _ _)) in Hif by lia. destruct Hif as (Ha1 & Hm1 & Hwait1).
    destruct Hsame1 as (Hr & Htx & Hak & Hc).
    destruct (IH s1 Hok1) as (s' & Hrun & Hok' & Hsame' & Hw' & H1 & H2 & H3);
      [congruence|done|done|lia|].
    assert (timeout_batch s1 = timeout_batch s) as Hb.
    { unfold timeout_batch, resend. by rewrite Hr, Htx, Hak. }
    exists s'. split.
    { change (run (replicate (S (S n)) OpTimer) s) with (s ← step OpTimer s; run (replicate (S n) OpTimer) s).
      by rewrite Hstep, bind_Ok. }
    split; [done|]. split.
    { unfold same_window in *. destruct Hsame' as (? & ? & ? & ?). split_and!; congruence. }
    split; [|done]. rewrite Hw', Hw1, Hb, <-app_assoc. done.
Qed.
