(* ===== verification/RdmaExchange.v ===== *)
(** * Two sessions and a network that loses, repeats and reorders packets

    A reply is sent by one session to another.  The network may deliver any packet
    that has been sent, at any time, any number of times and in any order, or never;
    the timer of the sender may expire at any time.  Both ends are the code of the
    server; a client that follows the protocol does the same. *)
From stdpp Require Import relations.
From S2P Require Import Prelude RdmaProtocol RdmaSession RdmaRing RdmaPack RdmaInvariant RdmaTransfer RdmaTimer RdmaAck RdmaReceive RdmaStep RdmaTyped RdmaDelivery RdmaLiveness.

(** ** The machine *)

(** The two sessions, what the receiver has returned, and whether the timer has ended
    the transfer. *)
Record exchange := mkExchange {
  sender : Session;
  receiver : Session;
  got : list (list byte);
  gave_up : bool
}.

Definition busy (s : Session) : bool := transferPending s || finPending s.

Definition returned (res : result rdma_error (option (list byte))) : list (list byte) :=
  match res with
  | Val (Some p) => [p]
  | _ => []
  end.

(** The packets that a session has sent after the first [n] events of its log. *)
Definition since (n : nat) (s : Session) : list (list byte) := packets_of (drop n (wire s)).

(** The network delivers any packet sent by the other end since [w] and [v]. *)
Inductive delivery (w v : nat) (x : exchange) : exchange → Prop :=
| net_data p res r :
    p ∈ since w (sender x) → ProcessDataPacket p (receiver x) = Ok (res, r) →
    delivery w v x (mkExchange (sender x) r (got x ++ returned res) (gave_up x))
| net_answer p res s :
    p ∈ since v (receiver x) → ProcessDataPacket p (sender x) = Ok (res, s) →
    delivery w v x (mkExchange s (receiver x) (got x) (gave_up x)).

(** The timer of the sender calls back, for the transmission it was set for or, when
    it was stopped too late, for an older one. *)
Inductive callback (o : session_op) (x : exchange) : exchange → Prop :=
| net_timer s :
    step o (sender x) = Ok s →
    callback o x (mkExchange s (receiver x) (got x) (gave_up x || (busy (sender x) && negb (busy s)))).

Inductive net_step (w v : nat) (x x' : exchange) : Prop :=
| net_delivery : delivery w v x x' → net_step w v x x'
| net_callback o : o = OpTimer ∨ o = OpStale → callback o x x' → net_step w v x x'.

Lemma packets_of_app a b : packets_of (a ++ b) = packets_of a ++ packets_of b.
Proof. unfold packets_of. by rewrite map_app, concat_app. Qed.

Lemma since_app n s s' es :
  (n ≤ length (wire s))%nat → wire s' = wire s ++ es → since n s' = since n s ++ packets_of es.
Proof. intros Hn Hw. unfold since. by rewrite Hw, drop_app_le, packets_of_app. Qed.

(** A network that may deliver older packets may do more. *)
Lemma net_step_mono w v w' v' x x' :
  (w ≤ w')%nat → (v ≤ v')%nat → net_step w' v' x x' → net_step w v x x'.
Proof.
  intros Hw Hv. assert (∀ a b s p, (a ≤ b)%nat → p ∈ since b s → p ∈ since a s) as Hsub.
  { intros a b s p Hab Hp. unfold since in *. replace b with (a + (b - a))%nat in Hp by lia. rewrite <-drop_drop in Hp.
    rewrite <-(take_drop (b - a) (drop a (wire s))), packets_of_app. apply elem_of_app. by right. }
  intros [[p res r Hp Hr|p res y Hp Hr]|o Ho Hr];
    [left; by eapply net_data, Hr; eapply Hsub|left; by eapply net_answer, Hr; eapply Hsub|by eapply net_callback].
Qed.

Lemma encode_all_take rx base ds k m :
  0 <= base → (k + m ≤ length ds)%nat →
  encode_all rx (stream_seq base k) (take m (drop k ds)) = map (stream_packet base rx ds) (List.seq k m).
Proof.
  intros Hb. revert k. induction m as [|m IH]; intros k Hle; [done|].
  destruct (lookup_lt_is_Some_2 ds k ltac:(lia)) as [d Hd].
  rewrite (drop_S _ _ _ Hd). simpl. f_equal; [unfold stream_packet; by rewrite Hd|].
  rewrite <-IH by lia. f_equal. unfold stream_seq. zlia.
Qed.

(** ** The sender *)

Section Exchange.
(** The packets [ds] of a transfer, numbered from [base] on, short enough that no
    sequence number is used twice and none is 0. *)
Context (base rx : Z) (ds : list pkt_desc).
Context (Hbase : 0 < base) (Hwrap : base + zlen ds < 4096).
Context (Hds : Forall (λ d, desc_ok d ∧ payload_of d ≠ []) ds) (Hfin : fin_last (map d_fin ds)).

(** The first [n] packets have been sent, and the first [k] acknowledged. *)
Record sending (k n : nat) (s : Session) : Prop := {
  sg_ok : session_ok s;
  sg_bound : (k ≤ n ≤ length ds)%nat;
  sg_tx : txSeqNr s = stream_seq base n;
  sg_acked : txSeqNrAcked s = (base + Z.of_nat k - 1) mod 4096;
  sg_rx : rxSeqExpected s = rx;
  sg_ring : map tx_data (ring s) = map (stream_packet base rx ds) (List.seq k (n - k));
  sg_plan : transferPending s = true → plan (s_transfer s) = drop n ds
}.

(** The transfer has not been given up: what is neither sent nor acknowledged is
    pending. *)
Definition live (k n : nat) (s : Session) : Prop :=
  (transferPending s = false → n = length ds) ∧ (finPending s = false → n = length ds → k = n) ∧
  (finPending s = true → (k < n)%nat).

Lemma sending_ring k n s : sending k n s → zlen (ring s) = Z.of_nat (n - k) ∧ debt s = Z.of_nat (n - k).
Proof.
  intros [_ Hb Htx Hak _ Hr _]. split.
  - apply (f_equal length) in Hr. rewrite !length_map, length_seq in Hr. unfold zlen. by rewrite Hr.
  - unfold debt, debt_of. rewrite Htx, Hak. unfold stream_seq, zlen in *. zlia.
Qed.

Lemma sending_ring_nil k n s : sending k n s → txReadIndex s = txWriteIndex s ↔ k = n.
Proof.
  intros Hs. pose proof (sending_ring k n s Hs) as [Hlen _]. pose proof (sg_bound _ _ _ Hs).
  rewrite <- (ring_of_nil_iff _ _ _ (ci_ring _ _ _ _ _ _ _ _ (so_core _ (sg_ok _ _ _ Hs)))).
  change (ring_of _ _ _) with (ring s). unfold zlen in Hlen. split.
  - intros E. rewrite E in Hlen. simpl in Hlen. lia.
  - intros ->. apply nil_length_inv. lia.
Qed.

(** What an acknowledgement of the first [j] packets does. *)
Lemma sending_accepts k n j s :
  sending k n s → (0 < j ≤ n)%nat →
  ack_accepted ((stream_seq base j - 1) mod 4096) s = bool_decide (k < n ∧ k ≤ j)%nat.
Proof.
  intros Hs Hj. pose proof (sending_ring_nil k n s Hs) as Hnil. destruct Hs as [_ Hb Htx Hak _ _ _].
  unfold ack_accepted. rewrite Htx, Hak. destruct (decide (k = n)) as [->|Hne].
  - rewrite (proj2 (Z.eqb_eq _ _)) by (by apply Hnil). rewrite bool_decide_eq_false_2 by lia. done.
  - rewrite (proj2 (Z.eqb_neq _ _)) by (intros E; by apply Hne, Hnil). cbn [negb andb].
    apply eq_true_iff_eq. rewrite bool_decide_eq_true, seqBetween_spec by (unfold stream_seq; zlia).
    unfold stream_seq, zlen in *. split; zlia.
Qed.

Lemma sending_onAck k n j s :
  sending k n s → (0 < j ≤ n)%nat →
  ∃ s', onAck ((stream_seq base j - 1) mod 4096) s = Ok s' ∧
    txSeqNr s' = txSeqNr s ∧ rxSeqExpected s' = rxSeqExpected s ∧ closed s' = closed s ∧
    s_transfer s' = s_transfer s ∧ wire s' = wire s ∧
    txSeqNrAcked s' = (base + Z.of_nat (k `max` j) - 1) mod 4096 ∧
    map tx_data (ring s') = map (stream_packet base rx ds) (List.seq (k `max` j) (n - k `max` j)) ∧
    (live k n s → (finPending s' = false → n = length ds → (k `max` j)%nat = n) ∧
                  (finPending s' = true → (k `max` j < n)%nat)).
Proof.
  intros Hs Hj. pose proof (sending_accepts k n j s Hs Hj) as Hacc. pose proof (sending_ring k n s Hs) as [Hlen _].
  destruct Hs as [[Hcore Htimer _] Hb Htx Hak _ Hr _].
  destruct (onAck_spec ((stream_seq base j - 1) mod 4096) s Hcore Htimer ltac:(zlia))
    as (s' & Hrun & _ & _ & Htr & Hw & Htx' & Hrx' & Hcl & _ & Hif).
  exists s'. split; [exact Hrun|]. do 5 (split; [done|]). rewrite Hacc in Hif. case_bool_decide as Hk.
  - replace (k `max` j)%nat with j by lia. destruct Hif as (Ha & _ & Hring & Hf & _).
    assert (debt_of (txSeqNr s) ((stream_seq base j - 1) mod 4096) = Z.of_nat (n - j)) as Hd.
    { rewrite Htx. unfold debt_of, stream_seq, zlen in *. zlia. }
    rewrite Hlen, Hd in Hring. assert (Z.to_nat (prune_count (Z.of_nat (n - k)) (Z.of_nat (n - j))) = (j - k)%nat) as Hp.
    { unfold prune_count, zlen in *. case_bool; [|lia]. case_bool; lia. }
    rewrite Hp in Hring. split; [rewrite Ha; unfold stream_seq; zlia|]. split.
    + rewrite Hring, <-skipn_map, Hr, skipn_map, skipn_seq. do 2 f_equal; lia.
    + intros (_ & Hl & Hl'). rewrite Hf, Htx.
      destruct (Z.eqb_spec ((stream_seq base j - 1) mod 4096) ((stream_seq base n - 1) mod 4096)) as [E|E].
      * split; [|done]. unfold stream_seq, zlen in *. zlia.
      * split; [intros Hf' Hn; specialize (Hl Hf' Hn); lia|]. intros _. assert (j ≠ n) by congruence. lia.
  - subst s'. replace (k `max` j)%nat with k by lia. split; [done|]. split; [done|]. by intros (_ & Hl & Hl').
Qed.

(** The events with which the sender puts packets [n] to [n + m] on the wire. *)
Definition batch (n m : nat) : list wire_event :=
  match m with
  | O => []
  | S _ => [WriteBatch (map (stream_packet base rx ds) (List.seq n m))]
  end.

Lemma take_of_split {A} (l a b : list A) : l = a ++ b → a = take (length a) l ∧ b = drop (length a) l.
Proof. intros ->. by rewrite take_app_length, drop_app_length. Qed.

(** The last packet of a stream has the FIN flag. *)
Lemma fin_of_last n m :
  (0 < m)%nat → (n + m = length ds)%nat → existsb d_fin (take m (drop n ds)) = true.
Proof.
  intros Hm Hn. destruct Hfin as [q Hq]. rewrite take_ge by (rewrite length_drop; lia).
  assert (last (map d_fin (drop n ds)) = Some true) as Hlast.
  { rewrite <-skipn_map, Hq. rewrite skipn_app, length_replicate.
    replace (n - q)%nat with 0%nat; [by apply last_snoc|].
    apply (f_equal length) in Hq. rewrite length_map, length_app, length_replicate in Hq. simpl in Hq. lia. }
  apply existsb_exists. assert (In true (map d_fin (drop n ds))) as (d & Hd & Hin)%in_map_iff; [|by exists d].
  apply last_Some in Hlast as [l' ->]. apply in_or_app. right. by left.
Qed.

Lemma sending_peer_ack k n j s :
  sending k n s → (0 < j ≤ n)%nat →
  ∃ s' m, onPeerAck ((stream_seq base j - 1) mod 4096) s = Ok s' ∧ sending (k `max` j) (n + m) s' ∧
    wire s' = wire s ++ batch n m ∧ closed s' = closed s ∧
    (transferPending s = false → m = 0%nat ∧ transferPending s' = false) ∧
    (live k n s → live (k `max` j) (n + m) s').
Proof.
  intros Hs Hj. destruct (sending_onAck k n j s Hs Hj) as (s1 & H1 & Htx1 & Hrx1 & Hcl1 & Htr1 & Hw1 & Hak1 & Hr1 & Hl1).
  pose proof Hs as [Hok Hb Htx Hak Hrx Hr Hplan].
  destruct (onPeerAck_spec ((stream_seq base j - 1) mod 4096) s Hok ltac:(zlia)) as (s' & Hrun & Hok' & _ & _ & s1' & H1' & Hif).
  rewrite H1 in H1'. injection H1' as <-. destruct (transferPending s) eqn:Hp.
  - destruct Hif as (ds1 & Hpost). specialize (Hplan eq_refl). pose proof (tp_plan _ _ _ Hpost) as Hpl. rewrite Htr1, Hplan in Hpl.
    destruct (take_of_split _ _ _ Hpl) as [Hd1 Hd2]. set (m := length ds1) in *.
    assert (n + m ≤ length ds)%nat as Hm.
    { apply (f_equal length) in Hpl. rewrite length_drop, length_app in Hpl. fold m in Hpl. lia. }
    assert (encode_all (rxSeqExpected s1) (txSeqNr s1) ds1 = map (stream_packet base rx ds) (List.seq n m)) as Henc.
    { rewrite Hrx1, Hrx, Htx1, Htx, Hd1. apply encode_all_take; lia. }
    exists s', m. split; [done|]. split; [split; [done|lia|..]|split_and!].
    + rewrite (tp_seq _ _ _ Hpost), Htx1, Htx. unfold stream_seq, zlen. fold m. zlia.
    + by rewrite (tp_acked _ _ _ Hpost).
    + by rewrite (tp_rx _ _ _ Hpost), Hrx1.
    + rewrite (tp_ring _ _ _ Hpost), Henc, Hr1, <-map_app. f_equal.
      replace (n + m - k `max` j)%nat with ((n - k `max` j) + m)%nat by lia. rewrite seq_app. do 2 f_equal. lia.
    + intros _. by rewrite Hd2, drop_drop.
    + rewrite (tp_wire _ _ _ Hpost), Hw1, Henc. by destruct ds1.
    + by rewrite (tp_closed _ _ _ Hpost).
    + done.
    + intros Hl. destruct (Hl1 Hl) as [Hf1 Hf1']. split; [|split].
      * intros Hp'. rewrite plan_cleared, app_nil_r in Hpl by (unfold transferPending in Hp'; by destruct (t_data _)).
        apply (f_equal length) in Hpl. rewrite length_drop in Hpl. fold m in Hpl. lia.
      * rewrite (tp_fin _ _ _ Hpost). intros Hf Hn. apply orb_false_iff in Hf as [Hf Hf'].
        destruct (decide (m = 0)%nat) as [E|E]; [rewrite E, Nat.add_0_r in *; by apply Hf1|].
        rewrite Hd1, fin_of_last in Hf'; [done|lia|lia].
      * rewrite (tp_fin _ _ _ Hpost). intros [Hf|Hf]%orb_true_iff; [specialize (Hf1' Hf); lia|].
        destruct ds1; [done|]. unfold m. simpl. lia.
  - subst s'. assert (transferPending s1 = false) as Hp1 by (unfold transferPending in *; by rewrite Htr1).
    exists s1, 0%nat. rewrite Nat.add_0_r. cbn [batch]. rewrite app_nil_r. split; [done|]. split; [split; [done|lia|..]|split_and!]; try done.
    + by rewrite Htx1.
    + by rewrite Hrx1.
    + by rewrite Hp1.
    + intros Hl. split; [intros _; apply Hl, Hp|]. by apply Hl1.
Qed.
(** A packet of the stream that has been sent. *)
Definition in_stream (n : nat) (p : list byte) : Prop := ∃ i, (i < n)%nat ∧ p = stream_packet base rx ds i.

Lemma in_stream_mono n n' p : (n ≤ n')%nat → in_stream n p → in_stream n' p.
Proof. intros Hn (i & Hi & ->). exists i. split; [lia|done]. Qed.

Lemma seq_in_stream k m : Forall (in_stream (k + m)) (map (stream_packet base rx ds) (List.seq k m)).
Proof. apply Forall_map, Forall_forall. intros i Hi%list_elem_of_In%in_seq. exists i. split; [lia|done]. Qed.

Lemma batch_in_stream n m : Forall (in_stream (n + m)) (packets_of (batch n m)).
Proof.
  destruct m; [constructor|]. unfold packets_of, batch. cbn [map concat packets_of_event].
  rewrite app_nil_r. apply seq_in_stream.
Qed.

(** A retransmission repeats packets of the stream. *)
Definition repeated (n : nat) (s s' : Session) : Prop :=
  ∃ es, wire s' = wire s ++ es ∧ Forall (in_stream n) (packets_of es).

Lemma resend_in_stream k n a s :
  sending k n s → Forall (in_stream n) (packets_of (match resend a s with [] => [] | l => [WriteBatch l] end)).
Proof.
  intros Hs. assert (Forall (in_stream n) (resend a s)) as Hr.
  { unfold resend. cbv zeta. rewrite <-firstn_map, (sg_ring _ _ _ Hs). apply Forall_take.
    pose proof (sg_bound _ _ _ Hs). replace n with (k + (n - k))%nat at 1 by lia. apply seq_in_stream. }
  unfold packets_of. destruct (resend a s); [constructor|]. cbn [map concat packets_of_event]. by rewrite app_nil_r.
Qed.

Lemma sending_nack k n a s :
  sending k n s →
  ∃ s', onPeerNack a s = Ok s' ∧ sending k n s' ∧ repeated n s s' ∧ closed s' = closed s ∧
    transferPending s' = transferPending s ∧ finPending s' = finPending s.
Proof.
  intros Hs. pose proof (resend_in_stream k n a s Hs) as Hin. destruct Hs as [Hok Hb Htx Hak Hrx Hr Hplan].
  destruct (onPeerNack_spec a s Hok) as (s' & Hrun & Hok' & Hrx' & Hr' & Hak' & Htr' & Hw' & Htx' & Hf' & Hcl').
  exists s'. split; [done|]. split_and!; [|by eexists|done|unfold transferPending; by rewrite Htr'|done].
  split; [done..| | | | |]; unfold transferPending; by rewrite ?Htx', ?Hak', ?Hrx', ?Hr', ?Htr'.
Qed.

Lemma sending_timeout k n s s0 :
  sending k n s →
  (core_ok s0 ∧ ackWait s0 = ackWaitNone ∧ retransmitAttempts s0 = retransmitAttempts s ∧ closed s0 = closed s ∧
   ring s0 = ring s ∧ s_transfer s0 = s_transfer s ∧ finPending s0 = finPending s ∧ txSeqNr s0 = txSeqNr s ∧
   txSeqNrAcked s0 = txSeqNrAcked s ∧ rxSeqExpected s0 = rxSeqExpected s ∧ wire s0 = wire s ∧ InFlight s0 = InFlight s) →
  ∃ s', handleAckTimeout s0 = Ok s' ∧ sending k n s' ∧ repeated n s s' ∧ closed s' = closed s ∧
    ((transferPending s' = transferPending s ∧ finPending s' = finPending s) ∨
     (transferPending s' = false ∧ finPending s' = false)).
Proof.
  intros Hs (Hcore & Hm & Hatt & Hcl & Hr0 & Htr & Hf & Htx0 & Hak0 & Hrx0 & Hw0 & Hif0).
  pose proof (resend_in_stream k n ((txSeqNrAcked s + 1) mod 4096) s Hs) as Hin.
  destruct Hs as [[_ [_ _ T3] [_ W2 _]] Hb Htx Hak Hrx Hr Hplan].
  assert (transferPending s0 = transferPending s) as Hp0 by (unfold transferPending; by rewrite Htr).
  destruct (handleAckTimeout_spec s0 Hcore Hm) as (s' & Hrun & Hok' & Hrx' & Hcl' & Hr' & Htx' & Hak' & Hif);
    [by rewrite Hatt|by rewrite Hp0, Hif0|].
  assert ((transferPending s' = true → s_transfer s' = s_transfer s) → sending k n s') as Hsend.
  { intros Ht'. split; [done|done|congruence|congruence|congruence|by rewrite Hr', Hr0|]. intros Hp'.
    specialize (Ht' Hp'). rewrite Ht'. apply Hplan. unfold transferPending in *. by rewrite <-Ht'. }
  assert (resend ((txSeqNrAcked s + 1) mod 4096) s0 = resend ((txSeqNrAcked s + 1) mod 4096) s) as Hre.
  { unfold resend. by rewrite Hr0, Htx0. }
  rewrite Hak0, Hre, Hw0, Hatt in Hif. exists s'. split; [done|]. destruct (waiting s0).
  - destruct Hif as [Hw Hif]. destruct (_ <? _).
    + destruct Hif as (_ & _ & Hf' & Ht'). rewrite Htr in Ht'. split_and!; [by apply Hsend|by eexists|congruence|].
      left. unfold transferPending. by rewrite Ht', Hf'.
    + destruct Hif as (_ & _ & _ & Hf' & Ht'). assert (transferPending s' = false) as Hp' by (unfold transferPending; by rewrite Ht').
      split_and!; [apply Hsend; by rewrite Hp'|by eexists|congruence|by right].
  - subst s'. rewrite stopAckTimer_shape in *. split_and!; [by apply Hsend| |exact Hcl|left].
    + exists []. rewrite app_nil_r. split; [exact Hw0|constructor].
    + split; [exact Hp0|exact Hf].
Qed.
(** The timer of the sender expires, or a callback that was under way runs. *)
Lemma sending_timer k n o s :
  o = OpTimer ∨ o = OpStale → sending k n s → closed s = false →
  ∃ s', step o s = Ok s' ∧ sending k n s' ∧ repeated n s s' ∧ closed s' = false ∧
    ((transferPending s' = transferPending s ∧ finPending s' = finPending s) ∨
     (transferPending s' = false ∧ finPending s' = false)).
Proof.
  intros Ho Hs Hcl. assert (∃ s', Ok s = Ok s' ∧ sending k n s' ∧ repeated n s s' ∧ closed s' = false ∧
    ((transferPending s' = transferPending s ∧ finPending s' = finPending s) ∨
     (transferPending s' = false ∧ finPending s' = false))) as Hsame.
  { exists s. split_and!; [done..| |done|by left]. exists []. by rewrite app_nil_r. }
  pose proof (sg_ok _ _ _ Hs) as [Hcore [T1 T2 T3] _]. specialize (T2 Hcl).
  destruct (bool_decide_reflect (ackWait s = ackWaitNone)) as [E|E].
  - rewrite E in T2. destruct Ho as [-> | ->]; cbn [step]; [by rewrite T2|].
    unfold ackTimerFunc. by rewrite Hcl, bool_decide_eq_true_2.
  - assert (∀ s0, closed s0 = closed s → ackWait s0 = ackWait s → ackTimerExpectSeq s0 = ackTimerExpectSeq s →
      ackTimerSeq s0 = ackTimerSeq s → ackTimerFunc s0 = handleAckTimeout (s0 <| ackWait := ackWaitNone |>)) as Hrun.
    { intros s0 H1 H2 H3 H4. unfold ackTimerFunc. rewrite H1, H2, H3, H4, Hcl, bool_decide_eq_false_2, (T1 E), Z.eqb_refl by done. done. }
    destruct Ho as [-> | ->]; cbn [step].
    + destruct (ackTimer s); [|done]. rewrite Hrun by done.
      destruct (sending_timeout k n s (s <| ackTimer := None |> <| ackWait := ackWaitNone |>) Hs) as (s' & H1 & H2 & H3 & H4 & H5);
        [by split_and!|]. exists s'. rewrite H4. by split_and!.
    + rewrite Hrun by done.
      destruct (sending_timeout k n s (s <| ackWait := ackWaitNone |>) Hs) as (s' & H1 & H2 & H3 & H4 & H5);
        [by split_and!|]. exists s'. rewrite H4. by split_and!.
Qed.

(** ** The receiver *)

(** A session that sends nothing of its own. *)
Definition idle (r : Session) : Prop := txReadIndex r = txWriteIndex r ∧ t_data (s_transfer r) = None.

Lemma onPeerAck_empty a r : idle r → onPeerAck a r = Ok r.
Proof. intros [Hr Ht]. unfold onPeerAck, onAck. rewrite Hr, Z.eqb_refl, bind_Ok. unfold transferPending. by rewrite Ht. Qed.

Lemma idle_payload p n payload r res r' :
  idle r → dp_seq p ≠ 0 → receive_payload p n payload r = Ok (res, r') →
  idle r' ∧ txSeqNr r' = txSeqNr r ∧ wire r' = wire r ++ reply_of r p.
Proof.
  intros Hi Hsq. unfold receive_payload, reply_of, classify. cbv zeta. rewrite prev_seq, (next_seq (dp_seq p)).
  assert (∀ a s, idle s → (if dp_isack p then onPeerAck a s else Ok s) = Ok s) as Hack.
  { intros a s Hs. destruct (dp_isack p); [by apply onPeerAck_empty|done]. }
  assert (transferPending r = false) as Hp by (unfold transferPending; by rewrite (proj2 Hi)).
  destruct (dp_seq p =? rxSeqExpected r) eqn:E1; cbn [negb]; [|destruct (dp_seq p =? (rxSeqExpected r - 1) mod 4096) eqn:E2].
  - destruct (sendACK_shape true (r <| rxSeqExpected := (dp_seq p + 1) mod 4096 |>)) as [m Hm]. rewrite Hm.
    rewrite Hack, bind_Ok by done. intros (q & _ & Hq)%bind_Ok_inv. by injection Hq as <- <-.
  - destruct (sendACK_shape true (r <| metrics ::= λ m, m <| unexpectedSeqNrs ::= inc64 |> |>)) as [m Hm]. rewrite Hm.
    rewrite Hack, bind_Ok by done. change (transferPending _) with (transferPending r). rewrite Hp, bind_Ok.
    intros [= <- <-]. done.
  - rewrite (proj2 (Z.eqb_neq _ 0)) by done.
    destruct (sendACK_shape false (r <| metrics ::= λ m, m <| unexpectedSeqNrs ::= inc64 |> |>)) as [m Hm]. rewrite Hm.
    rewrite Hack, bind_Ok by done. intros [= <- <-]. done.
Qed.

Lemma idle_receive data p r res r' :
  idle r → 6 <= zlen data → parse_packet data = Some p → dp_payload p ≠ [] → dp_seq p ≠ 0 →
  ProcessDataPacket data r = Ok (res, r') →
  idle r' ∧ txSeqNr r' = txSeqNr r ∧ wire r' = wire r ++ reply_of r p.
Proof.
  intros Hi Hl Hp Hne Hsq. pose proof (ProcessDataPacket_run data r Hl) as Hrun. rewrite Hp in Hrun.
  destruct Hrun as (_ & _ & n & _ & Hpay & ->). destruct (Z.eqb_spec n 0) as [->|_]; [done|].
  set (r0 := r <| metrics := count_rx r |>). assert (idle r0) as Hi0 by exact Hi.
  exact (idle_payload p n (drop 6 data) r0 res r' Hi0 Hsq).
Qed.

(** ** The exchange *)

(** What the receiver has answered when it has got the first [e] packets: ACKs of
    packets it has, and NACKs of the one it expects. *)
Definition answer (tx : Z) (e : nat) (p : list byte) : Prop :=
  ∃ ack j, (j ≤ e)%nat ∧ (ack = true → (0 < j)%nat) ∧ p = control_packet ack tx (stream_seq base j).

Lemma answer_mono tx e e' p : (e ≤ e')%nat → answer tx e p → answer tx e' p.
Proof. intros He (ack & j & Hj & H0 & ->). exists ack, j. split_and!; [lia|done..]. Qed.

Lemma arrival_in_stream e i : (i < length ds)%nat → (e ≤ length ds)%nat → arrival_ok base ds e i.
Proof. intros Hi He. split; [done|]. unfold stream_seq, zlen in *. split; [lia|]. intros H0. zlia. Qed.

(** A packet of the stream reaches the receiver. *)
Lemma idle_stream e i r :
  session_ok r → idle r → rxSeqExpected r = stream_seq base e → (e ≤ length ds)%nat → (i < length ds)%nat →
  ∃ res r', ProcessDataPacket (stream_packet base rx ds i) r = Ok (res, r') ∧ session_ok r' ∧ idle r' ∧
    rxSeqExpected r' = stream_seq base (next_expected e i) ∧ txSeqNr r' = txSeqNr r ∧
    res = Val (if (i =? e)%nat then payload_of <$> ds !! i else None) ∧
    ∃ q, wire r' = wire r ++ [WriteTo q] ∧ answer (txSeqNr r) (next_expected e i) q ∧
      ((S i = e ∨ i = e) → q = control_packet true (txSeqNr r) (stream_seq base (S i))).
Proof.
  intros Hok Hi Hrx He Hlt. pose proof (stream_receive base rx ds Hds e i (arrival_in_stream e i Hlt He)) as Hspec.
  destruct (lookup_lt_is_Some_2 ds i Hlt) as [d Hd]. destruct (Forall_lookup_1 _ _ _ _ Hds Hd) as [Hdok Hne].
  set (pkt := stream_packet base rx ds i) in *.
  assert (parse_packet pkt = Some (mkDataPacket (stream_seq base i) ((rx - 1) mod 4096) true (payload_of d))) as Hp.
  { unfold pkt, stream_packet. rewrite Hd. apply encode_parse; [done|unfold stream_seq; zlia]. }
  assert (6 <= zlen pkt) as Hl.
  { unfold pkt, stream_packet. rewrite Hd. exact (Forall_inv (encode_all_long rx (stream_seq base i) [d])). }
  destruct (ProcessDataPacket_spec pkt r Hok Hl) as (res & r' & Hrun & Hpost). rewrite <-Hrx in Hspec.
  assert (stream_seq base i ≠ 0) as Hnz by (unfold stream_seq, zlen in *; zlia).
  destruct (idle_receive pkt _ r res r' Hi Hl Hp Hne Hnz Hrun) as (Hi' & Htx' & Hw').
  pose proof (rp_res _ _ _ _ Hpost) as Hres. rewrite Hp, Hspec in Hres. pose proof (rp_rx _ _ _ _ Hpost) as Hrx'. rewrite Hspec in Hrx'.
  exists res, r'. split_and!; [done|apply Hpost|done|done|done|done|]. rewrite Hw'. unfold reply_of, classify. cbn [dp_seq].
  rewrite Hrx. unfold answer, next_expected. destruct (Nat.eqb_spec i e) as [->|Hie].
  - rewrite Z.eqb_refl. assert ((stream_seq base e + 1) mod 4096 = stream_seq base (S e)) as -> by (unfold stream_seq; zlia).
    eexists. split; [done|]. split; [|done]. exists true, (S e). split_and!; [lia..|done].
  - rewrite (proj2 (Z.eqb_neq _ _)) by (unfold stream_seq, zlen in *; zlia).
    rewrite (proj2 (Z.eqb_neq (stream_seq base i) 0)) by done.
    destruct (Z.eqb_spec (stream_seq base i) ((stream_seq base e - 1) mod 4096)) as [E|E]; eexists; (split; [done|]).
    + assert (S i = e) as <- by (unfold stream_seq, zlen in *; zlia). split; [|done]. exists true, (S i). split_and!; [lia..|done].
    + split; [exists false, e; by split_and!; [lia|..]|]. intros [<-|?]; [|done]. destruct E. unfold stream_seq. zlia.
Qed.

(** The invariant of an exchange in which [n] packets have been sent, of which the
    receiver has the first [e] and the sender knows that it has the first [k]. *)
Record exchange_ok (w v : nat) (tx : Z) (k e n : nat) (x : exchange) : Prop := {
  xi_sending : sending k n (sender x);
  xi_open : closed (sender x) = false;
  xi_bound : (k ≤ e ≤ n)%nat;
  xi_receiver : session_ok (receiver x);
  xi_idle : idle (receiver x);
  xi_expects : rxSeqExpected (receiver x) = stream_seq base e;
  xi_tx : txSeqNr (receiver x) = tx;
  xi_got : got x = map payload_of (take e ds);
  xi_sent : Forall (in_stream n) (since w (sender x));
  xi_answers : Forall (answer tx e) (since v (receiver x));
  xi_logs : (w ≤ length (wire (sender x)) ∧ v ≤ length (wire (receiver x)))%nat;
  xi_live : gave_up x = false → live k n (sender x)
}.

Lemma sending_metrics k n m s : sending k n s → sending k n (s <| metrics := m |>).
Proof. intros [Hok ? ? ? ? ? ?]. split; [by apply session_ok_metrics|done..]. Qed.

(** An answer reaches the sender. *)
Lemma sending_answer tx k e n p s :
  0 <= tx < 4096 → sending k n s → (e ≤ n)%nat → answer tx e p →
  ∃ s' k' m es, ProcessDataPacket p s = Ok (Val None, s') ∧ sending k' (n + m) s' ∧ (k ≤ k' ≤ k `max` e)%nat ∧
    closed s' = closed s ∧ wire s' = wire s ++ es ∧ Forall (in_stream (n + m)) (packets_of es) ∧
    (live k n s → live k' (n + m) s').
Proof.
  intros Htx Hs He (ack & j & Hj & H0 & ->).
  destruct (ProcessDataPacket_control ack tx (stream_seq base j) s Htx ltac:(unfold stream_seq; zlia)) as [m ->].
  pose proof (sending_metrics k n m s Hs) as Hs0. set (s0 := s <| metrics := m |>) in *. destruct ack.
  - destruct (sending_peer_ack k n j s0 Hs0 ltac:(specialize (H0 eq_refl); lia)) as (s' & q & -> & Hs' & Hw & Hcl & _ & Hl).
    exists s', (k `max` j)%nat, q, (batch n q). rewrite bind_Ok. split_and!; [done|done|lia|lia|exact Hcl|exact Hw|apply batch_in_stream|exact Hl].
  - destruct (sending_nack k n (stream_seq base j) s0 Hs0) as (s' & -> & Hs' & (es & Hw & Hin) & Hcl & Hp & Hf).
    exists s', k, 0%nat, es. rewrite bind_Ok, Nat.add_0_r. split_and!; [done|done|lia|lia|exact Hcl|exact Hw|exact Hin|].
    unfold live. rewrite Hp, Hf. done.
Qed.

Lemma exchange_data w v tx k e n i x :
  exchange_ok w v tx k e n x → (i < n)%nat →
  ∃ res r, ProcessDataPacket (stream_packet base rx ds i) (receiver x) = Ok (res, r) ∧
    exchange_ok w v tx k (next_expected e i) n (mkExchange (sender x) r (got x ++ returned res) (gave_up x)) ∧
    ((S i = e ∨ i = e) → control_packet true tx (stream_seq base (S i)) ∈ since v r).
Proof.
  intros [Hs Hcl Hb Hr Hi Hrx Htx Hgot Hsent Hans [Hw Hv] Hlive] Hin. pose proof (sg_bound _ _ _ Hs) as Hn.
  destruct (idle_stream e i (receiver x) Hr Hi Hrx ltac:(lia) ltac:(lia))
    as (res & r & Hrun & Hr' & Hi' & Hrx' & Htx' & Hres & q & Hq & Ha & Hack).
  exists res, r. split; [done|]. rewrite Htx in *.
  assert (e ≤ next_expected e i ≤ n)%nat as He' by (unfold next_expected; destruct (Nat.eqb_spec i e); lia).
  split; [split; cbn [sender receiver got gave_up]; try done; [lia| | |]|].
  - rewrite Hgot, Hres. unfold next_expected. destruct (Nat.eqb_spec i e) as [->|_]; [|by rewrite app_nil_r].
    destruct (lookup_lt_is_Some_2 ds e ltac:(lia)) as [d Hd]. rewrite Hd. cbn [returned fmap option_fmap option_map].
    rewrite (take_S_r _ _ _ Hd), map_app. done.
  - rewrite (since_app _ _ _ _ Hv Hq). apply Forall_app. split; [|by repeat constructor].
    eapply Forall_impl; [exact Hans|]. intros y Hy. eapply answer_mono; [|exact Hy]. lia.
  - rewrite Hq, length_app. lia.
  - intros Hor. rewrite <-(Hack Hor), (since_app _ _ _ _ Hv Hq). apply elem_of_app. right. by left.
Qed.

Lemma exchange_step w v tx k e n x x' :
  0 <= tx < 4096 → exchange_ok w v tx k e n x → net_step w v x x' →
  ∃ k' e' n', exchange_ok w v tx k' e' n' x' ∧ (k ≤ k' ∧ e ≤ e' ∧ n ≤ n')%nat.
Proof.
  intros Ht Hx Hstep. pose proof Hx as [Hs Hcl Hb Hr Hi Hrx Htx Hgot Hsent Hans [Hw Hv] Hlive].
  pose proof (sg_bound _ _ _ Hs) as Hn. destruct Hstep as [[p res r Hp Hrun|p res s Hp Hrun]|o Ho [s Hrun]].
  - rewrite Forall_forall in Hsent. destruct (Hsent p Hp) as (i & Hin & ->).
    destruct (exchange_data w v tx k e n i x Hx Hin) as (res' & r' & Hrun' & Hx' & _).
    rewrite Hrun in Hrun'. injection Hrun' as <- <-. exists k, (next_expected e i), n. split; [done|].
    unfold next_expected. destruct (Nat.eqb_spec i e); lia.
  - rewrite Forall_forall in Hans. destruct (sending_answer tx k e n p (sender x) Ht Hs ltac:(lia) (Hans p Hp))
      as (s' & k' & m & es & Hrun' & Hs' & Hk' & Hcl' & Hw' & Hes & Hl').
    rewrite Hrun in Hrun'. injection Hrun' as _ <-. exists k', e, (n + m)%nat. split; [|lia].
    split; cbn [sender receiver got gave_up]; try done; [congruence|lia| |by apply Forall_forall| |auto].
    + rewrite (since_app _ _ _ _ Hw Hw'). apply Forall_app. split; [|done].
      eapply Forall_impl; [exact Hsent|]. intros y Hy. eapply in_stream_mono; [|exact Hy]. lia.
    + rewrite Hw', length_app. lia.
  - destruct (sending_timer k n o (sender x) Ho Hs Hcl) as (s' & Hrun' & Hs' & (es & Hw' & Hes) & Hcl' & Hor).
    rewrite Hrun in Hrun'. injection Hrun' as <-. exists k, e, n. split; [|lia].
    split; cbn [sender receiver got gave_up]; try done.
    + rewrite (since_app _ _ _ _ Hw Hw'). by apply Forall_app.
    + rewrite Hw', length_app. lia.
    + intros [Hg Hbz]%orb_false_iff. specialize (Hlive Hg). unfold busy, live in *.
      destruct Hor as [[-> ->]|[Hp Hf]]; [done|]. rewrite Hp, Hf in *. cbn [orb negb] in Hbz. rewrite andb_true_r in Hbz.
      apply orb_false_iff in Hbz as [Hp0 Hf0]. by rewrite Hp0, Hf0 in Hlive.
Qed.

(** ** Recovery *)

Lemma busy_unacked k n s : sending k n s → live k n s → busy s = true → (k < n)%nat.
Proof.
  intros Hs (_ & _ & Hf). unfold busy. intros [Hp|Hp]%orb_true_iff; [|by apply Hf].
  pose proof (sending_ring k n s Hs) as [Hl _]. destruct (decide (k < n)%nat) as [|Hk]; [done|].
  pose proof (wi_window _ (so_wait _ (sg_ok _ _ _ Hs)) Hp) as Hw.
  rewrite ring_nil_InFlight in Hw; [by unfold SendWindow in Hw|apply Hs|].
  apply nil_length_inv. unfold zlen in Hl. lia.
Qed.

(** The window arrives, in order: the receiver has everything sent, and says so. *)
Lemma deliver_window w v tx k n m i e x :
  exchange_ok w v tx k e n x → (i + S m = n)%nat → (i ≤ e)%nat →
  (∀ q, (i ≤ q < n)%nat → stream_packet base rx ds q ∈ since w (sender x)) →
  ∃ x', rtc (delivery w v) x x' ∧ sender x' = sender x ∧ gave_up x' = gave_up x ∧ exchange_ok w v tx k n n x' ∧
    control_packet true tx (stream_seq base n) ∈ since v (receiver x').
Proof.
  revert i e x. induction m as [|m IH]; intros i e x Hx Hi He Hq;
    destruct (exchange_data w v tx k e n i x Hx ltac:(lia)) as (res & r & Hrun & Hx' & Hack);
    pose proof (net_data w v x _ res r (Hq i ltac:(lia)) Hrun) as Hstep; pose proof (xi_bound _ _ _ _ _ _ _ Hx) as Hb.
  - eexists. split; [by apply rtc_once|]. split; [done|]. split; [done|]. split.
    + replace n with (next_expected e i) at 1; [done|]. unfold next_expected. destruct (Nat.eqb_spec i e); lia.
    + replace n with (S i) by lia. apply Hack. lia.
  - destruct (IH (S i) (next_expected e i) _ Hx') as (x' & Hrtc & Hs & Hg & Hrest); cbn [sender gave_up] in *;
      [lia|unfold next_expected; destruct (Nat.eqb_spec i e); lia|intros q Hq'; apply Hq; lia|].
    exists x'. split; [by eapply rtc_l|done].
Qed.

(** The acknowledgement of everything sent arrives, and the next packets are sent. *)
Lemma deliver_last_ack w v tx k n x :
  0 <= tx < 4096 → exchange_ok w v tx k n n x → gave_up x = false → (0 < n)%nat →
  control_packet true tx (stream_seq base n) ∈ since v (receiver x) →
  ∃ x' m, delivery w v x x' ∧ exchange_ok w v tx n n (n + m) x' ∧ gave_up x' = false ∧
    ∀ q, (n ≤ q < n + m)%nat → stream_packet base rx ds q ∈ since w (sender x').
Proof.
  intros Ht [Hs Hcl Hb Hr Hi Hrx Htx Hgot Hsent Hans [Hw Hv] Hlive] Hg Hn Hin.
  destruct (ProcessDataPacket_control true tx (stream_seq base n) (sender x) Ht ltac:(unfold stream_seq; zlia)) as [mt Hrun].
  pose proof (sending_metrics k n mt _ Hs) as Hs0.
  destruct (sending_peer_ack k n n _ Hs0 ltac:(lia)) as (s' & m & Hack & Hs' & Hw' & Hcl' & _ & Hl').
  rewrite Hack, bind_Ok in Hrun. replace (k `max` n)%nat with n in * by lia.
  assert (wire s' = wire (sender x) ++ batch n m) as Hw1 by exact Hw'.
  eexists (mkExchange s' (receiver x) (got x) (gave_up x)), m. split; [by eapply net_answer|]. split; [|split; [done|]].
  - split; cbn [sender receiver got gave_up]; try done; [by rewrite Hcl'|lia| | |].
    + rewrite (since_app _ _ _ _ Hw Hw1). apply Forall_app. split; [|apply batch_in_stream].
      eapply Forall_impl; [exact Hsent|]. intros y Hy. eapply in_stream_mono; [|exact Hy]. lia.
    + rewrite Hw1, length_app. lia.
    + intros _. apply Hl', Hlive, Hg.
  - intros q Hq. cbn [sender]. rewrite (since_app _ _ _ _ Hw Hw1). apply elem_of_app. right.
    destruct m as [|m]; [lia|]. unfold packets_of, batch. cbn [map concat packets_of_event]. rewrite app_nil_r.
    apply list_elem_of_In, in_map, in_seq. lia.
Qed.

(** Once the window in flight arrives, the rest of the transfer can follow. *)
Lemma exchange_finishes w v tx f k e n x :
  0 <= tx < 4096 → exchange_ok w v tx k e n x → gave_up x = false → busy (sender x) = true →
  (length ds - n < f)%nat → (∀ q, (k ≤ q < n)%nat → stream_packet base rx ds q ∈ since w (sender x)) →
  ∃ x', rtc (delivery w v) x x' ∧ got x' = map payload_of ds ∧ busy (sender x') = false ∧ gave_up x' = false.
Proof.
  intros Ht. revert k e n x. induction f as [|f IH]; intros k e n x Hx Hg Hbz Hf Hq; [lia|].
  pose proof (busy_unacked k n _ (xi_sending _ _ _ _ _ _ _ Hx) (xi_live _ _ _ _ _ _ _ Hx Hg) Hbz) as Hkn.
  pose proof (xi_bound _ _ _ _ _ _ _ Hx) as Hb.
  destruct (deliver_window w v tx k n (n - k - 1) k e x Hx ltac:(lia) ltac:(lia) Hq) as (x1 & H1 & _ & Hg1 & Hx1 & Hack).
  destruct (deliver_last_ack w v tx k n x1 Ht Hx1 ltac:(congruence) ltac:(lia) Hack) as (x2 & m & H2 & Hx2 & Hg2 & Hq2).
  pose proof (xi_live _ _ _ _ _ _ _ Hx2 Hg2) as Hl2. pose proof (xi_sending _ _ _ _ _ _ _ Hx2) as Hs2.
  pose proof (sg_bound _ _ _ Hs2) as Hb2. destruct (busy (sender x2)) eqn:Hbz2.
  - pose proof (busy_unacked n (n + m) _ Hs2 Hl2 Hbz2).
    destruct (IH n n (n + m)%nat x2 Hx2 Hg2 Hbz2 ltac:(lia) Hq2) as (x' & H3 & Hrest).
    exists x'. split; [|done]. etrans; [exact H1|]. by eapply rtc_l.
  - exists x2. split; [by eapply rtc_r|]. split; [|done]. rewrite (xi_got _ _ _ _ _ _ _ Hx2).
    unfold busy in Hbz2. apply orb_false_iff in Hbz2 as [Hp Hfp]. destruct Hl2 as (La & Lb & _).
    specialize (La Hp). specialize (Lb Hfp La). rewrite take_ge; [done|]. lia.
Qed.

(** Forget what has been sent before. *)
Lemma exchange_afresh w v tx k e n x :
  exchange_ok w v tx k e n x → exchange_ok (length (wire (sender x))) (length (wire (receiver x))) tx k e n x.
Proof.
  intros [Hs Hcl Hb Hr Hi Hrx Htx Hgot Hsent Hans _ Hlive]. unfold since in *.
  split; unfold since; rewrite ?drop_all; try done; constructor.
Qed.

(** One expiry of the timer sends the window again. *)
Lemma exchange_timeout w v tx k e n x :
  exchange_ok w v tx k e n x → gave_up x = false → busy (sender x) = true →
  retransmitAttempts (sender x) + 1 < MaxRetransmits →
  ∃ x', callback OpTimer x x' ∧ exchange_ok w v tx k e n x' ∧ gave_up x' = false ∧ busy (sender x') = true ∧
    ∀ q, (k ≤ q < n)%nat → stream_packet base rx ds q ∈ since w (sender x').
Proof.
  intros Hx Hg Hbz Hatt. pose proof Hx as [Hs Hcl Hb Hr Hi Hrx Htx Hgot Hsent Hans [Hw Hv] Hlive].
  pose proof (sending_ring k n _ Hs) as [Hlen Hdebt]. pose proof (busy_unacked k n _ Hs (Hlive Hg) Hbz) as Hkn.
  pose proof (sg_ok _ _ _ Hs) as Hok. pose proof Hok as [Hcore _ [W1 W2 W3]].
  assert (ring (sender x) ≠ []) as Hne by (intros E; rewrite E in Hlen; unfold zlen in Hlen; simpl in Hlen; lia).
  assert (InFlight (sender x) = Z.of_nat (n - k)) as Hif by (by rewrite InFlight_ring, decide_False, Hdebt).
  assert (ackWait (sender x) ≠ ackWaitNone ∧ waiting (sender x) = true) as [Hm Hwt].
  { unfold busy in Hbz. unfold waiting. destruct (finPending (sender x)) eqn:Hf.
    - split; [|done]. rewrite W1 by (done || lia). done.
    - rewrite orb_false_r in Hbz. rewrite Hbz. split; [by rewrite W3|]. apply Z.leb_le. by apply W2. }
  destruct (timer_step (sender x) Hok Hcl Hm Hwt) as (s' & Hstep & _ & _ & Hw' & Hif').
  rewrite (proj2 (Z.ltb_lt _ _)) in Hif' by done. destruct Hif' as (_ & _ & Hwt').
  assert (busy s' = true) as Hbz'.
  { unfold waiting in Hwt'. unfold busy. apply orb_true_iff in Hwt' as [->|[-> _]%andb_prop]; [by rewrite orb_true_r|done]. }
  assert (timeout_batch (sender x) = batch k (n - k)) as Hbatch.
  { unfold timeout_batch. rewrite resend_everything, (sg_ring _ _ _ Hs).
    - unfold batch. destruct (n - k)%nat eqn:E; [lia|]. done.
    - pose proof (ci_count _ _ _ _ _ _ _ _ Hcore) as Hc. rewrite <-(zlen_ring_of _ _ _ (ci_ring _ _ _ _ _ _ _ _ Hcore)) in Hc.
      change (ring_of _ _ _) with (ring (sender x)) in Hc. unfold SendWindow in Hc. lia. }
  destruct (sending_timer k n OpTimer (sender x) ltac:(by left) Hs Hcl) as (s1 & Hrun & Hs' & _ & Hcl' & Hor).
  rewrite Hstep in Hrun. injection Hrun as <-. rewrite Hbatch in Hw'.
  eexists. split; [by constructor|]. rewrite Hbz, Hbz', Hg. cbn [sender receiver got gave_up andb orb negb].
  split; [|split_and!; try done].
  - split; cbn [sender receiver got gave_up]; try done.
    + rewrite (since_app _ _ _ _ Hw Hw'). apply Forall_app. split; [done|].
      replace n with (k + (n - k))%nat at 1 by lia. apply batch_in_stream.
    + rewrite Hw', length_app. lia.
    + intros _. specialize (Hlive Hg). unfold live in *. destruct Hor as [[-> ->]|[Hp Hf]]; [done|].
      unfold busy in Hbz'. by rewrite Hp, Hf in Hbz'.
  - intros q Hq. rewrite (since_app _ _ _ _ Hw Hw'). apply elem_of_app. right. unfold batch.
    destruct (n - k)%nat as [|m] eqn:E; [lia|]. unfold packets_of. cbn [map concat packets_of_event]. rewrite app_nil_r.
    apply list_elem_of_In, in_map, in_seq. lia.
Qed.
End Exchange.
