(* ===== verification/RdmaProperties.v ===== *)
(** * The properties of the UDPRDMA transport

    Each theorem here is a claim about the session's operations; the lemmas that
    carry the proofs are in the files of the components. *)
From S2P Require Import Prelude RdmaProtocol RdmaSession RdmaRing RdmaPack RdmaInvariant RdmaTransfer RdmaTimer RdmaAck RdmaReceive RdmaStep RdmaDelivery RdmaLiveness.

(** Sessions that the program can reach. *)
Definition reachable (s : Session) : Prop :=
  ∃ ops, Forall op_ok ops ∧ run ops NewSession = Ok s.

Lemma reachable_ok s : reachable s → session_ok s.
Proof.
  intros (ops & Hops & Hrun). destruct (run_ok ops _ NewSession_ok Hops) as (s' & Hrun' & Hok).
  congruence.
Qed.

Ltac decide_goal := apply (bool_decide_unpack _); vm_compute; exact I.

Definition zeros (n : Z) : list byte := replicate (Z.to_nat n) (z2b 0).

(** A reachable session with an observation made on it, for concrete runs. *)
Definition observe {A} (ops : list session_op) (f : Session → A) : option A :=
  match run ops NewSession with Ok s => Some (f s) | _ => None end.

Lemma observe_run {A} ops (f : Session → A) v :
  Forall op_ok ops → observe ops f = Some v → ∃ s, reachable s ∧ session_ok s ∧ f s = v.
Proof.
  unfold observe. intros Hops Hf. destruct (run_ok ops _ NewSession_ok Hops) as (s & E & Hok).
  rewrite E in Hf. exists s. split; [by exists ops|]. split; [done|congruence].
Qed.

(** ** Safety of every operation *)

(** C6: whatever sequence of operations, peer packets and timer expiries a
    session goes through, as long as callers pass SendData at most 1492 bytes and a
    transfer a header below 1408 bytes, and packets have at least six bytes ([op_ok]),
    no operation panics (no slice or index is out of range, the ring never fills up),
    every loop ends within its bound, and the session invariant holds at the end. *)
Theorem session_never_panics ops :
  Forall op_ok ops → ∃ s, run ops NewSession = Ok s ∧ session_ok s.
Proof. exact (run_ok ops NewSession NewSession_ok). Qed.

Lemma session_never_panics_witness :
  ∃ s, run [OpSetResetCallback; OpSendRaw (zeros 8) (zeros 20000); OpTimer;
            OpPacket (control_packet true 0 8); OpPacket (control_packet false 0 8);
            OpPacket (encode 0 0 (mkDesc [] (zeros 8) true)); OpSendData (zeros 48); OpStale; OpClose]
         NewSession = Ok s ∧ session_ok s.
Proof. apply session_never_panics. decide_goal. Defined.

(** C29: in every reachable session the transmit ring holds at most
    [SendWindow + 1] packets, numbered consecutively up to the next sequence
    number, and each buffered packet is a DATA packet that carries its own
    number. *)
Theorem ring_window s :
  reachable s →
  zlen (ring s) <= SendWindow + 1 ∧
  ∀ i p, ring s !! i = Some p →
    UnpackHeader (tx_data p) =
      Val {| PacketType := PacketData;
             SeqNr := (txSeqNr s - zlen (ring s) + Z.of_nat i) mod 4096 |}.
Proof.
  intros Hr. pose proof (so_core _ (reachable_ok s Hr)) as [Hring _ _ _ Hseqs Hwf Hcount _ _ _].
  unfold ring. rewrite zlen_ring_of by done. split; [done|].
  intros i p Hp. rewrite <-(Hseqs i p Hp). by apply slot_wf_unpack, (Forall_lookup_1 _ _ _ _ Hwf Hp).
Qed.

Lemma ring_window_witness :
  ∃ s, reachable s ∧ zlen (ring s) = 8 ∧ zlen (ring s) <= SendWindow + 1.
Proof.
  destruct (observe_run [OpSendRaw (zeros 8) (zeros 20000)] (λ s, zlen (ring s)) 8) as (s & Hr & _ & Hf);
    [decide_goal|vm_compute; reflexivity|].
  exists s. split; [done|]. split; [done|]. exact (proj1 (ring_window s Hr)).
Defined.

(** C28: a session does not stall.  In every reachable session that is not closed,
    a transfer that is not fully sent has a full window and the window timer
    runs; and a FIN that is not acknowledged has the FIN timer running while packets
    are in flight. *)
Theorem no_stall s :
  reachable s → closed s = false →
  (transferPending s = true →
     SendWindow <= InFlight s ∧ ackTimer s = Some WindowAckTimeout) ∧
  (finPending s = true → InFlight s ≠ 0 → ackTimer s = Some FinAckTimeout).
Proof.
  intros Hr Hc. destruct (reachable_ok s Hr) as [_ [_ Hm _] [Hf Hw Ht]]. rewrite Hm by done.
  split.
  - intros Hp. split; [by apply Hw|]. by rewrite Ht.
  - intros Hp Hi. by rewrite Hf.
Qed.

Lemma no_stall_witness :
  ∃ s, reachable s ∧ transferPending s = true ∧ ackTimer s = Some WindowAckTimeout.
Proof.
  destruct (observe_run [OpSendRaw (zeros 8) (zeros 20000)]
              (λ s, (closed s, transferPending s)) (false, true)) as (s & Hr & _ & Hf);
    [decide_goal|vm_compute; reflexivity|].
  injection Hf as Hc Hp. exists s. split; [done|]. split; [done|].
  exact (proj2 (proj1 (no_stall s Hr Hc) Hp)).
Defined.

(** ** Sending *)

(** C25: [SendRawDataWithHeader] sends the packets of the reply's plan from the
    next sequence number on, as one batch: a first part that is never empty, and
    the rest stays as the plan of the pending transfer, only when the window is
    full.  The old ring is discarded and the new packets are kept in it. *)
Theorem SendRaw_refines_plan header data s :
  session_ok s → 0 < zlen header < MaxDataPayload →
  ∃ s' ds, SendRawDataWithHeader header data s = Ok s' ∧ session_ok s' ∧ ds ≠ [] ∧
    plan (mkTransfer header (Some data) 0 (optimalChunkSize (zlen data))) =
      ds ++ plan (s_transfer s') ∧
    wire s' = wire s ++ [WriteBatch (encode_all (rxSeqExpected s) (txSeqNr s) ds)] ∧
    map tx_data (ring s') = encode_all (rxSeqExpected s) (txSeqNr s) ds ∧
    txSeqNr s' = (txSeqNr s + zlen ds) mod 4096 ∧
    (transferPending s' = true → SendWindow <= InFlight s').
Proof.
  intros Hok Hh. set (t := mkTransfer header (Some data) 0 (optimalChunkSize (zlen data))).
  destruct (start_transfer t s Hok (SendRaw_transfer_ok header data ltac:(lia)))
    as (s' & ds & Hrun & Hok' & Hpost & Hring).
  set (s0 := (resetSendState s) <| s_transfer := t |>) in *.
  pose proof (reset_send_core s (so_core _ Hok) (so_timer _ Hok) t
                (SendRaw_transfer_ok header data ltac:(lia))) as [Hc0 _]. fold s0 in Hc0.
  destruct (transfer_settles s0 s' ds Hc0 Hring eq_refl Hok' Hpost) as [_ Hprog].
  assert (ds ≠ []) as Hne.
  { intros ->. destruct (transferPending s') eqn:Hp; [by destruct Hprog|].
    pose proof (tp_plan _ _ _ Hpost) as Hplan.
    rewrite (plan_cleared (s_transfer s')) in Hplan
      by (unfold transferPending in Hp; by destruct (t_data _)).
    change (s_transfer s0) with t in Hplan. unfold plan, t in Hplan.
    cbn [t_data t_offset t_header] in Hplan. by rewrite (proj2 (Z.ltb_lt _ _)) in Hplan by lia. }
  exists s', ds. split; [exact Hrun|]. split; [done|]. split; [done|]. split_and!.
  - exact (tp_plan _ _ _ Hpost).
  - rewrite (tp_wire _ _ _ Hpost). by destruct ds.
  - pose proof (tp_ring _ _ _ Hpost) as Hr. rewrite Hring in Hr. exact Hr.
  - exact (tp_seq _ _ _ Hpost).
  - exact (wi_window _ (so_wait _ Hok')).
Qed.

Lemma SendRaw_refines_plan_witness :
  ∃ s' ds, SendRawDataWithHeader (zeros 8) (zeros 3000) NewSession = Ok s' ∧ ds ≠ [] ∧
    wire s' = [WriteBatch (encode_all 0 0 ds)].
Proof.
  destruct (SendRaw_refines_plan (zeros 8) (zeros 3000) NewSession NewSession_ok)
    as (s' & ds & H1 & _ & H2 & _ & H3 & _); [by vm_compute|].
  exists s', ds. exact (conj H1 (conj H2 H3)).
Defined.

(** The plan of a reply carries its data exactly once and in order, the
    header in the first packet only, FIN in the last packet only, and no packet
    has more than [MaxDataPayload] bytes of header and data. *)
Theorem reply_plan_content header data :
  0 < zlen header < MaxDataPayload →
  reply_plan header data
    (plan (mkTransfer header (Some data) 0 (optimalChunkSize (zlen data)))).
Proof.
  intros Hh. rewrite optimalChunkSize_1408 by apply zlen_nonneg. by apply plan_with_header.
Qed.

Lemma reply_plan_content_witness :
  concat (map d_chunk (plan (mkTransfer (zeros 8) (Some (zeros 3000)) 0 (optimalChunkSize 3000)))) =
    zeros 3000.
Proof.
  refine (rpl_data _ _ _ (reply_plan_content (zeros 8) (zeros 3000) _)). by vm_compute.
Defined.

(** End to end.  When the peer acknowledges what it gets, a reply is sent
    completely, and nothing is left buffered or pending; a receiving session that
    expects the sender's next sequence number and gets the batches of that
    exchange returns the header and the data, cut into packets, each padded to
    four bytes. *)
Theorem transfer_end_to_end header data s r :
  session_ok s → session_ok r → rxSeqExpected r = txSeqNr s →
  zlen header mod 4 = 0 → 0 < zlen header < 64 → batched (wire s) = [] →
  let ds := plan (mkTransfer header (Some data) 0 (optimalChunkSize (zlen data))) in
  ∃ s1 s' r', SendRawDataWithHeader header data s = Ok s1 ∧
    drive (S (length ds)) s1 = Ok s' ∧
    transferPending s' = false ∧ finPending s' = false ∧ ring s' = [] ∧
    process_all (batched (wire s')) r = Ok (map payload_of ds, r') ∧
    rxSeqExpected r' = (txSeqNr s + zlen ds) mod 4096.
Proof.
  intros Hs Hr Hrx Hm Hh Hw ds.
  destruct (transfer_delivers (S (length ds)) header data s r Hs Hr Hrx Hm Hh ltac:(apply Nat.lt_succ_diag_r))
    as (s1 & s' & r' & pkts & Hrun & _ & Hdrive & [_ _ Hidle] & Hp & Hf & _ & Hb & Hproc & _ & Hrx' & Htx).
  rewrite Hw in Hb. cbn [app] in Hb. exists s1, s', r'. rewrite Hb, Hrx'.
  exact (conj Hrun (conj Hdrive (conj Hp (conj Hf (conj (Hidle Hp Hf) (conj Hproc Htx)))))).
Qed.

Lemma transfer_end_to_end_witness :
  let ds := plan (mkTransfer (zeros 8) (Some (zeros 30000)) 0 (optimalChunkSize 30000)) in
  length ds = 22%nat ∧
  ∃ s1 s' r', SendRawDataWithHeader (zeros 8) (zeros 30000) NewSession = Ok s1 ∧
    drive 23 s1 = Ok s' ∧ process_all (batched (wire s')) NewSession = Ok (map payload_of ds, r').
Proof.
  intros ds. assert (length ds = 22%nat) as Hl by (vm_compute; reflexivity). split; [exact Hl|].
  assert (zlen (zeros 8) mod 4 = 0) as H1 by (vm_compute; reflexivity).
  assert (0 < zlen (zeros 8) < 64) as H2 by (vm_compute; split; reflexivity).
  assert (batched (wire NewSession) = []) as H3 by (vm_compute; reflexivity).
  assert (rxSeqExpected NewSession = txSeqNr NewSession) as H0 by reflexivity.
  pose proof (transfer_end_to_end (zeros 8) (zeros 30000) NewSession NewSession
                NewSession_ok NewSession_ok H0 H1 H2 H3) as H. cbv zeta in H.
  change (zlen (zeros 30000)) with 30000 in H. fold ds in H. rewrite Hl in H.
  destruct H as (s1 & s' & r' & A1 & A2 & _ & _ & _ & A3 & _).
  exists s1, s', r'. exact (conj A1 (conj A2 A3)).
Defined.

(** What [packDataPacket] writes reads back.  The packet packed from a header
    (whole words), a chunk and a FIN flag is processed by a session that expects
    its sequence number; that session returns the header, the chunk and the zero
    padding, and then expects the sender's next number. *)
Theorem pack_process_roundtrip header chunk fin s r :
  session_ok s → session_ok r → rxSeqExpected r = txSeqNr s →
  zlen header mod 4 = 0 → zlen header < 64 → zlen header + zlen chunk <= 1408 →
  header ++ chunk ≠ [] →
  ∃ pkt s' r', packDataPacket header chunk fin s = Ok (pkt, s') ∧
    ProcessDataPacket pkt r = Ok (Val (Some (header ++ chunk ++ padding chunk)), r') ∧
    rxSeqExpected r' = txSeqNr s' ∧ session_ok r'.
Proof.
  intros Hs Hr Hrx Hm Hh Hl Hne. pose proof (so_core _ Hs) as [Hring Htx _ _ _ _ Hc _ _ _].
  pose proof (pad4_bounds (zlen chunk)). pose proof (zlen_nonneg header). pose proof (zlen_nonneg chunk).
  destruct (packDataPacket_spec s header chunk fin Hring) as (slot & _ & _ & _ & Hrun).
  { unfold SendWindow, txBufferLen in *. lia. }
  { unfold packet_size, txPacketCap. cbn [d_header d_chunk]. lia. }
  set (d := mkDesc header chunk fin) in *. set (pkt := encode _ _ d) in *.
  assert (parse_packet pkt = Some (mkDataPacket (txSeqNr s) ((rxSeqExpected s - 1) mod 4096) true (payload_of d)))
    as Hparse by (apply encode_parse; [split_and!; simpl; lia|done]).
  destruct (ProcessDataPacket_spec pkt r Hr) as (res & r' & Hproc & [Hok' Hrx' Hres _]).
  { unfold pkt. rewrite zlen_encode. unfold packet_size. simpl. lia. }
  assert (spec_receive (rxSeqExpected r) pkt = (Some (payload_of d), (txSeqNr s + 1) mod 4096)) as Hspec.
  { unfold spec_receive. rewrite Hparse. cbn [dp_payload dp_seq].
    destruct (payload_of d) eqn:E.
    { destruct Hne. unfold payload_of in E. simpl in E. rewrite app_assoc in E. by apply app_nil in E as [? _]. }
    unfold classify. by rewrite Hrx, Z.eqb_refl. }
  rewrite Hparse, Hspec in Hres. rewrite Hspec in Hrx'. subst res.
  exists pkt, (push_slot slot fin s), r'. split; [exact Hrun|]. split; [exact Hproc|].
  split; [|done]. rewrite Hrx'. simpl snd. unfold push_slot.
  destruct fin; simpl; by rewrite next_seq.
Qed.

Lemma pack_process_roundtrip_witness :
  ∃ pkt s' r', packDataPacket (zeros 8) (zeros 5) true NewSession = Ok (pkt, s') ∧
    ProcessDataPacket pkt NewSession = Ok (Val (Some (zeros 8 ++ zeros 5 ++ padding (zeros 5))), r').
Proof.
  assert (rxSeqExpected NewSession = txSeqNr NewSession) as H0 by reflexivity.
  destruct (pack_process_roundtrip (zeros 8) (zeros 5) true NewSession NewSession
              NewSession_ok NewSession_ok H0) as (pkt & s' & r' & H1 & H2 & _);
    [by vm_compute..|]. exists pkt, s', r'. exact (conj H1 H2).
Defined.

(** ** Receiving *)

(** C26: processing a peer's packets refines the receiver's specification.  For
    any packets of at least six bytes, the payloads a session returns and the
    sequence number it expects afterwards are those of [receive_all], which looks
    at nothing but the expected number and the packets. *)
Theorem receive_refines_spec pkts s :
  session_ok s → Forall (λ p, 6 <= zlen p) pkts →
  ∃ s', process_all pkts s = Ok (fst (receive_all (rxSeqExpected s) pkts), s') ∧ session_ok s' ∧
    rxSeqExpected s' = snd (receive_all (rxSeqExpected s) pkts).
Proof. exact (process_all_refines pkts s). Qed.

Definition junk_and_data : list (list byte) :=
  [zeros 6; encode 0 0 (mkDesc [] (zeros 4) true); encode 0 0 (mkDesc [] (zeros 4) true)].

Lemma receive_refines_spec_witness :
  ∃ s', process_all junk_and_data NewSession = Ok ([zeros 4], s') ∧ rxSeqExpected s' = 1.
Proof.
  destruct (receive_refines_spec junk_and_data NewSession NewSession_ok) as (s' & H1 & _ & H2);
    [decide_goal|].
  assert (receive_all (rxSeqExpected NewSession) junk_and_data = ([zeros 4], 1)) as E
    by (vm_compute; reflexivity).
  rewrite E in H1, H2. exists s'. exact (conj H1 H2).
Defined.

(** C10: exactly-once, in-order delivery.  The packets of a numbered stream
    arrive lost, duplicated and reordered in any way that keeps them less than
    one round of sequence numbers from the expected one and never brings the
    number 0 out of turn.  The session then returns a contiguous part of the
    stream, each payload once and in order; and if the packets from [e] to
    [e + k] occur in order among the arrivals, they are all delivered. *)
Theorem exactly_once_in_order base rx ds e arr s :
  session_ok s → 0 <= base → Forall (λ d, desc_ok d ∧ payload_of d ≠ []) ds →
  rxSeqExpected s = stream_seq base e → arrivals_ok base ds e arr →
  ∃ s' e', process_all (map (stream_packet base rx ds) arr) s =
      Ok (map payload_of (take (e' - e) (drop e ds)), s') ∧
    rxSeqExpected s' = stream_seq base e' ∧
    ∀ k, List.seq e k `sublist_of` arr → (e + k ≤ e')%nat.
Proof.
  intros Hok Hb Hds Hrx Harr.
  pose proof (stream_delivery base rx ds Hds e arr Harr) as Hd. rewrite <-Hrx in Hd.
  destruct (process_all_refines (map (stream_packet base rx ds) arr) s Hok) as (s' & H1 & _ & H2).
  { by apply stream_long with (e := e). }
  rewrite Hd in H1, H2. exists s', (advance e arr).
  split; [exact H1|]. split; [exact H2|]. intros k. apply advance_complete.
Qed.

Definition three_packets : list pkt_desc :=
  [mkDesc [] (zeros 4) false; mkDesc [] (zeros 8) false; mkDesc [] (zeros 12) true].

Lemma exactly_once_in_order_witness :
  ∃ s' e', process_all (map (stream_packet 0 0 three_packets) [0; 2; 0; 1; 1; 2]%nat) NewSession =
      Ok (map payload_of (take e' three_packets), s') ∧ (3 ≤ e')%nat.
Proof.
  assert (rxSeqExpected NewSession = stream_seq 0 0) as H0 by reflexivity.
  destruct (exactly_once_in_order 0 0 three_packets 0 [0; 2; 0; 1; 1; 2]%nat NewSession
              NewSession_ok ltac:(lia)) as (s' & e' & H1 & _ & H3); [|exact H0| |].
  - repeat constructor; vm_compute; congruence.
  - vm_compute. repeat split; try lia; intros; try lia; try congruence; tauto.
  - exists s', e'. rewrite Nat.sub_0_r, drop_0 in H1. split; [exact H1|].
    apply (H3 3%nat). simpl. do 2 constructor. do 2 constructor. do 2 constructor. constructor.
Defined.

(** Each data packet is answered at once, by its place in the sequence: one
    ACK of the packet when it is the expected one, one ACK of the last packet when
    it repeats it, a reset of the session and an ACK when it is numbered 0 out of
    turn, and one NACK of the expected number otherwise. *)
Theorem data_packet_reply data p s res s' :
  session_ok s → 6 <= zlen data → parse_packet data = Some p → dp_payload p ≠ [] →
  ProcessDataPacket data s = Ok (res, s') →
  wire_ext (reply_of s p) s s' ∧
  res = Val (match classify (rxSeqExpected s) (dp_seq p) with
             | InOrder | PeerReset => Some (dp_payload p)
             | Duplicate | OutOfOrder => None
             end).
Proof.
  intros Hok Hlen Hp Hne Hrun.
  destruct (ProcessDataPacket_spec data s Hok Hlen) as (res' & s'' & Hrun' & [_ _ Hres Hwire]).
  rewrite Hrun in Hrun'. simplify_eq. rewrite Hp in *. unfold spec_receive in Hres. rewrite Hp in Hres.
  destruct (dp_payload p); [done|]. split; [done|]. rewrite Hres. by destruct (classify _ _).
Qed.

Lemma data_packet_reply_witness :
  ∃ res s', ProcessDataPacket (encode 0 5 (mkDesc [] (zeros 4) true)) NewSession = Ok (res, s') ∧
    wire_ext [WriteTo (control_packet false 0 0)] NewSession s' ∧ res = Val None.
Proof.
  set (pkt := encode 0 5 (mkDesc [] (zeros 4) true)).
  destruct (parse_packet pkt) as [p|] eqn:Ep; [|vm_compute in Ep; discriminate].
  assert (6 <= zlen pkt) as Hlen by (vm_compute; congruence).
  destruct (ProcessDataPacket_spec pkt NewSession NewSession_ok Hlen) as (res & s' & Hrun & _).
  assert (dp_payload p ≠ []) as Hne by (vm_compute in Ep; by injection Ep as <-).
  destruct (data_packet_reply pkt p NewSession res s' NewSession_ok Hlen Ep Hne Hrun) as [Hw Hr].
  exists res, s'. vm_compute in Ep. injection Ep as <-. exact (conj Hrun (conj Hw Hr)).
Defined.

(** ** Acknowledgements, retransmission, timeouts *)

(** A cumulative ACK of the [i]-th buffered packet drops exactly that packet
    and the older ones, and clears the retransmission count; when it is the last
    packet sent, the ring is empty and the FIN is no longer pending. *)
Theorem onAck_prunes s i p :
  session_ok s → zlen (ring s) <= debt s → ring s !! i = Some p →
  ∃ s', onAck (seq p) s = Ok s' ∧ ring s' = drop (S i) (ring s) ∧ txSeqNrAcked s' = seq p ∧
    retransmitAttempts s' = 0 ∧ wire s' = wire s ∧
    (S i = length (ring s) → ring s' = [] ∧ finPending s' = false).
Proof.
  intros [Hcore Htimer _] Hd Hi.
  pose proof Hcore as [Hring Htx Hak _ Hseqs _ Hcount _ _ _].
  pose proof (zlen_ring_of _ _ _ Hring) as Hk. change (ring_of _ _ _) with (ring s) in Hk.
  pose proof (Hseqs i p Hi) as Hsq. rewrite <-Hk in Hsq.
  pose proof (lookup_lt_Some _ _ _ Hi) as Hlt. unfold SendWindow in Hcount. rewrite <-Hk in Hcount.
  set (k := zlen (ring s)) in *. assert (Z.of_nat i < k) by (unfold k, zlen; lia).
  assert (0 <= seq p < 4096) as Hp by (rewrite Hsq; zlia).
  destruct (onAck_spec (seq p) s Hcore Htimer Hp)
    as (s' & Hrun & Hc' & _ & _ & Hw & _ & _ & _ & _ & Hif).
  assert (ack_accepted (seq p) s = true) as Hacc.
  { unfold ack_accepted. apply andb_true_iff. split.
    - apply negb_true_iff, Z.eqb_neq. intros Hr.
      apply (ring_of_nil_iff _ _ _ Hring) in Hr. change (ring s = []) in Hr. by rewrite Hr in Hi.
    - apply seqBetween_spec; [done|done|zlia|]. unfold debt, debt_of in Hd. zlia. }
  rewrite Hacc in Hif. destruct Hif as (Ha & Hatt & Hr & Hfin & _).
  assert (debt_of (txSeqNr s) (seq p) = k - 1 - Z.of_nat i) as Hdebt.
  { unfold debt_of. zlia. }
  assert (ring s' = drop (S i) (ring s)) as Hring'.
  { rewrite Hr, Hdebt. unfold prune_count. rewrite (proj2 (Z.leb_gt _ _)) by lia. f_equal. lia. }
  exists s'. split; [done|]. split; [done|]. split; [done|]. split; [done|]. split; [done|].
  intros Hlast. split; [rewrite Hring'; apply drop_ge; lia|].
  rewrite Hfin, (proj2 (Z.eqb_eq _ _)); [done|]. rewrite Hsq. unfold k, zlen in *. zlia.
Qed.

Lemma onAck_prunes_witness :
  ∃ s p s', reachable s ∧ ring s !! 2%nat = Some p ∧ onAck (seq p) s = Ok s' ∧
    ring s' = drop 3 (ring s).
Proof.
  destruct (observe_run [OpSendRaw (zeros 8) (zeros 20000)]
              (λ s, (zlen (ring s) <=? debt s, bool_decide (is_Some (ring s !! 2%nat)))) (true, true))
    as (s & Hreach & Hok & Hf); [decide_goal|vm_compute; reflexivity|].
  injection Hf as Hd%Z.leb_le [p Hp]%bool_decide_eq_true.
  destruct (onAck_prunes s 2 p Hok Hd Hp) as (s' & H1 & H2 & _).
  exists s, p, s'. exact (conj Hreach (conj Hp (conj H1 H2))).
Defined.

(** C27: a session whose peer is silent sends every buffered packet again, byte
    for byte as first sent, at each of [MaxRetransmits] timeouts, and then gives
    the transfer up: nothing is pending and the timer is stopped. *)
Theorem silent_peer s :
  session_ok s → closed s = false → ackWait s ≠ ackWaitNone → waiting s = true →
  retransmitAttempts s = 0 → ring s ≠ [] → zlen (ring s) <= debt s < 2048 →
  ∃ s', run (replicate 4 OpTimer) s = Ok s' ∧
    wire s' = wire s ++ replicate 4 (WriteBatch (map tx_data (ring s))) ∧
    ackTimer s' = None ∧ finPending s' = false ∧ transferPending s' = false.
Proof.
  intros Hok Hcl Hm Hw Hatt Hne Hd.
  destruct (timers_give_up 3 s Hok Hcl Hm Hw) as (s' & H1 & _ & _ & H2 & H3); [by rewrite Hatt|].
  exists s'. split; [exact H1|]. split; [|exact H3]. rewrite H2. f_equal.
  unfold timeout_batch. rewrite resend_everything by done.
  destruct (ring s); [done|]. reflexivity.
Qed.

Lemma silent_peer_witness :
  ∃ s s', reachable s ∧ run (replicate 4 OpTimer) s = Ok s' ∧
    wire s' = wire s ++ replicate 4 (WriteBatch (map tx_data (ring s))).
Proof.
  destruct (observe_run [OpSendRaw (zeros 8) (zeros 20000)]
              (λ s, (negb (closed s) && bool_decide (ackWait s ≠ ackWaitNone) && waiting s &&
                     (retransmitAttempts s =? 0) && (0 <? zlen (ring s)) && (zlen (ring s) <=? debt s) &&
                     (debt s <? 2048))) true)
    as (s & Hreach & Hok & Hf); [decide_goal|vm_compute; reflexivity|].
  bool_to_prop. match goal with H : bool_decide _ = true |- _ => apply bool_decide_eq_true in H end.
  destruct (silent_peer s Hok) as (s' & Hrun & Hwire & _); try done.
  - intros E. rewrite E in *. done.
  - exists s, s'. exact (conj Hreach (conj Hrun Hwire)).
Defined.

(** C30: a NACK is honoured only for the oldest buffered packet.  When it names
    the oldest packet, all buffered packets are sent again; when it names any
    later one, nothing is: the scan stops at the first packet, which lies before
    the one asked for. *)
Theorem nack_only_oldest s i p :
  session_ok s → ring s !! i = Some p →
  ∃ s', onPeerNack (seq p) s = Ok s' ∧
    wire s' = wire s ++ match i with O => [WriteBatch (map tx_data (ring s))] | S _ => [] end.
Proof.
  intros Hok Hi. destruct (onPeerNack_spec (seq p) s Hok) as (s' & H1 & _ & _ & _ & _ & _ & H2 & _).
  exists s'. split; [exact H1|]. rewrite H2. f_equal.
  destruct (so_core _ Hok) as [Hring Htx _ _ Hseqs _ Hcount _ _ _].
  pose proof (zlen_ring_of _ _ _ Hring) as Hk. change (ring_of _ _ _) with (ring s) in Hk.
  pose proof (Hseqs i p Hi) as Hsq. rewrite <-Hk in Hsq, Hcount. unfold SendWindow in Hcount.
  pose proof (lookup_lt_Some _ _ _ Hi) as Hlt. unfold resend. set (k := zlen (ring s)) in *.
  assert (Z.of_nat i < k) by (unfold k, zlen; lia). rewrite Hsq.
  replace ((txSeqNr s - k - (txSeqNr s - k + Z.of_nat i) mod 4096) mod 4096)
    with ((- Z.of_nat i) mod 4096) by zlia.
  destruct i as [|i].
  - change (- Z.of_nat 0 mod 4096) with 0. unfold resend_count.
    change (0 <? 2048) with true. cbv iota. rewrite Z.min_l by lia.
    assert (Z.to_nat k = length (ring s)) as -> by (unfold k, zlen; lia).
    rewrite firstn_all. destruct (ring s); [done|]. reflexivity.
  - unfold resend_count. rewrite (proj2 (Z.ltb_ge _ _)) by zlia. done.
Qed.

Lemma nack_only_oldest_witness :
  ∃ s p s', reachable s ∧ ring s !! 1%nat = Some p ∧ onPeerNack (seq p) s = Ok s' ∧ wire s' = wire s.
Proof.
  destruct (observe_run [OpSendRaw (zeros 8) (zeros 20000)]
              (λ s, bool_decide (is_Some (ring s !! 1%nat))) true)
    as (s & Hreach & Hok & [p Hp]%bool_decide_eq_true); [decide_goal|vm_compute; reflexivity|].
  destruct (nack_only_oldest s 1 p Hok Hp) as (s' & H1 & H2). rewrite app_nil_r in H2.
  exists s, p, s'. exact (conj Hreach (conj Hp (conj H1 H2))).
Defined.

(** The timer's sequence check never rejects a callback.  In every reachable
    session the callback runs the timeout exactly when the session is open and a
    wait mode is set; the comparison of [ackTimerExpectSeq] with [ackTimerSeq]
    does not change that, so a callback that was overtaken by a stop and a new
    arming is not told apart. *)
Theorem stale_callback_accepted s :
  reachable s →
  ackTimerFunc s =
    if closed s || bool_decide (ackWait s = ackWaitNone) then Ok s
    else handleAckTimeout (s <| ackWait := ackWaitNone |>).
Proof.
  intros Hr. destruct (reachable_ok s Hr) as [_ [Hseq _ _] _]. unfold ackTimerFunc.
  destruct (closed s); [done|]. simpl. case_bool_decide as Hm; [done|]. simpl.
  by rewrite Hseq, Z.eqb_refl.
Qed.

Lemma stale_callback_accepted_witness :
  ∃ s, reachable s ∧ ackTimerFunc s = handleAckTimeout (s <| ackWait := ackWaitNone |>).
Proof.
  destruct (observe_run [OpSendData (zeros 8); OpSendData (zeros 8)]
              (λ s, closed s || bool_decide (ackWait s = ackWaitNone)) false)
    as (s & Hreach & _ & Hf); [decide_goal|vm_compute; reflexivity|].
  exists s. split; [exact Hreach|]. pose proof (stale_callback_accepted s Hreach) as H.
  rewrite Hf in H. exact H.
Defined.

(** ** Formats and arithmetic *)

(** The two packet headers are exact inverses of their bit layouts: unpacking
    what is packed gives the fields back, whatever follows, and packing what was
    unpacked gives the bytes back. *)
Theorem header_roundtrips h d data rest :
  Header_wf h → DataHeader_wf d →
  UnpackHeader (Header_Pack h ++ rest) = Val h ∧
  UnpackDataHeader (DataHeader_Pack d ++ rest) = Val d ∧
  (∀ h', UnpackHeader data = Val h' → Header_Pack h' = take 2 data) ∧
  (∀ d', UnpackDataHeader data = Val d' → DataHeader_Pack d' = take 4 data).
Proof.
  intros Hh Hd. split_and!.
  - by apply UnpackHeader_Pack.
  - by apply UnpackDataHeader_Pack.
  - apply Header_Pack_Unpack.
  - apply DataHeader_Pack_Unpack.
Qed.

Lemma header_roundtrips_witness :
  UnpackDataHeader (DataHeader_Pack (mkDataHeader 4095 3 15 16383)) = Val (mkDataHeader 4095 3 15 16383).
Proof.
  exact (proj1 (proj2 (header_roundtrips (mkHeader 2 4095) (mkDataHeader 4095 3 15 16383) [] []
           ltac:(by vm_compute) ltac:(by vm_compute)))).
Defined.

(** C31: a discovery packet gets a reply exactly when it is long enough, of type
    DISCOVERY and names the expected service; the reply is an INFORM packet with
    sequence number 1, the service and a zero reserved field.  Everything else is
    an error. *)
Theorem discovery_reply data service reply :
  0 <= service < 65536 →
  ProcessDiscoveryPacket data service = Val reply ↔
  6 <= zlen data ∧ le_at data 0 2 mod 16 = PacketDiscovery ∧ le_at data 2 2 = service ∧
  reply = Header_Pack {| PacketType := PacketInform; SeqNr := 1 |} ++
          DiscHeader_Pack {| ServiceID := service; Reserved := 0 |}.
Proof. exact (ProcessDiscoveryPacket_iff data service reply). Qed.

Lemma discovery_reply_witness :
  ProcessDiscoveryPacket (le_put 2 0 ++ le_put 2 Service_UDPFS ++ le_put 2 0) Service_UDPFS =
    Val (Header_Pack {| PacketType := PacketInform; SeqNr := 1 |} ++
         DiscHeader_Pack {| ServiceID := Service_UDPFS; Reserved := 0 |}).
Proof.
  apply (discovery_reply _ Service_UDPFS); [by vm_compute|].
  split; [by vm_compute|]. split; [by vm_compute|]. split; by vm_compute.
Defined.

(** [seqBetween] is membership in the cyclic interval of the 12-bit sequence
    space, wrap-around included: walking up from [a], one meets [x] no later
    than [b]. *)
Theorem seqBetween_cyclic a x b :
  0 <= a < 4096 → 0 <= x < 4096 → 0 <= b < 4096 →
  seqBetween a x b = true ↔ (x - a) mod 4096 <= (b - a) mod 4096.
Proof. exact (seqBetween_spec a x b). Qed.

Lemma seqBetween_cyclic_witness : seqBetween 4090 3 5 = true ∧ seqBetween 4090 6 5 = false.
Proof.
  split; [apply (seqBetween_cyclic 4090 3 5); by vm_compute|].
  apply not_true_is_false. intros H. apply (seqBetween_cyclic 4090 6 5) in H; by vm_compute in *.
Defined.

(** The search for an optimal chunk size never finds one: for every size the
    result is 1408, since a smaller chunk never needs fewer packets. *)
Theorem optimalChunkSize_constant n : 0 <= n → optimalChunkSize n = 1408.
Proof. exact (optimalChunkSize_1408 n). Qed.

Lemma optimalChunkSize_constant_witness : optimalChunkSize 131072 = 1408.
Proof. apply (optimalChunkSize_constant 131072). lia. Defined.
