(* ===== verification/RdmaNetwork.v ===== *)
(** * A reply over a network that loses, repeats and reorders packets

    The machine of [RdmaExchange], from the call that sends a reply on. *)
From stdpp Require Import relations.
From S2P Require Import Prelude RdmaProtocol RdmaSession RdmaRing RdmaPack RdmaInvariant RdmaTransfer RdmaTimer RdmaAck RdmaReceive RdmaStep RdmaTyped RdmaDelivery RdmaLiveness RdmaExchange RdmaProperties.

(** ** A reply *)

(** The reply is the next thing that [s] sends to [r]: its sequence numbers do not
    wrap, earlier packets are acknowledged, and [r] sends nothing. *)
Record reply_starts (header data : list byte) (s r : Session) : Prop := {
  rs_sender : session_ok s;
  rs_receiver : session_ok r;
  rs_open : closed s = false;
  rs_idle : idle r;
  rs_expects : rxSeqExpected r = txSeqNr s;
  rs_acked : debt s = 0;
  rs_header : zlen header mod 4 = 0 ∧ 0 < zlen header < 64;
  rs_numbers : 0 < txSeqNr s ∧
    txSeqNr s + zlen (plan (mkTransfer header (Some data) 0 (optimalChunkSize (zlen data)))) < 4096
}.

Definition start (s1 r : Session) : exchange := mkExchange s1 r [] false.

Section Reply.
Context (header data : list byte) (s r : Session) (Hst : reply_starts header data s r).
Let t := mkTransfer header (Some data) 0 (optimalChunkSize (zlen data)).
Let ds := plan t.
Let w := length (wire s).
Let v := length (wire r).

Lemma reply_plan_of : reply_plan header data ds.
Proof.
  unfold ds, t. rewrite optimalChunkSize_1408 by apply zlen_nonneg. apply plan_with_header.
  destruct Hst as [_ _ _ _ _ _ [_ Hh] _]. unfold MaxDataPayload. lia.
Qed.

Lemma reply_descs : Forall (λ d, desc_ok d ∧ payload_of d ≠ []) ds.
Proof. destruct Hst as [_ _ _ _ _ _ [Hm Hh] _]. exact (reply_plan_desc_ok _ _ _ reply_plan_of Hm Hh). Qed.

Lemma exchange_start s1 :
  SendRawDataWithHeader header data s = Ok s1 →
  ∃ n, exchange_ok (txSeqNr s) (rxSeqExpected s) ds w v (txSeqNr r) 0 0 n (start s1 r).
Proof.
  destruct Hst as [Hs Hr Hcl Hi Hrx Hd [_ Hh] [Hb Hwrap]]. fold t ds in Hwrap. rewrite SendRaw_start. fold t. intros Hrun.
  pose proof (SendRaw_transfer_ok header data ltac:(unfold MaxDataPayload; lia)) as Ht. fold t in Ht.
  destruct (start_transfer t s Hs Ht) as (s1' & ds1 & Hrun' & Hok1 & Hpost & Hring). rewrite Hrun in Hrun'. injection Hrun' as <-.
  pose proof (ci_tx _ _ _ _ _ _ _ _ (so_core _ Hs)) as Htx. pose proof (ci_ack _ _ _ _ _ _ _ _ (so_core _ Hs)) as Hak.
  pose proof (tp_plan _ _ _ Hpost) as Hplan. change (plan (s_transfer _)) with ds in Hplan at 1.
  destruct (take_of_split _ _ _ Hplan) as [Hd1 Hd2]. set (n := length ds1) in *.
  assert (n ≤ length ds)%nat as Hn by (rewrite Hplan, length_app; fold n; lia).
  assert (encode_all (rxSeqExpected s) (txSeqNr s) ds1 = map (stream_packet (txSeqNr s) (rxSeqExpected s) ds) (List.seq 0 n)) as Henc.
  { rewrite Hd1, <-(encode_all_take _ _ _ 0 n) by lia. f_equal. unfold stream_seq. zlia. }
  assert (wire s1 = wire s ++ batch (txSeqNr s) (rxSeqExpected s) ds 0 n) as Hw.
  { rewrite (tp_wire _ _ _ Hpost). change (wire (_ <| s_transfer := t |>)) with (wire s).
    change (rxSeqExpected (_ <| s_transfer := t |>)) with (rxSeqExpected s).
    change (txSeqNr (_ <| s_transfer := t |>)) with (txSeqNr s). rewrite Henc. by destruct ds1. }
  exists n. split; cbn [start sender receiver got gave_up]; try done.
  - split; [done|lia|..].
    + rewrite (tp_seq _ _ _ Hpost). unfold stream_seq, zlen. done.
    + rewrite (tp_acked _ _ _ Hpost). change (txSeqNrAcked (_ <| s_transfer := t |>)) with (txSeqNrAcked s).
      unfold debt, debt_of in Hd. zlia.
    + by rewrite (tp_rx _ _ _ Hpost).
    + rewrite (tp_ring _ _ _ Hpost), Hring, Nat.sub_0_r. exact Henc.
    + intros _. exact Hd2.
  - by rewrite (tp_closed _ _ _ Hpost).
  - lia.
  - rewrite Hrx. unfold stream_seq. zlia.
  - rewrite (since_app w s s1 _ (Nat.le_refl _) Hw). unfold since, w. rewrite drop_all. apply (batch_in_stream _ _ _ 0 n).
  - unfold since, v. rewrite drop_all. constructor.
  - rewrite Hw, length_app. lia.
  - intros _. split; [|split].
    + intros Hp. rewrite Hplan, plan_cleared, app_nil_r by (unfold transferPending in Hp; by destruct (t_data _)). done.
    + rewrite (tp_fin _ _ _ Hpost). intros [_ Hf]%orb_false_iff Hl. exfalso. destruct reply_plan_of as [_ Hhd _ Hfl].
      assert (length ds ≠ 0%nat) by (intros E; apply nil_length_inv in E; by rewrite E in Hhd).
      pose proof (fin_of_last ds Hfl 0 n ltac:(lia) ltac:(lia)) as Hx. rewrite drop_0, <-Hd1, Hf in Hx. done.
    + rewrite (tp_fin _ _ _ Hpost). intros [Hf|Hf]%orb_true_iff; [done|]. destruct ds1; [done|]. unfold n. simpl. lia.
Qed.

Lemma exchange_run x s1 :
  SendRawDataWithHeader header data s = Ok s1 → rtc (net_step w v) (start s1 r) x →
  ∃ k e n, exchange_ok (txSeqNr s) (rxSeqExpected s) ds w v (txSeqNr r) k e n x.
Proof.
  intros Hrun Hrtc. destruct (exchange_start s1 Hrun) as [n0 H0].
  destruct Hst as [_ Hr _ _ _ _ _ [Hb Hwrap]]. fold t ds in Hwrap.
  pose proof (ci_tx _ _ _ _ _ _ _ _ (so_core _ Hr)) as Htx.
  assert (∃ k e n, exchange_ok (txSeqNr s) (rxSeqExpected s) ds w v (txSeqNr r) k e n (start s1 r)) as Hx by (by exists 0%nat, 0%nat, n0).
  clear n0 H0. induction Hrtc as [x|x y z Hxy _ IH]; [done|]. apply IH. destruct Hx as (k & e & n & Hx).
  destruct (exchange_step _ _ _ Hb Hwrap reply_descs (rpl_fin _ _ _ reply_plan_of) w v (txSeqNr r) k e n x y Htx Hx Hxy)
    as (k' & e' & n' & Hy & _). by exists k', e', n'.
Qed.

Lemma exchange_recovers x s1 :
  SendRawDataWithHeader header data s = Ok s1 → rtc (net_step w v) (start s1 r) x →
  gave_up x = false → retransmitAttempts (sender x) + 1 < MaxRetransmits →
  ∃ x1 x', (busy (sender x) = false ∧ x1 = x ∨ callback OpTimer x x1) ∧
    rtc (delivery (length (wire (sender x))) (length (wire (receiver x)))) x1 x' ∧
    got x' = map payload_of ds ∧ busy (sender x') = false ∧ gave_up x' = false.
Proof.
  intros Hrun Hrtc Hg Hatt. destruct (exchange_run x s1 Hrun Hrtc) as (k & e & n & Hx).
  pose proof (ci_tx _ _ _ _ _ _ _ _ (so_core _ (rs_receiver _ _ _ _ Hst))) as Htx.
  destruct (rs_numbers _ _ _ _ Hst) as [Hb Hwrap]. fold t ds in Hwrap.
  apply exchange_afresh in Hx. destruct (busy (sender x)) eqn:Hbz.
  - destruct (exchange_timeout _ _ _ Hb Hwrap _ _ _ _ _ _ _ Hx Hg Hbz Hatt) as (x1 & H1 & Hx1 & Hg1 & Hbz1 & Hq1).
    destruct (exchange_finishes _ _ _ Hb Hwrap reply_descs (rpl_fin _ _ _ reply_plan_of) _ _ _ (S (length ds - n)) _ _ _ _
      Htx Hx1 Hg1 Hbz1 (Nat.lt_succ_diag_r _) Hq1) as (x' & H2 & Hrest).
    exists x1, x'. split; [by right|done].
  - exists x, x. split; [by left|]. split; [done|]. split; [|done]. rewrite (xi_got _ _ _ _ _ _ _ _ _ _ Hx).
    pose proof (xi_live _ _ _ _ _ _ _ _ _ _ Hx Hg) as (La & Lb & _). unfold busy in Hbz. apply orb_false_iff in Hbz as [Hp Hf].
    specialize (La Hp). specialize (Lb Hf La). pose proof (xi_bound _ _ _ _ _ _ _ _ _ _ Hx). rewrite take_ge; [done|lia].
Qed.
End Reply.

(** C11: a transfer over a network that loses, repeats and reorders packets in both
    directions.  Whatever packets of the two sessions the network delivers, when, in
    which order and how often, and whenever the sender's timer expires, the receiver
    returns the first packets of the reply, each once and in order; and when the sender
    has nothing more to send and waits for nothing, and has not given up, the receiver
    has returned the whole reply: an acknowledgement never tells more than is true.
    The sequence numbers of the reply must not wrap around or include 0, which the
    receiver takes for a restarted peer. *)
Theorem network_safe header data s r s1 x :
  reply_starts header data s r → SendRawDataWithHeader header data s = Ok s1 →
  rtc (net_step (length (wire s)) (length (wire r))) (start s1 r) x →
  let ds := plan (mkTransfer header (Some data) 0 (optimalChunkSize (zlen data))) in
  (∃ e, got x = map payload_of (take e ds)) ∧
  (gave_up x = false → busy (sender x) = false → got x = map payload_of ds).
Proof.
  intros Hst Hrun Hrtc ds. destruct (exchange_run header data s r Hst x s1 Hrun Hrtc) as (k & e & n & Hx).
  pose proof (xi_got _ _ _ _ _ _ _ _ _ _ Hx) as Hgot. split; [by exists e|]. intros Hg Hbz. rewrite Hgot.
  destruct (xi_live _ _ _ _ _ _ _ _ _ _ Hx Hg) as (La & Lb & _). unfold busy in Hbz. apply orb_false_iff in Hbz as [Hp Hf].
  specialize (La Hp). specialize (Lb Hf La). pose proof (xi_bound _ _ _ _ _ _ _ _ _ _ Hx). rewrite take_ge; [done|unfold ds; lia].
Qed.

(** C12: losses are made good by one timeout.  Whatever the network has done so far,
    as long as the sender has retransmissions left: if from now on it delivers what is
    sent (nothing of what was sent before is needed), then the rest of the reply
    arrives and is acknowledged after a single expiry of the sender's timer, or without
    one when the sender is not waiting any more: all that follows are deliveries.  The
    sequence numbers of the reply must not wrap around or include 0. *)
Theorem network_recovers header data s r s1 x :
  reply_starts header data s r → SendRawDataWithHeader header data s = Ok s1 →
  rtc (net_step (length (wire s)) (length (wire r))) (start s1 r) x →
  gave_up x = false → retransmitAttempts (sender x) + 1 < MaxRetransmits →
  ∃ x1 x', (busy (sender x) = false ∧ x1 = x ∨ callback OpTimer x x1) ∧
    rtc (delivery (length (wire (sender x))) (length (wire (receiver x)))) x1 x' ∧
    got x' = map payload_of (plan (mkTransfer header (Some data) 0 (optimalChunkSize (zlen data)))) ∧
    busy (sender x') = false ∧ gave_up x' = false.
Proof. intros Hst Hrun Hrtc. exact (exchange_recovers header data s r Hst x s1 Hrun Hrtc). Qed.

(** The second message of a server, to a client that has the first one. *)
Lemma second_reply :
  ∃ s r s1, reply_starts (zeros 8) (zeros 30000) s r ∧ SendRawDataWithHeader (zeros 8) (zeros 30000) s = Ok s1 ∧
    retransmitAttempts s1 = 0.
Proof.
  destruct (observe_run [OpSendData (zeros 8); OpPacket (control_packet true 0 1)]
              (λ s, (txSeqNr s, debt s, closed s,
                     match SendRawDataWithHeader (zeros 8) (zeros 30000) s with
                     | Ok s1 => retransmitAttempts s1 =? 0
                     | _ => false
                     end)) (1, 0, false, true)) as (s & _ & Hs & Hf);
    [decide_goal|vm_compute; reflexivity|].
  destruct (observe_run [OpPacket (encode 0 0 (mkDesc [] (zeros 8) true))]
              (λ r, (rxSeqExpected r, txReadIndex r =? txWriteIndex r, bool_decide (t_data (s_transfer r) = None))) (1, true, true))
    as (r & _ & Hr & Hg); [decide_goal|vm_compute; reflexivity|].
  apply pair_equal_spec in Hf as [[[Htx Hd]%pair_equal_spec Hcl]%pair_equal_spec Hatt]. injection Hg as Hrx Hi%Z.eqb_eq Ht%bool_decide_eq_true.
  destruct (SendRaw_ok (zeros 8) (zeros 30000) s Hs ltac:(by vm_compute)) as (s1 & Hrun & _).
  rewrite Hrun in Hatt. apply Z.eqb_eq in Hatt. exists s, r, s1. split; [|exact (conj Hrun Hatt)]. split; [done..|split; done|congruence|done| |].
  - vm_compute. by repeat split.
  - rewrite Htx. split; [lia|]. vm_compute. reflexivity.
Qed.

(** All packets of the first transmission are lost. *)
Lemma network_recovers_witness :
  ∃ s r s1 x1 x', reply_starts (zeros 8) (zeros 30000) s r ∧ SendRawDataWithHeader (zeros 8) (zeros 30000) s = Ok s1 ∧
    (busy s1 = false ∧ x1 = start s1 r ∨ callback OpTimer (start s1 r) x1) ∧
    rtc (delivery (length (wire s1)) (length (wire r))) x1 x' ∧ length (got x') = 22%nat.
Proof.
  destruct second_reply as (s & r & s1 & Hst & Hrun & Hatt).
  assert (retransmitAttempts (sender (start s1 r)) + 1 < MaxRetransmits) as Ha by (cbn [start sender]; by rewrite Hatt).
  destruct (network_recovers (zeros 8) (zeros 30000) s r s1 (start s1 r) Hst Hrun (rtc_refl _ _) eq_refl Ha)
    as (x1 & x' & H0 & H1 & H2 & _).
  exists s, r, s1, x1, x'. split; [exact Hst|]. split; [exact Hrun|]. split; [exact H0|]. split; [exact H1|].
  rewrite H2, length_map. by vm_compute.
Defined.

(** The same run, seen from its end. *)
Lemma network_safe_witness :
  ∃ s r s1 x, reply_starts (zeros 8) (zeros 30000) s r ∧ SendRawDataWithHeader (zeros 8) (zeros 30000) s = Ok s1 ∧
    rtc (net_step (length (wire s)) (length (wire r))) (start s1 r) x ∧ busy (sender x) = false ∧ length (got x) = 22%nat.
Proof.
  destruct second_reply as (s & r & s1 & Hst & Hrun & Hatt).
  assert (retransmitAttempts (sender (start s1 r)) + 1 < MaxRetransmits) as Ha by (cbn [start sender]; by rewrite Hatt).
  destruct (exchange_recovers (zeros 8) (zeros 30000) s r Hst (start s1 r) s1 Hrun (rtc_refl _ _) eq_refl Ha)
    as (x1 & x & H0 & H1 & _ & H2 & H3).
  assert (length (wire s) ≤ length (wire s1))%nat as Hle.
  { destruct (exchange_start (zeros 8) (zeros 30000) s r Hst s1 Hrun) as [n Hx]. exact (proj1 (xi_logs _ _ _ _ _ _ _ _ _ _ Hx)). }
  assert (rtc (net_step (length (wire s)) (length (wire r))) (start s1 r) x) as Hrtc.
  { clear -H0 H1 Hle. assert (rtc (net_step (length (wire s)) (length (wire r))) x1 x) as Hd.
    { cbn [start sender receiver] in H1. clear H0. induction H1 as [|y z u Hyz _ IH]; [done|].
      eapply rtc_l; [|exact IH]. eapply net_step_mono; [exact Hle| |by left]. done. }
    destruct H0 as [[_ ->]|Hc]; [exact Hd|]. eapply rtc_l; [|exact Hd]. by eapply net_callback; [left|]. }
  exists s, r, s1, x. split; [exact Hst|]. split; [exact Hrun|]. split; [exact Hrtc|]. split; [exact H2|].
  rewrite (proj2 (network_safe (zeros 8) (zeros 30000) s r s1 x Hst Hrun Hrtc) H3 H2), length_map. by vm_compute.
Defined.
