(* ===== verification/UdpWrite.v ===== *)
(** * From a session's events to datagrams (internal/udpfsd: data.go, udpwrite_linux.go,
      udpwrite_other.go; the fallback of [NewSession])

    A session hands packets to [writeTo] and batches to [writeBatch].  On Linux a
    batch goes through [sendmmsg], elsewhere [newUDPBatchWriter] is nil and the
    session's own loop writes the packets one by one. *)
From S2P Require Import Prelude RdmaProtocol RdmaSession RdmaPack RdmaInvariant RdmaReceive RdmaStep RdmaTyped RdmaProperties.

Section UdpWrite.
Context {A : Type}.

(** The datagrams that a socket has been given, with their destinations. *)
Abbreviation socket := (list (A * list byte)).

(** [conn.WriteToUDPAddrPort]; its result is dropped. *)
Definition writeTo (addr : A) (data : list byte) (conn : socket) : socket := conn ++ [(addr, data)].

(** [for _, p := range packets { writeTo(addr, p) }] *)
Fixpoint write_each (addr : A) (packets : list (list byte)) (conn : socket) : socket :=
  match packets with
  | [] => conn
  | p :: packets => write_each addr packets (writeTo addr p conn)
  end.

Abbreviation writer := (A → list (list byte) → socket → outcome socket).

(** The batcher of Linux.  [WriteBatch] stands for [ipv4.PacketConn.WriteBatch]: for
    the messages and the socket it tells how many messages were sent, and whether it
    returns an error. *)
Definition newUDPBatchWriter (WriteBatch : socket → socket → Z * bool) : option writer :=
  Some (λ addr packets conn,
    match packets with
    | [] => Ok conn
    | [p] => Ok (writeTo addr p conn)
    | _ =>
        let msgs := map (pair addr) packets in
        let '(n, failed) := WriteBatch msgs conn in
        let conn := conn ++ take (Z.to_nat n) msgs in
        if failed || (n <? zlen packets) then
          let n := if n <? 0 then 0 else n in
          rest ← slice packets n (zlen packets);
          Ok (write_each addr rest conn)
        else Ok conn
    end).

(** The other systems have no batcher. *)
Definition newUDPBatchWriter_other : option writer := None.

(** What [NewSession] makes of its argument [writeBatch]. *)
Definition session_writeBatch (writeBatch : option writer) : writer :=
  match writeBatch with
  | Some f => f
  | None => λ addr packets conn, Ok (write_each addr packets conn)
  end.

(** The events of a session's log, carried out in their order. *)
Fixpoint transmit (writeBatch : option writer) (addr : A) (es : list wire_event) (conn : socket)
    : outcome socket :=
  match es with
  | [] => Ok conn
  | e :: es =>
      conn ← match e with
             | WriteTo p => Ok (writeTo addr p conn)
             | WriteBatch ps => session_writeBatch writeBatch addr ps conn
             | ResetCallback => Ok conn
             end;
      transmit writeBatch addr es conn
  end.

(** What [WriteBatch] documents: it reports how many messages it has sent, or -1. *)
Definition counts_messages (WriteBatch : socket → socket → Z * bool) : Prop :=
  ∀ msgs conn, -1 <= (WriteBatch msgs conn).1 <= zlen msgs.

Lemma write_each_app addr ps conn : write_each addr ps conn = conn ++ map (pair addr) ps.
Proof.
  revert conn. induction ps as [|p ps IH]; intros conn; simpl; [by rewrite app_nil_r|].
  unfold writeTo. by rewrite IH, <-app_assoc.
Qed.

(** A batch is sent completely whatever the system call reports: when it takes any
    number of the packets, or none, or fails with -1, the rest follows one by one. *)
Lemma batch_complete WriteBatch addr ps conn :
  counts_messages WriteBatch →
  session_writeBatch (newUDPBatchWriter WriteBatch) addr ps conn = Ok (conn ++ map (pair addr) ps).
Proof.
  intros Hc. cbn [session_writeBatch newUDPBatchWriter].
  destruct ps as [|p [|p' l]]; [by rewrite app_nil_r|done|].
  set (ps := p :: p' :: l). specialize (Hc (map (pair addr) ps) conn).
  assert (zlen (map (pair addr) ps) = zlen ps) as Hlen by (unfold zlen; by rewrite length_map).
  destruct (WriteBatch _ conn) as [n failed]. cbn [fst] in Hc. rewrite Hlen in Hc. clearbody ps.
  destruct (failed || (n <? zlen ps)) eqn:E; cbv zeta; last first.
  { apply orb_false_iff in E as [_ E]. bool_to_prop. rewrite take_ge; [done|]. rewrite length_map. unfold zlen in *. lia. }
  set (n' := if n <? 0 then 0 else n).
  assert (Z.to_nat n = Z.to_nat n' ∧ 0 <= n' <= zlen ps) as [-> Hn'].
  { pose proof (zlen_nonneg ps). unfold n'. destruct (Z.ltb_spec n 0); lia. }
  clearbody n'. rewrite slice_ok, bind_Ok by lia. rewrite write_each_app, <-app_assoc. do 2 f_equal.
  rewrite (take_ge (drop _ _)) by (rewrite length_drop; unfold zlen in *; lia).
  by rewrite firstn_map, <-map_app, take_drop.
Qed.

Lemma transmit_complete writeBatch addr es conn :
  (∀ ps conn, session_writeBatch writeBatch addr ps conn = Ok (conn ++ map (pair addr) ps)) →
  transmit writeBatch addr es conn = Ok (conn ++ map (pair addr) (packets_of es)).
Proof.
  intros Hb. revert conn. induction es as [|e es IH]; intros conn; cbn [transmit]; [by rewrite app_nil_r|].
  rewrite packets_of_cons, map_app, app_assoc. destruct e; cbn [packets_of_event].
  - by rewrite bind_Ok, IH.
  - by rewrite Hb, bind_Ok, IH.
  - by rewrite bind_Ok, IH, app_nil_r.
Qed.
End UdpWrite.

(** C17: every datagram a session causes is a packet of the protocol, on every
    platform.  After any run of the session's operations, on Linux whatever number of
    messages each [sendmmsg] takes or whether it fails, and on the other systems, the
    socket has been given exactly the packets of the session's events, in order, all to
    the session's peer; each is 6 to 1500 bytes long, so that the peer's check of the
    length and the session's buffers fit, and is read back as a DATA packet; control
    packets carry no data, and a batch is never empty. *)
Theorem wire_typed {A} WriteBatch (addr : A) conn s :
  reachable s → counts_messages WriteBatch →
  transmit (newUDPBatchWriter WriteBatch) addr (wire s) conn = Ok (conn ++ map (pair addr) (packets_of (wire s))) ∧
  transmit newUDPBatchWriter_other addr (wire s) conn = Ok (conn ++ map (pair addr) (packets_of (wire s))) ∧
  Forall event_typed (wire s) ∧
  ∀ p, p ∈ packets_of (wire s) → 6 <= zlen p <= 1500 ∧ ∃ q, parse_packet p = Some q.
Proof.
  intros (ops & Hops & Hrun) Hc. assert (Forall event_typed (wire s)) as Ht.
  { by apply (run_typed ops NewSession s NewSession_ok Hops Hrun). }
  split_and!; [| |done|].
  - apply transmit_complete. intros. by apply batch_complete.
  - apply transmit_complete. intros. cbn. by rewrite write_each_app.
  - intros p Hp. destruct (typed_packets_parse _ p Ht Hp) as (q & Hq & Hl). by eauto.
Qed.

(** A socket that takes two messages at a time and then reports an error. *)
Lemma wire_typed_witness :
  ∃ s, reachable s ∧ zlen (packets_of (wire s)) = 6 ∧
    transmit (newUDPBatchWriter (λ msgs _, (2 `min` zlen msgs, true))) 7%nat (wire s) [] =
      transmit newUDPBatchWriter_other 7%nat (wire s) [] ∧
    ∀ p, p ∈ packets_of (wire s) → 6 <= zlen p <= 1500.
Proof.
  destruct (observe_run [OpSendRaw (zeros 8) (zeros 7000); OpSendACK true] (λ s, zlen (packets_of (wire s))) 6)
    as (s & Hr & _ & Hf); [decide_goal|vm_compute; reflexivity|].
  assert (counts_messages (A := nat) (λ msgs _, (2 `min` zlen msgs, true))) as Hc.
  { intros msgs conn. pose proof (zlen_nonneg msgs). cbn [fst]. lia. }
  destruct (wire_typed (λ msgs _, (2 `min` zlen msgs, true)) 7%nat [] s Hr Hc) as (H1 & H2 & _ & H3).
  exists s. split; [done|]. split; [done|]. split; [by rewrite H1, H2|]. intros p Hp. exact (proj1 (H3 p Hp)).
Defined.
