(* ===== verification/UdpfsProtocol.v ===== *)
(** * UDPFS messages (udpfs/protocol.go, udpfs/fs.go, udpfs/utils.go)

    Message types, error codes, the mapping of Go errors and open flags, the stat
    structure, and the reply packers.  A packer is modelled as written: a zeroed
    buffer of fixed size and the stores into it. *)
From S2P Require Import Prelude RdmaSession.

(** ** Message types (protocol.go) *)

Definition MsgOpenReq : Z := 0x10.
Definition MsgOpenReply : Z := 0x11.
Definition MsgCloseReq : Z := 0x12.
Definition MsgCloseReply : Z := 0x13.
Definition MsgReadReq : Z := 0x14.
Definition MsgWriteReq : Z := 0x16.
Definition MsgWriteData : Z := 0x17.
Definition MsgWriteDone : Z := 0x18.
Definition MsgLseekReq : Z := 0x1A.
Definition MsgLseekReply : Z := 0x1B.
Definition MsgDreadReq : Z := 0x1C.
Definition MsgDreadReply : Z := 0x1D.
Definition MsgGetstatReq : Z := 0x1E.
Definition MsgGetstatReply : Z := 0x1F.
Definition MsgMkdirReq : Z := 0x20.
Definition MsgRemoveReq : Z := 0x22.
Definition MsgRmdirReq : Z := 0x24.
Definition MsgResultReply : Z := 0x26.
Definition MsgBreadReq : Z := 0x28.
Definition MsgBwriteReq : Z := 0x2A.

Definition FIO_S_IFREG : Z := 0x2000.
Definition FIO_S_IFDIR : Z := 0x1000.

Definition BlockDeviceHandle : Z := 0.

(** ** Errors (fs.go) *)

Definition EOK : Z := 0.
Definition ENOENT : Z := 2.
Definition EIO : Z := 5.
Definition EBADF : Z := 9.
Definition EACCES : Z := 13.
Definition EEXIST : Z := 17.
Definition ENODEV : Z := 19.
Definition EINVAL : Z := 22.
Definition EMFILE : Z := 24.

(** Go errors as the program tells them apart: the [os] and [io] sentinels (and
    errors that wrap them), a UDPFS errno, and anything else. *)
Inductive go_error :=
| ErrNotExist
| ErrExist
| ErrPermission
| ErrInvalid
| ErrClosed
| EOF
| UdpfsErrno (e : Z)
| OtherError.

#[export] Instance go_error_eq_dec : EqDecision go_error.
Proof. solve_decision. Defined.

(** errToErrno maps common errors to PS2 errno (positive); 5 for unknown.  [-e] is
    on int32. *)
Definition errToErrno (err : option go_error) : Z :=
  match err with
  | None => EOK
  | Some ErrNotExist => ENOENT
  | Some ErrExist => EEXIST
  | Some ErrPermission => EACCES
  | Some (UdpfsErrno e) => if e <? 0 then i32 (- e) else EIO
  | Some _ => EIO
  end.

(** ** Open flags (utils.go, fs.go); the [os] values are those of Linux. *)

Definition Flag_ReadOnly : Z := 0x01.
Definition Flag_WriteOnly : Z := 0x02.
Definition Flag_ReadWrite : Z := 0x03.
Definition Flag_Append : Z := 0x0100.
Definition Flag_Create : Z := 0x0200.
Definition Flag_Truncate : Z := 0x0400.

Definition O_RDONLY : Z := 0.
Definition O_WRONLY : Z := 1.
Definition O_RDWR : Z := 2.
Definition O_CREATE : Z := 0x40.
Definition O_TRUNC : Z := 0x200.
Definition O_APPEND : Z := 0x400.

Definition udpfsFlagsToOSFlags (flags : Z) : Z :=
  let parseMode :=
    let f := 0 in
    let f := if 0 <? Z.land flags Flag_Append then Z.lor f O_APPEND else f in
    let f := if 0 <? Z.land flags Flag_Create then Z.lor f O_CREATE else f in
    if 0 <? Z.land flags Flag_Truncate then Z.lor f O_TRUNC else f in
  let mode := Z.land flags 0x03 in
  if mode =? Flag_ReadOnly then O_RDONLY
  else if mode =? Flag_WriteOnly then Z.lor O_WRONLY parseMode
  else if mode =? Flag_ReadWrite then Z.lor O_RDWR parseMode
  else O_RDONLY.

(** ** Stat (utils.go) *)

(** The wall clock reading of a [time.Time]. *)
Record civil := mkCivil {
  Second : Z; Minute : Z; Hour : Z; Day : Z; Month : Z; Year : Z
}.

(** What the program uses of an [os.FileInfo]. *)
Record FileInfo := mkFileInfo {
  IsRegular : bool;
  IsDir : bool;
  Size_ : Z;
  ModTime : civil
}.

Record StatInfo := mkStat {
  Mode : Z;
  Attr : Z;
  Size : Z;
  Hisize : Z;
  Ctime : list byte;
  Atime : list byte;
  Mtime : list byte
}.

Definition zero8 : list byte := replicate 8 (z2b 0).
Definition noStat : StatInfo := mkStat 0 0 0 0 zero8 zero8 zero8.

Definition EncodeTime (t : civil) : list byte :=
  [z2b 0; z2b (Second t); z2b (Minute t); z2b (Hour t); z2b (Day t); z2b (Month t);
   z2b (Z.land (Year t) 0xFF); z2b (Z.shiftr (Year t) 8)].

Definition StatInfoFromFile (fi : FileInfo) : StatInfo :=
  let mode := if IsRegular fi then FIO_S_IFREG else if IsDir fi then FIO_S_IFDIR else 0 in
  let size := u64 (Size_ fi) in
  let t := EncodeTime (ModTime fi) in
  {| Mode := mode; Attr := 0;
     Size := u32 (Z.land size 0xFFFFFFFF); Hisize := u32 (Z.shiftr size 32);
     Ctime := t; Atime := t; Mtime := t |}.

(** ** Replies (utils.go) *)

Definition buffer (n : nat) : list byte := replicate n (z2b 0).

(** The arguments are not used. *)
Definition PackWithHeader (st : StatInfo) (mode attr size hisize : Z) : list byte :=
  Ctime st ++ Atime st ++ Mtime st.

Definition PackOpenReply (handle : Z) (st : StatInfo) : list byte :=
  let b := buffer (4+4+4+4+4+4+4+8+8) in
  let b := copy_at 0 [z2b MsgOpenReply] b in
  let b := copy_at 4 (le_put 4 (u32 handle)) b in
  let b := copy_at 8 (le_put 4 (Mode st)) b in
  let b := copy_at 12 (le_put 4 (Size st)) b in
  let b := copy_at 16 (le_put 4 (Hisize st)) b in
  let b := copy_at 20 (Ctime st) b in
  copy_at 28 (Mtime st) b.

Definition PackCloseReply (result : Z) : list byte :=
  let b := buffer 8 in
  let b := copy_at 0 [z2b MsgCloseReply] b in
  copy_at 4 (le_put 4 (u32 result)) b.

Definition PackResultReply (result : Z) : list byte :=
  let b := buffer 8 in
  let b := copy_at 0 [z2b MsgResultReply] b in
  copy_at 4 (le_put 4 (u32 result)) b.

Definition PackWriteDone (result : Z) : list byte :=
  let b := buffer 8 in
  let b := copy_at 0 [z2b MsgWriteDone] b in
  copy_at 4 (le_put 4 (u32 result)) b.

Definition PackLseekReply (position : Z) : list byte :=
  let b := buffer 12 in
  let b := copy_at 0 [z2b MsgLseekReply] b in
  if position <? 0 then
    let b := copy_at 4 (le_put 4 (u32 position)) b in
    copy_at 8 (le_put 4 0xFFFFFFFF) b
  else
    let b := copy_at 4 (le_put 4 (u32 (Z.land position 0xFFFFFFFF))) b in
    copy_at 8 (le_put 4 (u32 (Z.shiftr position 32))) b.

Definition PackDreadReply (result : Z) (name : list byte) (st : StatInfo) : list byte :=
  let nameBytes := match name with [] => name | _ => name ++ [z2b 0] end in
  let nameLen := if 0 <? zlen nameBytes then zlen nameBytes - 1 else zlen nameBytes in
  let paddedNameLen := pad4 (zlen nameBytes) in
  let nameBytes := nameBytes ++ replicate (Z.to_nat (paddedNameLen - zlen nameBytes)) (z2b 0) in
  let b := buffer 48 in
  let b := copy_at 0 [z2b MsgDreadReply] b in
  let b := copy_at 1 [z2b 0] b in
  let b := copy_at 2 (le_put 2 (u16 nameLen)) b in
  let b := copy_at 4 (le_put 4 (u32 result)) b in
  let b := copy_at 8 (le_put 4 (Mode st)) b in
  let b := copy_at 12 (le_put 4 (Attr st)) b in
  let b := copy_at 16 (le_put 4 (Size st)) b in
  let b := copy_at 20 (le_put 4 (Hisize st)) b in
  let b := copy_at 24 (Ctime st) b in
  let b := copy_at 32 (Atime st) b in
  let b := copy_at 40 (Mtime st) b in
  if 0 <? result then b ++ nameBytes else b.

Definition PackGetstatReply (result : Z) (st : StatInfo) : list byte :=
  let b := buffer 48 in
  let b := copy_at 0 [z2b MsgGetstatReply] b in
  let b := copy_at 4 (le_put 4 (u32 result)) b in
  let b := copy_at 8 (le_put 4 (Mode st)) b in
  let b := copy_at 12 (le_put 4 (Attr st)) b in
  let b := copy_at 16 (le_put 4 (Size st)) b in
  let b := copy_at 20 (le_put 4 (Hisize st)) b in
  let b := copy_at 24 (Ctime st) b in
  let b := copy_at 32 (Atime st) b in
  copy_at 40 (Mtime st) b.

(** ** Properties of the formats *)

Definition stat_wf (st : StatInfo) : Prop :=
  0 <= Mode st < 2 ^ 32 ∧ 0 <= Attr st < 2 ^ 32 ∧ 0 <= Size st < 2 ^ 32 ∧ 0 <= Hisize st < 2 ^ 32 ∧
  length (Ctime st) = 8%nat ∧ length (Atime st) = 8%nat ∧ length (Mtime st) = 8%nat.

#[export] Instance stat_wf_dec st : Decision (stat_wf st).
Proof. unfold stat_wf. apply _. Defined.

Lemma noStat_wf : stat_wf noStat.
Proof. by vm_compute. Qed.

Lemma u32_bound z : 0 <= u32 z < 2 ^ 32.
Proof. unfold u32. apply Z.mod_pos_bound. lia. Qed.

Lemma StatInfoFromFile_wf fi : stat_wf (StatInfoFromFile fi).
Proof.
  unfold StatInfoFromFile, stat_wf; cbn [Mode Attr Size Hisize Ctime Atime Mtime].
  split_and!; try apply u32_bound; try done; destruct (IsRegular fi), (IsDir fi); done.
Qed.

(** The replies as concatenations of their fields. *)
Ltac explicit8 l :=
  do 8 (destruct l as [|? l]; [discriminate|]); destruct l; [|discriminate].

Lemma PackOpenReply_layout handle st :
  stat_wf st →
  PackOpenReply handle st =
    [z2b MsgOpenReply; z2b 0; z2b 0; z2b 0] ++ le_put 4 (u32 handle) ++ le_put 4 (Mode st) ++
    le_put 4 (Size st) ++ le_put 4 (Hisize st) ++ Ctime st ++ Mtime st ++ buffer 8.
Proof.
  destruct st as [m a s h c at_ mt]. intros (_ & _ & _ & _ & Hc & _ & Hm). simpl in Hc, Hm.
  explicit8 c. explicit8 mt. reflexivity.
Qed.

Definition stat_bytes (st : StatInfo) : list byte :=
  le_put 4 (Mode st) ++ le_put 4 (Attr st) ++ le_put 4 (Size st) ++ le_put 4 (Hisize st) ++
  Ctime st ++ Atime st ++ Mtime st.

Lemma PackGetstatReply_layout result st :
  stat_wf st →
  PackGetstatReply result st =
    [z2b MsgGetstatReply; z2b 0; z2b 0; z2b 0] ++ le_put 4 (u32 result) ++ stat_bytes st.
Proof.
  destruct st as [m a s h c at_ mt]. intros (_ & _ & _ & _ & Hc & Ha & Hm). simpl in Hc, Ha, Hm.
  explicit8 c. explicit8 at_. explicit8 mt. reflexivity.
Qed.

(** The name field of a DREAD reply: the name, a NUL, and padding to four bytes. *)
Definition name_field (name : list byte) : list byte :=
  match name with
  | [] => []
  | _ => let n := name ++ [z2b 0] in n ++ replicate (Z.to_nat (pad4 (zlen n) - zlen n)) (z2b 0)
  end.

Lemma PackDreadReply_layout result name st :
  stat_wf st →
  PackDreadReply result name st =
    [z2b MsgDreadReply; z2b 0] ++ le_put 2 (u16 (zlen name)) ++ le_put 4 (u32 result) ++
    stat_bytes st ++ (if 0 <? result then name_field name else []).
Proof.
  destruct st as [m a s h c at_ mt]. intros (_ & _ & _ & _ & Hc & Ha & Hm). simpl in Hc, Ha, Hm.
  explicit8 c. explicit8 at_. explicit8 mt. unfold PackDreadReply.
  assert ((if 0 <? zlen (match name with [] => name | _ => name ++ [z2b 0] end)
           then zlen (match name with [] => name | _ => name ++ [z2b 0] end) - 1
           else zlen (match name with [] => name | _ => name ++ [z2b 0] end)) = zlen name) as ->.
  { destruct name; [done|]. rewrite zlen_app. unfold zlen. simpl length. case_bool; lia. }
  destruct (0 <? result); [|reflexivity]. unfold name_field. destruct name; reflexivity.
Qed.

Lemma zlen_stat_bytes st : stat_wf st → zlen (stat_bytes st) = 40.
Proof.
  intros (_ & _ & _ & _ & Hc & Ha & Hm). unfold stat_bytes, zlen.
  rewrite !length_app, !length_le_put, Hc, Ha, Hm. done.
Qed.
