(* ===== verification/GoPath.v ===== *)
(** * Slash-separated paths

    What the file system backend and the image formats use of [strings] and
    [path/filepath], for a platform whose separator is [/]: paths are byte
    strings, and [filepath.Clean] is a walk over the elements between separators. *)
From Stdlib Require Strings.String.
From stdpp Require Import sets.
From S2P Require Import Prelude.
Export String.StringSyntax.

Abbreviation path := (list byte).

(** A string constant. *)
Definition str (s : String.string) : path := String.list_byte_of_string s.
Arguments str s%_string_scope.

Definition sep : byte := Byte.x2f.
Definition dot : byte := Byte.x2e.
Definition backslash : byte := Byte.x5c.

(** ** Strings *)

(** [strings.ReplaceAll(s, "\\", "/")] *)
Definition ReplaceBackslashes (s : path) : path :=
  map (λ c, if bool_decide (c = backslash) then sep else c) s.

(** [strings.TrimLeft(s, "/\\")] *)
Fixpoint TrimLeftSlashes (s : path) : path :=
  match s with
  | c :: s' => if bool_decide (c = sep) || bool_decide (c = backslash) then TrimLeftSlashes s' else s
  | [] => []
  end.

(** [strings.HasPrefix], [strings.HasSuffix] *)
Definition HasPrefix (s prefix : path) : bool := bool_decide (take (length prefix) s = prefix).
Definition HasSuffix (s suffix : path) : bool :=
  bool_decide (length suffix <= length s)%nat &&
  bool_decide (drop (length s - length suffix) s = suffix).

(** [strings.TrimSuffix] *)
Definition TrimSuffix (s suffix : path) : path :=
  if HasSuffix s suffix then take (length s - length suffix) s else s.

(** [strings.ToLower], as far as a comparison with an ASCII string can tell: the
    ASCII letters, and the two other runes whose lower case is ASCII (U+0130 and
    U+212A). *)
Fixpoint ToLower (s : path) : path :=
  match s with
  | Byte.xc4 :: Byte.xb0 :: s => Byte.x69 :: ToLower s
  | Byte.xe2 :: Byte.x84 :: Byte.xaa :: s => Byte.x6b :: ToLower s
  | c :: s => (if (65 <=? b2z c) && (b2z c <=? 90) then z2b (b2z c + 32) else c) :: ToLower s
  | [] => []
  end.

(** ** Elements *)

(** [strings.Split(p, "/")] *)
Fixpoint split_sep (p : path) : list path :=
  match p with
  | [] => [[]]
  | c :: p =>
      if bool_decide (c = sep) then [] :: split_sep p
      else match split_sep p with
           | e :: es => (c :: e) :: es
           | [] => [[c]]
           end
  end.

(** [strings.Join(es, "/")] *)
Fixpoint join_sep (es : list path) : path :=
  match es with
  | [] => []
  | [e] => e
  | e :: es => e ++ sep :: join_sep es
  end.

Definition dotdot : path := [dot; dot].

(** One element of [filepath.Clean]; [st] holds the elements kept so far, last first. *)
Definition clean_step (rooted : bool) (st : list path) (e : path) : list path :=
  if bool_decide (e = []) || bool_decide (e = [dot]) then st
  else if bool_decide (e = dotdot) then
    match st with
    | t :: st' => if bool_decide (t = dotdot) then e :: st else st'
    | [] => if rooted then [] else [e]
    end
  else e :: st.

Definition clean_walk (rooted : bool) (st es : list path) : list path :=
  foldl (clean_step rooted) st es.

Definition IsAbs (p : path) : bool :=
  match p with c :: _ => bool_decide (c = sep) | [] => false end.

Definition abs_path (es : list path) : path := sep :: join_sep es.

(** [filepath.Clean] *)
Definition Clean (p : path) : path :=
  let es := reverse (clean_walk (IsAbs p) [] (split_sep p)) in
  if IsAbs p then abs_path es
  else match es with [] => [dot] | _ => join_sep es end.

(** [filepath.Join] of two elements: empty ones are ignored. *)
Definition Join (a b : path) : path :=
  match a, b with
  | [], [] => []
  | [], _ => Clean b
  | _, [] => Clean a
  | _, _ => Clean (a ++ sep :: b)
  end.

(** [filepath.Abs]; [wd] is what [os.Getwd] gives. *)
Definition Abs (wd : option path) (p : path) : option path :=
  if IsAbs p then Some (Clean p) else (λ d, Join d p) <$> wd.

(** [filepath.Ext]: from the last dot of the last element on. *)
Fixpoint Ext_rev (acc r : path) : path :=
  match r with
  | [] => []
  | c :: r =>
      if bool_decide (c = sep) then []
      else if bool_decide (c = dot) then c :: acc
      else Ext_rev (c :: acc) r
  end.
Definition Ext (p : path) : path := Ext_rev [] (reverse p).

(** [filepath.Dir]: everything up to the last separator, cleaned. *)
Fixpoint dir_part (r : path) : path :=
  match r with
  | [] => []
  | c :: r' => if bool_decide (c = sep) then reverse r else dir_part r'
  end.
Definition Dir (p : path) : path := Clean (dir_part (reverse p)).

(** ** Elements and strings *)

(** The elements of a cleaned absolute path. *)
Definition normal (e : path) : Prop := e ≠ [] ∧ e ≠ [dot] ∧ e ≠ dotdot ∧ sep ∉ e.

#[export] Instance normal_dec e : Decision (normal e).
Proof. unfold normal. apply _. Defined.

Lemma split_nonempty p : split_sep p ≠ [].
Proof. destruct p as [|c p]; simpl; [done|]. case_bool_decide; [done|]. by destruct (split_sep p). Qed.

Lemma split_no_sep p : Forall (λ e, sep ∉ e) (split_sep p).
Proof.
  induction p as [|c p IH]; simpl; [constructor; [apply not_elem_of_nil|done]|].
  case_bool_decide as Hc; [constructor; [apply not_elem_of_nil|done]|].
  destruct (split_sep p) as [|e es]; [constructor; [|done]|]; [set_solver|].
  apply Forall_cons in IH as [He IH]. constructor; [|done]. set_solver.
Qed.

Lemma split_app_sep a b : split_sep (a ++ sep :: b) = split_sep a ++ split_sep b.
Proof.
  induction a as [|c a IH]; simpl; [done|]. case_bool_decide; [by rewrite IH|].
  rewrite IH. pose proof (split_nonempty a). by destruct (split_sep a).
Qed.

Lemma split_one e : sep ∉ e → split_sep e = [e].
Proof.
  induction e as [|c e IH]; simpl; [done|]. intros [Hc He]%not_elem_of_cons.
  rewrite bool_decide_eq_false_2 by done. by rewrite IH.
Qed.

Lemma split_join es : es ≠ [] → Forall (λ e, sep ∉ e) es → split_sep (join_sep es) = es.
Proof.
  intros Hne Hes. induction Hes as [|e es He Hes IH]; [done|]. destruct es as [|e' es].
  - by apply split_one.
  - change (join_sep (e :: e' :: es)) with (e ++ sep :: join_sep (e' :: es)).
    rewrite split_app_sep, split_one, IH by done. done.
Qed.

(** ** The walk *)

Lemma clean_walk_app rooted st a b :
  clean_walk rooted st (a ++ b) = clean_walk rooted (clean_walk rooted st a) b.
Proof. unfold clean_walk. apply foldl_app. Qed.

Lemma clean_walk_normal st es :
  Forall normal es → clean_walk true st es = reverse es ++ st.
Proof.
  intros Hes. revert st. induction Hes as [|e es (H1 & H2 & H3 & _) Hes IH]; intros st; [done|].
  change (clean_walk true st (e :: es)) with (clean_walk true (clean_step true st e) es).
  rewrite IH. unfold clean_step. rewrite !bool_decide_eq_false_2 by done. cbn [orb].
  by rewrite reverse_cons, <-app_assoc.
Qed.

Lemma clean_step_ok st e :
  Forall normal st → sep ∉ e → Forall normal (clean_step true st e).
Proof.
  intros Hst He. unfold clean_step.
  repeat (case_bool_decide; simpl; [try done|]).
  - subst e. destruct Hst as [|t st (_ & _ & Ht & _) Hst]; [done|]. by rewrite bool_decide_eq_false_2.
  - by constructor.
Qed.

(** An absolute path cleans to normal elements: the walk keeps nothing else. *)
Lemma clean_walk_ok st es :
  Forall normal st → Forall (λ e, sep ∉ e) es → Forall normal (clean_walk true st es).
Proof.
  intros Hst Hes. revert st Hst. induction Hes as [|e es He Hes IH]; intros st Hst; [done|].
  apply IH. by apply clean_step_ok.
Qed.

(** Walking the elements that a relative walk keeps is walking the elements. *)
Lemma clean_step_rel st acc e :
  Forall (λ e, e ≠ [] ∧ e ≠ [dot]) acc →
  clean_walk true st (reverse (clean_step false acc e)) =
  clean_step true (clean_walk true st (reverse acc)) e.
Proof.
  intros Hacc.
  assert (∀ a, clean_walk true st (reverse (a :: acc)) = clean_step true (clean_walk true st (reverse acc)) a)
    as Hpush by (intros a; by rewrite reverse_cons, clean_walk_app).
  unfold clean_step at 1.
  destruct (bool_decide (e = []) || bool_decide (e = [dot])) eqn:E1.
  { unfold clean_step. by rewrite E1. }
  clear E1. case_bool_decide as E2; [|by rewrite Hpush].
  destruct Hacc as [|t acc' [Ht1 Ht2] Hacc']; [by subst e|].
  case_bool_decide as E3; [by rewrite Hpush|]. subst e.
  rewrite reverse_cons, clean_walk_app. simpl. unfold clean_step.
  rewrite (bool_decide_eq_false_2 (t = [])), (bool_decide_eq_false_2 (t = [dot])) by done. cbn [orb].
  rewrite (bool_decide_eq_false_2 (t = dotdot)) by done. cbn.
  by rewrite (bool_decide_eq_false_2 (t = dotdot)).
Qed.

Lemma clean_step_kept acc e :
  Forall (λ e, e ≠ [] ∧ e ≠ [dot]) acc → Forall (λ e, e ≠ [] ∧ e ≠ [dot]) (clean_step false acc e).
Proof.
  intros Hacc. unfold clean_step. destruct (_ || _) eqn:E1; [done|].
  apply orb_false_iff in E1 as [E1%bool_decide_eq_false E2%bool_decide_eq_false].
  case_bool_decide; [|by constructor].
  destruct Hacc as [|t acc' Ht Hacc']; [by constructor|].
  case_bool_decide; [by constructor; [|constructor]|done].
Qed.

Lemma clean_walk_rel st acc es :
  Forall (λ e, e ≠ [] ∧ e ≠ [dot]) acc →
  clean_walk true st (reverse (clean_walk false acc es)) =
  clean_walk true (clean_walk true st (reverse acc)) es.
Proof.
  revert acc; induction es as [|e es IH]; intros acc Hacc; [done|].
  change (clean_walk false acc (e :: es)) with (clean_walk false (clean_step false acc e) es).
  rewrite IH by by apply clean_step_kept. by rewrite clean_step_rel.
Qed.

Lemma clean_walk_no_sep acc es :
  Forall (λ e, sep ∉ e) acc → Forall (λ e, sep ∉ e) es → Forall (λ e, sep ∉ e) (clean_walk false acc es).
Proof.
  intros Hacc Hes. revert acc Hacc. induction Hes as [|e es He Hes IH]; intros acc Hacc; [done|].
  apply IH. unfold clean_step. destruct (_ || _); [done|]. case_bool_decide; [|by constructor].
  destruct Hacc as [|t acc' Ht Hacc']; [by constructor|]. case_bool_decide; [by constructor; [|constructor]|done].
Qed.

(** The elements of a cleaned relative path walk like those of the path. *)
Lemma walk_Clean_rel st p :
  IsAbs p = false → clean_walk true st (split_sep (Clean p)) = clean_walk true st (split_sep p).
Proof.
  intros Hp. unfold Clean. rewrite Hp.
  pose proof (clean_walk_rel st [] (split_sep p) ltac:(done)) as Hw. simpl in Hw. rewrite <-Hw.
  pose proof (clean_walk_no_sep [] (split_sep p) ltac:(done) (split_no_sep p)) as Hs.
  apply Forall_reverse in Hs.
  destruct (reverse (clean_walk false [] (split_sep p))) as [|e es] eqn:E; [done|].
  by rewrite split_join.
Qed.

Lemma Clean_nonempty p : Clean p ≠ [].
Proof.
  unfold Clean. destruct (IsAbs p) eqn:Hp; [done|].
  destruct (reverse _) as [|e es] eqn:E; [done|].
  assert (e ≠ []) as He.
  { assert (Forall (λ e, e ≠ [] ∧ e ≠ [dot]) (e :: es)) as Hk.
    { rewrite <-E. apply Forall_reverse.
      assert (∀ acc, Forall (λ e, e ≠ [] ∧ e ≠ [dot]) acc →
                Forall (λ e, e ≠ [] ∧ e ≠ [dot]) (clean_walk false acc (split_sep p))) as Hall.
      { generalize (split_sep p) as l. induction l as [|x l IH]; intros acc Hacc; [done|].
        apply IH. by apply clean_step_kept. }
      by apply Hall. }
    by apply Forall_cons in Hk as [[? _] _]. }
  destruct es; [done|]. by destruct e.
Qed.

(** *** Absolute paths *)

Lemma split_abs es : Forall normal es → es ≠ [] → split_sep (abs_path es) = [] :: es.
Proof.
  intros Hes Hne. unfold abs_path. simpl. rewrite split_join; [done|done|].
  eapply Forall_impl; [exact Hes|]. by intros e (_ & _ & _ & ?).
Qed.

Lemma walk_abs rl : Forall normal rl → clean_walk true [] (split_sep (abs_path rl)) = reverse rl.
Proof.
  intros Hr. destruct (decide (rl = [])) as [->|Hne]; [done|]. rewrite split_abs by done.
  change (clean_walk true [] ([] :: rl)) with (clean_walk true [] rl).
  by rewrite clean_walk_normal, app_nil_r.
Qed.

Lemma Clean_abs es : Forall normal es → Clean (abs_path es) = abs_path es.
Proof. intros Hes. unfold Clean. simpl IsAbs. cbv iota. by rewrite walk_abs, reverse_involutive. Qed.

(** Joining a path to a clean absolute one: the walk goes on from there. *)
Lemma Join_abs rl p :
  Forall normal rl → p ≠ [] →
  Join (abs_path rl) p = abs_path (reverse (clean_walk true (reverse rl) (split_sep p))).
Proof.
  intros Hr Hp. unfold Join. unfold abs_path at 1. destruct p as [|c p]; [done|].
  fold (abs_path rl). unfold Clean. simpl IsAbs. cbv iota.
  change (sep :: join_sep rl ++ sep :: c :: p) with (abs_path rl ++ sep :: c :: p).
  by rewrite split_app_sep, clean_walk_app, walk_abs.
Qed.

(** The text before the first separator. *)
Lemma sep_split_inj (a b x y : path) :
  sep ∉ a → sep ∉ b → a ++ sep :: x = b ++ sep :: y → a = b ∧ x = y.
Proof.
  intros Ha Hb Heq. revert b Hb Heq. induction a as [|a0 a IH]; intros [|b0 b] Hb Heq.
  - by injection Heq.
  - injection Heq as <- _. by apply not_elem_of_cons in Hb as [? _].
  - injection Heq as -> _. by apply not_elem_of_cons in Ha as [? _].
  - injection Heq as <- Heq. apply not_elem_of_cons in Ha as [_ Ha], Hb as [_ Hb].
    by destruct (IH Ha b Hb Heq) as [-> ->].
Qed.

Lemma sep_not_prefix (a b k : path) : sep ∉ b → b ≠ a ++ sep :: k.
Proof. intros Hb ->. apply Hb, elem_of_app. right. by left. Qed.

(** The string prefix test on clean absolute paths is the prefix test on elements. *)
Lemma join_prefix rl es :
  Forall normal rl → Forall normal es → es ≠ [] → rl ≠ [] →
  (join_sep rl ++ [sep]) `prefix_of` join_sep es ↔ ∃ x xs, es = rl ++ x :: xs.
Proof.
  intros Hr. revert es. induction Hr as [|r rl (_ & _ & _ & Hrs) Hr IH]; intros es Hes Hne Hrl; [done|].
  destruct Hes as [|e es (He1 & _ & _ & Hse) Hes]; [done|]. destruct rl as [|r' rl].
  - simpl (join_sep [r]). destruct es as [|e' es].
    + simpl. split; [|by intros (x & xs & [=])]. intros [k Hk]. rewrite <-app_assoc in Hk.
      by apply sep_not_prefix in Hk.
    + change (join_sep (e :: e' :: es)) with (e ++ sep :: join_sep (e' :: es)). split.
      * intros [k Hk]. rewrite <-app_assoc in Hk. apply sep_split_inj in Hk as [-> _]; [by exists e', es|done..].
      * intros (x & xs & [= -> -> ->]). exists (join_sep (x :: xs)). by rewrite <-app_assoc.
  - change (join_sep (r :: r' :: rl)) with (r ++ sep :: join_sep (r' :: rl)). destruct es as [|e' es].
    + simpl. split; [|by intros (x & xs & [=])]. intros [k Hk]. rewrite <-app_assoc in Hk.
      by apply sep_not_prefix in Hk.
    + change (join_sep (e :: e' :: es)) with (e ++ sep :: join_sep (e' :: es)). split.
      * intros [k Hk]. rewrite <-!app_assoc in Hk. simpl app in Hk.
        apply sep_split_inj in Hk as [-> Hk]; [|done..].
        destruct (proj1 (IH (e' :: es) Hes ltac:(done) ltac:(done))) as (x & xs & Hx).
        { exists k. by rewrite <-app_assoc. }
        exists x, xs. by rewrite Hx.
      * intros (x & xs & Hx).
        assert (e = r ∧ e' :: es = (r' :: rl) ++ x :: xs) as [-> Hx'] by (simpl in *; split; congruence).
        destruct (proj2 (IH (e' :: es) Hes ltac:(done) ltac:(done))) as [k Hk]; [by exists x, xs|].
        exists k. rewrite Hk. simpl app. by rewrite <-!app_assoc.
Qed.
