(* ===== verification/GoFloat.v ===== *)
(** * Floating point

    Go's [float64] as the IEEE 754 double format of the Standard Library's
    specification floats, which compute without axioms. *)
From Stdlib Require Export Floats.SpecFloat.
From S2P Require Import Prelude.

Definition float64 : Type := spec_float.

Definition float64_zero : float64 := S754_zero false.
Definition float64_of (n : Z) : float64 := binary_normalize 53 1024 n 0 false.
Definition float64_add : float64 → float64 → float64 := SFadd 53 1024.
Definition float64_sub : float64 → float64 → float64 := SFsub 53 1024.
Definition float64_mul : float64 → float64 → float64 := SFmul 53 1024.
Definition float64_div : float64 → float64 → float64 := SFdiv 53 1024.

(** The conversion of a non-negative [float64] to an integer. *)
Definition trunc_float (f : float64) : Z :=
  match f with
  | S754_finite _ m e => Z.shiftl (Zpos m) e
  | _ => 0
  end.
