(* ===== verification/GoText.v ===== *)
(** * Numbers and addresses as text

    What the program uses of [strconv], [fmt], [sort] and [net] to read and write
    text: decimal numbers, [%.nf] of a [float64], the order of strings, and host and
    port of an address. *)
From stdpp Require Import sorting.
From S2P Require Import Prelude GoFloat GoPath.

(** ** Decimal numbers (strconv) *)

Definition is_digit (c : byte) : bool := (48 <=? b2z c) && (b2z c <=? 57).
Definition digit_value (c : byte) : Z := b2z c - 48.

(** The decimal number that a non-empty string of digits denotes. *)
Fixpoint decimal (x : Z) (s : path) : option Z :=
  match s with
  | [] => Some x
  | c :: s => if is_digit c then decimal (x * 10 + digit_value c) s else None
  end.

(** An optional sign. *)
Definition sign (s : path) : bool * path :=
  match s with
  | c :: s' =>
      if bool_decide (c = Byte.x2d) then (true, s')
      else if bool_decide (c = Byte.x2b) then (false, s') else (false, s)
  | [] => (false, s)
  end.

(** [strconv.Atoi] for an [int] of 64 bits. *)
Definition Atoi (s : path) : option Z :=
  let '(neg, digits) := sign s in
  if bool_decide (digits = []) then None
  else
    n ← decimal 0 digits;
    let n := if neg : bool then - n else n in
    if (- 2 ^ 63 <=? n) && (n <? 2 ^ 63) then Some n else None.

Definition ParseBool (s : path) : option bool :=
  if bool_decide (s ∈ [str "1"; str "t"; str "T"; str "TRUE"; str "true"; str "True"]) then Some true
  else if bool_decide (s ∈ [str "0"; str "f"; str "F"; str "FALSE"; str "false"; str "False"]) then Some false
  else None.

(** The digits of a number, in front of [acc]; a number has no more digits than bits. *)
Fixpoint digits (fuel : nat) (n : Z) (acc : path) : path :=
  match fuel with
  | O => acc
  | S fuel =>
      let acc := z2b (48 + n mod 10) :: acc in
      if n <? 10 then acc else digits fuel (n / 10) acc
  end.

Definition natural (n : Z) : path := digits (S (Z.to_nat (Z.log2 n))) n [].

(** [strconv.Itoa], and [%d] of package fmt *)
Definition Itoa (n : Z) : path := if n <? 0 then Byte.x2d :: natural (- n) else natural n.

(** ** Fixed point (fmt)

    [%.nf] of a [float64]: the exact value in decimal, rounded half to even. *)

Definition round_half_even (num den : Z) : Z :=
  let q := num / den in
  let r := num mod den in
  if (2 * r <? den) || ((2 * r =? den) && Z.even q) then q else q + 1.

(** [m * 2^e * 10^prec], rounded *)
Definition scaled (prec : Z) (m : Z) (e : Z) : Z :=
  if 0 <=? e then m * 2 ^ e * 10 ^ prec else round_half_even (m * 10 ^ prec) (2 ^ (- e)).

Definition pad (n : Z) (s : path) : path := replicate (Z.to_nat n - length s) (z2b 48) ++ s.

(** A natural number of units of [10^-prec]. *)
Definition fixed_point (prec n : Z) : path :=
  natural (n / 10 ^ prec) ++ (if prec =? 0 then [] else dot :: pad prec (natural (n mod 10 ^ prec))).

Definition fmt_fixed (prec : Z) (f : float64) : path :=
  let minus (s : bool) := if s then [Byte.x2d] else [] in
  match f with
  | S754_zero s => minus s ++ fixed_point prec 0
  | S754_infinity s => if s then str "-Inf" else str "+Inf"
  | S754_nan => str "NaN"
  | S754_finite s m e => minus s ++ fixed_point prec (scaled prec (Zpos m) e)
  end.

(** ** Strings in order (sort) *)

(** Strings are compared byte by byte. *)
Fixpoint str_leb (s t : path) : bool :=
  match s, t with
  | [], _ => true
  | _ :: _, [] => false
  | a :: s, b :: t => (b2z a <? b2z b) || ((b2z a =? b2z b) && str_leb s t)
  end.

Definition str_le (s t : path) : Prop := str_leb s t = true.

#[export] Instance str_le_dec s t : Decision (str_le s t).
Proof. unfold str_le. apply _. Defined.

(** [sort.Strings]: strings that compare equal are equal, so the sorted list does
    not depend on the algorithm (see [Sorted_unique]). *)
Definition sort_Strings (l : list path) : list path := merge_sort str_le l.

(** [strings.Join] *)
Fixpoint Join (l : list path) (sepr : path) : path :=
  match l with
  | [] => []
  | [s] => s
  | s :: l => s ++ sepr ++ Join l sepr
  end.

(** ** Addresses (net) *)

Definition colon : byte := Byte.x3a.
Definition lbracket : byte := Byte.x5b.
Definition rbracket : byte := Byte.x5d.

(** [strings.IndexByte], [strings.LastIndexByte] *)
Fixpoint IndexByte (c : byte) (s : path) : option nat :=
  match s with
  | [] => None
  | x :: s => if bool_decide (x = c) then Some O else S <$> IndexByte c s
  end.

Fixpoint LastIndexByte (c : byte) (s : path) : option nat :=
  match s with
  | [] => None
  | x :: s =>
      match LastIndexByte c s with
      | Some i => Some (S i)
      | None => if bool_decide (x = c) then Some O else None
      end
  end.

Definition has (c : byte) (s : path) : bool := bool_decide (is_Some (IndexByte c s)).

(** [net.SplitHostPort]: no result where it returns an error. *)
Definition SplitHostPort (hostport : path) : option (path * path) :=
  match LastIndexByte colon hostport with
  | None => None
  | Some i =>
      let port := drop (S i) hostport in
      match hostport with
      | c :: rest =>
          if bool_decide (c = lbracket) then
            match IndexByte rbracket hostport with
            | None => None
            | Some e =>
                if bool_decide (S e = i) then
                  if has lbracket rest || has rbracket (drop (S e) hostport) then None
                  else Some (drop 1 (take e hostport), port)
                else None
            end
          else
            let host := take i hostport in
            if has colon host || has lbracket hostport || has rbracket hostport then None
            else Some (host, port)
      | [] => None
      end
  end.

Definition JoinHostPort (host port : path) : path :=
  if has colon host then lbracket :: host ++ [rbracket; colon] ++ port
  else host ++ [colon] ++ port.

(** ** Facts *)

Lemma b2z_digit d : 0 <= d < 10 → b2z (z2b (48 + d)) = 48 + d.
Proof. intros Hd. rewrite b2z_z2b. apply Z.mod_small. lia. Qed.

Lemma is_digit_digit d : 0 <= d < 10 → is_digit (z2b (48 + d)) = true ∧ digit_value (z2b (48 + d)) = d.
Proof. intros Hd. unfold is_digit, digit_value. rewrite b2z_digit by done. split; [|lia]. apply andb_true_intro. lia. Qed.

(** The digits of [n] denote [n]: read before [s], they put the value of [n] in the
    place above that of [s]. *)
Lemma decimal_digits fuel n x acc :
  0 <= n < 2 ^ Z.of_nat fuel →
  ∃ k, 0 <= k ∧ n < 10 ^ k ∧ decimal x (digits fuel n acc) = decimal (x * 10 ^ k + n) acc.
Proof.
  revert n acc. induction fuel as [|fuel IH]; intros n acc Hn.
  { exists 0. split; [lia|]. change (2 ^ Z.of_nat 0) with 1 in Hn. split; [lia|]. cbn [digits]. f_equal. lia. }
  cbn [digits]. cbv zeta. destruct (is_digit_digit (n mod 10)) as [Hd Hv]; [by apply Z.mod_pos_bound|].
  destruct (Z.ltb_spec n 10) as [Hlt|Hge].
  - exists 1. split_and!; [lia|lia|]. cbn [decimal]. rewrite Hd, Hv, (Z.mod_small n 10) by lia. done.
  - destruct (IH (n / 10) (z2b (48 + n mod 10) :: acc)) as (k & Hk & Hlt & ->).
    { rewrite Nat2Z.inj_succ, Z.pow_succ_r in Hn by lia. split; [zlia|]. zlia. }
    exists (Z.succ k). rewrite Z.pow_succ_r by lia. split_and!; [lia|zlia|].
    cbn [decimal]. rewrite Hd, Hv. f_equal. pose proof (Z.div_mod n 10). nia.
Qed.

Lemma digits_digit fuel n acc c s : (0 < fuel)%nat → 0 <= n → digits fuel n acc = c :: s → Forall (λ c, is_digit c = true) acc →
  is_digit c = true.
Proof.
  revert n acc. induction fuel as [|fuel IH]; intros n acc Hf Hn Hd Ha; [lia|]. cbn [digits] in Hd. cbv zeta in Hd.
  destruct (is_digit_digit (n mod 10)) as [Hc _]; [by apply Z.mod_pos_bound|].
  destruct (n <? 10); [by injection Hd as <- _|]. destruct fuel as [|fuel]; [by injection Hd as <- _|].
  eapply IH; [lia| |exact Hd|by constructor]. apply Z.div_pos; lia.
Qed.

Lemma natural_decimal n : 0 <= n → decimal 0 (natural n) = Some n.
Proof.
  intros Hn. destruct (decimal_digits (S (Z.to_nat (Z.log2 n))) n 0 []) as (k & _ & _ & Hd).
  - split; [done|]. rewrite Nat2Z.inj_succ, Z2Nat.id by apply Z.log2_nonneg.
    destruct (Z.eq_dec n 0) as [->|]; [done|]. apply Z.log2_spec. lia.
  - unfold natural. rewrite Hd. cbn [decimal]. done.
Qed.

Lemma natural_cons n : 0 <= n → ∃ c s, natural n = c :: s ∧ is_digit c = true.
Proof.
  intros Hn. destruct (natural n) as [|c s] eqn:E.
  - exfalso. unfold natural in E. cbn [digits] in E. cbv zeta in E.
    assert (∀ fuel m acc, acc ≠ [] → digits fuel m acc ≠ []) as Hne.
    { induction fuel as [|fuel IH]; intros m acc Ha; [done|]. cbn [digits]. cbv zeta. by destruct (m <? 10); [|apply IH]. }
    destruct (n <? 10); [done|]. by eapply Hne in E.
  - exists c, s. split; [done|]. eapply digits_digit; [|exact Hn|exact E|by constructor]. lia.
Qed.

Lemma digit_no_sign c s : is_digit c = true → sign (c :: s) = (false, c :: s).
Proof.
  intros Hc. unfold sign. unfold is_digit in Hc. apply andb_prop in Hc as [Hc _]. bool_to_prop.
  case_bool_decide as E1; [subst; vm_compute in Hc; congruence|]. case_bool_decide as E2; [|done].
  subst. vm_compute in Hc. congruence.
Qed.

(** Writing a number and reading it back. *)
Lemma Atoi_Itoa n : - 2 ^ 63 <= n < 2 ^ 63 → Atoi (Itoa n) = Some n.
Proof.
  intros Hn. unfold Atoi, Itoa. destruct (Z.ltb_spec n 0).
  - cbn [sign]. rewrite bool_decide_eq_true_2 by done.
    destruct (natural_cons (- n)) as (c & s & E & _); [lia|].
    rewrite bool_decide_eq_false_2 by (by rewrite E). rewrite natural_decimal by lia. cbn [mbind option_bind].
    cbv zeta. rewrite Z.opp_involutive. by rewrite (proj2 (Z.leb_le _ _)), (proj2 (Z.ltb_lt _ _)) by lia.
  - destruct (natural_cons n) as (c & s & E & Hc); [lia|]. rewrite E, digit_no_sign by done.
    rewrite bool_decide_eq_false_2 by done. rewrite <- E, natural_decimal by lia. cbn [mbind option_bind].
    cbv zeta. by rewrite (proj2 (Z.leb_le _ _)), (proj2 (Z.ltb_lt _ _)) by lia.
Qed.

(** *** The order of strings *)

#[export] Instance str_le_total : Total str_le.
Proof.
  intros s. induction s as [|a s IH]; intros [|b t]; [by left..|by right|]. unfold str_le. cbn [str_leb].
  rewrite !orb_true_iff, !andb_true_iff. destruct (IH t) as [Hs|Hs];
    destruct (Z.lt_trichotomy (b2z a) (b2z b)) as [|[E|]]; unfold str_le in Hs; rewrite ?Hs; lia.
Qed.

#[export] Instance str_le_trans : Transitive str_le.
Proof.
  intros s. induction s as [|a s IH]; intros [|b t] [|c u]; try done. unfold str_le. cbn [str_leb].
  rewrite !orb_true_iff, !andb_true_iff. intros H1 H2.
  destruct H1 as [H1|[H1 H1']], H2 as [H2|[H2 H2']]; bool_to_prop; try (left; lia).
  right. split; [lia|]. by eapply IH.
Qed.

#[export] Instance str_le_antisymm : AntiSymm (=) str_le.
Proof.
  intros s. induction s as [|a s IH]; intros [|b t]; try done. unfold str_le. cbn [str_leb].
  rewrite !orb_true_iff, !andb_true_iff. intros H1 H2.
  destruct H1 as [H1|[H1 H1']], H2 as [H2|[H2 H2']]; bool_to_prop; try lia.
  f_equal; [by apply b2z_inj|by apply IH].
Qed.

(** Sorting forgets the order of its input. *)
Lemma sort_Strings_Permutation l l' : l ≡ₚ l' → sort_Strings l = sort_Strings l'.
Proof.
  intros Hp. apply (Sorted_unique str_le); [apply Sorted_merge_sort, _..|].
  unfold sort_Strings. by rewrite !merge_sort_Permutation.
Qed.

(** *** Host and port *)

Lemma has_elem c s : has c s = true ↔ c ∈ s.
Proof.
  unfold has. rewrite bool_decide_eq_true. induction s as [|x s IH]; cbn [IndexByte].
  - split; [by intros [? ?]|by intros ?%not_elem_of_nil].
  - rewrite elem_of_cons. case_bool_decide as E; [split; [by left|by eexists]|].
    rewrite fmap_is_Some, IH. split; [by right|]. intros [->|]; done.
Qed.

Lemma has_false c s : has c s = false ↔ c ∉ s.
Proof. rewrite <- has_elem. destruct (has c s); naive_solver. Qed.

Lemma LastIndexByte_app c s t : c ∉ t → LastIndexByte c (s ++ c :: t) = Some (length s).
Proof.
  intros Ht. induction s as [|x s IH]; [|cbn [app length LastIndexByte]; by rewrite IH].
  cbn [app LastIndexByte length]. assert (LastIndexByte c t = None) as ->.
  { induction t as [|y t IH]; [done|]. apply not_elem_of_cons in Ht as [Hy Ht]. cbn [LastIndexByte].
    rewrite IH by done. by rewrite bool_decide_eq_false_2. }
  by rewrite bool_decide_eq_true_2.
Qed.

Lemma IndexByte_app c s t : c ∉ s → IndexByte c (s ++ c :: t) = Some (length s).
Proof.
  induction s as [|x s IH]; intros Hs; cbn [app IndexByte length]; [by rewrite bool_decide_eq_true_2|].
  apply not_elem_of_cons in Hs as [Hx Hs]. rewrite bool_decide_eq_false_2 by done. by rewrite IH.
Qed.

(** A host without brackets and a port without colons and brackets, joined, split
    into the same two. *)
Lemma SplitHostPort_Join host port :
  lbracket ∉ host → rbracket ∉ host → colon ∉ port → lbracket ∉ port → rbracket ∉ port →
  SplitHostPort (JoinHostPort host port) = Some (host, port).
Proof.
  intros H1 H2 H3 H4 H5. unfold JoinHostPort. destruct (has colon host) eqn:Hc.
  - assert (lbracket :: host ++ [rbracket; colon] ++ port = (lbracket :: host ++ [rbracket]) ++ colon :: port) as E
      by (cbn; by rewrite <- app_assoc).
    unfold SplitHostPort. rewrite E, LastIndexByte_app by done. rewrite <- E.
    rewrite bool_decide_eq_true_2 by done. cbn [app].
    assert (IndexByte rbracket (lbracket :: host ++ rbracket :: colon :: port) = Some (S (length host))) as ->.
    { apply (IndexByte_app rbracket (lbracket :: host)). apply not_elem_of_cons. by split. }
    cbn [length]. rewrite length_app, Nat.add_1_r, bool_decide_eq_true_2 by done.
    assert (drop (S (length host)) (host ++ rbracket :: colon :: port) = colon :: port) as Hd.
    { replace (host ++ rbracket :: colon :: port) with ((host ++ [rbracket]) ++ colon :: port) by (by rewrite <- app_assoc).
      apply drop_app_length'. rewrite length_app. cbn. lia. }
    assert (has lbracket (host ++ rbracket :: colon :: port) = false) as ->.
    { apply has_false. rewrite elem_of_app, !elem_of_cons. by intros [?|[?|[?|?]]]. }
    cbn [drop]. rewrite Hd. assert (has rbracket (colon :: port) = false) as ->.
    { apply has_false. rewrite elem_of_cons. by intros [?|?]. }
    cbn [orb]. f_equal. f_equal.
    + cbn [take drop]. by apply take_app_length.
    + replace (host ++ rbracket :: colon :: port) with ((host ++ [rbracket; colon]) ++ port) by (by rewrite <- app_assoc).
      apply drop_app_length'. rewrite length_app. cbn. lia.
  - apply has_false in Hc. unfold SplitHostPort. cbn [app]. rewrite LastIndexByte_app by done.
    rewrite take_app_length, (proj2 (has_false colon host)) by done.
    assert (drop (S (length host)) (host ++ colon :: port) = port) as ->.
    { replace (host ++ colon :: port) with ((host ++ [colon]) ++ port) by (by rewrite <- app_assoc).
      apply drop_app_length'. rewrite length_app. cbn. lia. }
    assert (∀ c, c ≠ colon → c ∉ host → c ∉ port → has c (host ++ colon :: port) = false) as Hn.
    { intros c ???. apply has_false. rewrite elem_of_app, elem_of_cons. by intros [?|[?|?]]. }
    destruct (host ++ colon :: port) as [|c rest] eqn:E; [by destruct host|].
    rewrite bool_decide_eq_false_2.
    + by rewrite !Hn.
    + intros ->. destruct host as [|x host]; [done|]. injection E as -> _. apply H1. by left.
Qed.
