(* ===== verification/GoTime.v ===== *)
(** * Durations (package time)

    A duration is a number of nanoseconds in an [int64]: what the program uses to
    read one from a setting and to show the time it has been running. *)
From stdpp Require Import sets.
From S2P Require Import Prelude GoFloat GoPath GoText.

Definition second : Z := 1000 * 1000 * 1000.
Definition minDuration : Z := - 2 ^ 63.
Definition maxDuration : Z := 2 ^ 63 - 1.

(** ** ParseDuration

    A duration is a sequence of numbers with a unit each, in nanoseconds; the
    fraction of a number is scaled in [float64] arithmetic. *)

Fixpoint leadingInt (x : Z) (s : path) : option (Z * path) :=
  match s with
  | c :: s' =>
      if is_digit c then
        if 2 ^ 63 / 10 <? x then None
        else
          let x := x * 10 + digit_value c in
          if 2 ^ 63 <? x then None else leadingInt x s'
      else Some (x, s)
  | [] => Some (x, s)
  end.

(** Digits after an overflow are skipped. *)
Fixpoint leadingFraction (x : Z) (scale : float64) (overflow : bool) (s : path) : Z * float64 * path :=
  match s with
  | c :: s' =>
      if is_digit c then
        if overflow then leadingFraction x scale overflow s'
        else if (2 ^ 63 - 1) / 10 <? x then leadingFraction x scale true s'
        else
          let y := x * 10 + digit_value c in
          if 2 ^ 63 <? y then leadingFraction x scale true s'
          else leadingFraction y (float64_mul scale (float64_of 10)) false s'
      else (x, scale, s)
  | [] => (x, scale, s)
  end.

(** The unit: everything up to the next digit or point. *)
Fixpoint leadingUnit (s : path) : path * path :=
  match s with
  | c :: s' => if bool_decide (c = dot) || is_digit c then ([], s) else let '(u, r) := leadingUnit s' in (c :: u, r)
  | [] => ([], [])
  end.

Definition unit_value (u : path) : option Z :=
  if bool_decide (u = str "ns") then Some 1
  else if bool_decide (u ∈ [str "us"; [Byte.xc2; Byte.xb5; Byte.x73]; [Byte.xce; Byte.xbc; Byte.x73]]) then Some 1000
  else if bool_decide (u = str "ms") then Some 1000000
  else if bool_decide (u = str "s") then Some 1000000000
  else if bool_decide (u = str "m") then Some (60 * 1000000000)
  else if bool_decide (u = str "h") then Some (3600 * 1000000000)
  else None.

(** One number with its unit, from a non-empty string: its value and the rest. *)
Definition duration_part (s : path) : option (Z * path) :=
  if negb (existsb (λ c, bool_decide (c = dot) || is_digit c) (take 1 s)) then None
  else
    '(v, s1) ← leadingInt 0 s;
    let pre := negb (length s1 =? length s)%nat in
    let '(f, scale, post, s2) :=
      match s1 with
      | c :: s1' =>
          if bool_decide (c = dot) then
            let '(f, scale, s2) := leadingFraction 0 (float64_of 1) false s1' in
            (f, scale, negb (length s2 =? length s1')%nat, s2)
          else (0, float64_of 1, false, s1)
      | [] => (0, float64_of 1, false, s1)
      end in
    if negb pre && negb post then None
    else
      let '(u, s3) := leadingUnit s2 in
      if bool_decide (u = []) then None
      else
        unit ← unit_value u;
        if 2 ^ 63 / unit <? v then None
        else
          let v := v * unit in
          let v := if 0 <? f
                   then u64 (v + trunc_float (float64_mul (float64_of f) (float64_div (float64_of unit) scale)))
                   else v in
          if 2 ^ 63 <? v then None else Some (v, s3).

(** Every part takes at least one byte, so the length of the string is fuel enough. *)
Fixpoint duration_parts (fuel : nat) (d : Z) (s : path) : option Z :=
  match s with
  | [] => Some d
  | _ =>
      match fuel with
      | O => None
      | S fuel =>
          '(v, s) ← duration_part s;
          let d := u64 (d + v) in
          if 2 ^ 63 <? d then None else duration_parts fuel d s
      end
  end.

Definition ParseDuration (s : path) : option Z :=
  let '(neg, s) := sign s in
  if bool_decide (s = str "0") then Some 0
  else if bool_decide (s = []) then None
  else
    d ← duration_parts (length s) 0 s;
    if (neg : bool) then Some (i64 (- d)) else if 2 ^ 63 - 1 <? d then None else Some d.

(** ** Round and String *)

(** [d.Round(m)] rounds half away from zero; a result that overflows is cut. *)
Definition Duration_Round (d m : Z) : Z :=
  if m <=? 0 then d
  else
    let r := Z.rem d m in
    if d <? 0 then
      let r := - r in
      if 2 * r <? m then d + r
      else let d1 := i64 (d - m + r) in if d1 <? d then d1 else minDuration
    else if 2 * r <? m then d - r
    else let d1 := i64 (d + m - r) in if d <? d1 then d1 else maxDuration.

(** The last [prec] digits of [v] as a fraction in front of [acc], without trailing
    zeros, and what is left of [v]. *)
Fixpoint fmtFrac (prec : nat) (v : Z) (print : bool) (acc : path) : path * Z :=
  match prec with
  | O => (if print then dot :: acc else acc, v)
  | S prec =>
      let digit := v mod 10 in
      let print := print || negb (digit =? 0) in
      fmtFrac prec (v / 10) print (if print then z2b (48 + digit) :: acc else acc)
  end.

(** [Duration.String] *)
Definition Duration_String (d : Z) : path :=
  let u := Z.abs d in
  let text :=
    if u <? second then
      if u =? 0 then str "0s"
      else
        let '(prec, unit) :=
          if u <? 1000 then (0%nat, str "ns")
          else if u <? 1000 * 1000 then (3%nat, [Byte.xc2; Byte.xb5; Byte.x73])
          else (6%nat, str "ms") in
        let '(t, u) := fmtFrac prec u false unit in natural u ++ t
    else
      let '(t, u) := fmtFrac 9 u false (str "s") in
      let t := natural (u mod 60) ++ t in
      let u := u / 60 in
      if 0 <? u then
        let t := natural (u mod 60) ++ str "m" ++ t in
        let u := u / 60 in
        if 0 <? u then natural u ++ str "h" ++ t else t
      else t in
  if d <? 0 then Byte.x2d :: text else text.

(** Rounded to seconds, the time is off by half a second at most. *)
Lemma Duration_Round_second d :
  0 <= d < 2 ^ 62 → Duration_Round d second mod second = 0 ∧ Z.abs (Duration_Round d second - d) * 2 <= second.
Proof.
  intros Hd. unfold Duration_Round. change (second <=? 0) with false. cbv zeta.
  assert ((d <? 0) = false) as -> by lia. rewrite Z.rem_mod_nonneg by (unfold second; lia).
  pose proof (Z.mod_pos_bound d second ltac:(done)). pose proof (Z.div_mod d second ltac:(done)).
  destruct (Z.ltb_spec (2 * (d mod second)) second).
  - split; [|lia]. replace (d - d mod second) with (d / second * second) by lia. by apply Z.mod_mul.
  - rewrite i64_small by (unfold second in *; lia). rewrite (proj2 (Z.ltb_lt _ _)) by lia. split; [|lia].
    replace (d + second - d mod second) with ((d / second + 1) * second) by lia. by apply Z.mod_mul.
Qed.
