(* ===== verification/UdpfsLog.v ===== *)
(** * The request log (udpfs/utils.go: logPayload, udpfs/protocol.go: MsgType.String)

    The line that a verbose server logs for a request: what is parsed out of the
    payload again.  The lines themselves go to the standard error and are left to
    package log; what matters is that the parsing cannot panic. *)
From S2P Require Import Prelude UdpfsProtocol GoPath.

(** ** Fields of a request *)

(** [bytes.IndexByte(b, 0)] *)
Fixpoint IndexByte0 (b : list byte) : option nat :=
  match b with
  | [] => None
  | x :: b => if b2z x =? 0 then Some O else S <$> IndexByte0 b
  end.

(** The path that starts at [off]: up to the first NUL byte, or to the end. *)
Definition path_at (off : nat) (payload : list byte) : list byte :=
  let rest := drop off payload in
  match IndexByte0 rest with
  | Some pathEnd => take pathEnd rest
  | None => take (length payload - off) rest
  end.

Definition handle_at (payload : list byte) : Z := i32 (le_at payload 4 4).

(** [int64(hi)<<32 | int64(lo)] *)
Definition int64_at (payload : list byte) (off : nat) : Z :=
  Z.lor (i64 (Z.shiftl (le_at payload (off + 4) 4) 32)) (le_at payload off 4).

(** ** Names of the messages *)

Definition hex_digit (n : Z) : byte := if n <? 10 then z2b (48 + n) else z2b (87 + n).

(** [MsgType.String], with [%02x] of a byte written out. *)
Definition MsgType_String (m : Z) : path :=
  if m =? MsgOpenReq then str "Open"
  else if m =? MsgCloseReq then str "Close"
  else if m =? MsgReadReq then str "Read"
  else if m =? MsgWriteReq then str "Write"
  else if m =? MsgWriteData then str "WriteData"
  else if m =? MsgLseekReq then str "Lseek"
  else if m =? MsgDreadReq then str "Dread"
  else if m =? MsgGetstatReq then str "Getstat"
  else if m =? MsgMkdirReq then str "Mkdir"
  else if m =? MsgRemoveReq then str "Remove"
  else if m =? MsgRmdirReq then str "Rmdir"
  else if m =? MsgBreadReq then str "Bread"
  else if m =? MsgBwriteReq then str "Bwrite"
  else str "Unknown (0x" ++ [hex_digit (m / 16); hex_digit (m mod 16)] ++ str ")".

(** ** logPayload *)

Inductive log_line :=
| LogOpen (isDir : bool) (p : path) (status : Z)
| LogClose (handle status : Z)
| LogRead (handle size status : Z)
| LogWrite (handle size status : Z)
| LogWriteData (chunkNr chunkSize totalChunks status : Z)
| LogWriteDone (result status : Z)
| LogLseek (handle status : Z)
| LogDread (handle status : Z)
| LogPath (msg : Z) (p : path) (status : Z)
| LogBread (handle sectorNr sectorCount status : Z)
| LogBwrite (handle sectorNr sectorCount status : Z).

(** The capacity of a payload: it is a slice of the data handler's buffer of 2048
    bytes from byte 6 on, and no slice is shorter than its length. *)
Definition payload_cap (payload : list byte) : Z := Z.max (2048 - 6) (zlen payload).

(** [for pathEnd < len(payload)-off && payload[off+pathEnd] != 0 { pathEnd++ }] *)
Fixpoint path_end (rest : list byte) : Z :=
  match rest with
  | [] => 0
  | x :: rest => if b2z x =? 0 then 0 else 1 + path_end rest
  end.

(** [payload[off:off+pathEnd]]: a slice of a slice may reach up to its capacity. *)
Definition log_path (off : nat) (payload : list byte) : outcome path :=
  let pathEnd := path_end (drop off payload) in
  if (0 <=? pathEnd) && (Z.of_nat off + pathEnd <=? payload_cap payload)
  then Ok (take (Z.to_nat pathEnd) (drop off payload))
  else Panic SliceOutOfRange.

Definition logPayload (msgType status : Z) (payload : list byte) : outcome (option log_line) :=
  let long n line := Ok (if n <=? zlen payload then Some line else None) in
  let path_line off line := p ← log_path off payload; Ok (Some (line p)) in
  if msgType =? MsgOpenReq then
    let isDir := (1 <? zlen payload) && negb (le_at payload 1 1 =? 0) in
    path_line 8%nat (λ p, LogOpen isDir p status)
  else if msgType =? MsgCloseReq then long 8 (LogClose (handle_at payload) status)
  else if msgType =? MsgReadReq then long 12 (LogRead (handle_at payload) (le_at payload 8 4) status)
  else if msgType =? MsgWriteReq then long 12 (LogWrite (handle_at payload) (le_at payload 8 4) status)
  else if msgType =? MsgWriteData then
    long 8 (LogWriteData (le_at payload 2 2) (le_at payload 4 2) (le_at payload 6 2) status)
  else if msgType =? MsgWriteDone then long 8 (LogWriteDone (handle_at payload) status)
  else if msgType =? MsgLseekReq then long 16 (LogLseek (handle_at payload) status)
  else if msgType =? MsgDreadReq then long 8 (LogDread (handle_at payload) status)
  else if msgType =? MsgGetstatReq then path_line 4%nat (λ p, LogPath msgType p status)
  else if msgType =? MsgMkdirReq then path_line 4%nat (λ p, LogPath msgType p status)
  else if msgType =? MsgRemoveReq then path_line 4%nat (λ p, LogPath msgType p status)
  else if msgType =? MsgRmdirReq then path_line 4%nat (λ p, LogPath msgType p status)
  else if msgType =? MsgBreadReq then
    long 16 (LogBread (handle_at payload) (int64_at payload 8) (le_at payload 2 2) status)
  else if msgType =? MsgBwriteReq then
    long 16 (LogBwrite (handle_at payload) (int64_at payload 8) (le_at payload 2 2) status)
  else Ok None.

(** ** Logging does not panic, and shows the path that the handler uses *)

Lemma path_end_bound rest : 0 <= path_end rest <= zlen rest.
Proof.
  induction rest as [|x rest IH]; [done|]. cbn [path_end].
  unfold zlen in *. cbn [length]. case_bool; lia.
Qed.

Lemma path_end_path_at off payload :
  take (Z.to_nat (path_end (drop off payload))) (drop off payload) = path_at off payload.
Proof.
  unfold path_at. rewrite <- length_drop. generalize (drop off payload). intros rest.
  assert (Z.to_nat (path_end rest) = default (length rest) (IndexByte0 rest)) as ->.
  { induction rest as [|x rest IH]; [done|]. cbn [path_end IndexByte0 length].
    pose proof (path_end_bound rest). destruct (b2z x =? 0); [done|].
    rewrite Z2Nat.inj_add, IH by lia. by destruct (IndexByte0 rest). }
  by destruct (IndexByte0 rest).
Qed.

Lemma log_path_ok off payload : (off <= 8)%nat → log_path off payload = Ok (path_at off payload).
Proof.
  intros Ho. unfold log_path. pose proof (path_end_bound (drop off payload)) as Hb.
  assert (Z.of_nat off + path_end (drop off payload) <= payload_cap payload) as Hc.
  { unfold payload_cap, zlen in *. rewrite length_drop in Hb. lia. }
  rewrite (proj2 (Z.leb_le 0 _)), (proj2 (Z.leb_le _ (payload_cap payload))) by lia. cbn [andb].
  by rewrite path_end_path_at.
Qed.

Lemma logPayload_ok msgType status payload : ∃ l, logPayload msgType status payload = Ok l.
Proof.
  unfold logPayload. rewrite !log_path_ok by lia. rewrite !bind_Ok.
  repeat (destruct (msgType =? _); [by eexists|]). by eexists.
Qed.

(** The step of a handler that logs when it is told to. *)
Lemma log_step {A} (verbose : bool) msgType status payload (k : outcome A) :
  (_ ← (if verbose then logPayload msgType status payload else Ok None); k) = k.
Proof. destruct verbose; [|done]. by destruct (logPayload_ok msgType status payload) as [l ->]. Qed.
