(* ===== verification/UdpfsConnection.v ===== *)
(** * UDPFS connections (udpfs/connection.go, udpfs/handlers.go, udpfs/metrics.go)

    A connection owns a session and a cache of the handles its peer has opened,
    and turns each request payload into calls of the file system interface and
    one reply.  The file system is a parameter: the operations of the [FS]
    interface are the constructors of [fs_op], and an implementation interprets
    them on a state of its own. *)
From stdpp Require Import gmap.
From S2P Require Import Prelude GoFloat RdmaSession UdpfsProtocol GoPath.
From S2P Require Export UdpfsLog.

(** ** The FS interface (fs.go)

    An operation is indexed by the type of its results.  The read buffer of
    [Read] and [Bread] is represented by its length; the slice of it that is
    returned, by its contents. *)
Inductive fs_op : Type → Type :=
| FS_Open (path : list byte) (flag : Z) (isDir : bool) : fs_op (Z * StatInfo * option go_error)
| FS_Close (handle : Z) : fs_op (option go_error)
| FS_Read (handle size bufLen : Z) : fs_op (Z * list byte * option go_error)
| FS_WriteStart (handle : Z) : fs_op (option go_error)
| FS_WriteChunk (handle chunkNr chunkSize totalChunks : Z) (chunk : list byte)
    : fs_op (bool * option go_error)
| FS_CompleteWrite (handle : Z) : fs_op (Z * option go_error)
| FS_Lseek (handle offset whence : Z) : fs_op (Z * option go_error)
| FS_Dread (handle : Z) : fs_op (bool * list byte * StatInfo * option go_error)
| FS_Getstat (path : list byte) : fs_op (StatInfo * option go_error)
| FS_Mkdir (path : list byte) : fs_op (option go_error)
| FS_Remove (path : list byte) : fs_op (option go_error)
| FS_Rmdir (path : list byte) : fs_op (option go_error)
| FS_Bread (handle sectorNr sectorCount bufLen : Z) : fs_op (list byte * option go_error)
| FS_BwriteStart (handle sectorNr sectorCount : Z) : fs_op (option go_error).

Class FS (W : Type) := fs_call : ∀ R, fs_op R → W → outcome (R * W).
Arguments fs_call {W _} {R} _ _.

(** ** Metrics (metrics.go) *)

Record metricCollector := mkCollector {
  commandCounts : gmap Z Z;
  errorCounts : gmap Z Z;
  bytesTx : Z;
  bytesRx : Z;
  lastCheckTimeSecond : Z;
  totalSecondsObserved : Z;
  currentSecondBytesRx : Z;
  currentSecondBytesTx : Z;
  avgThroughputTx : float64;
  avgThroughputRx : float64
}.

Definition newMetricCollector : metricCollector := mkCollector ∅ ∅ 0 0 0 0 0 0 float64_zero float64_zero.

Definition eta_collector (m : metricCollector) : metricCollector :=
  mkCollector (commandCounts m) (errorCounts m) (bytesTx m) (bytesRx m) (lastCheckTimeSecond m)
    (totalSecondsObserved m) (currentSecondBytesRx m) (currentSecondBytesTx m) (avgThroughputTx m) (avgThroughputRx m).

#[export] Instance set_commandCounts : Setter commandCounts :=
  ltac:(mk_setter eta_collector commandCounts).
#[export] Instance set_errorCounts : Setter errorCounts := ltac:(mk_setter eta_collector errorCounts).
#[export] Instance set_bytesTx : Setter bytesTx := ltac:(mk_setter eta_collector bytesTx).
#[export] Instance set_bytesRx : Setter bytesRx := ltac:(mk_setter eta_collector bytesRx).
#[export] Instance set_lastCheckTimeSecond : Setter lastCheckTimeSecond :=
  ltac:(mk_setter eta_collector lastCheckTimeSecond).
#[export] Instance set_totalSecondsObserved : Setter totalSecondsObserved :=
  ltac:(mk_setter eta_collector totalSecondsObserved).
#[export] Instance set_currentSecondBytesRx : Setter currentSecondBytesRx :=
  ltac:(mk_setter eta_collector currentSecondBytesRx).
#[export] Instance set_currentSecondBytesTx : Setter currentSecondBytesTx :=
  ltac:(mk_setter eta_collector currentSecondBytesTx).

#[export] Instance set_avgThroughputTx : Setter avgThroughputTx := ltac:(mk_setter eta_collector avgThroughputTx).
#[export] Instance set_avgThroughputRx : Setter avgThroughputRx := ltac:(mk_setter eta_collector avgThroughputRx).

(** [m[k]++] on a map of int64 counters. *)
Definition count (k : Z) (m : gmap Z Z) : gmap Z Z := <[k := i64 (default 0 (m !! k) + 1)]> m.

(** [avg += (float64(n) - avg) / float64(total)] *)
Definition move_average (n total : Z) (avg : float64) : float64 :=
  float64_add avg (float64_div (float64_sub (float64_of n) avg) (float64_of total)).

(** [now] is [time.Now().Unix()]. *)
Definition updateThroughput (now byteCount : Z) (isWrite : bool) (c : metricCollector)
    : metricCollector :=
  let c :=
    if lastCheckTimeSecond c <? now then
      let c := c <| totalSecondsObserved ::= λ n, u64 (n + 1) |> in
      let c := if 0 <? currentSecondBytesTx c
               then c <| avgThroughputTx ::= move_average (currentSecondBytesTx c) (totalSecondsObserved c) |>
               else c in
      let c := if 0 <? currentSecondBytesRx c
               then c <| avgThroughputRx ::= move_average (currentSecondBytesRx c) (totalSecondsObserved c) |>
               else c in
      c <| currentSecondBytesTx := 0 |> <| currentSecondBytesRx := 0 |> <| lastCheckTimeSecond := now |>
    else c in
  if negb isWrite then
    c <| bytesTx ::= λ n, i64 (n + byteCount) |>
      <| currentSecondBytesTx ::= λ n, u64 (n + u64 byteCount) |>
  else
    c <| bytesRx ::= λ n, i64 (n + byteCount) |>
      <| currentSecondBytesRx ::= λ n, u64 (n + u64 byteCount) |>.

Definition logMetric (now msg statusCode : Z) (c : metricCollector) : metricCollector :=
  let c := c <| commandCounts ::= count msg |> in
  let c := if statusCode <? 0 then c <| errorCounts ::= count msg |> else c in
  if 0 <? statusCode then
    if (msg =? MsgReadReq) || (msg =? MsgBreadReq) then updateThroughput now statusCode false c
    else if (msg =? MsgWriteReq) || (msg =? MsgWriteData) || (msg =? MsgBwriteReq)
    then updateThroughput now statusCode true c
    else c
  else c.

Record ConnectionStats := mkConnectionStats {
  CommandCounts : gmap Z Z;
  ErrorCounts : gmap Z Z;
  BytesTx : Z;
  BytesRx : Z;
  AvgTxThroughput : float64;
  AvgRxThroughput : float64
}.

Definition metric_stats (c : metricCollector) : ConnectionStats :=
  mkConnectionStats (commandCounts c) (errorCounts c) (bytesTx c) (bytesRx c) (avgThroughputTx c)
    (avgThroughputRx c).

(** ** Connection state (connection.go) *)

Record cachedHandle := mkCached {
  c_path : list byte;
  c_flag : Z;
  c_reset : bool;
  c_isDir : bool
}.

Record Connection := mkConnection {
  sess : Session;
  usedHandles : gmap Z cachedHandle;
  activeWriteHandle : Z;
  collector : option metricCollector;
  c_verbose : bool
}.

Definition eta_connection (c : Connection) : Connection :=
  mkConnection (sess c) (usedHandles c) (activeWriteHandle c) (collector c) (c_verbose c).

#[export] Instance set_sess : Setter sess := ltac:(mk_setter eta_connection sess).
#[export] Instance set_usedHandles : Setter usedHandles := ltac:(mk_setter eta_connection usedHandles).
#[export] Instance set_activeWriteHandle : Setter activeWriteHandle :=
  ltac:(mk_setter eta_connection activeWriteHandle).
#[export] Instance set_collector : Setter collector := ltac:(mk_setter eta_connection collector).

Definition dataBufferLen : Z := 128 * 1024.

Definition NewConnection (s : Session) (verbose collectMetrics : bool) : Connection :=
  {| sess := SetResetCallback s;
     usedHandles := ∅;
     activeWriteHandle := -1;
     collector := if collectMetrics then Some newMetricCollector else None;
     c_verbose := verbose |}.

(** A connection that does not collect metrics has no collector to ask. *)
Definition Connection_GetMetrics (c : Connection) : outcome ConnectionStats :=
  match collector c with
  | Some m => Ok (metric_stats m)
  | None => Panic NilDereference
  end.

(** *** Replies *)

Definition Connection_SendACK (ack : bool) (c : Connection) : Connection :=
  c <| sess ::= SendACK ack |>.

Definition Connection_SendData (payload : list byte) (c : Connection) : outcome Connection :=
  s ← SendData payload (sess c);
  Ok (c <| sess := s |>).

Definition SendOpenReply (handle : Z) (st : StatInfo) (c : Connection) : outcome Connection :=
  Connection_SendData (PackOpenReply handle st) c.

Definition SendReadResult (result : Z) (data : list byte) (c : Connection) : outcome Connection :=
  s ← SendRawDataWithHeader (PackResultReply result) data (sess c);
  Ok (c <| sess := s |>).

Definition clearWriteHandle (c : Connection) : Connection := c <| activeWriteHandle := -1 |>.
Definition setWriteHandle (handle : Z) (c : Connection) : Connection :=
  c <| activeWriteHandle := handle |>.
Definition getWriteHandle (c : Connection) : Z := activeWriteHandle c.

Definition SendWriteDone (result : Z) (c : Connection) : outcome Connection :=
  Connection_SendData (PackWriteDone result) (clearWriteHandle c).

Definition SendLseekReply (position : Z) (c : Connection) : outcome Connection :=
  Connection_SendData (PackLseekReply position) c.

Definition SendDreadReply (result : Z) (name : list byte) (st : StatInfo) (c : Connection)
    : outcome Connection :=
  Connection_SendData (PackDreadReply result name st) c.

Definition SendGetstatReply (result : Z) (st : StatInfo) (c : Connection) : outcome Connection :=
  Connection_SendData (PackGetstatReply result st) c.

Definition SendCloseReply (result : Z) (c : Connection) : outcome Connection :=
  Connection_SendData (PackCloseReply result) c.

Definition SendResultReplyOnly (result : Z) (c : Connection) : outcome Connection :=
  Connection_SendData (PackResultReply result) c.

(** *** The handle cache

    [order] is the order in which a [range] statement visits the keys of the map,
    which Go leaves open: a permutation of the keys. *)
Definition range_order (order : list Z) (m : gmap Z cachedHandle) : Prop :=
  order ≡ₚ (map_to_list m).*1.

Definition lookupHandle (order : list Z) (path : list byte) (flag : Z) (c : Connection)
    : option Z * Connection :=
  let matches h :=
    match usedHandles c !! h with
    | Some e => c_reset e && bool_decide (c_path e = path) && (c_flag e =? flag)
    | None => false
    end in
  match List.find matches order with
  | Some h =>
      (Some h,
       c <| usedHandles ::= alter (λ e, mkCached (c_path e) (c_flag e) false (c_isDir e)) h |>)
  | None => (None, c)
  end.

Definition addHandle (handle : Z) (path : list byte) (flag : Z) (isDir : bool) (c : Connection)
    : Connection :=
  c <| usedHandles ::= λ m, <[handle := mkCached path flag false isDir]> m |>.

Definition removeHandle (handle : Z) (c : Connection) : Connection :=
  let c := c <| usedHandles ::= λ m, delete handle m |> in
  if activeWriteHandle c =? handle then c <| activeWriteHandle := -1 |> else c.

Section Handlers.
Context {W : Type} `{FS W}.

(** Resets all peer handles. *)
Fixpoint ResetPeer (order : list Z) (c : Connection) (w : W) : outcome (Connection * W) :=
  match order with
  | [] => Ok (c, w)
  | h :: order =>
      match usedHandles c !! h with
      | None => ResetPeer order c w
      | Some e =>
          '(_, w) ← fs_call (FS_Lseek h 0 0) w;
          let c := c <| usedHandles ::= λ m,
                       <[h := mkCached (c_path e) (c_flag e) true (c_isDir e)]> m |> in
          ResetPeer order c w
      end
  end.

(** Closes all peer handles. *)
Fixpoint Connection_Close (order : list Z) (c : Connection) (w : W) : outcome (Connection * W) :=
  match order with
  | [] => Ok (c <| sess ::= Close |>, w)
  | h :: order =>
      match usedHandles c !! h with
      | None => Connection_Close order c w
      | Some _ =>
          '(_, w) ← fs_call (FS_Close h) w;
          Connection_Close order (c <| usedHandles ::= λ m, delete h m |>) w
      end
  end.

(** ** Request handlers (handlers.go)

    A handler returns the status code, the connection and the file system. *)

(** handleOpen parses OPEN_REQ payload, calls fs.Open, sends OPEN_REPLY. *)
Definition handleOpen (order : list Z) (payload : list byte) (c : Connection) (w : W)
    : outcome (Z * Connection * W) :=
  if zlen payload <? 8 then
    c ← SendOpenReply (- EINVAL) noStat c;
    Ok (- EINVAL, c, w)
  else
    let flags := le_at payload 2 2 in
    let path := path_at 8 payload in
    let isDir := (1 <? zlen payload) && negb (le_at payload 1 1 =? 0) in
    let flag := udpfsFlagsToOSFlags flags in
    let '(cached, c) := if negb isDir then lookupHandle order path flag c else (None, c) in
    match cached with
    | Some h =>
        c ← SendOpenReply h noStat c;
        Ok (0, c, w)
    | None =>
        '(handle, stat, err, w) ← fs_call (FS_Open path flag isDir) w;
        match err with
        | Some _ =>
            let errCode := - errToErrno err in
            c ← SendOpenReply errCode stat c;
            Ok (errCode, c, w)
        | None =>
            if handle <? 0 then
              c ← SendOpenReply handle stat c;
              Ok (handle, c, w)
            else
              let c := addHandle handle path flag isDir c in
              c ← SendOpenReply handle stat c;
              Ok (0, c, w)
        end
    end.

(** handleClose parses CLOSE_REQ, calls fs.Close, sends CLOSE_REPLY. *)
Definition handleClose (payload : list byte) (c : Connection) (w : W)
    : outcome (Z * Connection * W) :=
  if zlen payload <? 8 then
    c ← SendCloseReply (- EINVAL) c;
    Ok (- EINVAL, c, w)
  else
    let handle := handle_at payload in
    if handle =? BlockDeviceHandle then
      c ← SendCloseReply handle c;
      Ok (handle, c, w)
    else
      '(err, w) ← fs_call (FS_Close handle) w;
      match err with
      | Some _ =>
          let errCode := - errToErrno err in
          c ← SendCloseReply errCode c;
          Ok (errCode, c, w)
      | None =>
          let c := removeHandle handle c in
          c ← SendCloseReply 0 c;
          Ok (0, c, w)
      end.

(** handleRead parses READ_REQ, calls fs.Read, sends RESULT_REPLY + data. *)
Definition handleRead (payload : list byte) (c : Connection) (w : W)
    : outcome (Z * Connection * W) :=
  if zlen payload <? 12 then
    c ← SendReadResult (- EINVAL) [] c;
    Ok (- EINVAL, c, w)
  else
    let handle := handle_at payload in
    let size := le_at payload 8 4 in
    '(n, data, err, w) ← fs_call (FS_Read handle size dataBufferLen) w;
    match err with
    | Some _ =>
        let errCode := - errToErrno err in
        c ← SendReadResult errCode [] c;
        Ok (errCode, c, w)
    | None =>
        c ← SendReadResult n data c;
        Ok (n, c, w)
    end.

(** The part that handleWriteReq, handleWriteData and handleBwriteReq have in
    common: parse the chunk, call WriteChunk and, when it was the last one,
    CompleteWrite. *)
Definition handleChunk (payload chunkPayload : list byte) (handle : Z) (c : Connection) (w : W)
    : outcome (Z * Connection * W) :=
  let chunkNr := le_at chunkPayload 2 2 in
  let chunkSize := le_at chunkPayload 4 2 in
  let totalChunks := le_at chunkPayload 6 2 in
  let chunkData := drop 8 chunkPayload in
  let chunkData := if chunkSize <? zlen chunkData then take (Z.to_nat chunkSize) chunkData
                   else chunkData in
  '(done, err, w) ← fs_call (FS_WriteChunk handle chunkNr chunkSize totalChunks chunkData) w;
  match err with
  | Some _ =>
      let errCode := - errToErrno err in
      c ← SendWriteDone errCode c;
      Ok (errCode, c, w)
  | None =>
      if (done : bool) then
        '(n, err, w) ← fs_call (FS_CompleteWrite handle) w;
        match err with
        | Some _ =>
            let errCode := - errToErrno err in
            c ← SendWriteDone errCode c;
            Ok (errCode, c, w)
        | None =>
            c ← SendWriteDone n c;
            Ok (zlen payload, c, w)
        end
      else Ok (zlen payload, Connection_SendACK true c, w)
  end.

Definition handleWriteReq (payload : list byte) (c : Connection) (w : W)
    : outcome (Z * Connection * W) :=
  if zlen payload <? 12 then Ok (0, Connection_SendACK true c, w)
  else
    let handle := handle_at payload in
    '(err, w) ← fs_call (FS_WriteStart handle) w;
    match err with
    | Some _ =>
        let errCode := - errToErrno err in
        c ← SendWriteDone errCode c;
        Ok (errCode, c, w)
    | None =>
        let c := setWriteHandle handle c in
        if zlen payload <=? 12 then Ok (0, Connection_SendACK true c, w)
        else
          let chunkPayload := drop 12 payload in
          if zlen chunkPayload <? 8 then Ok (0, Connection_SendACK true c, w)
          else handleChunk payload chunkPayload handle c w
    end.

Definition handleWriteData (payload : list byte) (c : Connection) (w : W)
    : outcome (Z * Connection * W) :=
  if zlen payload <? 8 then Ok (0, Connection_SendACK true c, w)
  else
    let handle := getWriteHandle c in
    if handle =? -1 then Ok (EBADF, Connection_SendACK true c, w)
    else handleChunk payload payload handle c w.

(** handleLseek parses LSEEK_REQ, calls fs.Lseek, sends LSEEK_REPLY. *)
Definition handleLseek (payload : list byte) (c : Connection) (w : W)
    : outcome (Z * Connection * W) :=
  if zlen payload <? 16 then
    c ← SendLseekReply (-1) c;
    Ok (-1, c, w)
  else
    let handle := handle_at payload in
    let offset := int64_at payload 8 in
    let whence := le_at payload 1 1 in
    '(pos, err, w) ← fs_call (FS_Lseek handle offset whence) w;
    match err with
    | Some _ =>
        c ← SendLseekReply (-1) c;
        Ok (-1, c, w)
    | None =>
        c ← SendLseekReply pos c;
        Ok (0, c, w)
    end.

(** handleDread parses DREAD_REQ, calls fs.Dread, sends DREAD_REPLY. *)
Definition handleDread (payload : list byte) (c : Connection) (w : W)
    : outcome (Z * Connection * W) :=
  if zlen payload <? 8 then
    c ← SendDreadReply (- EINVAL) [] noStat c;
    Ok (- EINVAL, c, w)
  else
    let handle := handle_at payload in
    '(ok, name, stat, err, w) ← fs_call (FS_Dread handle) w;
    match err with
    | Some _ =>
        let errCode := - errToErrno err in
        c ← SendDreadReply errCode [] noStat c;
        Ok (errCode, c, w)
    | None =>
        if negb ok then
          c ← SendDreadReply 0 [] noStat c;
          Ok (0, c, w)
        else
          c ← SendDreadReply 1 name stat c;
          Ok (0, c, w)
    end.

(** handleGetstat parses GETSTAT_REQ, calls fs.Getstat, sends GETSTAT_REPLY. *)
Definition handleGetstat (payload : list byte) (c : Connection) (w : W)
    : outcome (Z * Connection * W) :=
  if zlen payload <? 4 then
    c ← SendGetstatReply (- EINVAL) noStat c;
    Ok (- EINVAL, c, w)
  else
    let path := path_at 4 payload in
    '(stat, err, w) ← fs_call (FS_Getstat path) w;
    match err with
    | Some _ =>
        let errCode := - errToErrno err in
        c ← SendGetstatReply errCode noStat c;
        Ok (errCode, c, w)
    | None =>
        c ← SendGetstatReply 0 stat c;
        Ok (0, c, w)
    end.

(** The body of handleMkdir, handleRemove and handleRmdir, which differ only in
    the operation they call. *)
Definition handlePathOp (op : list byte → fs_op (option go_error)) (payload : list byte)
    (c : Connection) (w : W) : outcome (Z * Connection * W) :=
  if zlen payload <? 4 then
    c ← SendResultReplyOnly (- EINVAL) c;
    Ok (- EINVAL, c, w)
  else
    let path := path_at 4 payload in
    '(err, w) ← fs_call (op path) w;
    match err with
    | Some _ =>
        let errCode := - errToErrno err in
        c ← SendResultReplyOnly errCode c;
        Ok (errCode, c, w)
    | None =>
        c ← SendResultReplyOnly 0 c;
        Ok (0, c, w)
    end.

Definition handleMkdir := handlePathOp FS_Mkdir.
Definition handleRemove := handlePathOp FS_Remove.
Definition handleRmdir := handlePathOp FS_Rmdir.

(** handleBread parses BREAD_REQ, calls fs.Bread, sends RESULT_REPLY + data. *)
Definition handleBread (payload : list byte) (c : Connection) (w : W)
    : outcome (Z * Connection * W) :=
  if zlen payload <? 16 then
    c ← SendReadResult (- EINVAL) [] c;
    Ok (- EINVAL, c, w)
  else
    let sectorCount := le_at payload 2 2 in
    let handle := handle_at payload in
    let sectorNr := int64_at payload 8 in
    '(data, err, w) ← fs_call (FS_Bread handle sectorNr sectorCount dataBufferLen) w;
    match err with
    | Some _ =>
        let errCode := - errToErrno err in
        c ← SendReadResult errCode [] c;
        Ok (errCode, c, w)
    | None =>
        c ← SendReadResult (i32 (zlen data)) data c;
        Ok (zlen data, c, w)
    end.

Definition handleBwriteReq (payload : list byte) (c : Connection) (w : W)
    : outcome (Z * Connection * W) :=
  if zlen payload <? 16 then Ok (0, Connection_SendACK true c, w)
  else
    let sectorCount := le_at payload 2 2 in
    let handle := handle_at payload in
    let sectorNr := int64_at payload 8 in
    '(err, w) ← fs_call (FS_BwriteStart handle sectorNr sectorCount) w;
    match err with
    | Some _ =>
        let errCode := - errToErrno err in
        c ← SendWriteDone errCode c;
        Ok (errCode, c, w)
    | None =>
        let c := setWriteHandle handle c in
        if zlen payload <=? 16 then Ok (0, Connection_SendACK true c, w)
        else
          let chunkPayload := drop 16 payload in
          if zlen chunkPayload <? 8 then Ok (0, Connection_SendACK true c, w)
          else handleChunk payload chunkPayload handle c w
    end.

(** HandlePayload parses the message type and dispatches to the handler. *)
Definition dispatch (order : list Z) (msgType : Z) (payload : list byte) (c : Connection) (w : W)
    : option (outcome (Z * Connection * W)) :=
  if msgType =? MsgOpenReq then Some (handleOpen order payload c w)
  else if msgType =? MsgCloseReq then Some (handleClose payload c w)
  else if msgType =? MsgReadReq then Some (handleRead payload c w)
  else if msgType =? MsgWriteReq then Some (handleWriteReq payload c w)
  else if msgType =? MsgWriteData then Some (handleWriteData payload c w)
  else if msgType =? MsgLseekReq then Some (handleLseek payload c w)
  else if msgType =? MsgDreadReq then Some (handleDread payload c w)
  else if msgType =? MsgGetstatReq then Some (handleGetstat payload c w)
  else if msgType =? MsgMkdirReq then Some (handleMkdir payload c w)
  else if msgType =? MsgRemoveReq then Some (handleRemove payload c w)
  else if msgType =? MsgRmdirReq then Some (handleRmdir payload c w)
  else if msgType =? MsgBreadReq then Some (handleBread payload c w)
  else if msgType =? MsgBwriteReq then Some (handleBwriteReq payload c w)
  else None.

Definition HandlePayload (order : list Z) (now : Z) (payload : list byte) (c : Connection) (w : W)
    : outcome (Connection * W) :=
  match payload with
  | [] => Ok (c, w)
  | b :: _ =>
      let msgType := b2z b in
      match dispatch order msgType payload c w with
      | None => Ok (Connection_SendACK true c, w)
      | Some run =>
          '(statusCode, c, w) ← run;
          _ ← (if c_verbose c then logPayload msgType statusCode payload else Ok None);
          Ok (c <| collector ::= fmap (logMetric now msgType statusCode) |>, w)
      end
  end.

End Handlers.
