(* ===== verification/UdpfsContract.v ===== *)
(** * What the file system promises to a connection, and what the connection makes of it

    [FSContract] is the interface between the two: an invariant of the file
    system, the calls it accepts, and what the results satisfy.  Against it, every
    request is handled without a panic and gets exactly one reply of its kind. *)
From stdpp Require Import gmap.
From S2P Require Import Prelude RdmaProtocol RdmaSession RdmaPack RdmaInvariant RdmaTimer RdmaReceive RdmaWire RdmaStep.
From S2P Require Import UdpfsProtocol UdpfsConnection.

(** The longest name a DREAD reply has room for. *)
Definition maxName : Z := 1440.

(** What a connection relies on in the results of a call.  [pre] are the calls
    that the file system accepts. *)
Definition fs_post (pre : ∀ R, fs_op R → Prop) {R} (op : fs_op R) : R → Prop :=
  match op in fs_op R return R → Prop with
  | FS_Open _ _ _ => λ '(h, st, err),
      stat_wf st ∧ (err = None → 0 <= h → pre _ (FS_Lseek h 0 0) ∧ pre _ (FS_Close h))
  | FS_Dread _ => λ '(ok, name, st, err), stat_wf st ∧ zlen name <= maxName
  | FS_Getstat _ => λ '(st, err), stat_wf st
  | _ => λ _, True
  end.

Class FSContract (W : Type) `{FS W} := {
  fs_inv : W → Prop;
  fs_pre : ∀ R, fs_op R → Prop;
  fs_returns : ∀ R (op : fs_op R) w, fs_inv w → fs_pre R op →
    ∃ r w', fs_call op w = Ok (r, w') ∧ fs_inv w' ∧ fs_post fs_pre op r;
  fs_pre_open : ∀ p f d, fs_pre _ (FS_Open p f d);
  fs_pre_getstat : ∀ p, fs_pre _ (FS_Getstat p);
  fs_pre_mkdir : ∀ p, fs_pre _ (FS_Mkdir p);
  fs_pre_remove : ∀ p, fs_pre _ (FS_Remove p);
  fs_pre_rmdir : ∀ p, fs_pre _ (FS_Rmdir p);
  fs_pre_chunks : ∀ h, (fs_pre _ (FS_WriteStart h) ∨ ∃ n k, fs_pre _ (FS_BwriteStart h n k)) →
    fs_pre _ (FS_CompleteWrite h) ∧ ∀ i n t d, fs_pre _ (FS_WriteChunk h i n t d)
}.

(** ** Replies *)

Inductive reply :=
| RData (payload : list byte)
| RRaw (header data : list byte)
| RAck.

#[export] Instance reply_eq_dec : EqDecision reply.
Proof. solve_decision. Defined.

Definition send_reply (r : reply) (s : Session) : outcome Session :=
  match r with
  | RData p => SendData p s
  | RRaw h d => SendRawDataWithHeader h d s
  | RAck => Ok (SendACK true s)
  end.

Definition reply_fits (r : reply) : Prop :=
  match r with
  | RData p => zlen p <= MaxSingle
  | RRaw h _ => zlen h = 8
  | RAck => True
  end.

(** The message type of a reply. *)
Definition reply_kind (r : reply) : option Z :=
  match r with
  | RData p | RRaw p _ => b2z <$> head p
  | RAck => None
  end.

(** The replies that belong to a request. *)
Definition expected_reply (msg : Z) (r : reply) : bool :=
  let of_kind k := bool_decide (reply_kind r = Some k) in
  let raw := match r with RRaw _ _ => true | _ => false end in
  if msg =? MsgOpenReq then of_kind MsgOpenReply
  else if msg =? MsgCloseReq then of_kind MsgCloseReply
  else if (msg =? MsgReadReq) || (msg =? MsgBreadReq) then raw && of_kind MsgResultReply
  else if (msg =? MsgWriteReq) || (msg =? MsgWriteData) || (msg =? MsgBwriteReq) then
    bool_decide (r = RAck) || of_kind MsgWriteDone
  else if msg =? MsgLseekReq then of_kind MsgLseekReply
  else if msg =? MsgDreadReq then of_kind MsgDreadReply
  else if msg =? MsgGetstatReq then of_kind MsgGetstatReply
  else if (msg =? MsgMkdirReq) || (msg =? MsgRemoveReq) || (msg =? MsgRmdirReq) then
    negb raw && of_kind MsgResultReply
  else bool_decide (r = RAck).

Lemma send_reply_ok r s :
  session_ok s → reply_fits r → ∃ s', send_reply r s = Ok s' ∧ session_ok s'.
Proof.
  intros Hok Hr. destruct r as [p|h d|]; cbn [reply_fits send_reply] in *.
  - by apply SendData_ok.
  - apply SendRaw_ok; [done|]. unfold MaxDataPayload. lia.
  - exists (SendACK true s). split; [done|]. by apply sendACK_ok.
Qed.

(** No reply calls the reset callback. *)
Lemma send_reply_reset_log r s s' : send_reply r s = Ok s' → reset_log s' = reset_log s.
Proof.
  destruct r as [p|h d|]; [apply SendData_reset_log|apply SendRaw_reset_log|].
  intros [= <-]. apply (sendACK_reset_log true).
Qed.

Lemma SendACK_ok ack s : session_ok s → session_ok (SendACK ack s).
Proof. intros Hok. destruct ack; by apply sendACK_ok. Qed.

(** The sizes of the replies. *)
Lemma zlen_buffer n : zlen (buffer n) = Z.of_nat n.
Proof. unfold zlen, buffer. by rewrite length_replicate. Qed.

Lemma zlen_copy_at (off : nat) (src dst : list byte) : zlen (copy_at off src dst) = zlen dst.
Proof. unfold zlen. by rewrite length_copy_at. Qed.
#[export] Hint Rewrite zlen_copy_at zlen_buffer : golen.

Lemma PackDreadReply_fits result name st :
  zlen name <= maxName → zlen (PackDreadReply result name st) <= MaxSingle.
Proof.
  intros Hn. unfold PackDreadReply. set (n := match name with [] => _ | _ => _ end).
  assert (0 <= zlen n <= maxName + 1) as Hl.
  { unfold n. destruct name; [done|]. pose proof (zlen_nonneg (b :: name)).
    rewrite zlen_app. change (zlen [z2b 0]) with 1. lia. }
  pose proof (pad4_bounds (zlen n)). unfold maxName, MaxSingle in *.
  case_bool; rewrite ?zlen_app; autorewrite with golen; [|lia].
  unfold zlen at 2. rewrite length_replicate. lia.
Qed.

(** ** Requests *)

(** The file system call a request starts with, as its format says; [None] when
    it is too short or needs none. *)
Definition request_op (payload : list byte) : option (sigT fs_op) :=
  let msg := le_at payload 0 1 in
  let len := zlen payload in
  let need n {R} (op : fs_op R) := if len <? n then None else Some (existT R op) in
  if msg =? MsgOpenReq then
    need 8 (FS_Open (path_at 8 payload) (udpfsFlagsToOSFlags (le_at payload 2 2))
              (negb (le_at payload 1 1 =? 0)))
  else if msg =? MsgCloseReq then
    if handle_at payload =? BlockDeviceHandle then None else need 8 (FS_Close (handle_at payload))
  else if msg =? MsgReadReq then
    need 12 (FS_Read (handle_at payload) (le_at payload 8 4) dataBufferLen)
  else if msg =? MsgWriteReq then need 12 (FS_WriteStart (handle_at payload))
  else if msg =? MsgLseekReq then
    need 16 (FS_Lseek (handle_at payload) (int64_at payload 8) (le_at payload 1 1))
  else if msg =? MsgDreadReq then need 8 (FS_Dread (handle_at payload))
  else if msg =? MsgGetstatReq then need 4 (FS_Getstat (path_at 4 payload))
  else if msg =? MsgMkdirReq then need 4 (FS_Mkdir (path_at 4 payload))
  else if msg =? MsgRemoveReq then need 4 (FS_Remove (path_at 4 payload))
  else if msg =? MsgRmdirReq then need 4 (FS_Rmdir (path_at 4 payload))
  else if msg =? MsgBreadReq then
    need 16 (FS_Bread (handle_at payload) (int64_at payload 8) (le_at payload 2 2) dataBufferLen)
  else if msg =? MsgBwriteReq then
    need 16 (FS_BwriteStart (handle_at payload) (int64_at payload 8) (le_at payload 2 2))
  else None.

Section Handled.
Context {W : Type} `{HW : FSContract W}.

(** The file system accepts the call the request starts with. *)
Definition request_ok (payload : list byte) : Prop :=
  match request_op payload with
  | Some (existT R op) => fs_pre R op
  | None => True
  end.

(** The handles a connection remembers are ones the file system accepts. *)
Record handles_ok (c : Connection) : Prop := {
  ho_used : ∀ h e, usedHandles c !! h = Some e →
              fs_pre _ (FS_Lseek h 0 0) ∧ fs_pre _ (FS_Close h);
  ho_write : activeWriteHandle c ≠ -1 →
    fs_pre _ (FS_CompleteWrite (activeWriteHandle c)) ∧
    ∀ i n t d, fs_pre _ (FS_WriteChunk (activeWriteHandle c) i n t d)
}.

(** A request of type [msg] on connection [c0] ended well: one reply of its kind. *)
Definition handled (msg : Z) (c0 : Connection) (res : outcome (Z * Connection * W)) : Prop :=
  ∃ st c w r, res = Ok (st, c, w) ∧ fs_inv w ∧ handles_ok c ∧ session_ok (sess c) ∧
    expected_reply msg r = true ∧ reply_fits r ∧ send_reply r (sess c0) = Ok (sess c).

Lemma handled_data msg c0 c p st w :
  session_ok (sess c0) → sess c = sess c0 → handles_ok c → fs_inv w →
  zlen p <= MaxSingle → expected_reply msg (RData p) = true →
  handled msg c0 (c ← Connection_SendData p c; Ok (st, c, w)).
Proof.
  intros Hok Hs [Hu Hw] Hinv Hp He. unfold Connection_SendData. rewrite Hs.
  destruct (SendData_ok p (sess c0) Hok Hp) as (s' & Hrun & Hok'). rewrite Hrun, !bind_Ok.
  exists st, (c <| sess := s' |>), w, (RData p). by split_and!.
Qed.

Lemma handled_raw msg c0 c result data st w :
  session_ok (sess c0) → sess c = sess c0 → handles_ok c → fs_inv w →
  expected_reply msg (RRaw (PackResultReply result) data) = true →
  handled msg c0 (c ← SendReadResult result data c; Ok (st, c, w)).
Proof.
  intros Hok Hs [Hu Hw] Hinv He. unfold SendReadResult. rewrite Hs.
  destruct (SendRaw_ok (PackResultReply result) data (sess c0) Hok) as (s' & Hrun & Hok').
  { unfold PackResultReply. by autorewrite with golen. }
  rewrite Hrun, !bind_Ok. exists st, (c <| sess := s' |>), w, (RRaw (PackResultReply result) data).
  by split_and!.
Qed.

Lemma handled_ack msg c0 c st w :
  session_ok (sess c0) → sess c = sess c0 → handles_ok c → fs_inv w →
  expected_reply msg RAck = true →
  handled msg c0 (Ok (st, Connection_SendACK true c, w)).
Proof.
  intros Hok Hs [Hu Hw] Hinv He. exists st, (Connection_SendACK true c), w, RAck.
  unfold Connection_SendACK. cbn [send_reply].
  change (sess (c <| sess ::= SendACK true |>)) with (SendACK true (sess c)). rewrite Hs.
  split_and!; try done. by apply sendACK_ok.
Qed.

(** The cache operations keep [handles_ok]. *)
Lemma handles_clear c : handles_ok c → handles_ok (clearWriteHandle c).
Proof. intros [Hu Hw]. by split. Qed.

Lemma handles_set h c :
  handles_ok c → (fs_pre _ (FS_WriteStart h) ∨ ∃ n k, fs_pre _ (FS_BwriteStart h n k)) →
  handles_ok (setWriteHandle h c).
Proof. intros [Hu Hw] Hh. split; [done|]. intros _. by apply fs_pre_chunks. Qed.

Lemma handles_add h p f d c :
  handles_ok c → fs_pre _ (FS_Lseek h 0 0) ∧ fs_pre _ (FS_Close h) → handles_ok (addHandle h p f d c).
Proof.
  intros [Hu Hw] Hh. split; [|done]. intros k e. unfold addHandle; simpl.
  destruct (decide (k = h)) as [->|Hne]; [done|]. rewrite lookup_insert_ne by done. apply Hu.
Qed.

Lemma handles_remove h c : handles_ok c → handles_ok (removeHandle h c).
Proof.
  intros [Hu Hw]. unfold removeHandle.
  assert (∀ k e, delete h (usedHandles c) !! k = Some e →
            fs_pre _ (FS_Lseek k 0 0) ∧ fs_pre _ (FS_Close k)) as Hd.
  { intros k e [_ He]%lookup_delete_Some. eauto. }
  case_bool; split; try done.
Qed.

Lemma handles_lookup order path flag c :
  handles_ok c →
  handles_ok (snd (lookupHandle order path flag c)) ∧
  sess (snd (lookupHandle order path flag c)) = sess c.
Proof.
  intros [Hu Hw]. unfold lookupHandle.
  destruct (List.find _ order) as [h|]; [|by split; [split|]]. split; [|done]. split; [|done].
  simpl. intros k e Hk. destruct (decide (k = h)) as [->|Hne].
  - rewrite lookup_alter_eq in Hk. apply fmap_Some in Hk as (e' & Hk & _). by eapply Hu.
  - rewrite lookup_alter_ne in Hk by done. by eapply Hu.
Qed.

(** *** One lemma per handler *)

#[local] Opaque SendData SendRawDataWithHeader SendACK.

Tactic Notation "fs_step" constr(w) "as" simple_intropattern(r) ident(w') ident(Hinv) simple_intropattern(Hpost) :=
  match goal with
  | |- context [fs_call ?op w] =>
      edestruct (fs_returns _ op w) as (r & w' & -> & Hinv & Hpost);
      [assumption| |rewrite bind_Ok]
  end.

Lemma sess_remove h c : sess (removeHandle h c) = sess c.
Proof. unfold removeHandle. by case_bool. Qed.

(** Close a goal whose handler has come to its reply. *)
Ltac reply_size :=
  unfold PackOpenReply, PackCloseReply, PackWriteDone, PackLseekReply, PackGetstatReply,
    PackResultReply; try case_bool; rewrite !zlen_copy_at, zlen_buffer; vm_compute; congruence.
Ltac reply_kind_ok :=
  unfold PackLseekReply; try case_bool; reflexivity.
Ltac reply_done :=
  lazymatch goal with
  | |- handled _ _ (Ok _) =>
      apply handled_ack; [assumption|try reflexivity|auto using handles_clear|assumption|reflexivity]
  | |- handled _ _ (SendReadResult _ _ _ ≫= _) =>
      apply handled_raw; [assumption|try reflexivity|auto|assumption|reflexivity]
  | |- handled _ _ (Connection_SendData _ _ ≫= _) =>
      apply handled_data;
      [assumption|try reflexivity|auto using handles_clear, handles_remove|assumption
      |try reply_size|try reply_kind_ok]
  end.

Lemma handleClose_handled payload c w :
  session_ok (sess c) → handles_ok c → fs_inv w →
  (8 <= zlen payload → handle_at payload ≠ BlockDeviceHandle → fs_pre _ (FS_Close (handle_at payload))) →
  handled MsgCloseReq c (handleClose payload c w).
Proof.
  intros Hok Hh Hinv Hpre. unfold handleClose, SendCloseReply. case_bool; [reply_done|].
  case_bool; [reply_done|].
  fs_step w as err w' Hinv' Hpost; [auto|]. destruct err; reply_done.
  apply sess_remove.
Qed.

Lemma handleOpen_handled order payload c w :
  session_ok (sess c) → handles_ok c → fs_inv w →
  handled MsgOpenReq c (handleOpen order payload c w).
Proof.
  intros Hok Hh Hinv. unfold handleOpen, SendOpenReply. case_bool; [reply_done|].
  destruct (if negb _ then lookupHandle order _ _ c else (None, c)) as [cached c1] eqn:El.
  assert (handles_ok c1 ∧ sess c1 = sess c) as [Hh1 Hs1].
  { destruct (negb _); [|by simplify_eq].
    match type of El with lookupHandle ?o ?p ?f ?c = _ => pose proof (handles_lookup o p f c Hh) as Hl end.
    by rewrite El in Hl. }
  destruct cached; [reply_done; exact Hs1|].
  fs_step w as [[h st] err] w' Hinv' [Hst Hpre]; [apply fs_pre_open|].
  destruct err; [reply_done; exact Hs1|]. case_bool; [reply_done; exact Hs1|].
  reply_done; [exact Hs1|]. apply handles_add; auto.
Qed.

Lemma handleRead_handled payload c w :
  session_ok (sess c) → handles_ok c → fs_inv w →
  (12 <= zlen payload → fs_pre _ (FS_Read (handle_at payload) (le_at payload 8 4) dataBufferLen)) →
  handled MsgReadReq c (handleRead payload c w).
Proof.
  intros Hok Hh Hinv Hpre. unfold handleRead. case_bool; [reply_done|].
  fs_step w as [[n d] err] w' Hinv' Hpost; [auto|]. destruct err; reply_done.
Qed.

Lemma handleBread_handled payload c w :
  session_ok (sess c) → handles_ok c → fs_inv w →
  (16 <= zlen payload →
   fs_pre _ (FS_Bread (handle_at payload) (int64_at payload 8) (le_at payload 2 2) dataBufferLen)) →
  handled MsgBreadReq c (handleBread payload c w).
Proof.
  intros Hok Hh Hinv Hpre. unfold handleBread. case_bool; [reply_done|].
  fs_step w as [d err] w' Hinv' Hpost; [auto|]. destruct err; reply_done.
Qed.

Lemma handleLseek_handled payload c w :
  session_ok (sess c) → handles_ok c → fs_inv w →
  (16 <= zlen payload →
   fs_pre _ (FS_Lseek (handle_at payload) (int64_at payload 8) (le_at payload 1 1))) →
  handled MsgLseekReq c (handleLseek payload c w).
Proof.
  intros Hok Hh Hinv Hpre. unfold handleLseek, SendLseekReply. case_bool; [reply_done|].
  fs_step w as [pos err] w' Hinv' Hpost; [auto|]. destruct err; reply_done.
Qed.

Lemma handleDread_handled payload c w :
  session_ok (sess c) → handles_ok c → fs_inv w →
  (8 <= zlen payload → fs_pre _ (FS_Dread (handle_at payload))) →
  handled MsgDreadReq c (handleDread payload c w).
Proof.
  intros Hok Hh Hinv Hpre. unfold handleDread, SendDreadReply.
  assert (∀ n name st, expected_reply MsgDreadReq (RData (PackDreadReply n name st)) = true) as Hk.
  { intros n name st. unfold PackDreadReply. case_bool; reflexivity. }
  case_bool; [reply_done; by apply PackDreadReply_fits|].
  fs_step w as [[[ok name] st] err] w' Hinv' [Hst Hname]; [auto|].
  destruct err; [|case_bool]; reply_done; try apply Hk; by apply PackDreadReply_fits.
Qed.

Lemma handleGetstat_handled payload c w :
  session_ok (sess c) → handles_ok c → fs_inv w → handled MsgGetstatReq c (handleGetstat payload c w).
Proof.
  intros Hok Hh Hinv. unfold handleGetstat, SendGetstatReply. case_bool; [reply_done|].
  fs_step w as [st err] w' Hinv' Hpost; [apply fs_pre_getstat|]. destruct err; reply_done.
Qed.

Lemma handlePathOp_handled op msg payload c w :
  session_ok (sess c) → handles_ok c → fs_inv w → (∀ p, fs_pre _ (op p)) →
  (∀ n, expected_reply msg (RData (PackResultReply n)) = true) →
  handled msg c (handlePathOp op payload c w).
Proof.
  intros Hok Hh Hinv Hpre Hk. unfold handlePathOp, SendResultReplyOnly.
  case_bool; [reply_done; apply Hk|].
  fs_step w as err w' Hinv' Hpost; [auto|]. destruct err; reply_done; apply Hk.
Qed.

(** The write requests. *)
Definition write_msg (msg : Z) : Prop := msg = MsgWriteReq ∨ msg = MsgWriteData ∨ msg = MsgBwriteReq.

Lemma handleChunk_handled msg payload chunk h c0 c w :
  write_msg msg → session_ok (sess c0) → sess c = sess c0 → handles_ok c → fs_inv w →
  fs_pre _ (FS_CompleteWrite h) → (∀ i n t d, fs_pre _ (FS_WriteChunk h i n t d)) →
  handled msg c0 (handleChunk payload chunk h c w).
Proof.
  intros Hmsg Hok Hs Hh Hinv Hpre1 Hpre2.
  assert (∀ n, expected_reply msg (RData (PackWriteDone n)) = true) as Hk.
  { intros n. by destruct Hmsg as [->|[->| ->]]. }
  assert (expected_reply msg RAck = true) as Hka by by destruct Hmsg as [->|[->| ->]].
  unfold handleChunk, SendWriteDone. fs_step w as [dn err] w' Hinv' Hpost; [auto|].
  destruct err; [reply_done; [exact Hs|apply Hk]|]. destruct dn.
  - fs_step w' as [n err] w'' Hinv'' Hpost'; [auto|]. destruct err; (reply_done; [exact Hs|apply Hk]).
  - by apply handled_ack.
Qed.

Lemma handleWriteReq_handled payload c w :
  session_ok (sess c) → handles_ok c → fs_inv w →
  (12 <= zlen payload → fs_pre _ (FS_WriteStart (handle_at payload))) →
  handled MsgWriteReq c (handleWriteReq payload c w).
Proof.
  intros Hok Hh Hinv Hpre. unfold handleWriteReq, SendWriteDone. case_bool; [reply_done|].
  fs_step w as err w' Hinv' Hpost; [auto|]. destruct err; [reply_done|].
  assert (handles_ok (setWriteHandle (handle_at payload) c)) as Hh1.
  { apply handles_set; [done|]. left. auto. }
  case_bool; [reply_done|]. case_bool; [reply_done|].
  assert (fs_pre _ (FS_WriteStart (handle_at payload))) as Hp by auto.
  destruct (fs_pre_chunks (handle_at payload) (or_introl Hp)).
  apply handleChunk_handled; auto. by left.
Qed.

Lemma handleBwriteReq_handled payload c w :
  session_ok (sess c) → handles_ok c → fs_inv w →
  (16 <= zlen payload →
   fs_pre _ (FS_BwriteStart (handle_at payload) (int64_at payload 8) (le_at payload 2 2))) →
  handled MsgBwriteReq c (handleBwriteReq payload c w).
Proof.
  intros Hok Hh Hinv Hpre. unfold handleBwriteReq, SendWriteDone. case_bool; [reply_done|].
  fs_step w as err w' Hinv' Hpost; [auto|]. destruct err; [reply_done|].
  assert (∃ n k, fs_pre _ (FS_BwriteStart (handle_at payload) n k)) as Hp by eauto.
  assert (handles_ok (setWriteHandle (handle_at payload) c)) as Hh1 by (apply handles_set; auto).
  case_bool; [reply_done|]. case_bool; [reply_done|].
  destruct (fs_pre_chunks (handle_at payload) (or_intror Hp)).
  apply handleChunk_handled; auto. by right; right.
Qed.

Lemma handleWriteData_handled payload c w :
  session_ok (sess c) → handles_ok c → fs_inv w → handled MsgWriteData c (handleWriteData payload c w).
Proof.
  intros Hok Hh Hinv. unfold handleWriteData, getWriteHandle. case_bool; [reply_done|].
  case_bool; [reply_done|]. destruct (ho_write c Hh) as [H1 H2]; [done|].
  apply handleChunk_handled; auto. by right; left.
Qed.

(** *** Dispatch *)

Lemma le_at_head b (rest : list byte) : le_at (b :: rest) 0 1 = b2z b.
Proof. change (b2z b + 256 * 0 = b2z b). lia. Qed.

Ltac need_tac H := intros; try (rewrite (proj2 (Z.eqb_neq _ _)) in H by assumption);
  rewrite (proj2 (Z.ltb_ge _ _)) in H by assumption; exact H.

Lemma dispatch_handled order b rest c w :
  session_ok (sess c) → handles_ok c → fs_inv w → request_ok (b :: rest) →
  match dispatch order (b2z b) (b :: rest) c w with
  | Some res => handled (b2z b) c res
  | None => expected_reply (b2z b) RAck = true
  end.
Proof.
  intros Hok Hh Hinv Hreq. unfold request_ok, request_op in Hreq. cbv zeta in Hreq.
  rewrite le_at_head in Hreq. remember (b :: rest) as payload eqn:Hp. clear Hp.
  remember (b2z b) as msg eqn:Hm. clear Hm. unfold dispatch.
  destruct (msg =? MsgOpenReq) eqn:E1; [apply Z.eqb_eq in E1 as ->; by apply handleOpen_handled|].
  destruct (msg =? MsgCloseReq) eqn:E2; [apply Z.eqb_eq in E2 as ->; apply handleClose_handled; auto; need_tac Hreq|].
  destruct (msg =? MsgReadReq) eqn:E3; [apply Z.eqb_eq in E3 as ->; apply handleRead_handled; auto; need_tac Hreq|].
  destruct (msg =? MsgWriteReq) eqn:E4; [apply Z.eqb_eq in E4 as ->; apply handleWriteReq_handled; auto; need_tac Hreq|].
  destruct (msg =? MsgWriteData) eqn:E5; [apply Z.eqb_eq in E5 as ->; by apply handleWriteData_handled|].
  destruct (msg =? MsgLseekReq) eqn:E6; [apply Z.eqb_eq in E6 as ->; apply handleLseek_handled; auto; need_tac Hreq|].
  destruct (msg =? MsgDreadReq) eqn:E7; [apply Z.eqb_eq in E7 as ->; apply handleDread_handled; auto; need_tac Hreq|].
  destruct (msg =? MsgGetstatReq) eqn:E8; [apply Z.eqb_eq in E8 as ->; by apply handleGetstat_handled|].
  destruct (msg =? MsgMkdirReq) eqn:E9; [apply Z.eqb_eq in E9 as ->; apply handlePathOp_handled; auto using fs_pre_mkdir|].
  destruct (msg =? MsgRemoveReq) eqn:E10; [apply Z.eqb_eq in E10 as ->; apply handlePathOp_handled; auto using fs_pre_remove|].
  destruct (msg =? MsgRmdirReq) eqn:E11; [apply Z.eqb_eq in E11 as ->; apply handlePathOp_handled; auto using fs_pre_rmdir|].
  destruct (msg =? MsgBreadReq) eqn:E12; [apply Z.eqb_eq in E12 as ->; apply handleBread_handled; auto; need_tac Hreq|].
  destruct (msg =? MsgBwriteReq) eqn:E13; [apply Z.eqb_eq in E13 as ->; apply handleBwriteReq_handled; auto; need_tac Hreq|].
  unfold expected_reply. by rewrite E1, E2, E3, E4, E5, E6, E7, E8, E9, E10, E11, E12, E13.
Qed.

(** A request is answered by exactly one reply, of its kind. *)
Lemma HandlePayload_handled order now payload c w :
  payload ≠ [] → session_ok (sess c) → handles_ok c → fs_inv w → request_ok payload →
  ∃ c' w' r, HandlePayload order now payload c w = Ok (c', w') ∧ fs_inv w' ∧ handles_ok c' ∧
    session_ok (sess c') ∧ expected_reply (le_at payload 0 1) r = true ∧ reply_fits r ∧
    send_reply r (sess c) = Ok (sess c').
Proof.
  intros Hne Hok Hh Hinv Hreq. destruct payload as [|b rest]; [done|]. rewrite le_at_head.
  pose proof (dispatch_handled order b rest c w Hok Hh Hinv Hreq) as Hd. unfold HandlePayload.
  destruct (dispatch _ _ _ _ _) as [res|].
  - destruct Hd as (st & c' & w' & r & -> & ? & [? ?] & ? & ? & ? & ?). rewrite bind_Ok, log_step.
    eexists _, w', r. split; [reflexivity|]. by split_and!.
  - eexists _, w, RAck. split; [reflexivity|]. destruct Hh. split_and!; try done.
    by apply (SendACK_ok true (sess c)).
Qed.

(** *** Peer reset and close *)

Definition mark_reset (e : cachedHandle) : cachedHandle :=
  mkCached (c_path e) (c_flag e) true (c_isDir e).

Lemma decide_elem_of_cons {A} (k h : Z) (l : list Z) (a b : A) :
  k ≠ h → (if decide (k ∈ h :: l) then a else b) = if decide (k ∈ l) then a else b.
Proof. intros Hne. repeat case_decide; try done; rewrite elem_of_cons in *; tauto. Qed.

Lemma ResetPeer_spec order c w :
  handles_ok c → fs_inv w →
  ∃ m w', ResetPeer order c w = Ok (c <| usedHandles := m |>, w') ∧ fs_inv w' ∧
    ∀ h, m !! h = (if decide (h ∈ order) then mark_reset else id) <$> usedHandles c !! h.
Proof.
  revert c w; induction order as [|h order IH]; intros c w Hh Hinv; cbn [ResetPeer].
  { exists (usedHandles c), w. split; [by destruct c|]. split; [done|]. intros h.
    rewrite decide_False by apply not_elem_of_nil. by destruct (usedHandles c !! h). }
  destruct (usedHandles c !! h) as [e|] eqn:He; last first.
  { destruct (IH c w Hh Hinv) as (m & w' & -> & Hinv' & Hm). exists m, w'.
    split; [done|]. split; [done|]. intros k. rewrite Hm.
    destruct (decide (k = h)) as [->|Hne]; [by rewrite He|].
    by rewrite decide_elem_of_cons by done. }
  destruct (ho_used c Hh h e He) as [Hpre Hclose].
  fs_step w as r w1 Hinv1 _; [done|].
  set (c1 := c <| usedHandles ::= _ |>).
  assert (handles_ok c1) as Hh1.
  { destruct Hh as [Hu Hw]. split; [|done]. intros k e'. unfold c1; simpl.
    destruct (decide (k = h)) as [->|Hne]; [done|]. rewrite lookup_insert_ne by done. apply Hu. }
  destruct (IH c1 w1 Hh1 Hinv1) as (m & w' & -> & Hinv' & Hm). exists m, w'.
  split; [done|]. split; [done|]. intros k. rewrite Hm. unfold c1; simpl.
  destruct (decide (k = h)) as [->|Hne].
  - rewrite lookup_insert_eq, He. rewrite (decide_True (P := h ∈ h :: order)) by by left.
    by case_decide.
  - rewrite lookup_insert_ne by done. by rewrite decide_elem_of_cons by done.
Qed.

(** Seeking the handles to their start in the order in which the map is visited. *)
Fixpoint fs_rewind_all (order : list Z) (w : W) : outcome W :=
  match order with
  | [] => Ok w
  | h :: order => '(_, w) ← fs_call (FS_Lseek h 0 0) w; fs_rewind_all order w
  end.

(** What a reset does to the file system is to rewind every handle of the peer. *)
Lemma ResetPeer_rewinds order c w c' w' :
  range_order order (usedHandles c) → ResetPeer order c w = Ok (c', w') → fs_rewind_all order w = Ok w'.
Proof.
  intros Hord. assert (∀ h, h ∈ order → is_Some (usedHandles c !! h)) as Hin.
  { intros h Hh. rewrite Hord in Hh. apply list_elem_of_fmap in Hh as ([k e] & -> & Hin).
    apply elem_of_map_to_list in Hin. by exists e. }
  clear Hord. revert c w Hin. induction order as [|h order IH]; intros c w Hin; cbn [ResetPeer fs_rewind_all].
  { by intros [= _ <-]. }
  destruct (Hin h) as [e He]; [by left|]. rewrite He. destruct (fs_call (FS_Lseek h 0 0) w) as [[r w1]| |]; [|done..].
  rewrite !bind_Ok. apply IH. intros k Hk. simpl. destruct (decide (k = h)) as [->|Hne].
  - rewrite lookup_insert_eq. by eexists.
  - rewrite lookup_insert_ne by done. apply Hin. by right.
Qed.

(** Closing the handles in the order in which the map is visited. *)
Fixpoint fs_close_all (order : list Z) (w : W) : outcome W :=
  match order with
  | [] => Ok w
  | h :: order => '(_, w) ← fs_call (FS_Close h) w; fs_close_all order w
  end.

(** Closing a connection is closing its handles, in any order, and its session. *)
Lemma Connection_Close_run order c w :
  range_order order (usedHandles c) →
  Connection_Close order c w =
    (w' ← fs_close_all order w; Ok (c <| usedHandles := ∅ |> <| sess ::= Close |>, w')).
Proof.
  unfold range_order. revert c w; induction order as [|h order IH]; intros c w Hord;
    cbn [Connection_Close fs_close_all].
  { symmetry in Hord. apply Permutation_nil_r, fmap_nil_inv in Hord.
    apply map_to_list_empty_iff in Hord. destruct c; simpl in *. by rewrite Hord. }
  assert (is_Some (usedHandles c !! h)) as [e He].
  { assert (h ∈ (map_to_list (usedHandles c)).*1) as ([k e] & -> & Hin)%list_elem_of_fmap
      by (rewrite <-Hord; by left).
    apply elem_of_map_to_list in Hin. by exists e. }
  rewrite He. destruct (fs_call (FS_Close h) w) as [[r w1]| |]; [|done|done].
  rewrite !bind_Ok. rewrite IH; [done|]. simpl.
  apply (Permutation_cons_inv (a := h)). rewrite Hord.
  rewrite <-(insert_delete_id (usedHandles c) h e He) at 1.
  by rewrite map_to_list_insert by apply lookup_delete_eq.
Qed.

Lemma Connection_Close_spec order c w :
  handles_ok c → fs_inv w → range_order order (usedHandles c) →
  ∃ w', Connection_Close order c w = Ok (c <| usedHandles := ∅ |> <| sess ::= Close |>, w') ∧ fs_inv w'.
Proof.
  unfold range_order. revert c w; induction order as [|h order IH]; intros c w Hh Hinv Hord;
    cbn [Connection_Close].
  { exists w. split; [|done]. symmetry in Hord. apply Permutation_nil_r, fmap_nil_inv in Hord.
    apply map_to_list_empty_iff in Hord. destruct c; simpl in *. by rewrite Hord. }
  assert (is_Some (usedHandles c !! h)) as [e He].
  { assert (h ∈ (map_to_list (usedHandles c)).*1) as ([k e] & -> & Hin)%list_elem_of_fmap
      by (rewrite <-Hord; by left).
    apply elem_of_map_to_list in Hin. by exists e. }
  rewrite He. destruct (ho_used c Hh h e He) as [Hpre Hclose].
  fs_step w as r w1 Hinv1 _; [done|].
  set (c1 := c <| usedHandles ::= _ |>).
  assert (handles_ok c1) as Hh1.
  { destruct Hh as [Hu Hw]. split; [|done]. intros k e' Hk. unfold c1 in Hk; simpl in Hk.
    apply lookup_delete_Some in Hk as [_ Hk]. by eapply Hu. }
  destruct (IH c1 w1 Hh1 Hinv1) as (w' & -> & Hinv'); [|by exists w'].
  unfold c1; simpl. apply (Permutation_cons_inv (a := h)). rewrite Hord.
  rewrite <-(insert_delete_id (usedHandles c) h e He) at 1.
  by rewrite map_to_list_insert by apply lookup_delete_eq.
Qed.
End Handled.
