(* ===== verification/UdpfsFrame.v ===== *)
(** * What the handlers leave alone

    A request changes the session, the handle cache and the handle being written of
    its connection; it neither starts nor stops the collection of metrics, and its
    verbosity stays as it was. *)
From stdpp Require Import gmap.
From S2P Require Import Prelude RdmaSession UdpfsProtocol UdpfsConnection.

(** The parts of a connection that are set when it is made. *)
Definition settings (c : Connection) : bool * bool := (bool_decide (is_Some (collector c)), c_verbose c).

Section Frame.
Context {W : Type} `{FS W}.

Definition keeps (c : Connection) (o : outcome (Z * Connection * W)) : Prop :=
  ∀ st c' w, o = Ok (st, c', w) → settings c' = settings c.

Lemma keeps_call {A} c (o : outcome A) k : (∀ a, keeps c (k a)) → keeps c (o ≫= k).
Proof. intros Hk st c' w Hr. apply bind_Ok_inv in Hr as (a & _ & Hr). by eapply Hk. Qed.

Lemma keeps_ret c st c' w : settings c' = settings c → keeps c (Ok (st, c', w)).
Proof. intros Hc ??? [= _ <- _]. exact Hc. Qed.

Lemma keeps_send c (send : outcome Connection) st w :
  (∀ c', send = Ok c' → settings c' = settings c) → keeps c (c ← send; Ok (st, c, w)).
Proof. intros Hs st' c' w' Hr. apply bind_Ok_inv in Hr as (c1 & Hc & Hr). injection Hr as _ <- _. by apply Hs. Qed.

Lemma SendData_settings p c c' : Connection_SendData p c = Ok c' → settings c' = settings c.
Proof. unfold Connection_SendData. intros Hr. apply bind_Ok_inv in Hr as (s & _ & Hr). by injection Hr as <-. Qed.

Lemma SendReadResult_settings n d c c' : SendReadResult n d c = Ok c' → settings c' = settings c.
Proof. unfold SendReadResult. intros Hr. apply bind_Ok_inv in Hr as (s & _ & Hr). by injection Hr as <-. Qed.

Lemma removeHandle_settings h c : settings (removeHandle h c) = settings c.
Proof. unfold removeHandle. simpl. by case_match. Qed.

Lemma SendOpenReply_settings h st c c' : SendOpenReply h st c = Ok c' → settings c' = settings c.
Proof. unfold SendOpenReply. apply SendData_settings. Qed.
Lemma SendCloseReply_settings n c c' : SendCloseReply n c = Ok c' → settings c' = settings c.
Proof. unfold SendCloseReply. apply SendData_settings. Qed.
Lemma SendLseekReply_settings p c c' : SendLseekReply p c = Ok c' → settings c' = settings c.
Proof. unfold SendLseekReply. apply SendData_settings. Qed.
Lemma SendDreadReply_settings n p st c c' : SendDreadReply n p st c = Ok c' → settings c' = settings c.
Proof. unfold SendDreadReply. apply SendData_settings. Qed.
Lemma SendGetstatReply_settings n st c c' : SendGetstatReply n st c = Ok c' → settings c' = settings c.
Proof. unfold SendGetstatReply. apply SendData_settings. Qed.
Lemma SendResultReplyOnly_settings n c c' : SendResultReplyOnly n c = Ok c' → settings c' = settings c.
Proof. unfold SendResultReplyOnly. apply SendData_settings. Qed.
Lemma SendWriteDone_settings n c c' : SendWriteDone n c = Ok c' → settings c' = settings c.
Proof. unfold SendWriteDone. by intros ->%SendData_settings. Qed.

(** The sends are told apart by their heads: unifying two of them would unfold the
    transport. *)
Ltac sends :=
  intros ? Hsend;
  lazymatch type of Hsend with
  | SendReadResult _ _ _ = _ => rewrite (SendReadResult_settings _ _ _ _ Hsend)
  | SendWriteDone _ _ = _ => rewrite (SendWriteDone_settings _ _ _ Hsend)
  | SendOpenReply _ _ _ = _ => rewrite (SendOpenReply_settings _ _ _ _ Hsend)
  | SendCloseReply _ _ = _ => rewrite (SendCloseReply_settings _ _ _ Hsend)
  | SendLseekReply _ _ = _ => rewrite (SendLseekReply_settings _ _ _ Hsend)
  | SendDreadReply _ _ _ _ = _ => rewrite (SendDreadReply_settings _ _ _ _ _ Hsend)
  | SendGetstatReply _ _ _ = _ => rewrite (SendGetstatReply_settings _ _ _ _ Hsend)
  | SendResultReplyOnly _ _ = _ => rewrite (SendResultReplyOnly_settings _ _ _ Hsend)
  end; first [assumption | reflexivity | by rewrite removeHandle_settings].

Ltac keep_step :=
  lazymatch goal with
  | |- keeps _ (Ok _) => apply keeps_ret; first [assumption | reflexivity]
  | |- keeps _ (fs_call _ _ ≫= _) => apply keeps_call; intros ?
  | |- keeps _ (_ ≫= λ c, Ok (_, c, _)) => apply keeps_send; sends
  | |- keeps _ (match ?x with _ => _ end) => destruct x
  end.
Ltac keep_go := cbv zeta; repeat (keep_step; cbv beta iota zeta).

Lemma handleChunk_keeps payload chunk h c c0 w : settings c = settings c0 → keeps c0 (handleChunk payload chunk h c w).
Proof. intros Hc. unfold handleChunk. keep_go. Qed.

Lemma handleOpen_keeps order payload c w : keeps c (handleOpen order payload c w).
Proof.
  unfold handleOpen. keep_step; [keep_step|]. cbv zeta. set (found := if negb _ then _ else _).
  assert (settings (snd found) = settings c) as Hc'.
  { unfold found, lookupHandle. by repeat case_match. }
  clearbody found. destruct found as [[h|] c1]; cbn [snd] in Hc'; keep_go.
Qed.

Lemma handleWriteReq_keeps payload c w : keeps c (handleWriteReq payload c w).
Proof. unfold handleWriteReq. keep_go. by apply handleChunk_keeps. Qed.

Lemma handleBwriteReq_keeps payload c w : keeps c (handleBwriteReq payload c w).
Proof. unfold handleBwriteReq. keep_go. by apply handleChunk_keeps. Qed.

Lemma handleWriteData_keeps payload c w : keeps c (handleWriteData payload c w).
Proof. unfold handleWriteData. keep_go. by apply handleChunk_keeps. Qed.

Lemma handleClose_keeps payload c w : keeps c (handleClose payload c w).
Proof. unfold handleClose. keep_go. Qed.
Lemma handleRead_keeps payload c w : keeps c (handleRead payload c w).
Proof. unfold handleRead. keep_go. Qed.
Lemma handleLseek_keeps payload c w : keeps c (handleLseek payload c w).
Proof. unfold handleLseek. keep_go. Qed.
Lemma handleDread_keeps payload c w : keeps c (handleDread payload c w).
Proof. unfold handleDread. keep_go. Qed.
Lemma handleGetstat_keeps payload c w : keeps c (handleGetstat payload c w).
Proof. unfold handleGetstat. keep_go. Qed.
Lemma handleBread_keeps payload c w : keeps c (handleBread payload c w).
Proof. unfold handleBread. keep_go. Qed.
Lemma handlePathOp_keeps op payload c w : keeps c (handlePathOp op payload c w).
Proof. unfold handlePathOp. keep_go. Qed.

Ltac by_handler :=
  lazymatch goal with
  | |- keeps _ (handleOpen _ _ _ _) => apply handleOpen_keeps
  | |- keeps _ (handleClose _ _ _) => apply handleClose_keeps
  | |- keeps _ (handleRead _ _ _) => apply handleRead_keeps
  | |- keeps _ (handleWriteReq _ _ _) => apply handleWriteReq_keeps
  | |- keeps _ (handleWriteData _ _ _) => apply handleWriteData_keeps
  | |- keeps _ (handleLseek _ _ _) => apply handleLseek_keeps
  | |- keeps _ (handleDread _ _ _) => apply handleDread_keeps
  | |- keeps _ (handleGetstat _ _ _) => apply handleGetstat_keeps
  | |- keeps _ (handleBread _ _ _) => apply handleBread_keeps
  | |- keeps _ (handleBwriteReq _ _ _) => apply handleBwriteReq_keeps
  | |- keeps _ _ => apply handlePathOp_keeps
  end.

Lemma dispatch_keeps order m payload c w o : dispatch order m payload c w = Some o → keeps c o.
Proof.
  unfold dispatch. do 13 (destruct (m =? _); [intros [= <-]; by_handler|]). done.
Qed.

Lemma HandlePayload_settings order now payload c w c' w' :
  HandlePayload order now payload c w = Ok (c', w') → settings c' = settings c.
Proof.
  destruct payload as [|x rest]; [by intros [= <- _]|]. unfold HandlePayload. cbv zeta.
  destruct (dispatch order (b2z x) (x :: rest) c w) as [o|] eqn:Hd; [|by intros [= <- _]].
  intros Hr. apply bind_Ok_inv in Hr as ([[st c1] w1] & Ho & Hr). rewrite log_step in Hr. injection Hr as <- _.
  rewrite <- (dispatch_keeps _ _ _ _ _ _ Hd _ _ _ Ho). unfold settings. simpl. by destruct (collector c1).
Qed.

Lemma ResetPeer_settings order c w c' w' : ResetPeer order c w = Ok (c', w') → settings c' = settings c.
Proof.
  revert c w. induction order as [|h order IH]; intros c w Hr; cbn [ResetPeer] in Hr; [by injection Hr as <- _|].
  destruct (usedHandles c !! h) as [e|]; [|by eapply IH].
  apply bind_Ok_inv in Hr as ([r w1] & _ & Hr). by apply IH in Hr.
Qed.
End Frame.
