(* ===== verification/UdpfsProperties.v ===== *)
(** * The properties of the UDPFS protocol layer

    Requests and their replies, the handle cache across a peer reset, the wire
    formats as a client reads them, and the metrics. *)
From stdpp Require Import gmap.
From S2P Require Import Prelude GoFloat RdmaProtocol RdmaSession RdmaPack RdmaInvariant RdmaTimer RdmaReceive RdmaStep.
From S2P Require Import UdpfsProtocol UdpfsConnection UdpfsContract.

(** ** A small file system for the witnesses

    It opens everything as handle 1, and its reads give bytes [7]. *)
Module Echo.
Definition echo_result {R} (op : fs_op R) : R :=
  match op in fs_op R return R with
  | FS_Open _ _ _ => (1, noStat, None)
  | FS_Close _ => None
  | FS_Read _ size _ => (i32 size, replicate (Z.to_nat size) (z2b 7), None)
  | FS_WriteStart _ => None
  | FS_WriteChunk _ i _ t _ => (t <=? i + 1, None)
  | FS_CompleteWrite _ => (4, None)
  | FS_Lseek _ off _ => (off, None)
  | FS_Dread _ => (true, [z2b 97], noStat, None)
  | FS_Getstat _ => (noStat, Some ErrNotExist)
  | FS_Mkdir _ => None
  | FS_Remove _ => Some ErrPermission
  | FS_Rmdir _ => None
  | FS_Bread _ _ _ _ => ([], None)
  | FS_BwriteStart _ _ _ => None
  end.

(** Its state is the number of calls. *)
#[global] Instance echo_fs : FS nat := λ R op w, Ok (echo_result op, S w).

#[global] Instance echo_contract : FSContract nat.
Proof.
  refine {| fs_inv := λ _, True; fs_pre := λ _ _, True |}; try done.
  intros R op w _ _. exists (echo_result op), (S w). split; [done|]. split; [done|].
  destruct op; simpl; try done; repeat split; try apply noStat_wf; vm_compute; congruence.
Defined.

Definition conn : Connection := NewConnection NewSession true true.

Lemma conn_ok : session_ok (sess conn) ∧ handles_ok conn.
Proof.
  split; [|by split]. destruct (run_ok [OpSetResetCallback] NewSession) as (s & Hrun & Hok);
    [exact NewSession_ok|by repeat constructor|]. by injection Hrun as <-.
Qed.
End Echo.

(** ** Requests *)

(** C8: over any file system that keeps the interface's contract, a request on a
    connection that the contract accepts ([request_ok]: its handle is in the table and
    its size within the buffer) is handled without a panic and answered by exactly one
    reply, of the kind that belongs to the request and of a size that its packets can
    carry: the session after it is the session before it with that reply sent, the
    file system keeps its invariant, and the connection still holds only handles that
    the file system accepts. *)
Theorem request_answered_once {W} `{FSContract W} order now payload c w :
  payload ≠ [] → session_ok (sess c) → handles_ok c → fs_inv w → request_ok payload →
  ∃ c' w' r, HandlePayload order now payload c w = Ok (c', w') ∧ fs_inv w' ∧ handles_ok c' ∧
    session_ok (sess c') ∧ expected_reply (le_at payload 0 1) r = true ∧ reply_fits r ∧
    send_reply r (sess c) = Ok (sess c').
Proof. exact (HandlePayload_handled order now payload c w). Qed.

(** An OPEN_REQ for reading: flags 1, path "a". *)
Definition open_a : list byte := map z2b [16; 0; 1; 0; 0; 0; 0; 0; 97].

Lemma request_answered_once_witness :
  ∃ c' w' r, HandlePayload [] 0 open_a Echo.conn 0%nat = Ok (c', w') ∧
    expected_reply MsgOpenReq r = true ∧ send_reply r (sess Echo.conn) = Ok (sess c').
Proof.
  destruct Echo.conn_ok as [Hs Hh].
  destruct (request_answered_once [] 0 open_a Echo.conn 0%nat) as (c' & w' & r & H1 & _ & _ & _ & H2 & _ & H3);
    [done|exact Hs|exact Hh|done|done|].
  exists c', w', r. split; [exact H1|]. split; [exact H2|exact H3].
Defined.

(** ** Peer reset and close *)

Section Peers.
Context {W : Type} `{HW : FSContract W}.

(** Closing a connection closes every handle its peer has opened, each once,
    in whatever order the map of handles is visited, then closes the session; the
    connection has no handles left. *)
Theorem close_closes_every_handle order c w :
  range_order order (usedHandles c) →
  Connection_Close order c w =
    (w' ← fs_close_all order w; Ok (c <| usedHandles := ∅ |> <| sess ::= Close |>, w')).
Proof. exact (Connection_Close_run order c w). Qed.

(** What the cache lookup finds: an entry of a handle that a reset has marked. *)
Lemma lookupHandle_spec order p f (c : Connection) :
  match lookupHandle order p f c with
  | (Some h, c') => ∃ e, usedHandles c !! h = Some e ∧ c_reset e = true ∧ c_path e = p ∧ c_flag e = f ∧
      c' = c <| usedHandles ::= alter (λ e, mkCached (c_path e) (c_flag e) false (c_isDir e)) h |>
  | (None, c') => c' = c ∧ ∀ h e, h ∈ order → usedHandles c !! h = Some e →
      ¬ (c_reset e = true ∧ c_path e = p ∧ c_flag e = f)
  end.
Proof.
  unfold lookupHandle. cbv zeta. lazymatch goal with |- context [List.find ?g order] => set (matches := g) end.
  destruct (List.find matches order) as [h|] eqn:Hf.
  - apply find_some in Hf as [_ Hf]. unfold matches in Hf.
    destruct (usedHandles c !! h) as [e|] eqn:He; [|done]. bool_to_prop. exists e.
    by rewrite bool_decide_eq_true in *.
  - split; [done|]. intros h e Hin He (H1 & H2 & H3).
    apply list_elem_of_In, (find_none _ _ Hf) in Hin. unfold matches in Hin.
    by rewrite He, H1, H2, H3, bool_decide_eq_true_2, Z.eqb_refl in Hin.
Qed.

Lemma send_reply_data p s : send_reply (RData p) s = SendData p s.
Proof. reflexivity. Qed.

(** An open that the cache answers. *)
Lemma handleOpen_cached order payload c c2 (w : W) h s' :
  8 <= zlen payload → le_at payload 1 1 = 0 →
  lookupHandle order (path_at 8 payload) (udpfsFlagsToOSFlags (le_at payload 2 2)) c = (Some h, c2) →
  SendData (PackOpenReply h noStat) (sess c2) = Ok s' →
  handleOpen order payload c w = Ok (0, c2 <| sess := s' |>, w).
Proof.
  intros Hlen Hdir Hl Hs. unfold handleOpen. rewrite (proj2 (Z.ltb_ge _ _)), Hdir by done.
  rewrite andb_false_r. cbn [negb]. rewrite Hl. unfold SendOpenReply, Connection_SendData.
  by rewrite Hs, !bind_Ok.
Qed.

(** C34: when its peer resets, every handle of the peer is rewound: what the reset
    does to the file system is one seek to the start for each of them.  And a file
    that the peer had open is not opened again: an OPEN_REQ for the same path and flags
    is answered with a handle that was open for them, the file system is not called,
    and the handle is in use again.  This holds whatever order the map of handles is
    visited in. *)
Theorem reopen_after_reset order order' payload c w h0 e0 :
  session_ok (sess c) → handles_ok c → fs_inv w →
  range_order order (usedHandles c) → range_order order' (usedHandles c) →
  8 <= zlen payload → le_at payload 1 1 = 0 →
  usedHandles c !! h0 = Some e0 → c_path e0 = path_at 8 payload →
  c_flag e0 = udpfsFlagsToOSFlags (le_at payload 2 2) →
  ∃ c1 w1 h e c2,
    ResetPeer order c w = Ok (c1, w1) ∧ fs_rewind_all order w = Ok w1 ∧
    handleOpen order' payload c1 w1 = Ok (0, c2, w1) ∧ usedHandles c !! h = Some e ∧ c_path e = path_at 8 payload ∧
    c_flag e = udpfsFlagsToOSFlags (le_at payload 2 2) ∧
    send_reply (RData (PackOpenReply h noStat)) (sess c) = Ok (sess c2) ∧
    usedHandles c2 !! h = Some (mkCached (c_path e) (c_flag e) false (c_isDir e)).
Proof.
  intros Hok Hh Hinv Hord Hord' Hlen Hdir He0 Hp0 Hf0.
  destruct (ResetPeer_spec order c w Hh Hinv) as (m & w1 & Hreset & _ & Hm).
  assert (∀ k e, usedHandles c !! k = Some e → m !! k = Some (mark_reset e)) as Hmark.
  { intros k e Hk. rewrite Hm, decide_True, Hk; [done|]. rewrite Hord.
    apply list_elem_of_fmap. exists (k, e). by rewrite elem_of_map_to_list. }
  set (c1 := c <| usedHandles := m |>) in *.
  assert (∀ k e, m !! k = Some e → ∃ e', usedHandles c !! k = Some e' ∧ e = mark_reset e') as Hback.
  { intros k e Hk. pose proof Hk as Hk'. rewrite Hm in Hk'. apply fmap_Some in Hk' as (e' & He' & _).
    exists e'. split; [done|]. rewrite (Hmark _ _ He') in Hk. by injection Hk. }
  pose proof (lookupHandle_spec order' (path_at 8 payload) (udpfsFlagsToOSFlags (le_at payload 2 2)) c1) as Hl.
  destruct (lookupHandle order' _ _ c1) as [[k|] c2] eqn:Hlk; last first.
  { destruct Hl as [_ Hl]. exfalso. apply (Hl h0 (mark_reset e0)); [|by apply Hmark|done].
    rewrite Hord'. apply list_elem_of_fmap. exists (h0, e0). by rewrite elem_of_map_to_list. }
  destruct Hl as (e' & He' & _ & Hpath & Hflag & ->).
  destruct (Hback k e' He') as (e & Hin & ->). simpl in Hpath, Hflag.
  destruct (send_reply_ok (RData (PackOpenReply k noStat)) (sess c) Hok) as (s' & Hsend & _).
  { unfold reply_fits, PackOpenReply. autorewrite with golen. vm_compute. congruence. }
  set (c2 := c1 <| usedHandles ::= alter (λ e, mkCached (c_path e) (c_flag e) false (c_isDir e)) k |>) in *.
  exists c1, w1, k, e, (c2 <| sess := s' |>).
  split; [exact Hreset|]. split; [by eapply ResetPeer_rewinds|]. assert (sess c2 = sess c) as Hs2 by reflexivity.
  split; [apply (handleOpen_cached order' payload c1 c2 w1 k s' Hlen Hdir Hlk); by rewrite Hs2, <-send_reply_data|].
  split; [exact Hin|]. split; [exact Hpath|]. split; [exact Hflag|]. split; [exact Hsend|].
  change (alter (λ e, mkCached (c_path e) (c_flag e) false (c_isDir e)) k m !! k =
            Some (mkCached (c_path e) (c_flag e) false (c_isDir e))).
  by rewrite lookup_alter_eq, (Hmark _ _ Hin).
Qed.
End Peers.

(** A connection whose peer has opened "a" as handle 1. *)
Definition conn_a : Connection :=
  addHandle 1 (map z2b [97]) O_RDONLY false Echo.conn.

Lemma conn_a_order : range_order [1] (usedHandles conn_a).
Proof. unfold range_order. change (map_to_list (usedHandles conn_a)).*1 with [1]. done. Qed.

Lemma close_closes_every_handle_witness :
  Connection_Close [1] conn_a 0%nat =
    Ok (conn_a <| usedHandles := ∅ |> <| sess ::= Close |>, 1%nat) ∧ usedHandles conn_a !! 1 ≠ None.
Proof.
  split; [|done]. rewrite (close_closes_every_handle [1] conn_a 0%nat conn_a_order). reflexivity.
Defined.

Lemma reopen_after_reset_witness :
  ∃ c1 w1 c2, ResetPeer [1] conn_a 0%nat = Ok (c1, w1) ∧ fs_rewind_all [1] 0%nat = Ok w1 ∧ handleOpen [1] open_a c1 w1 = Ok (0, c2, w1).
Proof.
  destruct Echo.conn_ok as [Hs Hh].
  assert (handles_ok conn_a) as Hh' by by apply handles_add.
  assert (8 <= zlen open_a) as Hlen by (vm_compute; discriminate).
  destruct (reopen_after_reset [1] [1] open_a conn_a 0%nat 1 (mkCached (map z2b [97]) O_RDONLY false false)
    Hs Hh' I conn_a_order conn_a_order Hlen eq_refl eq_refl eq_refl eq_refl)
    as (c1 & w1 & h & e & c2 & H1 & H2 & H3 & _).
  exists c1, w1, c2. split; [exact H1|]. split; [exact H2|exact H3].
Defined.

(** ** Wire formats, as a client reads them *)

(** What a client reads of the replies with a stat: the result or the handle, and
    the fields at their offsets. *)
Definition client_getstat (b : list byte) : Z * StatInfo :=
  (i32 (le_at b 4 4),
   mkStat (le_at b 8 4) (le_at b 12 4) (le_at b 16 4) (le_at b 20 4)
     (sub_bytes b 24 8) (sub_bytes b 32 8) (sub_bytes b 40 8)).

(** OPEN_REPLY has no attributes and no access time. *)
Definition client_open (b : list byte) : Z * (Z * Z * Z * list byte * list byte) :=
  (i32 (le_at b 4 4), (le_at b 8 4, le_at b 12 4, le_at b 16 4, sub_bytes b 20 8, sub_bytes b 28 8)).

Definition client_dread (b : list byte) : Z * list byte * StatInfo :=
  (fst (client_getstat b), sub_bytes b 48 (Z.to_nat (le_at b 2 2)), snd (client_getstat b)).

Definition client_lseek (b : list byte) : Z := i64 (Z.lor (Z.shiftl (le_at b 8 4) 32) (le_at b 4 4)).

Lemma le_get_put4 z : 0 <= z < 2 ^ 32 → le_get (le_put 4 z) = z.
Proof. intros Hz. apply (le_get_put_small 4). exact Hz. Qed.

(** C37: what a client reads back of a stat.  A GETSTAT_REPLY carries the result and
    every field; an OPEN_REPLY carries the handle, the mode, the two halves of the size,
    and the times of creation and modification, and neither the attributes nor the time
    of access.  An OPEN_REPLY is 44 bytes long, the last eight of them zero and without
    a meaning: the comment of the code and the dissector end it after 36. *)
Theorem stat_replies_roundtrip result st :
  - 2 ^ 31 <= result < 2 ^ 31 → stat_wf st →
  client_getstat (PackGetstatReply result st) = (result, st) ∧
  client_open (PackOpenReply result st) = (result, (Mode st, Size st, Hisize st, Ctime st, Mtime st)) ∧
  zlen (PackGetstatReply result st) = 48 ∧ zlen (PackOpenReply result st) = 44 ∧
  sub_bytes (PackOpenReply result st) 36 8 = buffer 8.
Proof.
  intros Hres Hst. rewrite PackGetstatReply_layout, PackOpenReply_layout by done.
  destruct st as [m a s h c at_ mt]. destruct Hst as (Hm & Ha & Hs & Hh & Hc & Hat & Hmt).
  simpl in *. explicit8 c. explicit8 at_. explicit8 mt. split_and!; try done.
  - unfold client_getstat.
    lazymatch goal with |- (i32 (le_at ?b 4 4), mkStat (le_at ?b 8 4) (le_at ?b 12 4) (le_at ?b 16 4) (le_at ?b 20 4) _ _ _) = _ =>
      change (le_at b 4 4) with (le_get (le_put 4 (u32 result)));
      change (le_at b 8 4) with (le_get (le_put 4 m)); change (le_at b 12 4) with (le_get (le_put 4 a));
      change (le_at b 16 4) with (le_get (le_put 4 s)); change (le_at b 20 4) with (le_get (le_put 4 h)) end.
    pose proof (u32_bound result). rewrite !le_get_put4, i32_u32 by lia. done.
  - unfold client_open.
    lazymatch goal with |- (i32 (le_at ?b 4 4), (le_at ?b 8 4, le_at ?b 12 4, le_at ?b 16 4, _, _)) = _ =>
      change (le_at b 4 4) with (le_get (le_put 4 (u32 result)));
      change (le_at b 8 4) with (le_get (le_put 4 m)); change (le_at b 12 4) with (le_get (le_put 4 s));
      change (le_at b 16 4) with (le_get (le_put 4 h)) end.
    pose proof (u32_bound result). rewrite !le_get_put4, i32_u32 by lia. done.
Qed.

Definition some_stat : StatInfo :=
  mkStat FIO_S_IFREG 0 4096 1 (map z2b [0; 1; 2; 3; 4; 5; 6; 7]) zero8 (map z2b [0; 1; 2; 3; 4; 5; 230; 7]).

Lemma stat_replies_roundtrip_witness :
  client_getstat (PackGetstatReply (-2) some_stat) = (-2, some_stat).
Proof. apply (stat_replies_roundtrip (-2) some_stat); [lia|by vm_compute]. Defined.

(** A DREAD_REPLY for an entry carries the result, the stat and the name: a
    client that takes the length at offset 2 and the bytes from offset 48 on gets
    exactly the name, which is followed by a NUL and padding to four bytes; the
    reply for the end of a directory is the bare 48-byte header. *)
Theorem dread_reply_roundtrip name st :
  stat_wf st → 0 < zlen name < 2 ^ 16 →
  client_dread (PackDreadReply 1 name st) = (1, name, st) ∧
  zlen (PackDreadReply 1 name st) = 48 + pad4 (zlen name + 1) ∧
  sub_bytes (PackDreadReply 1 name st) (48 + length name) 1 = [z2b 0] ∧
  zlen (PackDreadReply 0 name st) = 48.
Proof.
  intros Hst Hname. rewrite !PackDreadReply_layout by done.
  pose proof (zlen_stat_bytes st Hst) as Hsb. change (0 <? 1) with true. change (0 <? 0) with false. cbv iota.
  destruct st as [m a s h c at_ mt]. destruct Hst as (Hm & Ha & Hs & Hh & Hc & Hat & Hmt).
  simpl in Hm, Ha, Hs, Hh, Hc, Hat, Hmt. explicit8 c. explicit8 at_. explicit8 mt.
  assert (name_field name = name ++ [z2b 0] ++
            replicate (Z.to_nat (pad4 (zlen name + 1) - (zlen name + 1))) (z2b 0)) as Hnf.
  { destruct name as [|x name]; [unfold zlen in Hname; simpl in Hname; lia|]. unfold name_field. cbv zeta.
    rewrite zlen_app, <-app_assoc. done. }
  rewrite Hnf. set (sb := stat_bytes _) in *. pose proof (pad4_bounds (zlen name + 1)) as Hpad.
  unfold client_dread.
  set (pre := [z2b MsgDreadReply; z2b 0] ++ le_put 2 (u16 (zlen name)) ++ le_put 4 (u32 1) ++ sb).
  set (tail := replicate _ _).
  replace ([z2b MsgDreadReply; z2b 0] ++ le_put 2 (u16 (zlen name)) ++ le_put 4 (u32 1) ++
           sb ++ name ++ [z2b 0] ++ tail) with (pre ++ name ++ [z2b 0] ++ tail)
    by (unfold pre; by rewrite <-!app_assoc).
  assert (length pre = 48%nat) as Hpre.
  { unfold pre. rewrite !length_app, !length_le_put. unfold zlen in Hsb. simpl length. lia. }
  split; [|split; [|split]].
  - assert (le_at (pre ++ name ++ [z2b 0] ++ tail) 2 2 = zlen name) as Hlen.
    { change (le_get (le_put 2 (u16 (zlen name))) = zlen name). rewrite (le_get_put_small 2).
      - unfold u16. rewrite Z.mod_small; lia.
      - unfold u16. apply Z.mod_pos_bound. lia. }
    assert (client_getstat (pre ++ name ++ [z2b 0] ++ tail) =
              (1, mkStat m a s h [b; b0; b1; b2; b3; b4; b5; b6] [b7; b8; b9; b10; b11; b12; b13; b14]
                   [b15; b16; b17; b18; b19; b20; b21; b22])) as ->.
    { unfold client_getstat. set (all := pre ++ _).
      change (le_at all 4 4) with (le_get (le_put 4 (u32 1))).
      change (le_at all 8 4) with (le_get (le_put 4 m)). change (le_at all 12 4) with (le_get (le_put 4 a)).
      change (le_at all 16 4) with (le_get (le_put 4 s)). change (le_at all 20 4) with (le_get (le_put 4 h)).
      rewrite !le_get_put4 by (done || lia). reflexivity. }
    rewrite Hlen. cbn [fst snd]. unfold sub_bytes. rewrite <-Hpre, drop_app_length.
    unfold zlen. by rewrite Nat2Z.id, take_app_length.
  - rewrite !zlen_app. change (zlen [z2b 0]) with 1. unfold zlen at 1. rewrite Hpre.
    unfold tail, zlen at 2. rewrite length_replicate. lia.
  - unfold sub_bytes. replace (48 + length name)%nat with (length (pre ++ name)) by (rewrite length_app; lia).
    by rewrite app_assoc, drop_app_length.
  - rewrite app_nil_r, !zlen_app, Hsb. unfold zlen. by rewrite !length_le_put.
Qed.

Lemma dread_reply_roundtrip_witness :
  client_dread (PackDreadReply 1 (map z2b [97; 98; 99]) some_stat) = (1, map z2b [97; 98; 99], some_stat).
Proof. apply (dread_reply_roundtrip (map z2b [97; 98; 99]) some_stat); [by vm_compute|by vm_compute]. Defined.

(** 64-bit file positions survive the wire in both directions: a client that
    splits an offset into two words in an LSEEK_REQ (or a sector number in a BREAD
    or BWRITE request) has the file system called with that offset, and it reads
    back from LSEEK_REPLY the position that the file system returned; the error
    position -1 comes back as -1. *)
Theorem position_roundtrip pre offset rest position :
  - 2 ^ 63 <= offset < 2 ^ 63 → 0 <= position < 2 ^ 63 →
  int64_at (pre ++ le_put 4 (u32 offset) ++ le_put 4 (u32 (Z.shiftr offset 32)) ++ rest) (length pre) = offset ∧
  client_lseek (PackLseekReply position) = position ∧ client_lseek (PackLseekReply (-1)) = -1.
Proof.
  intros Ho Hp. split; [|split; [|by vm_compute]].
  - unfold int64_at, le_at, sub_bytes. set (lo := u32 offset). set (hi := u32 (Z.shiftr offset 32)).
    replace (length pre + 4)%nat with (length (pre ++ le_put 4 lo)) by (rewrite length_app, length_le_put; done).
    rewrite app_assoc at 1. rewrite drop_app_length, drop_app_length.
    rewrite !take_app_length' by (by rewrite length_le_put).
    rewrite !le_get_put4 by apply u32_bound. rewrite Z.lor_comm, Z.shiftl_mul_pow2 by done.
    assert (i64 (hi * 2 ^ 32) = Z.shiftl (offset / 2 ^ 32) 32) as ->.
    { rewrite Z.shiftl_mul_pow2 by done. unfold hi, i64, u32. rewrite shiftr_div by done. zlia. }
    rewrite lor_shiftl_add by (try done; apply u32_bound). unfold lo, u32. zlia.
  - unfold PackLseekReply. rewrite (proj2 (Z.ltb_ge position 0)) by lia.
    rewrite land_u32, shiftr_div by done. unfold client_lseek.
    lazymatch goal with |- context [le_at ?b 8 4] =>
      change (le_at b 8 4) with (le_get (le_put 4 (u32 (position / 2 ^ 32))));
      change (le_at b 4 4) with (le_get (le_put 4 (u32 (position mod 4294967296)))) end.
    rewrite !le_get_put4 by apply u32_bound. rewrite Z.lor_comm.
    rewrite lor_shiftl_add by (try done; apply u32_bound). unfold u32. rewrite i64_small; zlia.
Qed.

Lemma position_roundtrip_witness :
  int64_at (le_put 4 (u32 (-512)) ++ le_put 4 (u32 (Z.shiftr (-512) 32)) ++ []) 0 = -512 ∧
  client_lseek (PackLseekReply 5000000000) = 5000000000.
Proof.
  destruct (position_roundtrip [] (-512) [] 5000000000) as (H1 & H2 & _); [lia|lia|]. split; [exact H1|exact H2].
Defined.

(** ** Stat and flags *)

(** What a client decodes of a stat time. *)
Definition client_time (b : list byte) : option civil :=
  match b with
  | [_; s; m; h; d; mo; ylo; yhi] =>
      Some (mkCivil (b2z s) (b2z m) (b2z h) (b2z d) (b2z mo) (b2z ylo + 256 * b2z yhi))
  | _ => None
  end.

(** The ranges of a [time.Time]'s fields, and a year that fits 16 bits. *)
Definition civil_ok (t : civil) : Prop :=
  0 <= Second t < 60 ∧ 0 <= Minute t < 60 ∧ 0 <= Hour t < 24 ∧ 1 <= Day t <= 31 ∧
  1 <= Month t <= 12 ∧ 0 <= Year t < 2 ^ 16.

(** The stat of a file carries its size and modification time exactly: the two
    size words give back the 64-bit size, each of the three times decodes to the
    modification time, and the mode tells regular files from directories. *)
Theorem file_stat_roundtrip fi :
  0 <= Size_ fi < 2 ^ 63 → civil_ok (ModTime fi) →
  let st := StatInfoFromFile fi in
  Size st + 2 ^ 32 * Hisize st = Size_ fi ∧ client_time (Mtime st) = Some (ModTime fi) ∧
  Ctime st = Mtime st ∧ Atime st = Mtime st ∧
  (IsRegular fi = true → Mode st = FIO_S_IFREG) ∧
  (IsRegular fi = false → IsDir fi = true → Mode st = FIO_S_IFDIR).
Proof.
  destruct fi as [r d sz [s m h dd mo y]]. unfold civil_ok, StatInfoFromFile.
  cbn [IsRegular IsDir Size_ ModTime Size Hisize Mtime Ctime Atime Mode Second Minute Hour Day Month Year].
  intros Hsz (H1 & H2 & H3 & H4 & H5 & H6). split; [|split; [|by destruct r, d]].
  - rewrite land_u32, shiftr_div by done. unfold u32, u64. zlia.
  - unfold EncodeTime, client_time. cbn [Second Minute Hour Day Month Year]. rewrite !b2z_z2b.
    change 0xFF with (2 ^ 8 - 1). rewrite land_mask, shiftr_div by done. do 2 f_equal; zlia.
Qed.

Lemma file_stat_roundtrip_witness :
  let st := StatInfoFromFile (mkFileInfo true false 5000000000 (mkCivil 5 4 3 2 1 2024)) in
  Size st + 2 ^ 32 * Hisize st = 5000000000 ∧ client_time (Mtime st) = Some (mkCivil 5 4 3 2 1 2024).
Proof.
  destruct (file_stat_roundtrip (mkFileInfo true false 5000000000 (mkCivil 5 4 3 2 1 2024)))
    as (H1 & H2 & _); [cbn; lia|cbn; unfold civil_ok; cbn; lia|]. split; [exact H1|exact H2].
Defined.

(** A single bit. *)
Lemma land_bit a n : 0 <= n → (0 <? Z.land a (2 ^ n)) = Z.testbit a n.
Proof.
  intros Hn. destruct (Z.testbit a n) eqn:Hb.
  - assert (Z.land a (2 ^ n) = 2 ^ n) as ->; [|by apply Z.ltb_lt, Z.pow_pos_nonneg].
    apply Z.bits_inj'. intros i Hi. rewrite Z.land_spec, Z.pow2_bits_eqb by done.
    destruct (Z.eqb_spec n i) as [->|]; [by rewrite Hb|apply andb_false_r].
  - assert (Z.land a (2 ^ n) = 0) as ->; [|done].
    apply Z.bits_inj'. intros i Hi. rewrite Z.land_spec, Z.pow2_bits_eqb, Z.bits_0 by done.
    destruct (Z.eqb_spec n i) as [->|]; [by rewrite Hb|apply andb_false_r].
Qed.

(** The open flags of a request mean what their bits say: bits 0 and 1 are
    read and write access; without write access nothing else counts and the file is
    opened read-only; with it, bit 8 appends, bit 9 creates and bit 10 truncates. *)
Theorem open_flags_meaning flags :
  udpfsFlagsToOSFlags flags =
    if Z.testbit flags 1 then
      (if Z.testbit flags 0 then O_RDWR else O_WRONLY) +
      (if Z.testbit flags 8 then O_APPEND else 0) + (if Z.testbit flags 9 then O_CREATE else 0) +
      (if Z.testbit flags 10 then O_TRUNC else 0)
    else O_RDONLY.
Proof.
  unfold udpfsFlagsToOSFlags. cbv zeta.
  change Flag_Append with (2 ^ 8). change Flag_Create with (2 ^ 9). change Flag_Truncate with (2 ^ 10).
  rewrite !land_bit, land_3 by done.
  assert (flags mod 4 = (if Z.testbit flags 0 then 1 else 0) + (if Z.testbit flags 1 then 2 else 0)) as ->.
  { pose proof (Z.testbit_spec' flags 0 ltac:(done)) as H0.
    pose proof (Z.testbit_spec' flags 1 ltac:(done)) as H1.
    destruct (Z.testbit flags 0), (Z.testbit flags 1); cbn [Z.b2z] in *; zlia. }
  by destruct (Z.testbit flags 0), (Z.testbit flags 1), (Z.testbit flags 8), (Z.testbit flags 9),
    (Z.testbit flags 10).
Qed.

(** ** Throughput

    The averages are too small: the number of observed seconds starts with one in
    which nothing has been transferred yet.  After one second with a read of 1000
    bytes, the first request of the next second makes the average 500. *)
Lemma first_second_halved :
  avgThroughputTx (logMetric 11 MsgReadReq 1 (logMetric 10 MsgReadReq 1000 newMetricCollector)) = float64_of 500.
Proof. vm_compute. reflexivity. Qed.

(** ** Write data without a write *)

(** A WRITE_DATA without a write in progress is acknowledged without calling
    the file system; its status is the positive number 9, so the metrics count nine
    received bytes and no error. *)
Theorem stray_write_data {W} `{FS W} order now payload c w m :
  8 <= zlen payload → le_at payload 0 1 = MsgWriteData → activeWriteHandle c = -1 →
  collector c = Some m →
  ∃ c' m', HandlePayload order now payload c w = Ok (c', w) ∧
    sess c' = SendACK true (sess c) ∧ usedHandles c' = usedHandles c ∧
    collector c' = Some m' ∧ errorCounts m' = errorCounts m ∧ bytesRx m' = i64 (bytesRx m + 9) ∧
    commandCounts m' = count MsgWriteData (commandCounts m).
Proof.
  intros Hlen Hmsg Hw Hm. destruct payload as [|b rest]; [by unfold zlen in Hlen|].
  rewrite le_at_head in Hmsg. unfold HandlePayload. rewrite Hmsg.
  change (dispatch order MsgWriteData (b :: rest) c w) with (Some (handleWriteData (b :: rest) c w)).
  unfold handleWriteData, getWriteHandle. rewrite (proj2 (Z.ltb_ge _ _)), Hw by done.
  change (-1 =? -1) with true. cbv iota. rewrite bind_Ok, log_step.
  eexists _, (logMetric now MsgWriteData EBADF m). split; [reflexivity|].
  split; [done|]. split; [done|]. split.
  - change (logMetric now MsgWriteData EBADF <$> collector c = Some (logMetric now MsgWriteData EBADF m)).
    by rewrite Hm.
  - unfold logMetric. change (EBADF <? 0) with false. change (0 <? EBADF) with true. cbv iota.
    change ((MsgWriteData =? MsgReadReq) || (MsgWriteData =? MsgBreadReq)) with false. cbv iota.
    change ((MsgWriteData =? MsgWriteReq) || (MsgWriteData =? MsgWriteData) || (MsgWriteData =? MsgBwriteReq))
      with true. cbv iota zeta. unfold updateThroughput. cbn [negb]. by repeat case_match.
Qed.

Definition write_data : list byte := map z2b [23; 0; 0; 0; 0; 0; 1; 0].

Lemma stray_write_data_witness :
  ∃ c' m', HandlePayload [] 100 write_data Echo.conn 0%nat = Ok (c', 0%nat) ∧ collector c' = Some m' ∧
    bytesRx m' = 9.
Proof.
  destruct (stray_write_data [] 100 write_data Echo.conn 0%nat newMetricCollector)
    as (c' & m' & H1 & _ & _ & H2 & _ & H3 & _);
    [vm_compute; discriminate|reflexivity|reflexivity|reflexivity|].
  exists c', m'. split; [exact H1|]. split; [exact H2|exact H3].
Defined.
