(* ===== verification/BlockCache.v ===== *)
(** * The block cache (internal/fs/compression/cache.go)

    A map from block numbers to blocks and the list of its keys, least recently
    used first. *)
From stdpp Require Import gmap.
From S2P Require Import Prelude.

Record blockCache := mkCache {
  cache_data : gmap Z (list byte);
  cache_order : list Z;
  cache_max : Z
}.

Definition newBlockCache (maxBlocks : Z) : blockCache := mkCache ∅ [] maxBlocks.

(** [append(append(order[:i], order[i+1:]...), idx)] for the first [i] that holds
    [idx]; [order] itself when there is none. *)
Fixpoint remove_first (idx : Z) (order : list Z) : option (list Z) :=
  match order with
  | [] => None
  | k :: order => if k =? idx then Some order else cons k <$> remove_first idx order
  end.

Definition cache_get (idx : Z) (c : blockCache) : option (list byte) * blockCache :=
  match cache_data c !! idx with
  | None => (None, c)
  | Some b =>
      let order := match remove_first idx (cache_order c) with
                   | Some order => order ++ [idx]
                   | None => cache_order c
                   end in
      (Some b, mkCache (cache_data c) order (cache_max c))
  end.

(** The eviction loop of [put]. *)
Fixpoint evict (max : Z) (data : gmap Z (list byte)) (order : list Z)
    : gmap Z (list byte) * list Z :=
  match order with
  | k :: order' =>
      if max <=? Z.of_nat (size data) then evict max (delete k data) order' else (data, order)
  | [] => (data, order)
  end.

Definition cache_put (idx : Z) (b : list byte) (c : blockCache) : blockCache :=
  let '(data, order) := evict (cache_max c) (cache_data c) (cache_order c) in
  mkCache (<[idx := b]> data) (order ++ [idx]) (cache_max c).

(** ** The invariant: the list enumerates the keys, and there are at most [max]. *)

Record cache_ok (c : blockCache) : Prop := {
  co_nodup : NoDup (cache_order c);
  co_keys : ∀ k, k ∈ cache_order c ↔ is_Some (cache_data c !! k);
  co_max : 0 < cache_max c;
  co_size : zlen (cache_order c) <= cache_max c
}.

(** Using block [idx]: it becomes the most recent one. *)
Definition touch (idx : Z) (order : list Z) : list Z := filter (λ k, k ≠ idx) order ++ [idx].

(** The most recent [n] entries. *)
Definition last_n (n : Z) (order : list Z) : list Z :=
  drop (Z.to_nat (zlen order - n)) order.

Lemma order_data_size c : cache_ok c → Z.of_nat (size (cache_data c)) = zlen (cache_order c).
Proof.
  intros [Hnd Hk _ _].
  assert (dom (cache_data c) = list_to_set (cache_order c) :> gset Z) as Hd.
  { apply set_eq. intros k. rewrite elem_of_dom, elem_of_list_to_set. by rewrite Hk. }
  rewrite <-size_dom, Hd, size_list_to_set by done. done.
Qed.

Lemma filter_absent (idx : Z) (order : list Z) :
  idx ∉ order → filter (λ k, k ≠ idx) order = order.
Proof.
  induction order as [|k order IH]; [done|]. intros [Hk Hn]%not_elem_of_cons.
  rewrite filter_cons_True by done. by rewrite IH.
Qed.

Lemma remove_first_spec idx order :
  NoDup order → idx ∈ order → remove_first idx order = Some (filter (λ k, k ≠ idx) order).
Proof.
  induction order as [|k order IH]; [by intros _ ?%not_elem_of_nil|].
  intros [Hk Hnd]%list.NoDup_cons Hin. simpl. destruct (Z.eqb_spec k idx) as [->|Hne].
  - rewrite filter_cons_False by naive_solver. by rewrite filter_absent.
  - rewrite filter_cons_True by done. apply elem_of_cons in Hin as [->|Hin]; [done|].
    by rewrite IH.
Qed.

Lemma NoDup_touch idx order : NoDup order → NoDup (touch idx order).
Proof.
  intros Hnd. unfold touch. apply list.NoDup_app. split; [by apply NoDup_filter|]. split.
  - intros x [Hx _]%list_elem_of_filter. by intros ->%list_elem_of_singleton.
  - apply NoDup_singleton.
Qed.

(** ** The operations *)

Lemma cache_get_spec idx c :
  cache_ok c →
  cache_ok (snd (cache_get idx c)) ∧ fst (cache_get idx c) = cache_data c !! idx ∧
  cache_data (snd (cache_get idx c)) = cache_data c ∧ cache_max (snd (cache_get idx c)) = cache_max c ∧
  (is_Some (cache_data c !! idx) → cache_order (snd (cache_get idx c)) = touch idx (cache_order c)) ∧
  (cache_data c !! idx = None → cache_order (snd (cache_get idx c)) = cache_order c).
Proof.
  intros Hok. pose proof Hok as [Hnd Hk Hm Hs]. unfold cache_get.
  destruct (cache_data c !! idx) as [b|] eqn:Hb.
  - assert (idx ∈ cache_order c) as Hin by (rewrite Hk, Hb; eauto).
    rewrite remove_first_spec by done. simpl. fold (touch idx (cache_order c)).
    split_and!; try done. split; simpl.
    + by apply NoDup_touch.
    + intros k. rewrite <-Hk. unfold touch.
      rewrite elem_of_app, list_elem_of_filter, list_elem_of_singleton.
      destruct (decide (k = idx)) as [->|]; naive_solver.
    + done.
    + assert (touch idx (cache_order c) ≡ₚ cache_order c) as Hp.
      { apply NoDup_Permutation; [by apply NoDup_touch|done|]. intros k. unfold touch.
        rewrite elem_of_app, list_elem_of_filter, list_elem_of_singleton.
        destruct (decide (k = idx)) as [->|]; naive_solver. }
      apply Permutation_length in Hp. unfold zlen in *. lia.
  - simpl. split_and!; try done.
Qed.

(** Eviction drops the oldest entries until there is room for one more. *)
Lemma evict_spec max data order :
  0 < max → NoDup order → (∀ k, k ∈ order ↔ is_Some (data !! k)) →
  Z.of_nat (size data) = zlen order →
  let n := Z.to_nat (zlen order - (max - 1)) in
  evict max data order = (filter (λ '(k, _), k ∈ drop n order) data, drop n order).
Proof.
  intros Hmax. revert data; induction order as [|k order IH]; intros data Hnd Hk Hsz n; simpl evict.
  { rewrite drop_nil. f_equal. symmetry. apply map_filter_id. intros i x Hx.
    apply Hk. by eexists. }
  apply list.NoDup_cons in Hnd as [Hki Hnd]. unfold zlen in *. simpl length in *. case_bool.
  - assert (is_Some (data !! k)) as [b Hb] by (apply Hk; by left).
    assert (Z.of_nat (size (delete k data)) = Z.of_nat (length order)) as Hsz'.
    { pose proof (map_size_delete_Some k data (mk_is_Some _ _ Hb)). lia. }
    rewrite IH; [|done| |done].
    + assert (n = S (Z.to_nat (Z.of_nat (length order) - (max - 1)))) as -> by (unfold n; lia).
      simpl drop. f_equal. set (n' := Z.to_nat _). apply map_eq. intros i.
      assert (k ∉ drop n' order) as Hkn.
      { intros Hin. apply Hki. rewrite <-(take_drop n' order). apply elem_of_app. by right. }
      rewrite !map_lookup_filter. destruct (decide (i = k)) as [->|Hne].
      * rewrite lookup_delete_eq, Hb. simpl. by rewrite option_guard_False.
      * by rewrite lookup_delete_ne.
    + intros i. destruct (decide (i = k)) as [->|Hne].
      * rewrite lookup_delete_eq. split; [done|]. by intros [? ?].
      * rewrite lookup_delete_ne, <-Hk, elem_of_cons by done. naive_solver.
  - assert (n = 0%nat) as -> by (unfold n; lia). rewrite drop_0. f_equal.
    symmetry. apply map_filter_id. intros i x Hx. apply Hk. by eexists.
Qed.

(** Storing a block that is not cached: it becomes the most recent one, and the
    least recent blocks make room for it. *)
Lemma cache_put_spec idx b c :
  cache_ok c → cache_data c !! idx = None →
  cache_ok (cache_put idx b c) ∧ cache_max (cache_put idx b c) = cache_max c ∧
  cache_order (cache_put idx b c) = last_n (cache_max c) (touch idx (cache_order c)) ∧
  cache_data (cache_put idx b c) !! idx = Some b ∧
  ∀ k b', k ≠ idx → cache_data (cache_put idx b c) !! k = Some b' → cache_data c !! k = Some b'.
Proof.
  intros Hok Hnone. pose proof Hok as [Hnd Hk Hm Hs]. unfold cache_put.
  rewrite evict_spec; [|done..|by apply order_data_size].
  set (n := Z.to_nat _). set (order' := drop n (cache_order c)). simpl.
  assert (idx ∉ cache_order c) as Hidx by (rewrite Hk, Hnone; by intros [? ?]).
  assert (∀ k, k ∈ order' → k ∈ cache_order c) as Hsub.
  { intros k Hin. rewrite <-(take_drop n (cache_order c)). apply elem_of_app. by right. }
  assert (zlen order' <= cache_max c - 1) as Hlen.
  { unfold order', n, zlen in *. rewrite length_drop. lia. }
  split_and!; try done.
  - split; simpl.
    + apply NoDup_app. split; [|split].
      * rewrite <-(take_drop n (cache_order c)) in Hnd. by apply NoDup_app in Hnd as (_ & _ & ?).
      * intros x Hx ->%list_elem_of_singleton. by apply Hidx, Hsub.
      * apply NoDup_singleton.
    + intros k. rewrite elem_of_app, list_elem_of_singleton.
      destruct (decide (k = idx)) as [->|Hne].
      * rewrite lookup_insert_eq. split; [by eexists|by right].
      * rewrite lookup_insert_ne by done. split.
        -- intros [Hin|]; [|done]. destruct (proj1 (Hk k) (Hsub k Hin)) as [x Hx].
           exists x. by apply map_lookup_filter_Some.
        -- intros [x [_ Hin]%map_lookup_filter_Some]. by left.
    + done.
    + rewrite zlen_app. change (zlen [idx]) with 1. lia.
  - unfold last_n, touch. rewrite filter_absent by done. rewrite zlen_app. change (zlen [idx]) with 1.
    rewrite drop_app_le by (unfold zlen in *; lia). unfold order', n. do 2 f_equal. lia.
  - apply lookup_insert_eq.
  - intros k b' Hne. rewrite lookup_insert_ne by done.
    by intros [? _]%map_lookup_filter_Some.
Qed.

Lemma newBlockCache_ok maxBlocks : 0 < maxBlocks → cache_ok (newBlockCache maxBlocks).
Proof.
  intros Hm. split; simpl; [apply NoDup_nil; done| |done|unfold zlen; simpl; lia].
  intros k. rewrite lookup_empty. split; [by intros ?%not_elem_of_nil|by intros [? ?]].
Qed.
