(* ===== verification/CachedReader.v ===== *)
(** * The cached reader (internal/fs/compression/reader.go, common/common.go)

    A reader of a compressed image: a format-specific block reader, behind the
    [BlockReader] interface, a block cache, and a position.  [BlockContent] is
    what a block reader promises; against it, the cached reader behaves like a
    plain file that holds the uncompressed data. *)
From stdpp Require Import gmap.
From S2P Require Import Prelude UdpfsProtocol BlockCache.

(** CompressedInfo (common.go). *)
Record CompressedInfo := mkInfo {
  ci_modTime : civil;
  ci_name : list byte;
  ci_size : Z
}.

(** The zero values of [time.Time] and of the structure. *)
Definition zeroTime : civil := mkCivil 0 0 0 1 1 1.
Definition zeroInfo : CompressedInfo := mkInfo zeroTime [] 0.

Definition NewCompressedInfo (name : list byte) (size : Z) (modTime : civil) : CompressedInfo :=
  {| ci_name := name; ci_size := size; ci_modTime := modTime |}.

(** Its methods as an [os.FileInfo]: mode 0 is a regular file. *)
Definition CompressedInfo_FileInfo (i : CompressedInfo) : FileInfo :=
  {| IsRegular := true; IsDir := false; Size_ := ci_size i; ModTime := ci_modTime i |}.

(** BlockReader is the interface that compressed format backends must implement.
    A block is represented by the whole array behind the slice that is returned. *)
Class BlockReader (R : Type) := {
  ReadBlock : Z → R → outcome (result go_error (list byte) * R);
  BlockSize : R → Z;
  NumBlocks : R → Z;
  UncompressedSize : R → Z;
  BR_Close : R → option go_error * R;
  BR_Stat : R → option CompressedInfo
}.

Record CachedReader (R : Type) := mkReader {
  br : R;
  info : CompressedInfo;
  cache : blockCache;
  cr_blockSize : Z;
  cr_numBlocks : Z;
  cr_size : Z;
  cr_pos : Z
}.
Arguments mkReader {R}.
Arguments br {R}.
Arguments info {R}.
Arguments cache {R}.
Arguments cr_blockSize {R}.
Arguments cr_numBlocks {R}.
Arguments cr_size {R}.
Arguments cr_pos {R}.

Definition with_pos {R} (p : Z) (c : CachedReader R) : CachedReader R :=
  mkReader (br c) (info c) (cache c) (cr_blockSize c) (cr_numBlocks c) (cr_size c) p.
Definition with_cache {R} (k : blockCache) (c : CachedReader R) : CachedReader R :=
  mkReader (br c) (info c) k (cr_blockSize c) (cr_numBlocks c) (cr_size c) (cr_pos c).
Definition with_br {R} (r : R) (c : CachedReader R) : CachedReader R :=
  mkReader r (info c) (cache c) (cr_blockSize c) (cr_numBlocks c) (cr_size c) (cr_pos c).

Section Reader.
Context {R : Type} `{BlockReader R}.

Definition NewCachedReader (r : R) (cacheSize : Z) (i : CompressedInfo) : CachedReader R :=
  let cacheSize := if cacheSize <=? 0 then 32 else cacheSize in
  {| br := r; info := i; cache := newBlockCache cacheSize;
     cr_blockSize := BlockSize r; cr_numBlocks := NumBlocks r; cr_size := UncompressedSize r;
     cr_pos := 0 |}.

Definition getBlock (blockIdx : Z) (c : CachedReader R)
    : outcome (result go_error (list byte) * CachedReader R) :=
  match cache_get blockIdx (cache c) with
  | (Some b, k) => Ok (Val b, with_cache k c)
  | (None, k) =>
      let c := with_cache k c in
      '(res, r) ← ReadBlock blockIdx (br c);
      let c := with_br r c in
      match res with
      | Err e => Ok (Err e, c)
      | Val b => Ok (Val b, with_cache (cache_put blockIdx b (cache c)) c)
      end
  end.

(** The loop of [Read]: [n] bytes are left to read, [out] have been read. *)
Fixpoint Read_loop (fuel : nat) (n : Z) (out : list byte) (c : CachedReader R)
    : outcome (list byte * option go_error * CachedReader R) :=
  if negb ((0 <? n) && (cr_pos c <? cr_size c)) then Ok (out, None, c)
  else
    match fuel with
    | O => OutOfFuel
    | S fuel =>
        let blockIdx := Z.quot (cr_pos c) (cr_blockSize c) in
        let offsetInBlock := Z.rem (cr_pos c) (cr_blockSize c) in
        let lastBlockSize :=
          if (blockIdx =? cr_numBlocks c - 1) && negb (Z.rem (cr_size c) (cr_blockSize c) =? 0)
          then Z.rem (cr_size c) (cr_blockSize c) else cr_blockSize c in
        let avail := lastBlockSize - offsetInBlock in
        if avail <=? 0 then Ok (out, None, c)
        else
          let toRead := if avail <? n then avail else n in
          '(res, c) ← getBlock blockIdx c;
          match res with
          | Err e => Ok (out, Some e, c)
          | Val block =>
              part ← slice block offsetInBlock (offsetInBlock + toRead);
              Read_loop fuel (n - toRead) (out ++ part) (with_pos (cr_pos c + toRead) c)
          end
    end.

(** [Read(p)] with [len(p) = n]: what is written to the front of [p], and the error.
    Every iteration reads at least one byte. *)
Definition CachedReader_Read (n : Z) (c : CachedReader R)
    : outcome (list byte * option go_error * CachedReader R) :=
  if cr_size c <=? cr_pos c then Ok ([], Some EOF, c)
  else
    let remaining := cr_size c - cr_pos c in
    let n := if remaining <? n then remaining else n in
    Read_loop (Z.to_nat n) n [] c.

Definition CachedReader_Write (data : list byte) (c : CachedReader R) : Z * option go_error :=
  (0, None).

(** The position that [Seek] keeps. *)
Definition clamp (size p : Z) : Z :=
  let p := if p <? 0 then 0 else p in
  if size <? p then size else p.

(** [c.pos] and [c.size] are int64. *)
Definition CachedReader_Seek (offset whence : Z) (c : CachedReader R)
    : Z * option go_error * CachedReader R :=
  let target :=
    if whence =? 0 then Some offset
    else if whence =? 1 then Some (i64 (cr_pos c + offset))
    else if whence =? 2 then Some (i64 (cr_size c + offset))
    else None in
  match target with
  | None => (cr_pos c, Some OtherError, c)
  | Some p => (clamp (cr_size c) p, None, with_pos (clamp (cr_size c) p) c)
  end.

Definition CachedReader_Close (c : CachedReader R) : option go_error * CachedReader R :=
  let '(e, r) := BR_Close (br c) in (e, with_br r c).

Definition CachedReader_Stat (c : CachedReader R) : FileInfo := CompressedInfo_FileInfo (info c).
Definition CachedReader_Name (c : CachedReader R) : list byte := ci_name (info c).
End Reader.

(** ** What a block reader promises *)

(** Block [idx] of [content], in blocks of [bs] bytes. *)
Definition content_block (bs idx : Z) (content : list byte) : list byte :=
  take (Z.to_nat bs) (drop (Z.to_nat (idx * bs)) content).

Definition block_ok (bs idx : Z) (content b : list byte) : Prop :=
  content_block bs idx content `prefix_of` b.

Class BlockContent (R : Type) `{BlockReader R} := {
  represents : R → list byte → Prop;
  rep_blockSize : ∀ r content, represents r content → 0 < BlockSize r;
  rep_numBlocks : ∀ r content, represents r content →
    NumBlocks r = (zlen content + BlockSize r - 1) / BlockSize r;
  rep_size : ∀ r content, represents r content → UncompressedSize r = zlen content;
  rep_ReadBlock : ∀ r content idx, represents r content → 0 <= idx < NumBlocks r →
    ∃ res r', ReadBlock idx r = Ok (res, r') ∧ represents r' content ∧
      (∀ b, res = Val b → block_ok (BlockSize r) idx content b) ∧
      BlockSize r' = BlockSize r ∧ NumBlocks r' = NumBlocks r
}.

(** ** The cached reader as a plain file *)

Section ReaderProofs.
Context {R : Type} `{HB : BlockContent R}.

Record reader_ok (content : list byte) (c : CachedReader R) : Prop := {
  ro_br : represents (br c) content;
  ro_bs : cr_blockSize c = BlockSize (br c);
  ro_num : cr_numBlocks c = NumBlocks (br c);
  ro_size : cr_size c = zlen content;
  ro_pos : 0 <= cr_pos c <= zlen content;
  ro_cache : cache_ok (cache c);
  ro_blocks : ∀ k b, cache_data (cache c) !! k = Some b → block_ok (cr_blockSize c) k content b
}.

Lemma NewCachedReader_ok r n i content :
  represents r content → reader_ok content (NewCachedReader r n i).
Proof.
  intros Hr. split; simpl; try done.
  - by apply rep_size.
  - pose proof (zlen_nonneg content). lia.
  - apply newBlockCache_ok. case_bool; lia.
Qed.

(** What reading a block leaves alone. *)
Definition same_reader (c c' : CachedReader R) : Prop :=
  cr_pos c' = cr_pos c ∧ cr_size c' = cr_size c ∧ cr_blockSize c' = cr_blockSize c ∧
  cr_numBlocks c' = cr_numBlocks c ∧ info c' = info c ∧ cache_max (cache c') = cache_max (cache c).

(** [e] is an error that a reader of [content] can return for one of its blocks. *)
Definition block_fails (content : list byte) (e : go_error) : Prop :=
  ∃ r idx r', represents (R := R) r content ∧ 0 <= idx < NumBlocks r ∧
    ReadBlock idx r = Ok (Err e, r').

Lemma getBlock_spec content idx c :
  reader_ok content c → 0 <= idx < cr_numBlocks c →
  ∃ res c', getBlock idx c = Ok (res, c') ∧ reader_ok content c' ∧ same_reader c c' ∧
    (∀ e, res = Err e → block_fails content e) ∧
    ∀ b, res = Val b →
      block_ok (cr_blockSize c) idx content b ∧
      cache_order (cache c') = last_n (cache_max (cache c)) (touch idx (cache_order (cache c))) ∧
      cache_data (cache c') !! idx = Some b.
Proof.
  intros Hok Hidx. pose proof Hok as [H1 H2 H3 H4 H5 H6 H7]. unfold getBlock.
  destruct (cache_get_spec idx (cache c) H6) as (Hk & Hf & Hd & Hm & Ho & Ho').
  destruct (cache_get idx (cache c)) as [[b|] k] eqn:E; simpl in *.
  - exists (Val b), (with_cache k c). split; [done|]. split; [|split].
    + split; simpl; try done. by rewrite Hd.
    + by repeat split.
    + split; [done|]. intros b' [= <-]. split; [by apply H7|]. split; [|by rewrite <-Hf, <-Hd in *].
      simpl. rewrite Ho by (rewrite <-Hf; eauto). unfold last_n.
      assert (zlen (touch idx (cache_order (cache c))) <= cache_max (cache c)) as Hl.
      { rewrite <-Ho by (rewrite <-Hf; eauto). rewrite <-Hm. apply Hk. }
      replace (Z.to_nat _) with 0%nat by lia. by rewrite drop_0.
  - symmetry in Hf. assert (k = cache c) as ->.
    { unfold cache_get in E. rewrite Hf in E. by simplify_eq. }
    rewrite H3 in Hidx.
    destruct (rep_ReadBlock _ _ _ H1 Hidx) as (res & r' & Hrun & Hrep & Hblock & Hbs & Hnum).
    change (br (with_cache (cache c) c)) with (br c). rewrite Hrun, bind_Ok.
    destruct res as [b|e].
    + destruct (cache_put_spec idx b (cache c) H6 Hf) as (P1 & P2 & P3 & P4 & P5).
      eexists _, _. split; [reflexivity|]. split; [|split].
      * split; simpl; try done; [congruence..|]. intros j b' Hj.
        destruct (decide (j = idx)) as [->|Hne]; [|by eapply H7, P5].
        rewrite P4 in Hj. injection Hj as <-. rewrite H2. by apply Hblock.
      * by repeat split.
      * split; [done|]. intros b' [= <-]. split; [rewrite H2; by apply Hblock|]. by split.
    + eexists _, _. split; [reflexivity|]. split; [|split; [by repeat split|]].
      * split; simpl; try done; congruence.
      * split; [|done]. intros e' [= <-]. by exists (br c), idx, r'.
Qed.

(** The bytes of the current block that are wanted are inside it. *)
Lemma block_part content bs pos n b :
  0 < bs → 0 <= pos < zlen content →
  let idx := pos / bs in let off := pos mod bs in
  let last := if (idx =? (zlen content + bs - 1) / bs - 1) && negb (zlen content mod bs =? 0)
              then zlen content mod bs else bs in
  0 <= idx < (zlen content + bs - 1) / bs ∧ 0 < last - off ∧
  (block_ok bs idx content b → 0 <= n <= last - off →
   slice b off (off + n) = Ok (take (Z.to_nat n) (drop (Z.to_nat pos) content))).
Proof.
  intros Hbs Hpos idx off last. set (size := zlen content) in *.
  pose proof (Z.div_mod pos bs ltac:(lia)) as Hdm. fold idx off in Hdm.
  pose proof (Z.mod_pos_bound pos bs Hbs) as Hoff. fold off in Hoff.
  set (num := (size + bs - 1) / bs) in *.
  assert (bs * num <= size + bs - 1 < bs * num + bs) as Hnum.
  { pose proof (Z.div_mod (size + bs - 1) bs ltac:(lia)) as Hd.
    pose proof (Z.mod_pos_bound (size + bs - 1) bs Hbs). unfold num. lia. }
  assert (0 <= idx < num) as Hi by nia.
  assert (last <= bs ∧ 0 < last - off ∧ idx * bs + last <= size) as (Hl & Ha & Hlast).
  { unfold last. destruct (idx =? num - 1) eqn:E1; simpl; bool_to_prop.
    - pose proof (Z.div_mod size bs ltac:(lia)) as Hs. pose proof (Z.mod_pos_bound size bs Hbs).
      set (m := size mod bs) in *. destruct (m =? 0) eqn:E2; simpl; bool_to_prop.
      + set (q := size / bs) in *.
        assert (num - q < 1) by nia. assert (-1 < num - q) by nia.
        assert (q = num) as -> by lia. assert (idx = num - 1) as -> by lia. nia.
      + set (q := size / bs) in *.
        assert (num - q < 2) by nia. assert (0 < num - q) by nia.
        assert (q = num - 1) as -> by lia. assert (idx = num - 1) as -> by lia. nia.
    - assert (idx + 2 <= num) by lia. nia. }
  split; [done|]. split; [done|]. intros [rest Hb] Hn.
  assert (zlen (content_block bs idx content) = Z.min bs (size - idx * bs)) as Hlen.
  { unfold content_block, zlen. rewrite length_take, length_drop. unfold size, zlen in *. nia. }
  subst b. rewrite slice_ok; [|lia|rewrite zlen_app; pose proof (zlen_nonneg rest); lia].
  f_equal. replace (off + n - off) with n by lia.
  unfold zlen in Hlen.
  rewrite drop_app_le by lia. rewrite take_app_le by (rewrite length_drop; lia).
  unfold content_block.
  replace (Z.to_nat pos) with (Z.to_nat (idx * bs) + Z.to_nat off)%nat by lia.
  rewrite <-drop_drop. generalize (drop (Z.to_nat (idx * bs)) content) as l. intros l.
  rewrite !take_drop_commute, take_take. do 2 f_equal. lia.
Qed.

Lemma Read_loop_spec content fuel n out c :
  reader_ok content c → 0 <= n <= zlen content - cr_pos c → n <= Z.of_nat fuel →
  ∃ part e c', Read_loop fuel n out c = Ok (out ++ part, e, c') ∧ reader_ok content c' ∧
    part = take (length part) (drop (Z.to_nat (cr_pos c)) content) ∧
    cr_pos c' = cr_pos c + zlen part ∧ zlen part <= n ∧ (e = None → zlen part = n) ∧
    (∀ er, e = Some er → block_fails content er) ∧ info c' = info c.
Proof.
  revert n out c; induction fuel as [|fuel IH]; intros n out c Hok Hn Hfuel; cbn [Read_loop].
  { rewrite (proj2 (Z.ltb_ge 0 n)) by lia. simpl. exists [], None, c. rewrite app_nil_r.
    split_and!; try done; unfold zlen; simpl; lia. }
  pose proof (rep_blockSize _ _ (ro_br _ _ Hok)) as Hbs. rewrite <-(ro_bs _ _ Hok) in Hbs.
  pose proof (ro_pos _ _ Hok) as Hp. pose proof (ro_size _ _ Hok) as Hs.
  destruct (Z.ltb_spec 0 n) as [Hpos|Hz]; simpl negb; cbv iota; last first.
  { exists [], None, c. rewrite app_nil_r. split_and!; try done; unfold zlen; simpl; lia. }
  rewrite (proj2 (Z.ltb_lt _ _)) by lia. simpl negb. cbv iota zeta.
  rewrite Z.quot_div_nonneg, !Z.rem_mod_nonneg by (rewrite ?Hs; lia).
  set (bs := cr_blockSize c) in *.
  pose proof (block_part content bs (cr_pos c)) as Hblk. cbv zeta in Hblk.
  assert (cr_numBlocks c = (zlen content + bs - 1) / bs) as Hnum.
  { rewrite (ro_num _ _ Hok), (rep_numBlocks _ _ (ro_br _ _ Hok)).
    unfold bs. by rewrite (ro_bs _ _ Hok). }
  rewrite Hs, Hnum. set (last := if _ && _ then _ else bs) in *.
  set (off := cr_pos c mod bs) in *. set (idx := cr_pos c / bs) in *.
  destruct (Hblk 0 [] Hbs ltac:(lia)) as (Hidx & Havail & _).
  rewrite (proj2 (Z.leb_gt _ _)) by lia.
  set (toRead := if _ <? n then _ else n).
  assert (0 < toRead <= n ∧ toRead <= last - off) as [Ht1 Ht2] by (unfold toRead; case_bool; lia).
  rewrite <-Hnum in Hidx.
  destruct (getBlock_spec content idx c Hok Hidx)
    as (res & c1 & -> & Hok1 & (S1 & S2 & S3 & S4 & S5 & _) & Hfail & Hres).
  rewrite bind_Ok. destruct res as [b|e].
  - destruct (Hres b eq_refl) as [Hb _].
    destruct (Hblk toRead b Hbs ltac:(lia)) as (_ & _ & Hslice). rewrite Hslice, bind_Ok by (done || lia).
    rewrite S1. set (part := take _ _).
    assert (zlen part = toRead) as Hl.
    { unfold part, zlen in *. rewrite length_take, length_drop. lia. }
    assert (reader_ok content (with_pos (cr_pos c + toRead) c1)) as Hok2.
    { destruct Hok1. split; simpl; try done. lia. }
    destruct (IH (n - toRead) (out ++ part) _ Hok2) as (part' & e & c' & -> & Hok' & Hp1 & Hp2 & Hp3 & Hp4 & Hpf & Hp5);
      [simpl; lia|lia|]. simpl in Hp1, Hp2, Hp5.
    exists (part ++ part'), e, c'. rewrite <-app_assoc, zlen_app. split; [done|]. split; [done|].
    split_and!; [|lia|lia|intros He; specialize (Hp4 He); lia|exact Hpf|congruence].
    assert (length part = Z.to_nat toRead) as Hlp by (unfold zlen in Hl; lia).
    rewrite length_app, Hlp, <-take_take_drop, drop_drop. f_equal.
    replace (Z.to_nat (cr_pos c) + Z.to_nat toRead)%nat with (Z.to_nat (cr_pos c + toRead)) by lia.
    exact Hp1.
  - exists [], (Some e), c1. rewrite app_nil_r. split_and!; try done; try (unfold zlen; simpl; lia).
    intros er [= <-]. by apply Hfail.
Qed.

(** Reading is reading the content at the position. *)
Lemma CachedReader_Read_spec content n c :
  reader_ok content c → 0 <= n →
  ∃ part e c', CachedReader_Read n c = Ok (part, e, c') ∧ reader_ok content c' ∧
    part = take (length part) (drop (Z.to_nat (cr_pos c)) content) ∧
    cr_pos c' = cr_pos c + zlen part ∧
    (e = None → zlen part = Z.min n (zlen content - cr_pos c)) ∧
    (∀ er, e = Some er → block_fails content er ∨ er = EOF ∧ cr_pos c = zlen content) ∧
    (cr_pos c = zlen content → part = [] ∧ e = Some EOF) ∧ info c' = info c.
Proof.
  intros Hok Hn. unfold CachedReader_Read. pose proof (ro_pos _ _ Hok). rewrite (ro_size _ _ Hok).
  case_bool.
  { exists [], (Some EOF), c. split_and!; try done; [unfold zlen at 1; simpl; lia|].
    intros er [= <-]. right. split; [done|lia]. }
  set (m := if _ <? n then _ else n).
  assert (m = Z.min n (zlen content - cr_pos c)) as Hm by (unfold m; case_bool; lia).
  destruct (Read_loop_spec content (Z.to_nat m) m [] c Hok ltac:(lia) ltac:(lia))
    as (part & e & c' & -> & H1 & H2 & H3 & H4 & H5 & Hf & H6).
  exists part, e, c'. split_and!; try done; [| |lia].
  - intros He. rewrite H5 by done. done.
  - intros er He. left. by apply Hf.
Qed.

(** Seeking never leaves the file. *)
Lemma CachedReader_Seek_spec content offset whence c :
  reader_ok content c →
  let '(p, e, c') := CachedReader_Seek offset whence c in
  reader_ok content c' ∧ cr_pos c' = p ∧ 0 <= p <= zlen content ∧
  (whence = 0 → e = None ∧ p = Z.max 0 (Z.min offset (zlen content))) ∧
  (whence ∉ [0; 1; 2] → e ≠ None ∧ c' = c).
Proof.
  intros Hok. pose proof Hok as [H1 H2 H3 H4 H5 H6 H7]. unfold CachedReader_Seek.
  assert (∀ p, 0 <= clamp (cr_size c) p <= zlen content ∧
               clamp (cr_size c) p = Z.max 0 (Z.min p (zlen content))) as Hc.
  { intros p. unfold clamp. rewrite H4. pose proof (zlen_nonneg content).
    destruct (Z.ltb_spec p 0); case_bool; lia. }
  assert (∀ p, reader_ok content (with_pos (clamp (cr_size c) p) c)) as Hokp.
  { intros p. destruct (Hc p). by split. }
  destruct (Z.eqb_spec whence 0) as [->|]; [split_and!; try apply Hokp; try apply Hc; set_solver|].
  destruct (Z.eqb_spec whence 1) as [->|]; [split_and!; try apply Hokp; try apply Hc; set_solver|].
  destruct (Z.eqb_spec whence 2) as [->|]; [split_and!; try apply Hokp; try apply Hc; set_solver|].
  split_and!; try done; lia.
Qed.

(** *** Sequences of operations, against a plain file *)

Inductive file_op := FRead (n : Z) | FSeek (offset whence : Z).

(** What an operation returns. *)
Inductive file_result := RRead (data : list byte) (err : option go_error) | RSeek (pos : Z) (err : option go_error).

Definition reader_step (o : file_op) (c : CachedReader R) : outcome (file_result * CachedReader R) :=
  match o with
  | FRead n => '(data, e, c) ← CachedReader_Read n c; Ok (RRead data e, c)
  | FSeek off wh => let '(p, e, c) := CachedReader_Seek off wh c in Ok (RSeek p e, c)
  end.

Fixpoint reader_run (ops : list file_op) (c : CachedReader R)
    : outcome (list file_result * CachedReader R) :=
  match ops with
  | [] => Ok ([], c)
  | o :: ops =>
      '(r, c) ← reader_step o c;
      '(rs, c) ← reader_run ops c;
      Ok (r :: rs, c)
  end.

(** A plain file: its content and a position.  Unlike on a file of the system, whose
    seeks may go beyond its end and fail before its start, a seek is kept inside the
    bounds, as the Seek of the reader keeps it. *)
Definition plain_step (content : list byte) (o : file_op) (pos : Z) : file_result * Z :=
  match o with
  | FRead n =>
      if zlen content <=? pos then (RRead [] (Some EOF), pos)
      else
        let data := take (Z.to_nat n) (drop (Z.to_nat pos) content) in
        (RRead data None, pos + zlen data)
  | FSeek off wh =>
      if wh =? 0 then (RSeek (clamp (zlen content) off) None, clamp (zlen content) off)
      else if wh =? 1 then
        (RSeek (clamp (zlen content) (i64 (pos + off))) None, clamp (zlen content) (i64 (pos + off)))
      else if wh =? 2 then
        (RSeek (clamp (zlen content) (i64 (zlen content + off))) None,
         clamp (zlen content) (i64 (zlen content + off)))
      else (RSeek pos (Some OtherError), pos)
  end.

Fixpoint plain_run (content : list byte) (ops : list file_op) (pos : Z) : list file_result * Z :=
  match ops with
  | [] => ([], pos)
  | o :: ops =>
      let '(r, pos) := plain_step content o pos in
      let '(rs, pos) := plain_run content ops pos in
      (r :: rs, pos)
  end.

Definition file_op_ok (o : file_op) : Prop := match o with FRead n => 0 <= n | _ => True end.

Lemma reader_step_refines content o c :
  (∀ e, ¬ block_fails content e) → reader_ok content c → file_op_ok o →
  ∃ c', reader_step o c = Ok (fst (plain_step content o (cr_pos c)), c') ∧ reader_ok content c' ∧
    cr_pos c' = snd (plain_step content o (cr_pos c)).
Proof.
  intros Hgood Hok Ho. pose proof (ro_pos _ _ Hok) as Hp. destruct o as [n|off wh]; simpl.
  - destruct (CachedReader_Read_spec content n c Hok Ho)
      as (part & e & c' & -> & Hok' & Hpart & Hpos & Hlen & Herr & Heof & _).
    rewrite bind_Ok. exists c'. case_bool.
    { destruct (Heof ltac:(lia)) as [-> ->]. split; [done|]. split; [done|].
      rewrite Hpos. unfold zlen at 1. simpl. lia. }
    assert (e = None) as ->.
    { destruct e as [er|]; [|done]. destruct (Herr er eq_refl) as [Hf|[_ Hf]]; [by destruct (Hgood er)|lia]. }
    specialize (Hlen eq_refl).
    assert (part = take (Z.to_nat n) (drop (Z.to_nat (cr_pos c)) content)) as Hpart'.
    { rewrite Hpart. unfold zlen in *. destruct (Z.le_gt_cases n (Z.of_nat (length content) - cr_pos c)).
      - f_equal. lia.
      - rewrite !take_ge; [done|rewrite length_drop; lia..]. }
    rewrite <-Hpart'. by split_and!.
  - pose proof (CachedReader_Seek_spec content off wh c Hok) as Hs.
    unfold CachedReader_Seek in *. rewrite (ro_size _ _ Hok) in *.
    repeat case_bool; (eexists; split; [reflexivity|]); simpl in *; intuition.
Qed.

Lemma reader_run_refines content ops c :
  (∀ e, ¬ block_fails content e) → reader_ok content c → Forall file_op_ok ops →
  ∃ c', reader_run ops c = Ok (fst (plain_run content ops (cr_pos c)), c') ∧ reader_ok content c' ∧
    cr_pos c' = snd (plain_run content ops (cr_pos c)).
Proof.
  intros Hgood Hok Hops. revert c Hok. induction Hops as [|o ops Ho Hops IH]; intros c Hok; simpl.
  { by exists c. }
  destruct (reader_step_refines content o c Hgood Hok Ho) as (c1 & -> & Hok1 & Hp1).
  rewrite bind_Ok. destruct (plain_step content o (cr_pos c)) as [r p]. simpl in *. subst p.
  destruct (IH c1 Hok1) as (c2 & -> & Hok2 & Hp2). rewrite bind_Ok.
  destruct (plain_run content ops (cr_pos c1)) as [rs p]. exists c2. by split_and!.
Qed.
End ReaderProofs.
