(* ===== verification/CompressedFile.v ===== *)
(** * Files behind the compressed formats

    An open, read-only [*os.File] as the formats use it: its base name, its
    contents and its modification time.  [read_full] is a [Seek] to an absolute
    offset followed by [io.ReadFull] into a fresh buffer. *)
From S2P Require Import Prelude UdpfsProtocol CachedReader.

Record OsFile := mkFile {
  f_base : list byte;
  f_data : list byte;
  f_mtime : civil
}.

(** [f.Seek(off, io.SeekStart)], [buf := make([]byte, n)], [io.ReadFull(f, buf)].
    Seeking before the start is an error; [make] panics on a length that is
    negative or beyond the address space; a file that ends too early is an error. *)
Definition maxAlloc : Z := 2 ^ 48.

Definition read_full (off n : Z) (f : OsFile) : outcome (result go_error (list byte)) :=
  if off <? 0 then Ok (Err OtherError)
  else if (n <? 0) || (maxAlloc <? n) then Panic MakeLenOutOfRange
  else if off + n <=? zlen (f_data f) then Ok (Val (sub_bytes (f_data f) (Z.to_nat off) (Z.to_nat n)))
  else if (n =? 0) then Ok (Val [])
  else if zlen (f_data f) <=? off then Ok (Err EOF)
  else Ok (Err OtherError).

(** [int64(binary.LittleEndian.Uint64(b[off:off+8]))] *)
Definition i64_at (b : list byte) (off : nat) : Z := i64 (le_at b off 8).

(** The loop that fills the offset table: [n] 32-bit words. *)
Definition words (n : nat) (b : list byte) : list Z :=
  map (λ i, le_at b (i * 4) 4) (List.seq 0 n).

(** [int((size + int64(blockSize) - 1) / int64(blockSize))], where [size] is int64. *)
Definition block_count (size blockSize : Z) : Z := Z.quot (i64 (i64 (size + blockSize) - 1)) blockSize.

(** [int64(word&0x7FFFFFFF) << align] *)
Definition file_offset (word align : Z) : Z := i64 (Z.shiftl (Z.land word 0x7FFFFFFF) align).

(** The high bit of a table entry. *)
Definition high_bit (word : Z) : bool := negb (Z.land word 0x80000000 =? 0).

(** ** Lemmas *)

Lemma index_ok {A} (l : list A) i x : 0 <= i → l !! Z.to_nat i = Some x → index l i = Ok x.
Proof. intros Hi Hx. unfold index. by rewrite (proj2 (Z.ltb_ge i 0)), Hx by lia. Qed.

Lemma read_full_ok off n f :
  0 <= off → 0 <= n <= maxAlloc → off + n <= zlen (f_data f) →
  read_full off n f = Ok (Val (sub_bytes (f_data f) (Z.to_nat off) (Z.to_nat n))).
Proof.
  intros Ho Hn Hl. unfold read_full.
  by rewrite (proj2 (Z.ltb_ge off 0)), (proj2 (Z.ltb_ge n 0)), (proj2 (Z.ltb_ge maxAlloc n)),
    (proj2 (Z.leb_le _ _)) by lia.
Qed.

Lemma block_count_spec size bs :
  0 <= size < 2 ^ 62 → 0 < bs < 2 ^ 32 → block_count size bs = (size + bs - 1) / bs.
Proof.
  intros Hs Hb. unfold block_count. rewrite !i64_small by (rewrite ?i64_small; lia).
  apply Z.quot_div_nonneg; lia.
Qed.

Lemma land_31 a : Z.land a 0x7FFFFFFF = a mod 2 ^ 31.
Proof. exact (land_mask a 31 ltac:(done)). Qed.

(** A table entry: an offset below [2 ^ 31], and a flag in the high bit. *)
Definition entry (flag : bool) (off : Z) : Z := off + (if flag then 2 ^ 31 else 0).

Lemma entry_high flag off : 0 <= off < 2 ^ 31 → high_bit (entry flag off) = flag.
Proof.
  intros Ho. unfold high_bit, entry.
  assert (Z.land (off + (if flag then 2 ^ 31 else 0)) 0x80000000 = if flag then 2 ^ 31 else 0) as ->.
  { replace (off + _) with (Z.lor off (Z.shiftl (if flag then 1 else 0) 31)).
    - rewrite Z.land_lor_distr_l. change 0x80000000 with (Z.shiftl 1 31).
      rewrite <-Z.shiftl_land.
      assert (Z.land off (Z.shiftl 1 31) = 0) as ->.
      { apply Z.bits_inj'. intros i Hi. rewrite Z.land_spec, Z.bits_0, Z.shiftl_spec by done.
        destruct (decide (i < 31)).
        - rewrite (Z.testbit_neg_r 1) by lia. apply andb_false_r.
        - rewrite <-(Z.mod_small off (2 ^ 31)) by lia. by rewrite Z.mod_pow2_bits_high by lia. }
      by destruct flag.
    - rewrite lor_shiftl_add by lia. by destruct flag. }
  by destruct flag.
Qed.

Lemma entry_offset flag off : 0 <= off < 2 ^ 31 → file_offset (entry flag off) 0 = off.
Proof.
  intros Ho. unfold file_offset, entry. rewrite land_31, Z.shiftl_0_r, i64_small.
  - destruct flag; zlia.
  - destruct flag; zlia.
Qed.

Lemma entry_bound flag off : 0 <= off < 2 ^ 31 → 0 <= entry flag off < 2 ^ 32.
Proof. unfold entry. destruct flag; lia. Qed.

(** Reading back a table of words. *)
Lemma words_put ws :
  Forall (λ w, 0 <= w < 2 ^ 32) ws → words (length ws) (concat (map (le_put 4) ws)) = ws.
Proof.
  intros Hws. unfold words. apply list_eq. intros i.
  rewrite list_lookup_fmap. destruct (decide (i < length ws)%nat) as [Hi|Hi]; last first.
  { rewrite (lookup_ge_None_2 ws) by lia. rewrite lookup_seq_ge by lia. done. }
  rewrite lookup_seq_lt by done. simpl. destruct (lookup_lt_is_Some_2 ws i Hi) as [w Hw].
  rewrite Hw. f_equal. clear Hi. revert i Hw. induction Hws as [|x ws Hx Hws IH]; intros i Hw; [done|].
  destruct i as [|i]; simpl in *.
  - injection Hw as ->. change (le_get (take 4 (le_put 4 w ++ concat (map (le_put 4) ws))) = w).
    rewrite take_app_length' by (by rewrite length_le_put). rewrite le_get_put. by apply Z.mod_small.
  - rewrite <-(IH i Hw). reflexivity.
Qed.

(** ** Images with an offset table, as an encoder lays them out

    A stored block is its bytes and whether they are plain. *)
Abbreviation stored := (bool * list byte)%type.

(** The table of the offsets of blocks stored one after another from [off] on,
    with a last entry for the end. *)
Fixpoint offset_table (off : Z) (l : list stored) : list Z :=
  match l with
  | [] => [entry false off]
  | (p, d) :: l => entry p off :: offset_table (off + zlen d) l
  end.

Definition payload (l : list stored) : list byte := concat (map snd l).

Lemma length_offset_table off l : length (offset_table off l) = S (length l).
Proof. revert off; induction l as [|[p d] l IH]; intros off; simpl; [done|]. by rewrite IH. Qed.

Lemma length_concat_put ws : length (concat (map (le_put 4) ws)) = (4 * length ws)%nat.
Proof. induction ws; simpl; [done|]. rewrite IHws. lia. Qed.

Lemma offset_table_lookup off l1 p d l2 :
  offset_table off (l1 ++ (p, d) :: l2) !! length l1 = Some (entry p (off + zlen (payload l1))) ∧
  ∃ q, offset_table off (l1 ++ (p, d) :: l2) !! S (length l1) =
         Some (entry q (off + zlen (payload l1) + zlen d)).
Proof.
  revert off; induction l1 as [|[q e] l1 IH]; intros off; simpl.
  - rewrite Z.add_0_r. split; [done|]. destruct l2 as [|[q e] l2]; by eexists.
  - destruct (IH (off + zlen e)) as [H1 [q' H2]]. unfold payload in *. simpl. rewrite !zlen_app.
    split; [rewrite H1; do 2 f_equal; lia|]. exists q'. rewrite H2. do 2 f_equal. lia.
Qed.

Lemma offset_table_bound off l :
  0 <= off → off + zlen (payload l) < 2 ^ 31 → Forall (λ w, 0 <= w < 2 ^ 32) (offset_table off l).
Proof.
  revert off; induction l as [|[p d] l IH]; intros off Ho Hl; unfold payload in *; simpl in *;
    rewrite ?zlen_app in Hl.
  - constructor; [|done]. apply entry_bound. unfold zlen in Hl; simpl in Hl. lia.
  - pose proof (zlen_nonneg d). pose proof (zlen_nonneg (concat (map snd l))). constructor; [apply entry_bound; lia|]. apply IH; lia.
Qed.

(** Reading a part of a file that is known as such. *)
Lemma read_full_part pre part post f :
  f_data f = pre ++ part ++ post → zlen part <= maxAlloc →
  read_full (zlen pre) (zlen part) f = Ok (Val part).
Proof.
  intros Hf Hp. pose proof (zlen_nonneg pre). pose proof (zlen_nonneg part). pose proof (zlen_nonneg post).
  rewrite read_full_ok; [|lia..|rewrite Hf, !zlen_app; lia]. do 2 f_equal.
  unfold sub_bytes, zlen. rewrite Hf, !Nat2Z.id, drop_app_length. by rewrite take_app_length.
Qed.

(** A 24-byte header, the table, and the blocks. *)
Definition table_end (l : list stored) : Z := 24 + 4 * (zlen l + 1).

Definition image (hdr : list byte) (l : list stored) : list byte :=
  hdr ++ concat (map (le_put 4) (offset_table (table_end l) l)) ++ payload l.

Section ImageParts.
Context (hdr : list byte) (l : list stored) (f : OsFile).
Hypothesis (Hhdr : zlen hdr = 24).
Hypothesis (Hfit : table_end l + zlen (payload l) < 2 ^ 31).
Hypothesis (Hf : f_data f = image hdr l).

Lemma image_fit : 0 <= zlen l < 2 ^ 29 ∧ 0 <= zlen (payload l).
Proof.
  pose proof (zlen_nonneg l). pose proof (zlen_nonneg (payload l)). unfold table_end in Hfit. lia.
Qed.

Lemma zlen_table : zlen (concat (map (le_put 4) (offset_table (table_end l) l))) = 4 * (zlen l + 1).
Proof. unfold zlen. rewrite length_concat_put, length_offset_table. lia. Qed.

Lemma image_header : read_full 0 24 f = Ok (Val hdr).
Proof.
  rewrite <-Hhdr. apply (read_full_part [] hdr _ f Hf). rewrite Hhdr. unfold maxAlloc. lia.
Qed.

Lemma image_table :
  read_full 24 (i64 ((zlen l + 1) * 4)) f =
    Ok (Val (concat (map (le_put 4) (offset_table (table_end l) l)))) ∧
  words (Z.to_nat (zlen l + 1)) (concat (map (le_put 4) (offset_table (table_end l) l))) =
    offset_table (table_end l) l.
Proof.
  pose proof image_fit. split.
  - rewrite i64_small by lia. replace ((zlen l + 1) * 4) with (4 * (zlen l + 1)) by lia.
    rewrite <-zlen_table. rewrite <-Hhdr at 1. apply (read_full_part hdr _ (payload l) f Hf).
    rewrite zlen_table. unfold maxAlloc. lia.
  - assert (Z.to_nat (zlen l + 1) = length (offset_table (table_end l) l)) as ->.
    { rewrite length_offset_table. unfold zlen. lia. }
    apply words_put, offset_table_bound; unfold table_end in *; lia.
Qed.

(** Block [idx]: its table entries, and its bytes in the file. *)
Lemma image_block idx :
  0 <= idx < zlen l →
  ∃ p d off q, l !! Z.to_nat idx = Some (p, d) ∧
    index (offset_table (table_end l) l) idx = Ok (entry p off) ∧
    index (offset_table (table_end l) l) (idx + 1) = Ok (entry q (off + zlen d)) ∧
    read_full off (zlen d) f = Ok (Val d) ∧ 0 <= off ∧ 0 <= zlen d ∧ off + zlen d < 2 ^ 31.
Proof.
  intros Hidx.
  destruct (lookup_lt_is_Some_2 l (Z.to_nat idx)) as [[p d] Hd]; [unfold zlen in Hidx; lia|].
  pose proof (take_drop_middle l _ _ Hd) as Hsplit.
  set (l1 := take (Z.to_nat idx) l) in *. set (l2 := drop (S (Z.to_nat idx)) l) in *.
  assert (length l1 = Z.to_nat idx) as Hl1 by (unfold l1; rewrite length_take; unfold zlen in *; lia).
  assert (payload l = payload l1 ++ d ++ payload l2) as Hpay.
  { rewrite <-Hsplit. unfold payload. by rewrite map_app, concat_app. }
  destruct (offset_table_lookup (table_end l) l1 p d l2) as [Ht [q Hq]].
  rewrite Hsplit in Ht, Hq. rewrite Hl1 in Ht, Hq.
  set (off := table_end l + zlen (payload l1)) in *.
  pose proof (zlen_nonneg (payload l1)). pose proof (zlen_nonneg d). pose proof (zlen_nonneg (payload l2)).
  assert (0 <= off ∧ off + zlen d < 2 ^ 31) as Hoff.
  { unfold off. rewrite Hpay, !zlen_app in Hfit. unfold table_end in *. pose proof (zlen_nonneg l). lia. }
  exists p, d, off, q. split; [done|]. split; [apply index_ok; [lia|done]|]. split.
  { apply index_ok; [lia|]. by replace (Z.to_nat (idx + 1)) with (S (Z.to_nat idx)) by lia. }
  split; [|lia].
  set (pre := hdr ++ concat (map (le_put 4) (offset_table (table_end l) l)) ++ payload l1).
  assert (off = zlen pre) as ->.
  { unfold pre, off. rewrite !zlen_app, zlen_table, Hhdr. unfold table_end. lia. }
  apply (read_full_part pre d (payload l2)); [|unfold maxAlloc; lia].
  unfold pre. rewrite Hf. unfold image. by rewrite Hpay, <-!app_assoc.
Qed.
End ImageParts.
