(* ===== verification/Cso.v ===== *)
(** * CSO images (internal/fs/compression/cso/cso.go)

    A header, a table of block offsets with a flag for blocks stored as they are,
    and the blocks.  The DEFLATE and zlib decoders are parameters: what reading
    the decoder to its end gives, all its output or an error. *)
From stdpp Require Import gmap.
From S2P Require Import Prelude UdpfsProtocol BlockCache CachedReader CompressedFile.

Definition csoMagic : list byte := map z2b [67; 73; 83; 79].

Class Inflate := {
  flate_read : list byte → result go_error (list byte);
  zlib_read : list byte → result go_error (list byte)
}.

(** [cso_f = None] after Close. *)
Record CSO := mkCSO {
  cso_f : option OsFile;
  cso_stat : CompressedInfo;
  cso_offsets : list Z;
  cso_blockSize : Z;
  cso_numBlocks : Z;
  cso_size : Z;
  cso_align : Z
}.

(** parseHeader, on the file that [Open] has opened. *)
Definition cso_parseHeader (f : OsFile) : outcome (result go_error CSO) :=
  r ← read_full 0 24 f;
  match r with
  | Err e => Ok (Err e)
  | Val b =>
      if negb (bool_decide (sub_bytes b 0 4 = csoMagic)) then Ok (Err OtherError)
      else
        let size := i64_at b 8 in
        let blockSize := le_at b 16 4 in
        let align := le_at b 21 1 in
        if blockSize =? 0 then Ok (Err OtherError)
        else
          let numBlocks := block_count size blockSize in
          r ← read_full 24 (i64 ((numBlocks + 1) * 4)) f;
          match r with
          | Err e => Ok (Err e)
          | Val offsetBytes =>
              let offsets := words (Z.to_nat (numBlocks + 1)) offsetBytes in
              Ok (Val {| cso_f := Some f;
                         cso_stat := NewCompressedInfo (f_base f) size (f_mtime f);
                         cso_offsets := offsets; cso_blockSize := blockSize;
                         cso_numBlocks := numBlocks; cso_size := size; cso_align := align |})
          end
  end.

(** Open, of what [os.Open] gives; after an error of the header the file is closed. *)
Definition cso_Open (file : option OsFile) : outcome (result go_error CSO) :=
  match file with
  | None => Ok (Err OtherError)
  | Some f => cso_parseHeader f
  end.

(** [append(out, make([]byte, blockSize-len(out))...)] when [out] is too short. *)
Definition pad_block (blockSize : Z) (out : list byte) : list byte :=
  if zlen out <? blockSize then out ++ replicate (Z.to_nat (blockSize - zlen out)) (z2b 0) else out.

Definition decompressDeflate `{Inflate} (compressed : list byte) (blockSize : Z)
    : result go_error (list byte) :=
  match flate_read compressed with
  | Err e => Err e
  | Val out => Val (pad_block blockSize out)
  end.

Definition decompressZlib `{Inflate} (compressed : list byte) (blockSize : Z)
    : result go_error (list byte) :=
  match zlib_read compressed with
  | Err e => Err e
  | Val out => Val (pad_block blockSize out)
  end.

Definition cso_ReadBlock `{Inflate} (blockIdx : Z) (c : CSO)
    : outcome (result go_error (list byte) * CSO) :=
  if (blockIdx <? 0) || (cso_numBlocks c <=? blockIdx) then Ok (Err OtherError, c)
  else
    raw ← index (cso_offsets c) blockIdx;
    let isPlain := high_bit raw in
    let readOffset := file_offset raw (cso_align c) in
    readSize ← (if isPlain then Ok (cso_blockSize c)
                else
                  next ← index (cso_offsets c) (blockIdx + 1);
                  Ok (i64 (file_offset next (cso_align c) - readOffset)));
    match cso_f c with
    | None => Ok (Err ErrInvalid, c)
    | Some f =>
        r ← read_full readOffset readSize f;
        match r with
        | Err e => Ok (Err e, c)
        | Val buf =>
            if isPlain then Ok (Val buf, c)
            else
              match decompressDeflate buf (cso_blockSize c) with
              | Val out => Ok (Val out, c)
              | Err _ => Ok (decompressZlib buf (cso_blockSize c), c)
              end
        end
    end.

Definition cso_Close (c : CSO) : option go_error * CSO :=
  (None, mkCSO None (cso_stat c) (cso_offsets c) (cso_blockSize c) (cso_numBlocks c) (cso_size c)
           (cso_align c)).

#[export] Instance cso_reader `{Inflate} : BlockReader CSO := {
  ReadBlock := cso_ReadBlock;
  BlockSize := cso_blockSize;
  NumBlocks := cso_numBlocks;
  UncompressedSize := cso_size;
  BR_Close := cso_Close;
  BR_Stat c := Some (cso_stat c)
}.

(** GetStat, on the opened file: only the magic and the size are read. *)
Definition cso_GetStat (f : OsFile) : outcome (option CompressedInfo) :=
  r ← read_full 0 16 f;
  match r with
  | Err _ => Ok None
  | Val b =>
      if negb (bool_decide (sub_bytes b 0 4 = csoMagic)) then Ok None
      else Ok (Some (NewCompressedInfo (f_base f) (i64_at b 8) (f_mtime f)))
  end.

(** ** The promise of a block reader

    An open image represents [content] when every block can be read and holds the
    right bytes. *)
Definition cso_represents `{Inflate} (c : CSO) (content : list byte) : Prop :=
  0 < cso_blockSize c ∧
  cso_numBlocks c = (zlen content + cso_blockSize c - 1) / cso_blockSize c ∧
  cso_size c = zlen content ∧
  ∀ idx, 0 <= idx < cso_numBlocks c →
    ∃ b, cso_ReadBlock idx c = Ok (Val b, c) ∧ block_ok (cso_blockSize c) idx content b.

#[export] Instance cso_content `{Inflate} : BlockContent CSO.
Proof.
  refine {| represents := cso_represents |}.
  - by intros r content (? & _).
  - by intros r content (_ & ? & _).
  - by intros r content (_ & _ & ? & _).
  - intros r content idx Hr Hidx. destruct Hr as (H1 & H2 & H3 & H4).
    destruct (H4 idx Hidx) as (b & Hrun & Hb). exists (Val b), r. simpl.
    split; [exact Hrun|]. split; [done|]. split; [by intros b' [= <-]|done].
Defined.

(** A represented image has no failing block. *)
Lemma cso_no_failure `{Inflate} content e : ¬ block_fails (R := CSO) content e.
Proof.
  intros (r & idx & r' & (_ & _ & _ & Hall) & Hidx & Hrun).
  destruct (Hall idx Hidx) as (b & Hb & _). simpl in Hrun. congruence.
Qed.

(** ** Images *)

Definition cso_header (blockSize size : Z) : list byte :=
  csoMagic ++ le_put 4 24 ++ le_put 8 size ++ le_put 4 blockSize ++ [z2b 1; z2b 0; z2b 0; z2b 0].

(** What the two decoders make of a compressed block: the zlib decoder is only tried
    on what is not a raw DEFLATE stream. *)
Definition cso_inflated `{Inflate} (d out : list byte) : Prop :=
  flate_read d = Val out ∨ (∃ e, flate_read d = Err e) ∧ zlib_read d = Val out.

(** The stored blocks are those of [content]: whole plain blocks, or data that
    inflates to the block.  A plain block has to be whole, the last one too: the
    reader asks for as many bytes as a block has and fails on a file that ends
    before. *)
Definition cso_stores `{Inflate} (blockSize : Z) (content : list byte) (l : list stored) : Prop :=
  zlen l = (zlen content + blockSize - 1) / blockSize ∧
  ∀ i p d, l !! i = Some (p, d) →
    if (p : bool) then zlen d = blockSize ∧ block_ok blockSize (Z.of_nat i) content d
    else ∃ out, cso_inflated d out ∧ block_ok blockSize (Z.of_nat i) content (pad_block blockSize out).

Section Image.
Context `{Inflate}.
Context (blockSize : Z) (content : list byte) (l : list stored) (f : OsFile).
Hypothesis (Hbs : 0 < blockSize < 2 ^ 31).
Hypothesis (Hsize : zlen content < 2 ^ 31).
Hypothesis (Hfit : table_end l + zlen (payload l) < 2 ^ 31).
Hypothesis (Hstores : cso_stores blockSize content l).
Hypothesis (Hf : f_data f = image (cso_header blockSize (zlen content)) l).

Definition cso_opened : CSO :=
  {| cso_f := Some f;
     cso_stat := NewCompressedInfo (f_base f) (zlen content) (f_mtime f);
     cso_offsets := offset_table (table_end l) l; cso_blockSize := blockSize;
     cso_numBlocks := zlen l; cso_size := zlen content; cso_align := 0 |}.

Lemma cso_parse_image : cso_parseHeader f = Ok (Val cso_opened).
Proof.
  pose proof (zlen_nonneg content) as Hn. destruct Hstores as [Hnum _].
  set (hdr := cso_header blockSize (zlen content)) in *.
  unfold cso_parseHeader. rewrite (image_header hdr l f eq_refl Hf), bind_Ok.
  assert (sub_bytes hdr 0 4 = csoMagic) as -> by done.
  rewrite bool_decide_eq_true_2 by done. cbn [negb].
  change (i64_at hdr 8) with (i64 (le_get (le_put 8 (zlen content)))).
  change (le_at hdr 16 4) with (le_get (le_put 4 blockSize)).
  rewrite (le_get_put_small 8), (le_get_put_small 4), (i64_small (zlen content)) by lia.
  rewrite (proj2 (Z.eqb_neq _ 0)) by lia. rewrite block_count_spec, <-Hnum by lia.
  destruct (image_table hdr l f eq_refl Hfit Hf) as [-> Hwords].
  by rewrite bind_Ok, Hwords.
Qed.

(** Each block reads back. *)
Lemma cso_read_image idx :
  0 <= idx < zlen l →
  ∃ b, cso_ReadBlock idx cso_opened = Ok (Val b, cso_opened) ∧ block_ok blockSize idx content b.
Proof.
  intros Hidx. destruct Hstores as [_ Hall].
  destruct (image_block (cso_header blockSize (zlen content)) l f eq_refl Hfit Hf idx Hidx)
    as (p & d & off & q & Hd & Ht & Hq & Hread & Hoff & Hl & Hend).
  specialize (Hall _ _ _ Hd). rewrite Z2Nat.id in Hall by lia.
  unfold cso_ReadBlock. cbn [cso_opened cso_numBlocks cso_offsets cso_align cso_blockSize cso_f].
  rewrite (proj2 (Z.ltb_ge idx 0)), (proj2 (Z.leb_gt _ idx)) by lia. cbn [orb].
  rewrite Ht, bind_Ok, entry_high, entry_offset by lia. destruct p.
  - rewrite bind_Ok. destruct Hall as [Hdl Hb]. rewrite Hdl in Hread. rewrite Hread, bind_Ok.
    exists d. by split.
  - destruct Hall as (out & Hin & Hb). rewrite Hq, !bind_Ok, entry_offset by lia.
    replace (off + zlen d - off) with (zlen d) by lia.
    rewrite i64_small, Hread, bind_Ok by lia. unfold decompressDeflate, decompressZlib.
    exists (pad_block blockSize out). by destruct Hin as [->|[[e ->] ->]].
Qed.

Lemma cso_image_represents : cso_represents cso_opened content.
Proof.
  destruct Hstores as [Hnum _]. split; [cbn; lia|]. split; [exact Hnum|]. split; [done|].
  exact cso_read_image.
Qed.
End Image.

(** A plain block at the end of the file that is shorter than a block cannot be read. *)
Lemma cso_short_plain_block `{Inflate} idx c f raw :
  cso_f c = Some f → 0 <= idx < cso_numBlocks c → cso_offsets c !! Z.to_nat idx = Some raw → high_bit raw = true →
  0 < cso_blockSize c <= maxAlloc → zlen (f_data f) < file_offset raw (cso_align c) + cso_blockSize c →
  ∃ e, cso_ReadBlock idx c = Ok (Err e, c).
Proof.
  intros Hf Hidx Hraw Hp Hbs Hl. unfold cso_ReadBlock.
  rewrite (proj2 (Z.ltb_ge idx 0)), (proj2 (Z.leb_gt _ idx)) by lia. cbn [orb].
  rewrite (index_ok _ idx raw), bind_Ok, Hp, bind_Ok, Hf by (done || lia). unfold read_full.
  destruct (Z.ltb_spec (file_offset raw (cso_align c)) 0); [by eexists|].
  rewrite (proj2 (Z.ltb_ge (cso_blockSize c) 0)), (proj2 (Z.ltb_ge maxAlloc _)), (proj2 (Z.leb_gt _ _)) by lia.
  cbn [orb]. rewrite (proj2 (Z.eqb_neq (cso_blockSize c) 0)) by lia. case_match; by eexists.
Qed.
