(* ===== verification/Zso.v ===== *)
(** * ZSO and ZISO images (internal/fs/compression/zso/zso.go)

    Like CSO, with LZ4 blocks.  The block decoder of the LZ4 package is a
    parameter: what it leaves in a destination of the given size, or an error. *)
From stdpp Require Import gmap.
From S2P Require Import Prelude UdpfsProtocol BlockCache CachedReader CompressedFile.

Definition zsoMagic : list byte := map z2b [90; 83; 79; 0].
Definition zisoMagic : list byte := map z2b [90; 73; 83; 79].

Class Lz4 := UncompressBlock : list byte → Z → result go_error (list byte).

Record ZSO := mkZSO {
  zso_f : option OsFile;
  zso_stat : CompressedInfo;
  zso_offsets : list Z;
  zso_blockSize : Z;
  zso_numBlocks : Z;
  zso_size : Z;
  zso_align : Z;
  zso_ziso : bool
}.

Definition zso_parseHeader (f : OsFile) : outcome (result go_error ZSO) :=
  r ← read_full 0 24 f;
  match r with
  | Err e => Ok (Err e)
  | Val b =>
      let magic := sub_bytes b 0 4 in
      let ziso := bool_decide (magic = zisoMagic) in
      if negb ziso && negb (bool_decide (magic = zsoMagic)) then Ok (Err OtherError)
      else
        let headerSize := le_at b 4 4 in
        let size := i64_at b 8 in
        let blockSize := le_at b 16 4 in
        let align := if ziso then le_at b 21 1 else 0 in
        if blockSize =? 0 then Ok (Err OtherError)
        else
          let numBlocks := block_count size blockSize in
          let numOffsetEntries := if negb ziso then numBlocks else numBlocks + 1 in
          r ← read_full headerSize (i64 (numOffsetEntries * 4)) f;
          match r with
          | Err e => Ok (Err e)
          | Val offsetBytes =>
              Ok (Val {| zso_f := Some f;
                         zso_stat := NewCompressedInfo (f_base f) size (f_mtime f);
                         zso_offsets := words (Z.to_nat numOffsetEntries) offsetBytes;
                         zso_blockSize := blockSize; zso_numBlocks := numBlocks;
                         zso_size := size; zso_align := align; zso_ziso := ziso |})
          end
  end.

(** Open, of what [os.Open] gives; after an error of the header the file is closed. *)
Definition zso_Open (file : option OsFile) : outcome (result go_error ZSO) :=
  match file with
  | None => Ok (Err OtherError)
  | Some f => zso_parseHeader f
  end.

(** LZ4 with OPL-style retry: the last byte is trimmed until a block decodes. *)
Fixpoint lz4_retry `{Lz4} (n : nat) (compressed : list byte) (blockSize : Z)
    : result go_error (list byte) :=
  match n with
  | O => Err OtherError
  | S n' =>
      match UncompressBlock (take n compressed) blockSize with
      | Val out => Val out
      | Err _ => lz4_retry n' compressed blockSize
      end
  end.

Definition zso_ReadBlock `{Lz4} (blockIdx : Z) (z : ZSO)
    : outcome (result go_error (list byte) * ZSO) :=
  if (blockIdx <? 0) || (zso_numBlocks z <=? blockIdx) then Ok (Err OtherError, z)
  else
    rawOffset ← index (zso_offsets z) blockIdx;
    pos ← (if zso_ziso z then
             nextRaw ← index (zso_offsets z) (blockIdx + 1);
             let offset := file_offset rawOffset (zso_align z) in
             let nextOffset := file_offset nextRaw (zso_align z) in
             Ok (Val (offset, i64 (nextOffset - offset)))
           else if blockIdx + 1 <? zso_numBlocks z then
             next ← index (zso_offsets z) (blockIdx + 1);
             Ok (Val (rawOffset, u32 (next - rawOffset)))
           else
             match zso_f z with
             | None => Ok (Err ErrInvalid)
             | Some f => Ok (Val (rawOffset, zlen (f_data f) - rawOffset))
             end);
    match pos with
    | Err e => Ok (Err e, z)
    | Val (offset, compressedSize) =>
        let uncompressed := high_bit rawOffset in
        match zso_f z with
        | None => Ok (Err ErrInvalid, z)
        | Some f =>
            r ← read_full offset compressedSize f;
            match r with
            | Err e => Ok (Err e, z)
            | Val compressed =>
                if uncompressed then
                  Ok (Val (copy_at 0 compressed (replicate (Z.to_nat (zso_blockSize z)) (z2b 0))), z)
                else Ok (lz4_retry (length compressed) compressed (zso_blockSize z), z)
            end
        end
    end.

Definition zso_Close (z : ZSO) : option go_error * ZSO :=
  (None, mkZSO None (zso_stat z) (zso_offsets z) (zso_blockSize z) (zso_numBlocks z) (zso_size z)
           (zso_align z) (zso_ziso z)).

#[export] Instance zso_reader `{Lz4} : BlockReader ZSO := {
  ReadBlock := zso_ReadBlock;
  BlockSize := zso_blockSize;
  NumBlocks := zso_numBlocks;
  UncompressedSize := zso_size;
  BR_Close := zso_Close;
  BR_Stat z := Some (zso_stat z)
}.

Definition zso_GetStat (f : OsFile) : outcome (option CompressedInfo) :=
  r ← read_full 0 16 f;
  match r with
  | Err _ => Ok None
  | Val b =>
      let magic := sub_bytes b 0 4 in
      if negb (bool_decide (magic = zisoMagic)) && negb (bool_decide (magic = zsoMagic)) then Ok None
      else Ok (Some (NewCompressedInfo (f_base f) (i64_at b 8) (f_mtime f)))
  end.

(** ** The promise of a block reader *)

Definition zso_represents `{Lz4} (z : ZSO) (content : list byte) : Prop :=
  0 < zso_blockSize z ∧
  zso_numBlocks z = (zlen content + zso_blockSize z - 1) / zso_blockSize z ∧
  zso_size z = zlen content ∧
  ∀ idx, 0 <= idx < zso_numBlocks z →
    ∃ b, zso_ReadBlock idx z = Ok (Val b, z) ∧ block_ok (zso_blockSize z) idx content b.

#[export] Instance zso_content `{Lz4} : BlockContent ZSO.
Proof.
  refine {| represents := zso_represents |}.
  - by intros r content (? & _).
  - by intros r content (_ & ? & _).
  - by intros r content (_ & _ & ? & _).
  - intros r content idx Hr Hidx. destruct Hr as (H1 & H2 & H3 & H4).
    destruct (H4 idx Hidx) as (b & Hrun & Hb). exists (Val b), r. simpl.
    split; [exact Hrun|]. split; [done|]. split; [by intros b' [= <-]|done].
Defined.

Lemma zso_no_failure `{Lz4} content e : ¬ block_fails (R := ZSO) content e.
Proof.
  intros (r & idx & r' & (_ & _ & _ & Hall) & Hidx & Hrun).
  destruct (Hall idx Hidx) as (b & Hb & _). simpl in Hrun. congruence.
Qed.

(** ** ZISO images *)

Definition ziso_header (blockSize size : Z) : list byte :=
  zisoMagic ++ le_put 4 24 ++ le_put 8 size ++ le_put 4 blockSize ++ [z2b 1; z2b 0; z2b 0; z2b 0].

(** Plain blocks, the last of which may be short, or data that decodes at once. *)
Definition ziso_stores `{Lz4} (blockSize : Z) (content : list byte) (l : list stored) : Prop :=
  zlen l = (zlen content + blockSize - 1) / blockSize ∧
  ∀ i p d, l !! i = Some (p, d) →
    if (p : bool) then zlen d <= blockSize ∧ block_ok blockSize (Z.of_nat i) content d
    else d ≠ [] ∧ ∃ out, UncompressBlock d blockSize = Val out ∧ block_ok blockSize (Z.of_nat i) content out.

Section Image.
Context `{Lz4}.
Context (blockSize : Z) (content : list byte) (l : list stored) (f : OsFile).
Hypothesis (Hbs : 0 < blockSize < 2 ^ 31).
Hypothesis (Hsize : zlen content < 2 ^ 31).
Hypothesis (Hfit : table_end l + zlen (payload l) < 2 ^ 31).
Hypothesis (Hstores : ziso_stores blockSize content l).
Hypothesis (Hf : f_data f = image (ziso_header blockSize (zlen content)) l).

Definition ziso_opened : ZSO :=
  {| zso_f := Some f;
     zso_stat := NewCompressedInfo (f_base f) (zlen content) (f_mtime f);
     zso_offsets := offset_table (table_end l) l; zso_blockSize := blockSize;
     zso_numBlocks := zlen l; zso_size := zlen content; zso_align := 0; zso_ziso := true |}.

Lemma ziso_parse_image : zso_parseHeader f = Ok (Val ziso_opened).
Proof.
  pose proof (zlen_nonneg content) as Hn. destruct Hstores as [Hnum _].
  set (hdr := ziso_header blockSize (zlen content)) in *.
  unfold zso_parseHeader. rewrite (image_header hdr l f eq_refl Hf), bind_Ok.
  assert (sub_bytes hdr 0 4 = zisoMagic) as -> by done. cbv zeta.
  rewrite bool_decide_eq_true_2 by done. cbn [negb andb].
  change (i64_at hdr 8) with (i64 (le_get (le_put 8 (zlen content)))).
  change (le_at hdr 16 4) with (le_get (le_put 4 blockSize)).
  change (le_at hdr 4 4) with 24. change (le_at hdr 21 1) with 0.
  rewrite (le_get_put_small 8), (le_get_put_small 4), (i64_small (zlen content)) by lia.
  rewrite (proj2 (Z.eqb_neq _ 0)) by lia. rewrite block_count_spec, <-Hnum by lia.
  destruct (image_table hdr l f eq_refl Hfit Hf) as [-> Hwords].
  by rewrite bind_Ok, Hwords.
Qed.

Lemma lz4_retry_now d out : d ≠ [] → UncompressBlock d blockSize = Val out →
  lz4_retry (length d) d blockSize = Val out.
Proof.
  intros Hne Hd. destruct (length d) as [|n] eqn:E; [by destruct d|]. cbn [lz4_retry].
  rewrite <-E, firstn_all. by rewrite Hd.
Qed.

Lemma ziso_read_image idx :
  0 <= idx < zlen l →
  ∃ b, zso_ReadBlock idx ziso_opened = Ok (Val b, ziso_opened) ∧ block_ok blockSize idx content b.
Proof.
  intros Hidx. destruct Hstores as [_ Hall].
  destruct (image_block (ziso_header blockSize (zlen content)) l f eq_refl Hfit Hf idx Hidx)
    as (p & d & off & q & Hd & Ht & Hq & Hread & Hoff & Hl & Hend).
  specialize (Hall _ _ _ Hd). rewrite Z2Nat.id in Hall by lia.
  unfold zso_ReadBlock. cbn [ziso_opened zso_numBlocks zso_offsets zso_align zso_blockSize zso_f zso_ziso].
  rewrite (proj2 (Z.ltb_ge idx 0)), (proj2 (Z.leb_gt _ idx)) by lia. cbn [orb].
  rewrite Ht, bind_Ok, Hq, !bind_Ok, !entry_offset, entry_high by lia.
  replace (off + zlen d - off) with (zlen d) by lia.
  rewrite i64_small, Hread, bind_Ok by lia. destruct p.
  - destruct Hall as [Hdl [rest Hb]]. eexists. split; [done|].
    unfold copy_at. rewrite length_replicate, (take_ge d) by (unfold zlen in *; lia).
    rewrite take_0, Hb. simpl. rewrite <-app_assoc. by eexists.
  - destruct Hall as (Hne & out & Hout & Hb). rewrite (lz4_retry_now d out Hne Hout). by exists out.
Qed.

Lemma ziso_image_represents : zso_represents ziso_opened content.
Proof.
  destruct Hstores as [Hnum _]. split; [cbn; lia|]. split; [exact Hnum|]. split; [done|].
  exact ziso_read_image.
Qed.
End Image.

(** ** ZSO images

    The table has no entry for the end: the last block reaches to the end of the
    file.  No block is plain (see below for those that are). *)

Definition zso_header (blockSize size : Z) : list byte :=
  zsoMagic ++ le_put 4 24 ++ le_put 8 size ++ le_put 4 blockSize ++ [z2b 1; z2b 0; z2b 0; z2b 0].

(** The offsets of blocks stored one after another from [off] on. *)
Fixpoint zso_table (off : Z) (ds : list (list byte)) : list Z :=
  match ds with
  | [] => []
  | d :: ds => off :: zso_table (off + zlen d) ds
  end.

Definition zso_image (blockSize size : Z) (ds : list (list byte)) : list byte :=
  zso_header blockSize size ++ concat (map (le_put 4) (zso_table (24 + 4 * zlen ds) ds)) ++ concat ds.

Definition zso_stores `{Lz4} (blockSize : Z) (content : list byte) (ds : list (list byte)) : Prop :=
  zlen ds = (zlen content + blockSize - 1) / blockSize ∧
  ∀ i d, ds !! i = Some d →
    d ≠ [] ∧ ∃ out, UncompressBlock d blockSize = Val out ∧ block_ok blockSize (Z.of_nat i) content out.

Lemma length_zso_table off ds : length (zso_table off ds) = length ds.
Proof. revert off; induction ds as [|d ds IH]; intros off; simpl; [done|]. by rewrite IH. Qed.

Lemma zso_table_lookup off ds i d :
  ds !! i = Some d → zso_table off ds !! i = Some (off + zlen (concat (take i ds))).
Proof.
  revert off i. induction ds as [|x ds IH]; intros off [|i] Hi; try done; simpl.
  - by rewrite Z.add_0_r.
  - rewrite (IH _ i Hi), zlen_app. f_equal. lia.
Qed.

Lemma zso_table_bound off ds :
  0 <= off → off + zlen (concat ds) < 2 ^ 31 → Forall (λ w, 0 <= w < 2 ^ 32) (zso_table off ds).
Proof.
  revert off; induction ds as [|d ds IH]; intros off Ho Hl; simpl in *; [done|]. rewrite zlen_app in Hl.
  pose proof (zlen_nonneg d). pose proof (zlen_nonneg (concat ds)). constructor; [lia|]. apply IH; lia.
Qed.

Section ZsoImage.
Context `{Lz4}.
Context (blockSize : Z) (content : list byte) (ds : list (list byte)) (f : OsFile).
Hypothesis (Hbs : 0 < blockSize < 2 ^ 31).
Hypothesis (Hsize : zlen content < 2 ^ 31).
Hypothesis (Hfit : 24 + 4 * zlen ds + zlen (concat ds) < 2 ^ 31).
Hypothesis (Hstores : zso_stores blockSize content ds).
Hypothesis (Hf : f_data f = zso_image blockSize (zlen content) ds).
Let table := zso_table (24 + 4 * zlen ds) ds.

Definition zso_opened : ZSO :=
  {| zso_f := Some f;
     zso_stat := NewCompressedInfo (f_base f) (zlen content) (f_mtime f);
     zso_offsets := zso_table (24 + 4 * zlen ds) ds; zso_blockSize := blockSize;
     zso_numBlocks := zlen ds; zso_size := zlen content; zso_align := 0; zso_ziso := false |}.

Lemma zlen_zso_table : zlen (concat (map (le_put 4) table)) = 4 * zlen ds.
Proof. unfold zlen, table. rewrite length_concat_put, length_zso_table. lia. Qed.

Lemma zso_parse_image : zso_parseHeader f = Ok (Val zso_opened).
Proof.
  pose proof (zlen_nonneg content) as Hn. pose proof (zlen_nonneg ds). pose proof (zlen_nonneg (concat ds)).
  destruct Hstores as [Hnum _]. unfold zso_image in Hf. fold table in Hf.
  set (hdr := zso_header blockSize (zlen content)) in *. unfold zso_parseHeader.
  assert (read_full 0 24 f = Ok (Val hdr)) as -> by (by apply (read_full_part [] hdr _ f Hf)). rewrite bind_Ok.
  assert (sub_bytes hdr 0 4 = zsoMagic) as -> by done. cbv zeta.
  rewrite (bool_decide_eq_false_2 (zsoMagic = zisoMagic)), (bool_decide_eq_true_2 (zsoMagic = zsoMagic)) by done.
  cbn [negb andb]. change (i64_at hdr 8) with (i64 (le_get (le_put 8 (zlen content)))).
  change (le_at hdr 16 4) with (le_get (le_put 4 blockSize)). change (le_at hdr 4 4) with 24.
  rewrite (le_get_put_small 8), (le_get_put_small 4), (i64_small (zlen content)) by lia.
  rewrite (proj2 (Z.eqb_neq _ 0)) by lia. rewrite block_count_spec, <-Hnum, i64_small by lia.
  replace (zlen ds * 4) with (zlen (concat (map (le_put 4) table))) by (rewrite zlen_zso_table; lia).
  assert (zlen (concat (map (le_put 4) table)) <= maxAlloc) as Hm by (rewrite zlen_zso_table; unfold maxAlloc; lia).
  pose proof (read_full_part hdr _ (concat ds) f Hf Hm) as Hr. change (zlen hdr) with 24 in Hr. rewrite Hr, bind_Ok.
  assert (Z.to_nat (zlen ds) = length table) as -> by (unfold table, zlen; rewrite length_zso_table; lia).
  by rewrite words_put by (apply zso_table_bound; lia).
Qed.

(** Block [idx]: its offset, its bytes in the file, and where it ends. *)
Lemma zso_block_at idx :
  0 <= idx < zlen ds →
  ∃ d off, ds !! Z.to_nat idx = Some d ∧ index table idx = Ok off ∧ read_full off (zlen d) f = Ok (Val d) ∧
    0 <= off ∧ 0 <= zlen d ∧ off + zlen d < 2 ^ 31 ∧
    if idx + 1 <? zlen ds then index table (idx + 1) = Ok (off + zlen d) else zlen (f_data f) = off + zlen d.
Proof.
  intros Hidx. destruct (lookup_lt_is_Some_2 ds (Z.to_nat idx)) as [d Hd]; [unfold zlen in Hidx; lia|].
  pose proof (take_drop_middle ds _ _ Hd) as Hsplit. set (l1 := take (Z.to_nat idx) ds) in *.
  set (l2 := drop (S (Z.to_nat idx)) ds) in *. set (off := 24 + 4 * zlen ds + zlen (concat l1)).
  pose proof (zlen_nonneg d). pose proof (zlen_nonneg (concat l1)). pose proof (zlen_nonneg (concat l2)).
  assert (concat ds = concat l1 ++ d ++ concat l2) as Hc by (rewrite <-Hsplit, concat_app; done).
  pose proof Hfit as Hfit'. rewrite Hc, !zlen_app in Hfit'.
  exists d, off. split; [done|]. split; [by apply index_ok; [lia|]; apply zso_table_lookup with d|].
  split; [|split; [unfold off; lia|split; [done|split; [unfold off; lia|]]]].
  - set (pre := zso_header blockSize (zlen content) ++ concat (map (le_put 4) table) ++ concat l1).
    assert (off = zlen pre) as ->.
    { unfold pre, off. rewrite !zlen_app, zlen_zso_table. change (zlen (zso_header _ _)) with 24. lia. }
    apply (read_full_part pre d (concat l2)); [|unfold maxAlloc; lia].
    unfold pre. rewrite Hf. unfold zso_image. fold table. by rewrite Hc, <-!app_assoc.
  - destruct (Z.ltb_spec (idx + 1) (zlen ds)).
    + destruct (lookup_lt_is_Some_2 ds (S (Z.to_nat idx))) as [d' Hd']; [unfold zlen in *; lia|].
      apply index_ok; [lia|]. replace (Z.to_nat (idx + 1)) with (S (Z.to_nat idx)) by lia. unfold table.
      rewrite (zso_table_lookup _ _ _ _ Hd'), (take_S_r _ _ _ Hd), concat_app, zlen_app. simpl. rewrite app_nil_r.
      unfold off. f_equal. fold l1. lia.
    + assert (l2 = []) as E by (unfold l2; apply drop_ge; unfold zlen in *; lia).
      rewrite Hf. unfold zso_image. fold table. rewrite !zlen_app, zlen_zso_table, Hc, E, !zlen_app.
      change (zlen (zso_header _ _)) with 24. change (zlen (concat [])) with 0. unfold off. lia.
Qed.

Lemma zso_read_image idx :
  0 <= idx < zlen ds →
  ∃ b, zso_ReadBlock idx zso_opened = Ok (Val b, zso_opened) ∧ block_ok blockSize idx content b.
Proof.
  intros Hidx. destruct Hstores as [_ Hall]. destruct (zso_block_at idx Hidx) as (d & off & Hd & Ht & Hread & Ho & Hl & Hend & Hn).
  destruct (Hall _ _ Hd) as (Hne & out & Hout & Hb). rewrite Z2Nat.id in Hb by lia. exists out. split; [|done].
  unfold zso_ReadBlock. cbn [zso_opened zso_numBlocks zso_offsets zso_align zso_blockSize zso_f zso_ziso]. fold table.
  rewrite (proj2 (Z.ltb_ge idx 0)), (proj2 (Z.leb_gt _ idx)) by lia. cbn [orb]. rewrite Ht, bind_Ok.
  assert (high_bit off = false) as Hhigh by (rewrite <-(entry_high false off) by lia; unfold entry; f_equal; lia).
  destruct (idx + 1 <? zlen ds); rewrite Hn, ?bind_Ok; replace (off + zlen d - off) with (zlen d) by lia.
  - unfold u32. rewrite Z.mod_small, Hread, bind_Ok, Hhigh by lia. by rewrite (lz4_retry_now blockSize d out Hne Hout).
  - rewrite Hread, bind_Ok, Hhigh. by rewrite (lz4_retry_now blockSize d out Hne Hout).
Qed.

Lemma zso_image_represents : zso_represents zso_opened content.
Proof.
  destruct Hstores as [Hnum _]. split; [cbn; lia|]. split; [exact Hnum|]. split; [done|].
  exact zso_read_image.
Qed.
End ZsoImage.

(** ** Plain blocks of ZSO files

    Without the ZISO magic the flag is not masked out of the offset, so reading a
    plain block of a file below 2 GiB fails, panics, or, when the block is stored
    with no bytes at all, gives zeros. *)
Lemma read_full_beyond off n f r :
  zlen (f_data f) < off → read_full off n f = Ok (Val r) → r = [].
Proof.
  intros Hl. unfold read_full.
  destruct (off <? 0); [done|]. destruct ((n <? 0) || _) eqn:En; [done|]. bool_to_prop.
  rewrite (proj2 (Z.leb_gt _ _)) by lia.
  destruct (n =? 0); [by intros [= <-]|]. by case_bool.
Qed.

Lemma zso_plain_block `{Lz4} idx z f raw b z' :
  zso_ziso z = false → zso_f z = Some f → zlen (f_data f) < 2 ^ 31 →
  zso_offsets z !! Z.to_nat idx = Some raw → 2 ^ 31 <= raw < 2 ^ 32 →
  zso_ReadBlock idx z = Ok (Val b, z') →
  b = replicate (Z.to_nat (zso_blockSize z)) (z2b 0).
Proof.
  intros Hz Hf Hlen Hraw Hr Hrun. unfold zso_ReadBlock in Hrun.
  destruct ((idx <? 0) || _) eqn:E; [done|]. bool_to_prop.
  rewrite (index_ok _ idx raw) in Hrun by (done || lia). rewrite bind_Ok, Hz, Hf in Hrun.
  assert (high_bit raw = true) as Hhigh.
  { rewrite <-(entry_high true (raw - 2 ^ 31)) by lia. f_equal. unfold entry. lia. }
  rewrite Hhigh in Hrun.
  apply bind_Ok_inv in Hrun as (pos & Hpos & Hrun).
  assert (∀ n, pos = Val (raw, n) → b = replicate (Z.to_nat (zso_blockSize z)) (z2b 0)) as Hgo.
  { intros n ->. apply bind_Ok_inv in Hrun as (r & Hread & Hrun).
    destruct r as [r|]; [|done]. apply read_full_beyond in Hread as ->; [|lia].
    injection Hrun as <- _. unfold copy_at. rewrite take_nil. simpl. by rewrite drop_0. }
  destruct (idx + 1 <? zso_numBlocks z).
  - apply bind_Ok_inv in Hpos as (next & _ & Hpos). injection Hpos as <-. by eapply Hgo.
  - injection Hpos as <-. by eapply Hgo.
Qed.
