(* ===== verification/Chd.v ===== *)
(** * CHD images (internal/fs/compression/chd/chd.go)

    Version 5 CHD files through libchdr, which is a parameter: opening a file, and
    reading a hunk into the buffer of a handle.  Of CD images only the user data
    of each sector is presented. *)
From stdpp Require Import gmap.
From S2P Require Import Prelude UdpfsProtocol BlockCache CachedReader CompressedFile.

Definition cdFrameSize : Z := 2448.
Definition cdUserData : Z := 2048.

(** The table of CD codecs: cdlz, cdzl, cdfl. *)
Definition cdCodecs (c : Z) : bool := bool_decide (c ∈ [0x63646c7a; 0x63647a6c; 0x6364666c]).

Definition cdSync : list byte :=
  map z2b [0x00; 0xff; 0xff; 0xff; 0xff; 0xff; 0xff; 0xff; 0xff; 0xff; 0xff; 0x00].

Fixpoint bytesEqual (a b : list byte) : bool :=
  match a, b with
  | [], [] => true
  | x :: a, y :: b => bool_decide (x = y) && bytesEqual a b
  | _, _ => false
  end.

(** The 2048 bytes of user data of a sector. *)
Definition extractUserData (sector : list byte) : outcome (list byte) :=
  let out := replicate (Z.to_nat cdUserData) (z2b 0) in
  if zlen sector <? cdUserData then Ok (copy_at 0 sector out)
  else
    let offset :=
      if (16 <=? zlen sector) && bytesEqual (sub_bytes sector 0 12) cdSync then
        if le_at sector 15 1 =? 2 then 24 else 16
      else 0 in
    let end_ := offset + cdUserData in
    if zlen sector <? end_ then
      part ← slice sector offset (zlen sector);
      Ok (copy_at 0 part out)
    else
      part ← slice sector offset end_;
      Ok (copy_at 0 part out).

(** libchdr: [chd_open] of a file; [chd_read] of a hunk gives the bytes that it
    leaves in the buffer of the handle's hunk size, or fails. *)
Class LibChdr := {
  chd_file : Type;
  chd_open : OsFile → option chd_file;
  chd_read : option chd_file → Z → option (list byte)
}.

Record CHD `{LibChdr} := mkCHD {
  chd_chd : option chd_file;
  chd_hunkSize : Z;
  chd_blockSize : Z;
  chd_numBlocks : Z;
  chd_size : Z;
  chd_isCDFormat : bool;
  chd_framesPerHunk : Z;
  chd_stat : CompressedInfo
}.

Definition be_at (b : list byte) (off n : nat) : Z := be_get (sub_bytes b off n).

Definition chdMagic : list byte := map z2b [77; 67; 111; 109; 112; 114; 72; 68].

(** What parseHeader and GetStat read: hunk size, number of hunks, whether it is
    a CD image, and the logical size. *)
Definition chd_header (f : OsFile) : outcome (result go_error (Z * Z * bool * Z)) :=
  r ← read_full 0 124 f;
  match r with
  | Err e => Ok (Err e)
  | Val header =>
      if (zlen header <? 64) || negb (bool_decide (sub_bytes header 0 8 = chdMagic)) then Ok (Err OtherError)
      else
        let version := be_at header 12 4 in
        if negb (version =? 5) then Ok (Err OtherError)
        else
          let compressors := map (λ i, be_at header (16 + i * 4) 4) (List.seq 0 4) in
          let logicalBytes := be_at header 32 8 in
          let hunkSize := be_at header 56 4 in
          let unitSize := be_at header 60 4 in
          if hunkSize =? 0 then Ok (Err OtherError)
          else
            let numBlocks := i64 (u64 (u64 (logicalBytes + hunkSize) - 1) / hunkSize) in
            let isCD := (unitSize =? cdFrameSize) ||
                        existsb (λ comp, negb (comp =? 0) && cdCodecs comp) compressors in
            Ok (Val (hunkSize, numBlocks, isCD && (hunkSize mod cdFrameSize =? 0), logicalBytes))
  end.

Section Chd.
Context `{LibChdr}.

Definition chd_parseHeader (h : chd_file) (f : OsFile) : outcome (result go_error CHD) :=
  r ← chd_header f;
  match r with
  | Err e => Ok (Err e)
  | Val (hunkSize, numBlocks, isCDFormat, logicalBytes) =>
      let framesPerHunk := if (isCDFormat : bool) then hunkSize / cdFrameSize else 0 in
      let totalFrames := i64 (numBlocks * framesPerHunk) in
      let size := if isCDFormat then i64 (totalFrames * cdUserData) else i64 logicalBytes in
      let blockSize := if isCDFormat then framesPerHunk * cdUserData else hunkSize in
      Ok (Val {| chd_chd := Some h; chd_hunkSize := hunkSize; chd_blockSize := blockSize;
                 chd_numBlocks := numBlocks; chd_size := size; chd_isCDFormat := isCDFormat;
                 chd_framesPerHunk := framesPerHunk;
                 chd_stat := NewCompressedInfo (f_base f) size (f_mtime f) |})
  end.

(** Open, of the file at the path, if there is one. *)
Definition chd_Open (file : option OsFile) : outcome (result go_error CHD) :=
  match file with
  | None => Ok (Err OtherError)
  | Some f =>
      match chd_open f with
      | None => Ok (Err OtherError)
      | Some h => chd_parseHeader h f
      end
  end.

(** The frames [i], [i + 1], ... of a hunk, [n] of them. *)
Fixpoint cd_frames (n : nat) (i : Z) (hunkBuf out : list byte) : outcome (list byte) :=
  match n with
  | O => Ok out
  | S n =>
      let start := i * cdFrameSize in
      sector ← slice hunkBuf start (start + 2352);
      data ← extractUserData sector;
      cd_frames n (i + 1) hunkBuf (out ++ data)
  end.

Definition chd_ReadBlock (blockIdx : Z) (c : CHD) : outcome (result go_error (list byte) * CHD) :=
  if (blockIdx <? 0) || (chd_numBlocks c <=? blockIdx) then Ok (Err OtherError, c)
  else
    match chd_read (chd_chd c) blockIdx with
    | None => Ok (Err OtherError, c)
    | Some hunkBuf =>
        if negb (chd_isCDFormat c) then
          Ok (Val (copy_at 0 hunkBuf (replicate (Z.to_nat (chd_hunkSize c)) (z2b 0))), c)
        else
          out ← cd_frames (Z.to_nat (chd_framesPerHunk c)) 0 hunkBuf [];
          Ok (Val out, c)
    end.

Definition chd_Close (c : CHD) : option go_error * CHD :=
  (None, {| chd_chd := None; chd_hunkSize := chd_hunkSize c; chd_blockSize := chd_blockSize c;
            chd_numBlocks := chd_numBlocks c; chd_size := chd_size c;
            chd_isCDFormat := chd_isCDFormat c; chd_framesPerHunk := chd_framesPerHunk c;
            chd_stat := chd_stat c |}).

#[export] Instance chd_reader : BlockReader CHD := {
  ReadBlock := chd_ReadBlock;
  BlockSize := chd_blockSize;
  NumBlocks := chd_numBlocks;
  UncompressedSize := chd_size;
  BR_Close := chd_Close;
  BR_Stat c := Some (chd_stat c)
}.

Definition chd_GetStat (f : OsFile) : outcome (option CompressedInfo) :=
  r ← chd_header f;
  match r with
  | Err _ => Ok None
  | Val (hunkSize, numBlocks, isCDFormat, logicalBytes) =>
      let fileSize :=
        if (isCDFormat : bool) then i64 (i64 (numBlocks * (hunkSize / cdFrameSize)) * cdUserData)
        else i64 logicalBytes in
      Ok (Some (NewCompressedInfo (f_base f) fileSize (f_mtime f)))
  end.

(** ** Sectors *)

Lemma bytesEqual_spec a b : bytesEqual a b = bool_decide (a = b).
Proof.
  revert b; induction a as [|x a IH]; intros [|y b]; simpl; try done.
  rewrite IH. repeat case_bool_decide; simplify_eq; done.
Qed.

(** Where the user data of a raw 2352-byte sector starts. *)
Definition user_offset (sector : list byte) : Z :=
  if bool_decide (sub_bytes sector 0 12 = cdSync) then
    if le_at sector 15 1 =? 2 then 24 else 16
  else 0.

Definition user_data (sector : list byte) : list byte :=
  sub_bytes sector (Z.to_nat (user_offset sector)) 2048.

Lemma user_offset_bound sector : 0 <= user_offset sector <= 24.
Proof. unfold user_offset. repeat case_bool; lia. Qed.

Lemma length_user_data sector : zlen sector = 2352 → length (user_data sector) = 2048%nat.
Proof.
  intros Hs. pose proof (user_offset_bound sector). unfold user_data, sub_bytes.
  rewrite length_take, length_drop. unfold zlen in Hs. lia.
Qed.

Lemma extractUserData_spec sector :
  zlen sector = 2352 → extractUserData sector = Ok (user_data sector).
Proof.
  intros Hs. unfold extractUserData. rewrite Hs. change (2352 <? cdUserData) with false.
  change (16 <=? 2352) with true. cbv iota. cbn [andb]. rewrite bytesEqual_spec.
  fold (user_offset sector). set (out := replicate _ _).
  pose proof (user_offset_bound sector) as Ho. unfold cdUserData.
  rewrite (proj2 (Z.ltb_ge _ _)) by lia. rewrite slice_ok, bind_Ok by lia. f_equal.
  replace (user_offset sector + 2048 - user_offset sector) with 2048 by lia.
  change (Z.to_nat 2048) with 2048%nat. fold (sub_bytes sector (Z.to_nat (user_offset sector)) 2048).
  fold (user_data sector). pose proof (length_user_data sector Hs) as Hl.
  rewrite <-(app_nil_r out), copy_at_front; [apply app_nil_r|].
  rewrite Hl. unfold out. by rewrite length_replicate.
Qed.

(** The user data of a hunk of [n] frames. *)
Definition hunk_data (n : nat) (hunk : list byte) : list byte :=
  concat (map (λ i, user_data (sub_bytes hunk (i * 2448) 2352)) (List.seq 0 n)).

Lemma cd_frames_spec n i hunk out :
  Z.of_nat ((i + n) * 2448) <= zlen hunk →
  cd_frames n (Z.of_nat i) hunk out =
    Ok (out ++ concat (map (λ i, user_data (sub_bytes hunk (i * 2448) 2352)) (List.seq i n))).
Proof.
  revert i out; induction n as [|n IH]; intros i out Hl; cbn [cd_frames List.seq map concat].
  { by rewrite app_nil_r. }
  unfold cdFrameSize. rewrite slice_ok, bind_Ok by lia.
  replace (Z.of_nat i * 2448 + 2352 - Z.of_nat i * 2448) with 2352 by lia.
  replace (Z.to_nat (Z.of_nat i * 2448)) with (i * 2448)%nat by lia.
  change (take (Z.to_nat 2352) (drop (i * 2448) hunk)) with (sub_bytes hunk (i * 2448) 2352).
  rewrite extractUserData_spec, bind_Ok.
  - replace (Z.of_nat i + 1) with (Z.of_nat (S i)) by lia. rewrite IH by lia.
    by rewrite <-app_assoc.
  - unfold sub_bytes, zlen in *. rewrite length_take, length_drop. lia.
Qed.

(** ** The promise of a block reader *)

Definition chd_represents (c : CHD) (content : list byte) : Prop :=
  0 < chd_blockSize c ∧
  chd_numBlocks c = (zlen content + chd_blockSize c - 1) / chd_blockSize c ∧
  chd_size c = zlen content ∧
  ∀ idx, 0 <= idx < chd_numBlocks c →
    ∃ b, chd_ReadBlock idx c = Ok (Val b, c) ∧ block_ok (chd_blockSize c) idx content b.

#[export] Instance chd_content : BlockContent CHD.
Proof.
  refine {| represents := chd_represents |}.
  - by intros r content (? & _).
  - by intros r content (_ & ? & _).
  - by intros r content (_ & _ & ? & _).
  - intros r content idx Hr Hidx. destruct Hr as (H1 & H2 & H3 & H4).
    destruct (H4 idx Hidx) as (b & Hrun & Hb). exists (Val b), r. simpl.
    split; [exact Hrun|]. split; [done|]. split; [by intros b' [= <-]|done].
Defined.

Lemma length_frames n i hunk :
  Z.of_nat ((i + n) * 2448) <= zlen hunk →
  length (concat (map (λ i, user_data (sub_bytes hunk (i * 2448) 2352)) (List.seq i n))) =
    (n * 2048)%nat.
Proof.
  revert i; induction n as [|n IH]; intros i Hl; cbn [List.seq map concat]; [reflexivity|].
  rewrite length_app, IH by lia. rewrite length_user_data; [lia|].
  unfold sub_bytes, zlen in *. rewrite length_take, length_drop. lia.
Qed.

Lemma length_hunk_data n hunk :
  Z.of_nat (n * 2448) <= zlen hunk → length (hunk_data n hunk) = (n * 2048)%nat.
Proof. intros Hl. apply length_frames. lia. Qed.

(** A block of a list of equally long pieces. *)
Lemma concat_block (bs : nat) (ls : list (list byte)) i l :
  Forall (λ l, length l = bs) ls → ls !! i = Some l →
  content_block (Z.of_nat bs) (Z.of_nat i) (concat ls) = l.
Proof.
  intros Hls. revert i. induction Hls as [|x ls Hx Hls IH]; intros i Hi; [done|].
  unfold content_block in *. rewrite Nat2Z.id in *. simpl. destruct i as [|i]; simpl in Hi.
  - injection Hi as ->. by rewrite Z.mul_0_l, drop_0, take_app_length'.
  - rewrite <-(IH i Hi). replace (Z.to_nat (Z.of_nat (S i) * Z.of_nat bs))
      with (bs + Z.to_nat (Z.of_nat i * Z.of_nat bs))%nat by lia.
    by rewrite <-drop_drop, drop_app_length'.
Qed.

Lemma length_concat_uniform (bs : nat) (ls : list (list byte)) :
  Forall (λ l, length l = bs) ls → length (concat ls) = (length ls * bs)%nat.
Proof. induction 1; simpl; [done|]. rewrite length_app. lia. Qed.

(** An open CD image whose hunks libchdr can read. *)
Definition cd_image (c : CHD) (hunks : list (list byte)) : Prop :=
  chd_isCDFormat c = true ∧ 0 < chd_framesPerHunk c ∧
  chd_blockSize c = chd_framesPerHunk c * cdUserData ∧
  chd_numBlocks c = zlen hunks ∧ chd_size c = zlen hunks * chd_blockSize c ∧
  ∀ i hunk, hunks !! i = Some hunk →
    chd_read (chd_chd c) (Z.of_nat i) = Some hunk ∧ chd_framesPerHunk c * cdFrameSize <= zlen hunk.

Lemma chd_cd_represents c hunks :
  cd_image c hunks →
  chd_represents c (concat (map (hunk_data (Z.to_nat (chd_framesPerHunk c))) hunks)).
Proof.
  intros (Hcd & Hf & Hbs & Hnum & Hsize & Hread). unfold cdUserData, cdFrameSize in *.
  set (n := Z.to_nat (chd_framesPerHunk c)). set (pieces := map (hunk_data n) hunks).
  assert (Forall (λ l, length l = (n * 2048)%nat) pieces) as Hp.
  { apply Forall_lookup. intros i l Hl. apply list_lookup_fmap_Some in Hl as (hunk & -> & Hh).
    destruct (Hread i hunk Hh). apply length_hunk_data. unfold n. lia. }
  assert (zlen (concat pieces) = zlen hunks * chd_blockSize c) as Hlen.
  { unfold zlen. rewrite (length_concat_uniform _ _ Hp). unfold pieces. rewrite length_map.
    rewrite Hbs. unfold n. lia. }
  split; [lia|]. split; [|split; [lia|]].
  - rewrite Hlen, Hnum. replace (zlen hunks * chd_blockSize c + chd_blockSize c - 1)
      with (zlen hunks * chd_blockSize c + (chd_blockSize c - 1)) by lia.
    rewrite Z.div_add_l by lia. rewrite (Z.div_small (chd_blockSize c - 1)) by lia. lia.
  - intros idx Hidx. unfold chd_ReadBlock.
    rewrite (proj2 (Z.ltb_ge idx 0)), (proj2 (Z.leb_gt _ idx)) by lia. cbn [orb].
    destruct (lookup_lt_is_Some_2 hunks (Z.to_nat idx)) as [hunk Hh]; [unfold zlen in Hnum; lia|].
    destruct (Hread _ _ Hh) as [Hr Hl]. rewrite Z2Nat.id in Hr by lia. rewrite Hr, Hcd. cbn [negb].
    change 0 with (Z.of_nat 0). fold n. rewrite cd_frames_spec, bind_Ok by (unfold n; lia).
    eexists. split; [done|]. unfold block_ok. simpl app. fold (hunk_data n hunk).
    rewrite <-(concat_block (n * 2048) pieces (Z.to_nat idx) (hunk_data n hunk) Hp).
    + rewrite Z2Nat.id, Hbs by lia. replace (Z.of_nat (n * 2048)) with (chd_framesPerHunk c * 2048) by (unfold n; lia).
      reflexivity.
    + unfold pieces. by rewrite list_lookup_fmap, Hh.
Qed.

(** An open image that is not a CD, of a DVD for instance, whose hunks libchdr can
    read: the content is that of the hunks up to the logical size. *)
Definition dvd_image (c : CHD) (hunks : list (list byte)) (content : list byte) : Prop :=
  chd_isCDFormat c = false ∧ 0 < chd_hunkSize c ∧ chd_blockSize c = chd_hunkSize c ∧
  chd_numBlocks c = zlen hunks ∧ chd_size c = zlen content ∧
  zlen hunks = (zlen content + chd_hunkSize c - 1) / chd_hunkSize c ∧ content `prefix_of` concat hunks ∧
  ∀ i hunk, hunks !! i = Some hunk →
    chd_read (chd_chd c) (Z.of_nat i) = Some hunk ∧ zlen hunk = chd_hunkSize c.

Lemma chd_dvd_represents c hunks content : dvd_image c hunks content → chd_represents c content.
Proof.
  intros (Hcd & Hhs & Hbs & Hnum & Hsize & Hn & [rest Hc] & Hread). split; [lia|]. rewrite Hbs, Hnum.
  split; [done|]. split; [done|]. intros idx Hidx. unfold chd_ReadBlock.
  rewrite (proj2 (Z.ltb_ge idx 0)), (proj2 (Z.leb_gt _ idx)) by lia. cbn [orb].
  destruct (lookup_lt_is_Some_2 hunks (Z.to_nat idx)) as [hunk Hh]; [unfold zlen in Hidx; lia|].
  destruct (Hread _ _ Hh) as [Hr Hl]. rewrite Z2Nat.id in Hr by lia. rewrite Hr, Hcd. cbn [negb].
  eexists. split; [reflexivity|]. set (out := replicate _ _).
  assert (copy_at 0 hunk out = hunk) as ->.
  { rewrite <-(app_nil_r out), copy_at_front; [apply app_nil_r|]. unfold out. rewrite length_replicate. unfold zlen in Hl. lia. }
  assert (Forall (λ l, length l = Z.to_nat (chd_hunkSize c)) hunks) as Hp.
  { apply Forall_lookup. intros i l Hi. destruct (Hread i l Hi) as [_ Hz]. unfold zlen in Hz. lia. }
  pose proof (concat_block _ _ _ _ Hp Hh) as Hb. rewrite !Z2Nat.id in Hb by lia.
  unfold block_ok. rewrite <-Hb. rewrite Hc. unfold content_block. rewrite drop_app, take_app.
  by eexists.
Qed.

(** What parsing establishes about a CD image. *)
Lemma chd_parse_cd h f c :
  chd_parseHeader h f = Ok (Val c) → chd_isCDFormat c = true →
  0 <= chd_numBlocks c → chd_numBlocks c * chd_framesPerHunk c * cdUserData < 2 ^ 63 →
  chd_chd c = Some h ∧ 0 < chd_framesPerHunk c ∧
  chd_hunkSize c = chd_framesPerHunk c * cdFrameSize ∧
  chd_blockSize c = chd_framesPerHunk c * cdUserData ∧
  chd_size c = chd_numBlocks c * chd_blockSize c.
Proof.
  unfold chd_parseHeader. intros Hrun Hcd Hn Hfit.
  apply bind_Ok_inv in Hrun as ([[[[hs nb] cd] lb]|e] & Hh & Hrun); [|done].
  injection Hrun as <-. cbn [chd_chd chd_framesPerHunk chd_hunkSize chd_blockSize chd_size
    chd_numBlocks chd_isCDFormat] in *. subst cd.
  assert (0 < hs ∧ hs mod cdFrameSize = 0) as [Hhs Hmod].
  { unfold chd_header in Hh. apply bind_Ok_inv in Hh as ([b|e] & _ & Hh); [|done].
    destruct (_ || _); [done|]. destruct (negb _); [done|].
    destruct (be_at b 56 4 =? 0) eqn:E0; [done|]. injection Hh as <- _ Hcd _. bool_to_prop.
    pose proof (le_get_bound (reverse (sub_bytes b 56 4))). unfold be_at, be_get in *. lia. }
  unfold cdFrameSize, cdUserData in *.
  assert (0 < hs / 2448 ∧ hs = hs / 2448 * 2448) as [Hq He] by zlia.
  split; [done|]. split; [done|]. split; [done|]. split; [done|].
  rewrite (i64_small (nb * _)) by nia. rewrite i64_small by nia. lia.
Qed.
End Chd.
