(* ===== verification/ChdStub.v ===== *)
(** * CHD images in a build without libchdr (internal/fs/compression/chd/chd_nocgo.go)

    A stub takes the place of the package: it claims no extension, and opens nothing. *)
From S2P Require Import Prelude UdpfsProtocol CachedReader CompressedFile GoPath.

Definition stub_Available : bool := false.
Definition stub_Extensions : list path := [].

Inductive chdStub := ChdStub.

(** [ReadBlock] returns a nil slice and no error. *)
#[export] Instance stub_reader : BlockReader chdStub := {
  ReadBlock _ s := Ok (Val [], s);
  BlockSize _ := -1;
  NumBlocks _ := -1;
  UncompressedSize _ := -1;
  BR_Close s := (None, s);
  BR_Stat _ := None
}.

Definition stub_Open (file : option OsFile) : outcome (result go_error chdStub) := Ok (Err OtherError).
Definition stub_GetStat (f : OsFile) : outcome (option CompressedInfo) := Ok None.
