(* ===== verification/CompressedImage.v ===== *)
(** * Opening compressed images (internal/fs/compression/compression.go)

    The format of an image is chosen by the extension of its path; the three
    formats meet behind [BlockReader] in one type, whose values are what the
    interface value in the program can hold. *)
From stdpp Require Import gmap.
From S2P Require Import Prelude UdpfsProtocol BlockCache CachedReader CompressedFile Cso Zso Chd ChdStub GoPath.

(** The decoders, together, and whether the program is built with libchdr: the
    constraint [cgo && !nochd] of chd.go. *)
Class Decoders := {
  dec_inflate :: Inflate;
  dec_lz4 :: Lz4;
  dec_chd :: LibChdr;
  dec_cgo : bool
}.

Section CompressedImage.
Context `{Decoders}.

Inductive ImageReader :=
| RZso (z : ZSO)
| RCso (c : CSO)
| RChd (h : CHD)
| RStub (s : chdStub).

Definition zso_Extensions : list path := [str ".zso"; str ".ziso"].
Definition cso_Extensions : list path := [str ".cso"; str ".ciso"].

(** What the package chd exports, in either build. *)
Definition chd_Available : bool := if dec_cgo then true else stub_Available.
Definition chd_Extensions : list path := if dec_cgo then [str ".chd"] else stub_Extensions.

Definition map_reader {A} (f : A → ImageReader)
    (o : outcome (result go_error (list byte) * A)) : outcome (result go_error (list byte) * ImageReader) :=
  '(res, a) ← o; Ok (res, f a).

#[export] Instance image_reader : BlockReader ImageReader := {
  ReadBlock idx r :=
    match r with
    | RZso z => map_reader RZso (ReadBlock idx z)
    | RCso c => map_reader RCso (ReadBlock idx c)
    | RChd h => map_reader RChd (ReadBlock idx h)
    | RStub s => map_reader RStub (ReadBlock idx s)
    end;
  BlockSize r :=
    match r with RZso z => BlockSize z | RCso c => BlockSize c | RChd h => BlockSize h | RStub s => BlockSize s end;
  NumBlocks r :=
    match r with RZso z => NumBlocks z | RCso c => NumBlocks c | RChd h => NumBlocks h | RStub s => NumBlocks s end;
  UncompressedSize r :=
    match r with
    | RZso z => UncompressedSize z | RCso c => UncompressedSize c | RChd h => UncompressedSize h
    | RStub s => UncompressedSize s
    end;
  BR_Close r :=
    match r with
    | RZso z => let '(e, z) := BR_Close z in (e, RZso z)
    | RCso c => let '(e, c) := BR_Close c in (e, RCso c)
    | RChd h => let '(e, h) := BR_Close h in (e, RChd h)
    | RStub s => let '(e, s) := BR_Close s in (e, RStub s)
    end;
  BR_Stat r :=
    match r with RZso z => BR_Stat z | RCso c => BR_Stat c | RChd h => BR_Stat h | RStub s => BR_Stat s end
}.

(** [file] is what [os.Open(path)] gives. *)
Definition open_reader (p : path) (file : option OsFile) : outcome (option ImageReader) :=
  let ext := ToLower (Ext p) in
  let opened {A} (con : A → ImageReader) (open : option OsFile → outcome (result go_error A))
      : outcome (option ImageReader) :=
    r ← open file;
    Ok (match r with Val a => Some (con a) | Err _ => None end) in
  if bool_decide (ext ∈ zso_Extensions) then opened RZso zso_Open
  else if bool_decide (ext ∈ cso_Extensions) then opened RCso cso_Open
  else if bool_decide (ext ∈ chd_Extensions) then
    if dec_cgo then opened RChd chd_Open else opened RStub stub_Open
  else Ok None.

(** Open opens a compressed file by extension and returns a cached reader of it. *)
Definition image_Open (p : path) (file : option OsFile) (cacheSize : Z)
    : outcome (option (CachedReader ImageReader)) :=
  let info := zeroInfo in
  r ← open_reader p file;
  match r with
  | None => Ok None
  | Some br =>
      let cacheSize := if cacheSize <=? 0 then 32 else cacheSize in
      Ok (Some (NewCachedReader br cacheSize info))
  end.

Definition GetSupportedExtensions : list path :=
  cso_Extensions ++ zso_Extensions ++ (if chd_Available then chd_Extensions else []).

Definition GetSupportedFormats : list path :=
  [str "ZSO"; str "CSO"] ++ (if chd_Available then [str "CHD"] else []).

(** Retrieves the stat of a compressed image, if it is a valid one. *)
Definition image_GetStat (p : path) (file : option OsFile) : outcome (option FileInfo) :=
  let ext := ToLower (Ext p) in
  let stat_of (get : OsFile → outcome (option CompressedInfo)) : outcome (option CompressedInfo) :=
    match file with
    | None => Ok None
    | Some f => get f
    end in
  let fstat :=
    if bool_decide (ext ∈ zso_Extensions) then stat_of zso_GetStat
    else if bool_decide (ext ∈ cso_Extensions) then stat_of cso_GetStat
    else if bool_decide (ext ∈ chd_Extensions) then stat_of (if dec_cgo then chd_GetStat else stub_GetStat)
    else Ok None in
  i ← fstat;
  Ok (match i with Some st => Some (CompressedInfo_FileInfo st) | None => None end).

(** ** The promise of the readers *)

Definition image_represents (r : ImageReader) (content : list byte) : Prop :=
  match r with
  | RZso z => represents z content
  | RCso c => represents c content
  | RChd h => represents h content
  | RStub _ => False
  end.

Lemma map_reader_ok {A} `{BlockContent A} (con : A → ImageReader) (a : A) content idx :
  represents a content → 0 <= idx < NumBlocks a →
  ∃ res a', map_reader con (ReadBlock idx a) = Ok (res, con a') ∧ represents a' content ∧
    (∀ b, res = Val b → block_ok (BlockSize a) idx content b) ∧
    BlockSize a' = BlockSize a ∧ NumBlocks a' = NumBlocks a.
Proof.
  intros Hr Hidx. destruct (rep_ReadBlock a content idx Hr Hidx) as (res & a' & Hrun & Hrest).
  exists res, a'. unfold map_reader. by rewrite Hrun, bind_Ok.
Qed.

#[export] Instance image_content : BlockContent ImageReader.
Proof.
  refine {| represents := image_represents |}.
  - intros [z|c|h|] content Hr; [exact (rep_blockSize z content Hr)|exact (rep_blockSize c content Hr)|exact (rep_blockSize h content Hr)|done].
  - intros [z|c|h|] content Hr; [exact (rep_numBlocks z content Hr)|exact (rep_numBlocks c content Hr)|exact (rep_numBlocks h content Hr)|done].
  - intros [z|c|h|] content Hr; [exact (rep_size z content Hr)|exact (rep_size c content Hr)|exact (rep_size h content Hr)|done].
  - intros [z|c|h|] content idx Hr Hidx; [..|done];
      [destruct (map_reader_ok RZso z content idx Hr Hidx) as (res & a' & Hrun & Hrest)
      |destruct (map_reader_ok RCso c content idx Hr Hidx) as (res & a' & Hrun & Hrest)
      |destruct (map_reader_ok RChd h content idx Hr Hidx) as (res & a' & Hrun & Hrest)];
      eexists res, _; (split; [exact Hrun|exact Hrest]).
Defined.

(** No block of a represented image fails. *)
Lemma image_no_failure content e : ¬ block_fails (R := ImageReader) content e.
Proof.
  intros (r & idx & r' & Hr & Hidx & Hrun). destruct r as [z|c|h|]; [..|done];
    destruct Hr as (_ & _ & _ & Hall); destruct (Hall idx Hidx) as (b & Hb & _);
    cbn [ReadBlock image_reader zso_reader cso_reader chd_reader] in Hrun;
    unfold map_reader in Hrun; rewrite Hb in Hrun; discriminate.
Qed.

(** An image file that holds [content]: how each format lays it out. *)
Inductive image_file (content : list byte) : path → OsFile → ImageReader → Prop :=
| ImageCso p bs l f :
    ToLower (Ext p) ∈ cso_Extensions → 0 < bs < 2 ^ 31 → zlen content < 2 ^ 31 →
    table_end l + zlen (payload l) < 2 ^ 31 → cso_stores bs content l →
    f_data f = image (cso_header bs (zlen content)) l →
    image_file content p f (RCso (cso_opened bs content l f))
| ImageZiso p bs l f :
    ToLower (Ext p) ∈ zso_Extensions → 0 < bs < 2 ^ 31 → zlen content < 2 ^ 31 →
    table_end l + zlen (payload l) < 2 ^ 31 → ziso_stores bs content l →
    f_data f = image (ziso_header bs (zlen content)) l →
    image_file content p f (RZso (ziso_opened bs content l f))
| ImageZso p bs ds f :
    ToLower (Ext p) ∈ zso_Extensions → 0 < bs < 2 ^ 31 → zlen content < 2 ^ 31 →
    24 + 4 * zlen ds + zlen (concat ds) < 2 ^ 31 → zso_stores bs content ds →
    f_data f = zso_image bs (zlen content) ds →
    image_file content p f (RZso (zso_opened bs content ds f))
| ImageDvd p f h c hunks :
    ToLower (Ext p) ∈ chd_Extensions → chd_open f = Some h → chd_parseHeader h f = Ok (Val c) →
    dvd_image c hunks content → image_file content p f (RChd c)
| ImageChd p f h c hunks :
    ToLower (Ext p) ∈ chd_Extensions → chd_open f = Some h → chd_parseHeader h f = Ok (Val c) →
    cd_image c hunks → content = concat (map (hunk_data (Z.to_nat (chd_framesPerHunk c))) hunks) →
    image_file content p f (RChd c).

(** The extensions of the formats are disjoint. *)
Lemma cso_not_zso e : e ∈ cso_Extensions → e ∉ zso_Extensions.
Proof. revert e. apply Forall_forall, (bool_decide_unpack _). by vm_compute. Qed.
Lemma chd_extension e : e ∈ chd_Extensions → dec_cgo = true ∧ e = str ".chd".
Proof. unfold chd_Extensions, stub_Extensions. destruct dec_cgo; set_solver. Qed.
Lemma chd_not_zso e : e ∈ chd_Extensions → e ∉ zso_Extensions.
Proof. intros [_ ->]%chd_extension. apply (bool_decide_unpack _). by vm_compute. Qed.
Lemma chd_not_cso e : e ∈ chd_Extensions → e ∉ cso_Extensions.
Proof. intros [_ ->]%chd_extension. apply (bool_decide_unpack _). by vm_compute. Qed.

Lemma image_file_opens content p f r :
  image_file content p f r → open_reader p (Some f) = Ok (Some r) ∧ represents r content.
Proof.
  unfold open_reader, cso_Open, zso_Open, chd_Open. intros [p' bs l f' He Hbs Hsz Hfit Hst Hf|p' bs l f' He Hbs Hsz Hfit Hst Hf
    |p' bs ds f' He Hbs Hsz Hfit Hst Hf|p' f' h c hunks He Ho Hp Hdvd|p' f' h c hunks He Ho Hp Hcd ->].
  - rewrite bool_decide_eq_false_2, bool_decide_eq_true_2 by auto using cso_not_zso, chd_not_zso, chd_not_cso.
    rewrite (cso_parse_image bs content l f'), bind_Ok by done. split; [done|]. by apply cso_image_represents.
  - rewrite bool_decide_eq_true_2 by done.
    rewrite (ziso_parse_image bs content l f'), bind_Ok by done. split; [done|]. by apply ziso_image_represents.
  - rewrite bool_decide_eq_true_2 by done.
    rewrite (zso_parse_image bs content ds f'), bind_Ok by done. split; [done|]. by apply zso_image_represents.
  - rewrite !bool_decide_eq_false_2, bool_decide_eq_true_2 by auto using cso_not_zso, chd_not_zso, chd_not_cso.
    rewrite (proj1 (chd_extension _ He)), Ho, Hp, bind_Ok. split; [done|]. by eapply chd_dvd_represents.
  - rewrite !bool_decide_eq_false_2, bool_decide_eq_true_2 by auto using cso_not_zso, chd_not_zso, chd_not_cso.
    rewrite (proj1 (chd_extension _ He)), Ho, Hp, bind_Ok. split; [done|]. by apply chd_cd_represents.
Qed.

(** Without libchdr the program does not know CHD images: they are neither opened nor
    listed, and their stat is that of a plain file. *)
Lemma chd_without_cgo p file n :
  dec_cgo = false → ToLower (Ext p) = str ".chd" →
  image_Open p file n = Ok None ∧ image_GetStat p file = Ok None ∧ (ToLower (Ext p) ∉ GetSupportedExtensions).
Proof.
  intros Hc He. assert (ToLower (Ext p) ∉ chd_Extensions) as Hn by (intros [? _]%chd_extension; congruence).
  assert ((str ".chd" ∉ zso_Extensions) ∧ (str ".chd" ∉ cso_Extensions)) as [Hz Hs]
    by (split; apply (bool_decide_unpack _); by vm_compute).
  unfold image_Open, open_reader, image_GetStat, GetSupportedExtensions, chd_Available. rewrite Hc.
  rewrite !bool_decide_eq_false_2 by (done || by rewrite He). split; [done|]. split; [done|].
  rewrite He. set_solver.
Qed.

(** An opened image has the empty info that Open makes. *)
Lemma image_Open_info p file n c : image_Open p file n = Ok (Some c) → info c = zeroInfo.
Proof.
  unfold image_Open. intros Hrun. apply bind_Ok_inv in Hrun as ([r|] & _ & Hrun); [|done].
  by injection Hrun as <-.
Qed.

(** Opening an image file gives a cached reader of its content, at its start. *)
Lemma image_Open_ok content p f r n :
  image_file content p f r →
  ∃ c, image_Open p (Some f) n = Ok (Some c) ∧ reader_ok content c ∧ cr_pos c = 0 ∧ info c = zeroInfo.
Proof.
  intros Hi. destruct (image_file_opens content p f r Hi) as [Ho Hr]. unfold image_Open.
  rewrite Ho, bind_Ok. eexists. split; [reflexivity|]. split; [by apply NewCachedReader_ok|done].
Qed.
End CompressedImage.
