(* ===== verification/ImageSafety.v ===== *)
(** * What image files must be like for the program not to panic

    The parsers of the image formats allocate what the header says and the readers
    what the offset table says; a negative or absurd length panics.  Here is what a
    file has to be like for that not to happen, and what is then true of the opened
    image: every block reads to an error or to enough bytes, whatever the decoders
    make of it. *)
From stdpp Require Import gmap.
From S2P Require Import Prelude RdmaProtocol UdpfsProtocol BlockCache CachedReader CompressedFile Cso Zso Chd ChdStub GoPath CompressedImage.

(** ** Readers whose blocks may fail *)

Section Serving.
Context {R : Type} `{BlockReader R}.

(** Every block of the content reads, without a panic, to an error or to its bytes. *)
Definition serves (r : R) (content : list byte) : Prop :=
  0 < BlockSize r ∧ NumBlocks r = (zlen content + BlockSize r - 1) / BlockSize r ∧
  UncompressedSize r = zlen content ∧
  ∀ idx, 0 <= idx < NumBlocks r →
    ∃ res, ReadBlock idx r = Ok (res, r) ∧ ∀ b, res = Val b → block_ok (BlockSize r) idx content b.

Definition serving : BlockContent R.
Proof.
  refine {| represents := serves |}.
  - by intros r content (? & _).
  - by intros r content (_ & ? & _).
  - by intros r content (_ & _ & ? & _).
  - intros r content idx Hr Hidx. pose proof Hr as (_ & _ & _ & Hall). destruct (Hall idx Hidx) as (res & Hrun & Hb).
    exists res, r. by split_and!.
Defined.

(** The bytes of a block, zeros for one that fails. *)
Definition block_bytes (r : R) (idx : nat) : list byte :=
  match ReadBlock (Z.of_nat idx) r with
  | Ok (Val b, _) => take (Z.to_nat (BlockSize r)) b
  | _ => replicate (Z.to_nat (BlockSize r)) (z2b 0)
  end.

(** A reader of blocks that are long enough is a reader of some content. *)
Lemma long_blocks_serve r :
  0 < BlockSize r → 0 <= UncompressedSize r →
  NumBlocks r = (UncompressedSize r + BlockSize r - 1) / BlockSize r →
  (∀ idx, 0 <= idx < NumBlocks r →
     ∃ res, ReadBlock idx r = Ok (res, r) ∧ ∀ b, res = Val b → BlockSize r <= zlen b) →
  ∃ content, serves r content.
Proof.
  intros Hbs Hsz Hnum Hall. set (bs := BlockSize r) in *. set (num := NumBlocks r) in *.
  set (pieces := map (block_bytes r) (List.seq 0 (Z.to_nat num))).
  assert (0 <= num ∧ UncompressedSize r <= num * bs) as [Hn Hle] by (rewrite Hnum; split; [apply Z.div_pos; lia|zlia]).
  assert (Forall (λ l, length l = Z.to_nat bs) pieces) as Hp.
  { apply Forall_lookup. intros i l Hl. unfold pieces in Hl. apply list_lookup_fmap_Some in Hl as (k & -> & Hk).
    apply lookup_seq in Hk as [-> Hk]. rewrite Nat.add_0_l. unfold block_bytes. fold bs.
    destruct (Hall (Z.of_nat i) ltac:(lia)) as ([b|e] & -> & Hb); [|apply length_replicate].
    specialize (Hb b eq_refl). rewrite length_take. unfold zlen in Hb. lia. }
  assert (length (concat pieces) = (Z.to_nat num * Z.to_nat bs)%nat) as Hlen.
  { rewrite (length_concat_uniform _ _ Hp). unfold pieces. by rewrite length_map, length_seq. }
  set (content := take (Z.to_nat (UncompressedSize r)) (concat pieces)). exists content.
  assert (zlen content = UncompressedSize r) as Hc by (unfold content, zlen; rewrite length_take, Hlen; nia).
  split; [done|]. rewrite Hc. split; [done|]. split; [done|]. intros idx Hidx.
  destruct (Hall idx Hidx) as (res & Hrun & Hb). exists res. split; [done|]. intros b ->. specialize (Hb b eq_refl).
  assert (pieces !! Z.to_nat idx = Some (take (Z.to_nat bs) b)) as Hpi.
  { unfold pieces. rewrite list_lookup_fmap, lookup_seq_lt by lia. simpl. f_equal. unfold block_bytes.
    rewrite Z2Nat.id by lia. fold bs. by rewrite Hrun. }
  pose proof (concat_block (Z.to_nat bs) pieces (Z.to_nat idx) _ Hp Hpi) as Hcb. rewrite !Z2Nat.id in Hcb by lia.
  fold bs. unfold block_ok. trans (take (Z.to_nat bs) b); [|apply prefix_take]. rewrite <-Hcb.
  unfold content_block, content. rewrite skipn_firstn_comm, take_take, Nat.min_comm, <-take_take. apply prefix_take.
Qed.
End Serving.

(** ** Sizes *)

(** A size whose table can be allocated: not negative, below 64 TiB. *)
Definition size_ok (size : Z) : Prop := 0 <= size < 2 ^ 46.

(** The bytes between two offsets can be allocated. *)
Definition gap_ok (align raw next : Z) : Prop :=
  0 <= i64 (file_offset next align - file_offset raw align) <= maxAlloc.

Lemma blocks_bound size bs :
  size_ok size → 0 < bs < 2 ^ 32 →
  block_count size bs = (size + bs - 1) / bs ∧ 0 <= (size + bs - 1) / bs <= size.
Proof.
  intros [Hs Hs'] Hb. split; [apply block_count_spec; lia|]. split; [apply Z.div_pos; lia|].
  destruct (decide (size = 0)) as [->|]; [rewrite Z.div_small; lia|]. apply Z.div_le_upper_bound; nia.
Qed.

Lemma read_full_total off n f : 0 <= n <= maxAlloc → ∃ r, read_full off n f = Ok r.
Proof.
  intros Hn. unfold read_full. destruct (off <? 0); [by eexists|].
  rewrite (proj2 (Z.ltb_ge n 0)), (proj2 (Z.ltb_ge maxAlloc n)) by lia. cbn [orb]. repeat case_match; by eexists.
Qed.

Lemma read_full_length off n f b : read_full off n f = Ok (Val b) → 0 <= n → zlen b = n.
Proof.
  unfold read_full. intros Hr Hn. destruct (Z.ltb_spec off 0); [done|]. destruct (_ || _); [done|].
  destruct (Z.leb_spec (off + n) (zlen (f_data f))).
  - injection Hr as <-. unfold sub_bytes, zlen in *. rewrite length_take, length_drop. lia.
  - destruct (Z.eqb_spec n 0) as [->|]; [by injection Hr as <-|]. by repeat case_match.
Qed.

Lemma length_words n b : length (words n b) = n.
Proof. unfold words. by rewrite length_map, length_seq. Qed.

Lemma index_total {A} (l : list A) i : 0 <= i < zlen l → ∃ x, index l i = Ok x ∧ l !! Z.to_nat i = Some x.
Proof.
  intros Hi. destruct (lookup_lt_is_Some_2 l (Z.to_nat i)) as [x Hx]; [unfold zlen in Hi; lia|].
  exists x. split; [apply index_ok; [lia|done]|done].
Qed.

Lemma pad_block_long bs out : bs <= zlen (pad_block bs out).
Proof. unfold pad_block. case_bool; [|done]. rewrite zlen_app. unfold zlen at 2. rewrite length_replicate. lia. Qed.

(** ** CSO files *)

(** The size in the header, if there is one, and the offsets of blocks that are not
    plain, if there is a table. *)
Definition cso_file_ok (f : OsFile) : Prop :=
  (24 <= zlen (f_data f) → sub_bytes (f_data f) 0 4 = csoMagic → size_ok (i64_at (f_data f) 8)) ∧
  ∀ c, cso_parseHeader f = Ok (Val c) → ∀ i raw next,
    cso_offsets c !! i = Some raw → cso_offsets c !! S i = Some next → high_bit raw = false →
    gap_ok (cso_align c) raw next.

(** What the header that is read has of the file. *)
Lemma header_bytes (n : nat) f b :
  read_full 0 (Z.of_nat n) f = Ok (Val b) → Z.of_nat n <= maxAlloc → (0 < n)%nat →
  Z.of_nat n <= zlen (f_data f) ∧ b = take n (f_data f).
Proof.
  intros Hr Hn Hp. unfold read_full in Hr. cbn [Z.ltb] in Hr. change (0 <? 0) with false in Hr. cbv iota in Hr.
  rewrite (proj2 (Z.ltb_ge _ 0)), (proj2 (Z.ltb_ge maxAlloc _)) in Hr by lia. cbn [orb] in Hr.
  destruct (Z.leb_spec (0 + Z.of_nat n) (zlen (f_data f))).
  - injection Hr as <-. split; [lia|]. unfold sub_bytes. by rewrite Nat2Z.id, drop_0.
  - rewrite (proj2 (Z.eqb_neq (Z.of_nat n) 0)) in Hr by lia. by case_match.
Qed.

Lemma sub_bytes_take (n off k : nat) (d : list byte) :
  (off + k <= n)%nat → sub_bytes (take n d) off k = sub_bytes d off k.
Proof. intros Hk. unfold sub_bytes. rewrite skipn_firstn_comm, take_take. f_equal. lia. Qed.

Lemma le_at_prefix (n off k : nat) (d : list byte) : (off + k <= n)%nat → le_at (take n d) off k = le_at d off k.
Proof. intros Hk. unfold le_at. by rewrite sub_bytes_take. Qed.

Lemma le_at_4 (d : list byte) off : 0 <= le_at d off 4 < 2 ^ 32.
Proof. exact (le_at_bound d off 4). Qed.

(** How a header is parsed: an error, or the fields with the table. *)
Lemma cso_parse_cases f :
  cso_file_ok f →
  (∃ e, cso_parseHeader f = Ok (Err e)) ∨
  ∃ c, cso_parseHeader f = Ok (Val c) ∧ cso_f c = Some f ∧ 0 < cso_blockSize c < 2 ^ 32 ∧ size_ok (cso_size c) ∧
    cso_numBlocks c = (cso_size c + cso_blockSize c - 1) / cso_blockSize c ∧
    zlen (cso_offsets c) = cso_numBlocks c + 1.
Proof.
  intros [Hsz _]. unfold cso_parseHeader. destruct (read_full_total 0 24 f) as [[b|e] Hr]; [unfold maxAlloc; lia| |].
  2: { left. exists e. by rewrite Hr, bind_Ok. }
  rewrite Hr, bind_Ok. destruct (header_bytes 24 f b Hr) as [Hl ->]; [unfold maxAlloc; lia|lia|].
  rewrite sub_bytes_take by lia. case_bool_decide as Em; cbn [negb]; [|left; by eexists]. cbv zeta.
  unfold i64_at. rewrite !le_at_prefix by lia. specialize (Hsz Hl Em). unfold i64_at in Hsz.
  set (size := i64 (le_at (f_data f) 8 8)) in *. pose proof (le_at_4 (f_data f) 16) as Hbs. set (bs := le_at (f_data f) 16 4) in *.
  destruct (Z.eqb_spec bs 0); [left; by eexists|]. destruct (blocks_bound size bs Hsz ltac:(lia)) as [-> Hnum].
  set (num := (size + bs - 1) / bs) in *. destruct Hsz as [Hs1 Hs2].
  rewrite i64_small by lia. destruct (read_full_total 24 ((num + 1) * 4) f) as [[t|e] ->]; [unfold maxAlloc; lia| |].
  - right. eexists. rewrite bind_Ok. split; [reflexivity|]. cbn [cso_f cso_blockSize cso_size cso_numBlocks cso_offsets]. split_and!; try done; try lia.
    unfold zlen. rewrite length_words. lia.
  - left. exists e. by rewrite bind_Ok.
Qed.

Lemma cso_blocks_total `{Inflate} f c idx :
  cso_file_ok f → cso_parseHeader f = Ok (Val c) → cso_f c = Some f → 0 < cso_blockSize c < 2 ^ 32 →
  zlen (cso_offsets c) = cso_numBlocks c + 1 → 0 <= idx < cso_numBlocks c →
  ∃ res, cso_ReadBlock idx c = Ok (res, c) ∧ ∀ b, res = Val b → cso_blockSize c <= zlen b.
Proof.
  intros [_ Hgap] Hp Hf Hbs Hlen Hidx. specialize (Hgap c Hp). unfold cso_ReadBlock.
  rewrite (proj2 (Z.ltb_ge idx 0)), (proj2 (Z.leb_gt _ idx)) by lia. cbn [orb].
  destruct (index_total (cso_offsets c) idx) as (raw & -> & Hraw); [lia|]. rewrite bind_Ok. cbv zeta.
  destruct (index_total (cso_offsets c) (idx + 1)) as (next & Hn & Hnext); [lia|].
  replace (Z.to_nat (idx + 1)) with (S (Z.to_nat idx)) in Hnext by lia. rewrite Hf.
  destruct (high_bit raw) eqn:Eh.
  - rewrite bind_Ok. destruct (read_full_total (file_offset raw (cso_align c)) (cso_blockSize c) f) as [[b|e] Hr];
      [unfold maxAlloc; lia|..]; rewrite Hr, bind_Ok; [|by eexists].
    eexists. split; [reflexivity|]. intros b' [= <-]. by rewrite (read_full_length _ _ _ _ Hr) by lia.
  - rewrite Hn, !bind_Ok. destruct (read_full_total (file_offset raw (cso_align c)) _ f (Hgap _ _ _ Hraw Hnext Eh)) as [[b|e] ->];
      rewrite bind_Ok; [|by eexists].
    destruct (decompressDeflate b _) as [out|e] eqn:Ed; eexists; (split; [reflexivity|]).
    + unfold decompressDeflate in Ed. destruct (flate_read b); [|done]. injection Ed as <-. intros ? [= <-]. apply pad_block_long.
    + unfold decompressZlib. destruct (zlib_read b); [|done]. intros ? [= <-]. apply pad_block_long.
Qed.

(** ** ZSO and ZISO files *)

Definition zso_file_ok (f : OsFile) : Prop :=
  (24 <= zlen (f_data f) → sub_bytes (f_data f) 0 4 ∈ [zisoMagic; zsoMagic] → size_ok (i64_at (f_data f) 8)) ∧
  ∀ z, zso_parseHeader f = Ok (Val z) →
    if zso_ziso z
    then ∀ i raw next, zso_offsets z !! i = Some raw → zso_offsets z !! S i = Some next → gap_ok (zso_align z) raw next
    else ∀ raw, zso_offsets z !! Z.to_nat (zso_numBlocks z - 1) = Some raw → raw <= zlen (f_data f) <= maxAlloc.

(** The destination of the LZ4 decoder keeps its length. *)
Definition lz4_keeps_length `{Lz4} : Prop :=
  ∀ src n out, 0 <= n → UncompressBlock src n = Val out → zlen out = n.

Lemma words_bound n b i x : words n b !! i = Some x → 0 <= x < 2 ^ 32.
Proof. unfold words. intros (k & -> & _)%list_lookup_fmap_Some. apply le_at_4. Qed.

Lemma zso_parse_cases f :
  zso_file_ok f →
  (∃ e, zso_parseHeader f = Ok (Err e)) ∨
  ∃ z, zso_parseHeader f = Ok (Val z) ∧ zso_f z = Some f ∧ 0 < zso_blockSize z < 2 ^ 32 ∧ size_ok (zso_size z) ∧
    zso_numBlocks z = (zso_size z + zso_blockSize z - 1) / zso_blockSize z ∧
    zlen (zso_offsets z) = zso_numBlocks z + (if zso_ziso z then 1 else 0) ∧
    ∀ i x, zso_offsets z !! i = Some x → 0 <= x < 2 ^ 32.
Proof.
  intros [Hsz _]. unfold zso_parseHeader. destruct (read_full_total 0 24 f) as [[b|e] Hr]; [unfold maxAlloc; lia| |].
  2: { left. exists e. by rewrite Hr, bind_Ok. }
  rewrite Hr, bind_Ok. destruct (header_bytes 24 f b Hr) as [Hl ->]; [unfold maxAlloc; lia|lia|].
  rewrite sub_bytes_take by lia. cbv zeta. set (ziso := bool_decide (sub_bytes (f_data f) 0 4 = zisoMagic)).
  destruct (negb ziso && _) eqn:Em; [left; by eexists|].
  assert (sub_bytes (f_data f) 0 4 ∈ [zisoMagic; zsoMagic]) as Hmagic.
  { unfold ziso in Em. rewrite !elem_of_cons. apply andb_false_iff in Em as [Em|Em]; apply negb_false_iff, bool_decide_eq_true in Em; auto. }
  unfold i64_at. rewrite !le_at_prefix by lia. specialize (Hsz Hl Hmagic). unfold i64_at in Hsz. clear Em Hmagic.
  set (size := i64 (le_at (f_data f) 8 8)) in *. pose proof (le_at_4 (f_data f) 16) as Hbs. set (bs := le_at (f_data f) 16 4) in *.
  destruct (Z.eqb_spec bs 0); [left; by eexists|]. destruct (blocks_bound size bs Hsz ltac:(lia)) as [-> Hnum].
  set (num := (size + bs - 1) / bs) in *. destruct Hsz as [Hs1 Hs2].
  set (entries := if negb ziso then num else num + 1). assert (entries = num + if ziso then 1 else 0) as He by (unfold entries; destruct ziso; simpl; lia).
  assert (0 <= entries <= num + 1) as Hn by (rewrite He; destruct ziso; lia). rewrite i64_small by lia.
  destruct (read_full_total (le_at (f_data f) 4 4) (entries * 4) f) as [[t|e] ->]; [unfold maxAlloc; lia| |].
  - right. eexists. rewrite bind_Ok. split; [reflexivity|].
    cbn [zso_f zso_blockSize zso_size zso_numBlocks zso_offsets zso_ziso]. split_and!; try done; try lia.
    + unfold zlen. rewrite length_words. lia.
    + intros i x. apply words_bound.
  - left. exists e. by rewrite bind_Ok.
Qed.

Lemma lz4_retry_length `{Lz4} n src bs out : lz4_keeps_length → 0 <= bs → lz4_retry n src bs = Val out → zlen out = bs.
Proof.
  intros Hl Hbs. induction n as [|n IH]; [done|]. cbn [lz4_retry].
  destruct (UncompressBlock _ _) as [o|e] eqn:E; [|exact IH]. intros [= <-]. by eapply Hl.
Qed.

(** Where a block is: an extent that can be allocated. *)
Lemma zso_extent `{Lz4} f z idx raw :
  zso_file_ok f → zso_parseHeader f = Ok (Val z) → zso_f z = Some f →
  zlen (zso_offsets z) = zso_numBlocks z + (if zso_ziso z then 1 else 0) →
  (∀ i x, zso_offsets z !! i = Some x → 0 <= x < 2 ^ 32) →
  0 <= idx < zso_numBlocks z → zso_offsets z !! Z.to_nat idx = Some raw →
  ∃ off n, 0 <= n <= maxAlloc ∧
    (if zso_ziso z then
       nextRaw ← index (zso_offsets z) (idx + 1);
       Ok (Val (file_offset raw (zso_align z), i64 (file_offset nextRaw (zso_align z) - file_offset raw (zso_align z))))
     else if idx + 1 <? zso_numBlocks z then
       next ← index (zso_offsets z) (idx + 1); Ok (Val (raw, u32 (next - raw)))
     else
       match zso_f z with
       | None => Ok (Err ErrInvalid)
       | Some f => Ok (Val (raw, zlen (f_data f) - raw))
       end) = Ok (Val (off, n)).
Proof.
  intros [_ Ht] Hp Hf Hlen Hb Hidx Hraw. specialize (Ht z Hp). destruct (zso_ziso z).
  - destruct (index_total (zso_offsets z) (idx + 1)) as (next & -> & Hnext); [lia|]. rewrite bind_Ok.
    replace (Z.to_nat (idx + 1)) with (S (Z.to_nat idx)) in Hnext by lia. eexists _, _. split; [exact (Ht _ _ _ Hraw Hnext)|done].
  - destruct (Z.ltb_spec (idx + 1) (zso_numBlocks z)).
    + destruct (index_total (zso_offsets z) (idx + 1)) as (next & -> & Hnext); [lia|]. rewrite bind_Ok.
      eexists _, _. split; [|done]. pose proof (u32_bound (next - raw)). unfold maxAlloc. lia.
    + rewrite Hf. eexists _, _. split; [|done]. assert (zso_numBlocks z - 1 = idx) as E by lia. rewrite E in Ht.
      pose proof (Ht raw Hraw). pose proof (Hb _ _ Hraw). lia.
Qed.

Lemma zso_blocks_total `{Lz4} f z idx :
  lz4_keeps_length → zso_file_ok f → zso_parseHeader f = Ok (Val z) → zso_f z = Some f → 0 < zso_blockSize z < 2 ^ 32 →
  zlen (zso_offsets z) = zso_numBlocks z + (if zso_ziso z then 1 else 0) →
  (∀ i x, zso_offsets z !! i = Some x → 0 <= x < 2 ^ 32) → 0 <= idx < zso_numBlocks z →
  ∃ res, zso_ReadBlock idx z = Ok (res, z) ∧ ∀ b, res = Val b → zso_blockSize z <= zlen b.
Proof.
  intros Hlz Hok Hp Hf Hbs Hlen Hb Hidx. unfold zso_ReadBlock.
  rewrite (proj2 (Z.ltb_ge idx 0)), (proj2 (Z.leb_gt _ idx)) by lia. cbn [orb].
  destruct (index_total (zso_offsets z) idx) as (raw & -> & Hraw); [destruct (zso_ziso z); lia|]. rewrite bind_Ok. cbv zeta.
  destruct (zso_extent f z idx raw Hok Hp Hf Hlen Hb Hidx Hraw) as (off & n & Hn & E). rewrite E, bind_Ok, Hf.
  destruct (read_full_total off n f Hn) as [[b|e] ->]; rewrite bind_Ok; [|by eexists].
  destruct (high_bit raw); eexists; (split; [reflexivity|]).
  - intros ? [= <-]. unfold zlen. rewrite length_copy_at, length_replicate. lia.
  - intros out Ho. by rewrite (lz4_retry_length _ _ (zso_blockSize z) _ Hlz ltac:(lia) Ho).
Qed.

(** ** CHD files *)

Definition chd_file_ok (f : OsFile) : Prop :=
  124 <= zlen (f_data f) → sub_bytes (f_data f) 0 8 = chdMagic → be_at (f_data f) 32 8 < 2 ^ 62.

(** libchdr fills a buffer of the hunk size in the header. *)
Definition chd_fills_buffer `{LibChdr} : Prop :=
  ∀ f h i hunk, chd_open f = Some h → chd_read (Some h) i = Some hunk → zlen hunk = be_at (f_data f) 56 4.

Lemma be_at_prefix (n off k : nat) (d : list byte) : (off + k <= n)%nat → be_at (take n d) off k = be_at d off k.
Proof. intros Hk. unfold be_at. by rewrite sub_bytes_take. Qed.

Lemma be_at_bound (d : list byte) off (n : nat) : 0 <= be_at d off n < 256 ^ Z.of_nat n.
Proof.
  unfold be_at, be_get. pose proof (le_get_bound (reverse (sub_bytes d off n))) as Hb. split; [lia|].
  eapply Z.lt_le_trans; [apply Hb|]. apply Z.pow_le_mono_r; [lia|]. unfold zlen. rewrite length_reverse.
  unfold sub_bytes. rewrite length_take. lia.
Qed.

Lemma chd_header_total f : ∃ r, chd_header f = Ok r.
Proof.
  unfold chd_header. destruct (read_full_total 0 124 f) as [[b|e] ->]; [unfold maxAlloc; lia|..]; rewrite bind_Ok; [|by eexists].
  repeat case_match; by eexists.
Qed.

(** What the header says, when it is one. *)
Lemma chd_header_cases f :
  chd_file_ok f →
  (∃ e, chd_header f = Ok (Err e)) ∨
  ∃ hs cd lb, chd_header f = Ok (Val (hs, (lb + hs - 1) / hs, cd && (hs mod cdFrameSize =? 0), lb)) ∧
    hs = be_at (f_data f) 56 4 ∧ 0 < hs < 2 ^ 32 ∧ 0 <= lb < 2 ^ 62.
Proof.
  intros Hok. unfold chd_header. destruct (read_full_total 0 124 f) as [[b|e] Hr]; [unfold maxAlloc; lia| |].
  2: { left. exists e. by rewrite Hr, bind_Ok. }
  rewrite Hr, bind_Ok. destruct (header_bytes 124 f b Hr) as [Hl ->]; [unfold maxAlloc; lia|lia|].
  rewrite sub_bytes_take by lia. destruct (_ || _) eqn:Em; [left; by eexists|].
  apply orb_false_iff in Em as [_ Em]. apply negb_false_iff, bool_decide_eq_true in Em. specialize (Hok Hl Em).
  cbv zeta. destruct (negb _); [left; by eexists|]. set (cd := (_ =? cdFrameSize) || _).
  rewrite (be_at_prefix 124 32 8), (be_at_prefix 124 56 4) by lia.
  pose proof (be_at_bound (f_data f) 56 4) as Hh. pose proof (be_at_bound (f_data f) 32 8) as Hlb.
  set (hs := be_at (f_data f) 56 4) in *. set (lb := be_at (f_data f) 32 8) in *.
  destruct (Z.eqb_spec hs 0); [left; by eexists|]. right. exists hs, cd, lb.
  change (256 ^ Z.of_nat 4) with (2 ^ 32) in Hh.
  assert (0 <= (lb + hs - 1) / hs <= lb + hs - 1) by (split; [apply Z.div_pos; lia|apply Z.div_le_upper_bound; nia]).
  unfold u64. rewrite (Z.mod_small (lb + hs)), Z.mod_small, i64_small by lia. split; [reflexivity|]. lia.
Qed.

Definition chd_shape `{LibChdr} (h : chd_file) (f : OsFile) (c : CHD) : Prop :=
  chd_chd c = Some h ∧ chd_hunkSize c = be_at (f_data f) 56 4 ∧ 0 < chd_blockSize c ∧ 0 <= chd_size c ∧
  chd_numBlocks c = (chd_size c + chd_blockSize c - 1) / chd_blockSize c ∧
  if chd_isCDFormat c
  then chd_hunkSize c = chd_framesPerHunk c * 2448 ∧ chd_blockSize c = chd_framesPerHunk c * 2048
  else chd_blockSize c = chd_hunkSize c.

Lemma chd_parse_cases `{LibChdr} h f :
  chd_file_ok f →
  (∃ e, chd_parseHeader h f = Ok (Err e)) ∨ ∃ c, chd_parseHeader h f = Ok (Val c) ∧ chd_shape h f c.
Proof.
  intros Hok. unfold chd_parseHeader. destruct (chd_header_cases f Hok) as [[e ->]|(hs & cd & lb & -> & Ehs & Hhs & Hlb)];
    rewrite bind_Ok; [left; by eexists|right]. set (num := (lb + hs - 1) / hs).
  assert (0 <= num ∧ num * hs <= lb + hs - 1 < num * hs + hs) as [Hn Hnum]
    by (unfold num; split; [apply Z.div_pos; lia|zlia]).
  set (iscd := cd && _). destruct iscd eqn:Ecd; eexists; (split; [reflexivity|]); unfold chd_shape;
    cbn [chd_chd chd_hunkSize chd_blockSize chd_size chd_numBlocks chd_isCDFormat chd_framesPerHunk];
    unfold cdFrameSize, cdUserData in *.
  - unfold iscd in Ecd. apply andb_true_iff in Ecd as [_ Ecd%Z.eqb_eq].
    set (k := hs / 2448). assert (hs = k * 2448 ∧ 0 < k) as [Hk Hk0] by (unfold k; zlia).
    rewrite (i64_small (num * k)) by nia. rewrite i64_small by nia.
    split; [done|]. split; [done|]. split; [lia|]. split; [nia|]. split; [|lia].
    replace (num * k * 2048 + k * 2048 - 1) with (num * (k * 2048) + (k * 2048 - 1)) by lia.
    rewrite Z.div_add_l, (Z.div_small (k * 2048 - 1)) by lia. lia.
  - rewrite i64_small by lia. by split_and!; try lia.
Qed.

Lemma chd_blocks_total `{LibChdr} h f c idx :
  chd_fills_buffer → chd_open f = Some h → chd_shape h f c → 0 <= idx < chd_numBlocks c →
  ∃ res, chd_ReadBlock idx c = Ok (res, c) ∧ ∀ b, res = Val b → chd_blockSize c <= zlen b.
Proof.
  intros Hfill Ho (Hh & Hhs & Hbs & _ & _ & Hcd) Hidx. unfold chd_ReadBlock.
  rewrite (proj2 (Z.ltb_ge idx 0)), (proj2 (Z.leb_gt _ idx)) by lia. cbn [orb]. rewrite Hh.
  destruct (chd_read (Some h) idx) as [hunk|] eqn:Er; [|by eexists]. pose proof (Hfill f h idx hunk Ho Er) as Hl.
  destruct (chd_isCDFormat c); cbn [negb].
  - destruct Hcd as [Hk Hk']. change 0 with (Z.of_nat 0). rewrite cd_frames_spec, bind_Ok by lia.
    eexists. split; [reflexivity|]. intros b [= <-]. simpl app. unfold zlen. rewrite length_frames; lia.
  - eexists. split; [reflexivity|]. intros b [= <-]. unfold zlen. rewrite length_copy_at, length_replicate. lia.
Qed.

(** ** Image files *)

(** A file whose header and table are sane for the format its name says. *)
Definition image_file_sane `{Decoders} (p : path) (f : OsFile) : Prop :=
  (ToLower (Ext p) ∈ cso_Extensions → cso_file_ok f) ∧
  (ToLower (Ext p) ∈ zso_Extensions → zso_file_ok f) ∧
  (ToLower (Ext p) ∈ chd_Extensions → chd_file_ok f).

Section Safety.
Context `{Decoders}.
Context (Hlz : lz4_keeps_length) (Hchd : chd_fills_buffer).

Lemma open_reader_serves p f :
  image_file_sane p f →
  open_reader p (Some f) = Ok None ∨ ∃ r content, open_reader p (Some f) = Ok (Some r) ∧ serves r content.
Proof.
  intros (Hc & Hz & Hh). unfold open_reader, cso_Open, zso_Open, chd_Open.
  destruct (bool_decide_reflect (ToLower (Ext p) ∈ zso_Extensions)) as [E|].
  { destruct (zso_parse_cases f (Hz E)) as [[e ->]|(z & Hp & Hf & Hbs & Hsz & Hnum & Hlen & Hb)]; [left; by rewrite bind_Ok|].
    right. exists (RZso z). rewrite Hp, bind_Ok. destruct (long_blocks_serve (RZso z)) as [content Hs].
    - cbn. lia.
    - apply Hsz.
    - exact Hnum.
    - intros idx Hidx. destruct (zso_blocks_total f z idx Hlz (Hz E) Hp Hf Hbs Hlen Hb Hidx) as (res & Hrun & Hres).
      exists res. split; [|exact Hres]. cbn [ReadBlock image_reader zso_reader]. unfold map_reader. by rewrite Hrun, bind_Ok.
    - by exists content. }
  destruct (bool_decide_reflect (ToLower (Ext p) ∈ cso_Extensions)) as [E|].
  { destruct (cso_parse_cases f (Hc E)) as [[e ->]|(c & Hp & Hf & Hbs & Hsz & Hnum & Hlen)]; [left; by rewrite bind_Ok|].
    right. exists (RCso c). rewrite Hp, bind_Ok. destruct (long_blocks_serve (RCso c)) as [content Hs].
    - cbn. lia.
    - apply Hsz.
    - exact Hnum.
    - intros idx Hidx. destruct (cso_blocks_total f c idx (Hc E) Hp Hf Hbs Hlen Hidx) as (res & Hrun & Hres).
      exists res. split; [|exact Hres]. cbn [ReadBlock image_reader cso_reader]. unfold map_reader. by rewrite Hrun, bind_Ok.
    - by exists content. }
  destruct (bool_decide_reflect (ToLower (Ext p) ∈ chd_Extensions)) as [E|]; [|by left].
  rewrite (proj1 (chd_extension _ E)). destruct (chd_open f) as [h|] eqn:Ho; [|left; by rewrite bind_Ok].
  destruct (chd_parse_cases h f (Hh E)) as [[e ->]|(c & Hp & Hs)]; [left; by rewrite bind_Ok|].
  right. exists (RChd c). rewrite Hp, bind_Ok. destruct (long_blocks_serve (RChd c)) as [content Hc'].
  - apply Hs.
  - apply Hs.
  - apply Hs.
  - intros idx Hidx. destruct (chd_blocks_total h f c idx Hchd Ho Hs Hidx) as (res & Hrun & Hres).
    exists res. split; [|exact Hres]. cbn [ReadBlock image_reader chd_reader]. unfold map_reader. by rewrite Hrun, bind_Ok.
  - by exists content.
Qed.

(** Opening a sane file gives nothing or a reader of some content. *)
Lemma image_Open_safe p file n :
  (∀ f, file = Some f → image_file_sane p f) →
  image_Open p file n = Ok None ∨
  ∃ c content, image_Open p file n = Ok (Some c) ∧ info c = zeroInfo ∧ reader_ok (HB := serving) content c.
Proof.
  intros Hs. unfold image_Open. destruct file as [f|].
  2: { left. unfold open_reader, zso_Open, cso_Open, chd_Open, stub_Open. repeat case_match; by rewrite ?bind_Ok. }
  destruct (open_reader_serves p f (Hs f eq_refl)) as [->|(r & content & -> & Hr)]; rewrite bind_Ok; [by left|].
  right. eexists _, content. split; [reflexivity|]. split; [done|]. exact (NewCachedReader_ok (HB := serving) r _ zeroInfo content Hr).
Qed.
End Safety.

(** The stat of an image never panics, whatever the file holds. *)
Lemma image_GetStat_total `{Decoders} p file : ∃ i, image_GetStat p file = Ok i.
Proof.
  unfold image_GetStat, zso_GetStat, cso_GetStat, chd_GetStat, stub_GetStat. destruct file as [f|].
  - destruct (read_full_total 0 16 f) as [[b|e] ->]; [unfold maxAlloc; lia|..];
      destruct (chd_header_total f) as [[[[[? ?] ?] ?]|e'] Hh];
      repeat first [rewrite bind_Ok|rewrite Hh|case_match]; by eexists.
  - repeat first [rewrite bind_Ok|case_match]; by eexists.
Qed.

(** A file that is not sane: a CSO header with a negative size makes the parser
    allocate a table of negative length, and opening the file panics. *)
Definition negative_cso : OsFile :=
  mkFile (str "bad.cso") (csoMagic ++ map z2b [0; 0; 0; 0] ++ replicate 7 (z2b 0) ++ map z2b [255; 0; 8; 0; 0; 0; 0; 0; 0]) zeroTime.

Lemma negative_size_panics `{Decoders} n :
  image_Open (str "/srv/bad.cso") (Some negative_cso) n = Panic MakeLenOutOfRange ∧ ¬ cso_file_ok negative_cso.
Proof.
  split; [by vm_compute|]. intros [Hs _]. destruct Hs as [Hs _]; [done|done|]. by vm_compute in Hs.
Qed.

(** ** Sizes in directory listings *)

(** The header of an image whose stat is asked for. *)
Lemma stat_header (hdr rest content : list byte) f :
  f_data f = hdr ++ rest → length hdr = 24%nat → zlen content < 2 ^ 31 → le_at hdr 8 8 = zlen content →
  read_full 0 16 f = Ok (Val (take 16 hdr)) ∧ i64_at (take 16 hdr) 8 = zlen content.
Proof.
  intros Hf Hl Hsz H8. split.
  - rewrite <-(take_drop 16 hdr), <-app_assoc in Hf. pose proof (read_full_part [] (take 16 hdr) _ f Hf) as Hr.
    assert (zlen (take 16 hdr) = 16) as E by (unfold zlen; rewrite length_take; lia). rewrite E in Hr.
    apply Hr. unfold maxAlloc. lia.
  - unfold i64_at. rewrite le_at_prefix, H8 by lia. pose proof (zlen_nonneg content). apply i64_small. lia.
Qed.

(** The stat by the path of a CHD file has the size that opening it finds. *)
Lemma chd_stat_size `{LibChdr} h f c :
  chd_parseHeader h f = Ok (Val c) → ∃ i, chd_GetStat f = Ok (Some i) ∧ Size_ (CompressedInfo_FileInfo i) = chd_size c.
Proof.
  unfold chd_parseHeader, chd_GetStat. intros Hp.
  apply bind_Ok_inv in Hp as ([[[[hs nb] cd] lb]|e] & -> & Hp); [|done]. injection Hp as <-. rewrite bind_Ok.
  eexists. split; [reflexivity|]. by destruct cd.
Qed.

(** The stat of an image by its path, which a directory listing shows, has the size
    of the uncompressed content. *)
Lemma listed_image_size `{Decoders} content p f r :
  image_file content p f r →
  ∃ fi, image_GetStat p (Some f) = Ok (Some fi) ∧ Size_ fi = zlen content.
Proof.
  intros Hi. pose proof (zlen_nonneg content) as Hn. unfold image_GetStat.
  assert (∀ h c, ToLower (Ext p) ∈ chd_Extensions → chd_parseHeader h f = Ok (Val c) → chd_size c = zlen content →
    ∃ fi, image_GetStat p (Some f) = Ok (Some fi) ∧ Size_ fi = zlen content) as Hchd.
  { intros h c He Hp <-. destruct (chd_stat_size h f c Hp) as (i & Hs & <-). unfold image_GetStat. cbv zeta.
    rewrite (bool_decide_eq_false_2 (_ ∈ zso_Extensions)), (bool_decide_eq_false_2 (_ ∈ cso_Extensions)),
      (bool_decide_eq_true_2 (_ ∈ chd_Extensions)) by eauto using chd_not_zso, chd_not_cso.
    rewrite (proj1 (chd_extension _ He)), Hs, bind_Ok. by eexists. }
  destruct Hi as [p bs l f He Hbs Hsz Hfit Hst Hf|p bs l f He Hbs Hsz Hfit Hst Hf
    |p bs ds f He Hbs Hsz Hfit Hst Hf|p f h c hunks He Ho Hp Hdvd|p f h c hunks He Ho Hp Hcd E].
  - rewrite bool_decide_eq_false_2, bool_decide_eq_true_2 by auto using cso_not_zso. unfold cso_GetStat.
    destruct (stat_header (cso_header bs (zlen content)) _ content f Hf) as [-> Hs]; [done..| |].
    { change (le_get (le_put 8 (zlen content)) = zlen content). apply le_get_put_small. lia. }
    rewrite bind_Ok. change (sub_bytes _ 0 4) with csoMagic. rewrite bool_decide_eq_true_2 by done. cbn [negb].
    rewrite bind_Ok. by eexists.
  - rewrite bool_decide_eq_true_2 by done. unfold zso_GetStat.
    destruct (stat_header (ziso_header bs (zlen content)) _ content f Hf) as [-> Hs]; [done..| |].
    { change (le_get (le_put 8 (zlen content)) = zlen content). apply le_get_put_small. lia. }
    rewrite bind_Ok. cbv zeta. change (sub_bytes _ 0 4) with zisoMagic.
    rewrite (bool_decide_eq_true_2 (zisoMagic = zisoMagic)) by done. cbn [negb andb]. rewrite bind_Ok. by eexists.
  - rewrite bool_decide_eq_true_2 by done. unfold zso_GetStat.
    destruct (stat_header (zso_header bs (zlen content)) _ content f Hf) as [-> Hs]; [done..| |].
    { change (le_get (le_put 8 (zlen content)) = zlen content). apply le_get_put_small. lia. }
    rewrite bind_Ok. cbv zeta. change (sub_bytes _ 0 4) with zsoMagic.
    rewrite (bool_decide_eq_true_2 (zsoMagic = zsoMagic)), andb_false_r by done. rewrite bind_Ok. by eexists.
  - apply (Hchd h c He Hp). by destruct Hdvd as (_ & _ & _ & _ & ? & _).
  - apply (Hchd h c He Hp). rewrite E. exact (rep_size c _ (chd_cd_represents c hunks Hcd)).
Qed.
