(* ===== verification/CompressionProperties.v ===== *)
(** * The properties of the compressed images

    What the reader of a compressed image shows of the uncompressed data, per
    format and for all formats behind [image_Open], and what its cache keeps. *)
From stdpp Require Import gmap.
From S2P Require Import Prelude UdpfsProtocol BlockCache CachedReader CompressedFile Cso Zso Chd GoPath CompressedImage ImageSafety.

(** ** A concrete image for the witnesses

    Decoders that copy their input into the buffer: "compressed" blocks are stored
    bytes, and a CHD file is a header and one hunk. *)
Module Stored.
#[global] Instance stored_inflate : Inflate := {| flate_read := λ b, Val b; zlib_read := λ b, Err OtherError |}.
#[global] Instance stored_lz4 : Lz4 := λ b n, Val (copy_at 0 b (replicate (Z.to_nat n) (z2b 0))).
#[global] Instance stored_chd : LibChdr :=
  {| chd_file := list (list byte);
     chd_open := λ f, Some [copy_at 0 (drop 124 (f_data f)) (replicate (Z.to_nat (be_at (f_data f) 56 4)) (z2b 0))];
     chd_read := λ h i, match h with Some hunks => hunks !! Z.to_nat i | None => None end |}.
#[global] Instance stored_decoders : Decoders := Build_Decoders _ _ _ true.

Definition content : list byte := map z2b [1; 2; 3; 4; 5; 6].
Definition blocks : list (bool * list byte) := [(true, map z2b [1; 2; 3; 4]); (false, map z2b [5; 6])].
Definition cso_file : OsFile := mkFile (str "a.cso") (image (cso_header 4 6) blocks) zeroTime.
Definition ziso_file : OsFile := mkFile (str "a.zso") (image (ziso_header 4 6) blocks) zeroTime.

Lemma cso_blocks : cso_stores 4 content blocks.
Proof.
  split; [done|]. intros [|[|i]] p d Hi; [injection Hi as <- <-|injection Hi as <- <-|done].
  - split; [done|]. by exists [].
  - exists (map z2b [5; 6]). split; [by left|]. by exists (map z2b [0; 0]).
Defined.

Lemma ziso_blocks : ziso_stores 4 content blocks.
Proof.
  split; [done|]. intros [|[|i]] p d Hi; [injection Hi as <- <-|injection Hi as <- <-|done].
  - split; [done|]. by exists [].
  - split; [done|]. exists (map z2b [5; 6; 0; 0]). split; [done|]. by exists (map z2b [0; 0]).
Defined.

Lemma stored_lz4_length : lz4_keeps_length.
Proof.
  intros src n out Hn [= <-]. unfold zlen. rewrite length_copy_at, length_replicate. lia.
Qed.

Lemma stored_chd_length : chd_fills_buffer.
Proof.
  intros f h i hunk [= <-]. cbn [chd_read stored_chd]. intros Hh. apply list_lookup_singleton_Some in Hh as [_ <-].
  unfold zlen. rewrite length_copy_at, length_replicate. pose proof (be_at_bound (f_data f) 56 4). lia.
Qed.

Lemma cso_image_file : image_file content (str "/iso/A.CSO") cso_file (RCso (cso_opened 4 content blocks cso_file)).
Proof. constructor; [by left|done|done|done|exact cso_blocks|done]. Defined.

Lemma ziso_image_file : image_file content (str "/iso/a.zso") ziso_file (RZso (ziso_opened 4 content blocks ziso_file)).
Proof. constructor; [by left|done|done|done|exact ziso_blocks|done]. Defined.

Definition zso_blocks : list (list byte) := [map z2b [1; 2; 3; 4]; map z2b [5; 6]].
Definition zso_file : OsFile := mkFile (str "b.zso") (zso_image 4 6 zso_blocks) zeroTime.

Lemma zso_image_file : image_file content (str "/iso/b.zso") zso_file (RZso (zso_opened 4 content zso_blocks zso_file)).
Proof.
  constructor; [by left|done|done|done| |done]. split; [done|].
  intros [|[|i]] d Hi; [injection Hi as <-|injection Hi as <-|done]; (split; [done|]).
  - exists (map z2b [1; 2; 3; 4]). split; [done|]. by exists [].
  - exists (map z2b [5; 6; 0; 0]). split; [done|]. by exists (map z2b [0; 0]).
Defined.

(** CHD files of one hunk: the header, with the logical size, the hunk size and the
    unit size, and the hunk. *)
Definition chd_bytes (logical hunkSize unitSize : Z) (hunk : list byte) : list byte :=
  chdMagic ++ map z2b [0; 0; 0; 124; 0; 0; 0; 5] ++ replicate 16 (z2b 0) ++ rev (le_put 8 logical) ++
  replicate 16 (z2b 0) ++ rev (le_put 4 hunkSize) ++ rev (le_put 4 unitSize) ++ replicate 60 (z2b 0) ++ hunk.

(** A DVD image of three bytes, in a hunk of four. *)
Definition dvd_file : OsFile := mkFile (str "d.chd") (chd_bytes 3 4 4 (map z2b [1; 2; 3; 0])) zeroTime.

Lemma dvd_image_file : ∃ r, image_file (map z2b [1; 2; 3]) (str "/iso/d.chd") dvd_file r.
Proof.
  eexists. eapply (ImageDvd _ _ _ _ _ [map z2b [1; 2; 3; 0]]);
    [by left|vm_compute; reflexivity|vm_compute; reflexivity|]. split_and!; try done.
  - by exists (map z2b [0]).
  - intros [|i] hunk Hi; [by injection Hi as <-|done].
Defined.

(** A CD image of one mode 2 frame, whose user data are its bytes from 24 on. *)
Definition mode2_hunk : list byte :=
  cdSync ++ map z2b [0; 0; 0; 2] ++ replicate 8 (z2b 0) ++ replicate 2424 (z2b 7).
Definition cd_file : OsFile := mkFile (str "c.chd") (chd_bytes 2448 2448 2448 mode2_hunk) zeroTime.

Lemma cd_image_file : ∃ r, image_file (replicate 2048 (z2b 7)) (str "/iso/c.chd") cd_file r.
Proof.
  eexists. eapply (ImageChd _ _ _ _ _ [mode2_hunk]);
    [by left|vm_compute; reflexivity|vm_compute; reflexivity| |vm_compute; reflexivity]. split_and!; try done.
  intros [|i] hunk Hi; [by injection Hi as <-|done].
Defined.
End Stored.

(** ** The formats *)

(** C23: a CSO file laid out by an encoder (24-byte header with the uncompressed
    size and the block size, offset table with the flag of plain blocks, blocks in
    order) is accepted by the parser, and the opened image represents exactly the
    encoded content: it has the right number of blocks and size, and every block
    reads without error to the bytes of that block. *)
Theorem cso_image_roundtrip `{Inflate} bs content l f :
  0 < bs < 2 ^ 31 → zlen content < 2 ^ 31 → table_end l + zlen (payload l) < 2 ^ 31 →
  cso_stores bs content l → f_data f = image (cso_header bs (zlen content)) l →
  ∃ c, cso_parseHeader f = Ok (Val c) ∧ cso_blockSize c = bs ∧ cso_size c = zlen content ∧
    cso_numBlocks c = (zlen content + bs - 1) / bs ∧
    ∀ idx, 0 <= idx < cso_numBlocks c →
      ∃ b, cso_ReadBlock idx c = Ok (Val b, c) ∧
        take (length (content_block bs idx content)) b = content_block bs idx content.
Proof.
  intros Hbs Hsize Hfit Hst Hf. exists (cso_opened bs content l f).
  rewrite (cso_parse_image bs content l f) by done. split; [done|]. split; [done|]. split; [done|].
  split; [apply Hst|]. intros idx Hidx.
  destruct (cso_read_image bs content l f Hfit Hst Hf idx Hidx) as (b & Hrun & k & ->).
  exists (content_block bs idx content ++ k). split; [done|]. by rewrite take_app_length.
Qed.

Lemma cso_image_roundtrip_witness :
  ∃ c, cso_parseHeader Stored.cso_file = Ok (Val c) ∧ cso_size c = 6 ∧ cso_numBlocks c = 2.
Proof.
  destruct (cso_image_roundtrip 4 Stored.content Stored.blocks Stored.cso_file) as (c & H1 & _ & H2 & H3 & _);
    [done..|exact Stored.cso_blocks|done|]. by exists c.
Defined.

(** C24: the same for ZISO files, whose table has one more entry for the end of
    the last block, plain blocks flagged, and the others LZ4 blocks. *)
Theorem ziso_image_roundtrip `{Lz4} bs content l f :
  0 < bs < 2 ^ 31 → zlen content < 2 ^ 31 → table_end l + zlen (payload l) < 2 ^ 31 →
  ziso_stores bs content l → f_data f = image (ziso_header bs (zlen content)) l →
  ∃ z, zso_parseHeader f = Ok (Val z) ∧ zso_ziso z = true ∧ zso_blockSize z = bs ∧
    zso_size z = zlen content ∧ zso_numBlocks z = (zlen content + bs - 1) / bs ∧
    ∀ idx, 0 <= idx < zso_numBlocks z →
      ∃ b, zso_ReadBlock idx z = Ok (Val b, z) ∧
        take (length (content_block bs idx content)) b = content_block bs idx content.
Proof.
  intros Hbs Hsize Hfit Hst Hf. exists (ziso_opened bs content l f).
  rewrite (ziso_parse_image bs content l f) by done. split_and!; try done; [apply Hst|].
  intros idx Hidx.
  destruct (ziso_read_image bs content l f Hbs Hfit Hst Hf idx Hidx) as (b & Hrun & k & ->).
  exists (content_block bs idx content ++ k). split; [done|]. by rewrite take_app_length.
Qed.

Lemma ziso_image_roundtrip_witness :
  ∃ z, zso_parseHeader Stored.ziso_file = Ok (Val z) ∧ zso_size z = 6 ∧ zso_numBlocks z = 2.
Proof.
  destruct (ziso_image_roundtrip 4 Stored.content Stored.blocks Stored.ziso_file)
    as (z & H1 & _ & _ & H2 & H3 & _); [done..|exact Stored.ziso_blocks|done|]. by exists z.
Defined.

(** C35: a plain block of a file with the ZSO magic is never read: in a file below
    2 GiB, whenever reading a block whose table entry has the plain flag succeeds,
    the result is a block of zeros, because the flag is left in the file offset. *)
Theorem zso_plain_block_lost `{Lz4} idx z f raw b z' :
  zso_ziso z = false → zso_f z = Some f → zlen (f_data f) < 2 ^ 31 →
  zso_offsets z !! Z.to_nat idx = Some raw → 2 ^ 31 <= raw < 2 ^ 32 →
  zso_ReadBlock idx z = Ok (Val b, z') →
  b = replicate (Z.to_nat (zso_blockSize z)) (z2b 0).
Proof. exact (zso_plain_block idx z f raw b z'). Qed.

Definition zso_plain_file : OsFile := mkFile (str "b.zso") (map z2b [7; 7; 7; 7]) zeroTime.
Definition zso_plain_image : ZSO :=
  mkZSO (Some zso_plain_file) zeroInfo [2 ^ 31; 2 ^ 31; 0] 4 3 12 0 false.

Lemma zso_plain_block_lost_witness :
  let lz := Stored.stored_lz4 in
  ∃ b, zso_ReadBlock 0 zso_plain_image = Ok (Val b, zso_plain_image) ∧
    b = replicate (Z.to_nat (zso_blockSize zso_plain_image)) (z2b 0).
Proof.
  assert (zso_ReadBlock 0 zso_plain_image = Ok (Val (map z2b [0; 0; 0; 0]), zso_plain_image)) as Hrun
    by (vm_compute; reflexivity).
  exists (map z2b [0; 0; 0; 0]). split; [exact Hrun|].
  exact (zso_plain_block_lost 0 zso_plain_image zso_plain_file (2 ^ 31) _ _ eq_refl eq_refl eq_refl
    eq_refl (conj (Z.le_refl _) eq_refl) Hrun).
Defined.

(** Reading a hunk of a CD image gives the 2048 bytes of user data of each of
    its frames, in order: those after the 16-byte header of a mode 1 sector, after
    the 24-byte header of a mode 2 sector, and the start of a sector without sync
    pattern. *)
Theorem cd_hunk_user_data `{LibChdr} c hunk idx :
  chd_isCDFormat c = true → 0 <= idx < chd_numBlocks c → chd_read (chd_chd c) idx = Some hunk →
  chd_framesPerHunk c * cdFrameSize <= zlen hunk → 0 <= chd_framesPerHunk c →
  chd_ReadBlock idx c = Ok (Val (hunk_data (Z.to_nat (chd_framesPerHunk c)) hunk), c) ∧
  length (hunk_data (Z.to_nat (chd_framesPerHunk c)) hunk) =
    (Z.to_nat (chd_framesPerHunk c) * Z.to_nat cdUserData)%nat.
Proof.
  intros Hcd Hidx Hread Hlen Hf. unfold cdFrameSize in Hlen. split.
  - unfold chd_ReadBlock. rewrite (proj2 (Z.ltb_ge idx 0)), (proj2 (Z.leb_gt _ idx)) by lia. cbn [orb].
    rewrite Hread, Hcd. cbn [negb]. pose proof (cd_frames_spec (Z.to_nat (chd_framesPerHunk c)) 0 hunk []) as Hs.
    change (Z.of_nat 0) with 0 in Hs. rewrite Hs by lia. by rewrite bind_Ok.
  - apply length_hunk_data. lia.
Qed.

(** A hunk of one mode 1 frame whose user data is all [42]. *)
Definition mode1_frame : list byte :=
  cdSync ++ map z2b [0; 0; 0; 1] ++ replicate 2432 (z2b 42).
Definition cd_example : CHD (H := Stored.stored_chd) :=
  @mkCHD Stored.stored_chd (Some [mode1_frame]) 2448 2048 1 2048 true 1 zeroInfo.

Lemma cd_hunk_user_data_witness :
  let lib := Stored.stored_chd in
  chd_ReadBlock 0 cd_example = Ok (Val (hunk_data 1 mode1_frame), cd_example) ∧
  take 3 (hunk_data 1 mode1_frame) = map z2b [42; 42; 42].
Proof.
  intros lib.
  assert (chd_framesPerHunk cd_example * cdFrameSize <= zlen mode1_frame) as Hl by (vm_compute; discriminate).
  split; [|by vm_compute].
  exact (proj1 (cd_hunk_user_data cd_example mode1_frame 0 eq_refl (conj (Z.le_refl 0) eq_refl) eq_refl Hl
    Z.le_0_1)).
Defined.

(** ** Reading through the cache *)

(** C13: an image file of a format that the program reads opens under its extension,
    and any sequence of reads and seeks on the opened image returns what the same
    sequence returns on a file with the uncompressed content whose seeks are kept
    inside its bounds, as the code keeps them: the bytes, their number, the EOF at the
    end, and the positions; no read fails or panics.  The formats are CSO with plain,
    DEFLATE and zlib blocks, ZISO with plain and LZ4 blocks, ZSO with LZ4 blocks (its
    plain blocks are lost, see zso_plain_block_lost), and CHD of CDs and of other
    images such as DVDs; CSO, ZISO and ZSO with alignment 0 and below 2 GiB. *)
Theorem image_reads_like_plain `{Decoders} content p f r n ops :
  image_file content p f r → Forall file_op_ok ops →
  ∃ c c', image_Open p (Some f) n = Ok (Some c) ∧
    reader_run ops c = Ok (fst (plain_run content ops 0), c') ∧
    cr_pos c' = snd (plain_run content ops 0).
Proof.
  intros Hi Hops. destruct (image_Open_ok content p f r n Hi) as (c & Ho & Hok & Hpos & _).
  destruct (reader_run_refines content ops c (image_no_failure content) Hok Hops) as (c' & Hrun & _ & Hp).
  rewrite Hpos in Hrun, Hp. by exists c, c'.
Qed.

Lemma image_reads_like_plain_witness :
  (∃ c c', image_Open (str "/iso/A.CSO") (Some Stored.cso_file) 2 = Ok (Some c) ∧
    reader_run [FRead 3; FSeek 2 0; FRead 10; FRead 1] c =
      Ok ([RRead (map z2b [1; 2; 3]) None; RSeek 2 None; RRead (map z2b [3; 4; 5; 6]) None;
           RRead [] (Some EOF)], c')) ∧
  (∃ c c', image_Open (str "/iso/b.zso") (Some Stored.zso_file) 2 = Ok (Some c) ∧
    reader_run [FSeek 3 0; FRead 10] c = Ok ([RSeek 3 None; RRead (map z2b [4; 5; 6]) None], c')) ∧
  ∃ c c', image_Open (str "/iso/d.chd") (Some Stored.dvd_file) 2 = Ok (Some c) ∧
    reader_run [FRead 2; FRead 10] c = Ok ([RRead (map z2b [1; 2]) None; RRead (map z2b [3]) None], c').
Proof.
  assert (Forall file_op_ok [FRead 3; FSeek 2 0; FRead 10; FRead 1] ∧ Forall file_op_ok [FSeek 3 0; FRead 10] ∧
          Forall file_op_ok [FRead 2; FRead 10]) as (O1 & O2 & O3) by (repeat constructor; simpl; lia).
  destruct (image_reads_like_plain Stored.content (str "/iso/A.CSO") Stored.cso_file _ 2 _ Stored.cso_image_file O1)
    as (c1 & c1' & H1 & H1' & _).
  destruct (image_reads_like_plain Stored.content (str "/iso/b.zso") Stored.zso_file _ 2 _ Stored.zso_image_file O2)
    as (c2 & c2' & H2 & H2' & _).
  destruct Stored.dvd_image_file as [r Hr].
  destruct (image_reads_like_plain (map z2b [1; 2; 3]) (str "/iso/d.chd") Stored.dvd_file r 2 _ Hr O3)
    as (c3 & c3' & H3 & H3' & _).
  split; [exists c1, c1'; split; [exact H1|exact H1']|]. split; [exists c2, c2'; split; [exact H2|exact H2']|].
  exists c3, c3'. split; [exact H3|exact H3'].
Defined.

(** C36: behind the block reader interface, the cached reader refines a plain file
    for every format that keeps the interface's promise: from any state it can be
    in, reads and seeks return what they return on the uncompressed content at the
    same position, and the reader stays in such a state. *)
Theorem cached_reader_refines_plain {R} `{BlockContent R} content ops c :
  (∀ e, ¬ block_fails content e) → reader_ok content c → Forall file_op_ok ops →
  ∃ c', reader_run ops c = Ok (fst (plain_run content ops (cr_pos c)), c') ∧ reader_ok content c' ∧
    cr_pos c' = snd (plain_run content ops (cr_pos c)).
Proof. exact (reader_run_refines content ops c). Qed.

Lemma cached_reader_refines_plain_witness :
  ∃ c', reader_run [FSeek (-2) 2; FRead 9]
          (NewCachedReader (cso_opened 4 Stored.content Stored.blocks Stored.cso_file) 1 zeroInfo) =
        Ok ([RSeek 4 None; RRead (map z2b [5; 6]) None], c').
Proof.
  destruct (cached_reader_refines_plain Stored.content [FSeek (-2) 2; FRead 9]
    (NewCachedReader (cso_opened 4 Stored.content Stored.blocks Stored.cso_file) 1 zeroInfo)) as (c' & Hrun & _).
  - apply cso_no_failure.
  - apply NewCachedReader_ok, cso_image_represents; try done. exact Stored.cso_blocks.
  - repeat constructor; simpl; lia.
  - exists c'. exact Hrun.
Defined.

(** Fetching a block keeps the cache in least-recently-used order and within
    its bound: afterwards the cached blocks are the most recently used ones, the
    fetched block last, at most the cache size, and the block returned holds the
    bytes of that block of the content, from the cache or not. *)
Theorem block_cache_lru {R} `{BlockContent R} content idx c :
  (∀ e, ¬ block_fails content e) → reader_ok content c → 0 <= idx < cr_numBlocks c →
  ∃ b c', getBlock idx c = Ok (Val b, c') ∧ reader_ok content c' ∧
    block_ok (cr_blockSize c) idx content b ∧
    cache_order (cache c') = last_n (cache_max (cache c)) (touch idx (cache_order (cache c))) ∧
    zlen (cache_order (cache c')) <= cache_max (cache c) ∧
    cache_data (cache c') !! idx = Some b.
Proof.
  intros Hgood Hok Hidx.
  destruct (getBlock_spec content idx c Hok Hidx) as ([b|e] & c' & Hrun & Hok' & Hsame & Hf & Hb).
  - destruct (Hb b eq_refl) as (H1 & H2 & H3). exists b, c'. split_and!; try done.
    destruct Hsame as (_ & _ & _ & _ & _ & <-). apply Hok'.
  - by destruct (Hgood e); apply Hf.
Qed.

Lemma block_cache_lru_witness :
  ∃ b c', getBlock 1 (NewCachedReader (cso_opened 4 Stored.content Stored.blocks Stored.cso_file) 1 zeroInfo) =
            Ok (Val b, c') ∧ cache_order (cache c') = [1].
Proof.
  set (c := NewCachedReader _ 1 zeroInfo).
  assert (reader_ok Stored.content c) as Hok.
  { apply NewCachedReader_ok, cso_image_represents; try done. exact Stored.cso_blocks. }
  destruct (block_cache_lru Stored.content 1 c) as (b & c' & H1 & _ & _ & H2 & _);
    [apply cso_no_failure|exact Hok|done|]. exists b, c'. split; [exact H1|exact H2].
Defined.

(** An opened image never reports its size: whatever the file, the reader
    that [image_Open] returns has the zero stat (size 0, zero time) and an empty
    name. *)
Theorem opened_image_stat_is_zero `{Decoders} p file n c :
  image_Open p file n = Ok (Some c) →
  CachedReader_Stat c = CompressedInfo_FileInfo zeroInfo ∧ Size_ (CachedReader_Stat c) = 0 ∧
  CachedReader_Name c = [].
Proof.
  intros Hrun. unfold CachedReader_Stat, CachedReader_Name. by rewrite (image_Open_info p file n c Hrun).
Qed.

Lemma opened_image_stat_is_zero_witness :
  ∃ c, image_Open (str "/iso/A.CSO") (Some Stored.cso_file) 2 = Ok (Some c) ∧ cr_size c = 6 ∧
    Size_ (CachedReader_Stat c) = 0.
Proof.
  eexists. split; [vm_compute; reflexivity|]. split; [reflexivity|].
  eapply (opened_image_stat_is_zero (str "/iso/A.CSO") (Some Stored.cso_file) 2).
  vm_compute; reflexivity.
Defined.

(** Seeking an image never fails for a known origin and never leaves the
    image: the new position is the target clamped to its bounds, and an unknown
    origin is an error that changes nothing. *)
Theorem image_seek_clamps {R} `{BlockContent R} content offset whence c :
  reader_ok content c →
  let '(p, e, c') := CachedReader_Seek offset whence c in
  reader_ok content c' ∧ cr_pos c' = p ∧ 0 <= p <= zlen content ∧
  (whence = 0 → e = None ∧ p = Z.max 0 (Z.min offset (zlen content))) ∧
  (whence ∉ [0; 1; 2] → e ≠ None ∧ c' = c).
Proof. exact (CachedReader_Seek_spec content offset whence c). Qed.

Lemma image_seek_clamps_witness :
  ∃ c, CachedReader_Seek 100 0
         (NewCachedReader (cso_opened 4 Stored.content Stored.blocks Stored.cso_file) 1 zeroInfo) =
       (6, None, c) ∧ reader_ok Stored.content c.
Proof.
  set (c0 := NewCachedReader _ 1 zeroInfo).
  assert (reader_ok Stored.content c0) as Hok.
  { apply NewCachedReader_ok, cso_image_represents; try done. exact Stored.cso_blocks. }
  eexists. split; [reflexivity|]. exact (proj1 (image_seek_clamps Stored.content 100 0 c0 Hok)).
Defined.
