(* ===== verification/OsWorld.v ===== *)
(** * The operating system, and file objects (internal/fs/interfaces, package os)

    The operating system is a parameter: an abstract state and the calls that the
    backend makes, each a function on that state.  A file object is what an open
    handle works on: an [os.File] or the cached reader of a compressed image. *)
From stdpp Require Import gmap.
From S2P Require Import Prelude UdpfsProtocol BlockCache CachedReader CompressedFile GoPath CompressedImage.

(** Times are in nanoseconds, on the monotonic clock.  [os_Image] is the file that
    opening a path for reading an image gives: the model takes its bytes at that time,
    and reading or closing them later is no call of the system. *)
Class OS (W : Type) := {
  osfile : Type;
  os_Now : W → Z * W;
  os_Getwd : W → option path;
  os_Stat : path → W → result go_error FileInfo * W;
  os_ReadDir : path → W → result go_error (list path) * W;
  os_EntryInfo : path → path → W → result go_error FileInfo * W;
  os_Mkdir : path → W → option go_error * W;
  os_MkdirAll : path → W → option go_error * W;
  os_Remove : path → W → option go_error * W;
  os_OpenFile : path → Z → W → result go_error osfile * W;
  file_Read : osfile → Z → W → list byte * option go_error * W;
  file_Write : osfile → list byte → W → Z * option go_error * W;
  file_Seek : osfile → Z → Z → W → Z * option go_error * W;
  file_Stat : osfile → W → result go_error FileInfo * W;
  file_Close : osfile → W → option go_error * W;
  os_Image : path → W → option OsFile
}.

(** The calls that only look, and those that may change what is stored.  Opening
    a file is one or the other by its flags.  [Close] is neither: it ends a file. *)
Inductive os_read_step {W} `{OS W} : W → W → Prop :=
| Step_Now w : os_read_step w (snd (os_Now w))
| Step_Stat p w : os_read_step w (snd (os_Stat p w))
| Step_ReadDir p w : os_read_step w (snd (os_ReadDir p w))
| Step_EntryInfo d p w : os_read_step w (snd (os_EntryInfo d p w))
| Step_OpenRead p w : os_read_step w (snd (os_OpenFile p O_RDONLY w))
| Step_Read f n w : os_read_step w (snd (file_Read f n w))
| Step_Seek f o wh w : os_read_step w (snd (file_Seek f o wh w))
| Step_FStat f w : os_read_step w (snd (file_Stat f w)).

Inductive os_write_step {W} `{OS W} : W → W → Prop :=
| Step_Mkdir p w : os_write_step w (snd (os_Mkdir p w))
| Step_MkdirAll p w : os_write_step w (snd (os_MkdirAll p w))
| Step_Remove p w : os_write_step w (snd (os_Remove p w))
| Step_OpenWrite p fl w : fl ≠ O_RDONLY → os_write_step w (snd (os_OpenFile p fl w))
| Step_Write f d w : os_write_step w (snd (file_Write f d w)).

Definition os_step {W} `{OS W} (w w' : W) : Prop := os_read_step w w' ∨ os_write_step w w'.

Create HintDb os.
#[export] Hint Constructors os_read_step os_write_step : os.
#[export] Hint Unfold os_step : os.

Lemma Step_Open {W} `{OS W} p fl (w : W) : os_step w (snd (os_OpenFile p fl w)).
Proof. destruct (decide (fl = O_RDONLY)) as [->|]; [left|right]; by constructor. Qed.
#[export] Hint Resolve Step_Open : os.

(** What package os documents of its files: a file that has been opened stays open
    until it is closed itself, and a new one is none of those that are open. *)
Class OSFiles (W : Type) `{OS W} := {
  os_isopen : osfile → W → Prop;
  os_step_open : ∀ f w w', os_step w w' → os_isopen f w → os_isopen f w';
  os_close_open : ∀ f g w, f ≠ g → os_isopen f w → os_isopen f (snd (file_Close g w));
  os_open_fresh : ∀ p fl w f, fst (os_OpenFile p fl w) = Val f →
    ¬ os_isopen f w ∧ os_isopen f (snd (os_OpenFile p fl w))
}.

(** What the program takes for granted of its host, which no documentation gives:
    the stat of an open file does not fail, nor does, right after the directory was
    read, that of a directory, and names have at most 255 bytes (NAME_MAX).  The
    code drops the errors of both stats (fileops.go:49 and :110) and would panic on
    the missing result, so this is a condition on the host, not a fact. *)
Class OSHost (W : Type) `{OSFiles W} := {
  os_fstat_open : ∀ f w, os_isopen f w → ∃ fi, fst (file_Stat f w) = Val fi;
  os_isdir : path → W → Prop;
  os_readdir_isdir : ∀ p w l, fst (os_ReadDir p w) = Val l → os_isdir p (snd (os_ReadDir p w));
  os_now_isdir : ∀ p w, os_isdir p w → os_isdir p (snd (os_Now w));
  os_close_isdir : ∀ p f w, os_isdir p w → os_isdir p (snd (file_Close f w));
  os_stat_isdir : ∀ p w, os_isdir p w → ∃ fi, fst (os_Stat p w) = Val fi;
  os_name_len : ∀ p w l, fst (os_ReadDir p w) = Val l → Forall (λ e, zlen e <= 255) l
}.

(** Both together: the host that the theorems without a panic are about. *)
Class OSLaws (W : Type) `{OS W} := {
  os_laws_files :: OSFiles W;
  os_laws_host :: OSHost W
}.

Section FileObject.
Context {W : Type} `{OS W} `{Decoders}.

(** The [Name] of an [os.File] is the name that was passed to OpenFile. *)
Inductive FileObject :=
| PlainFile (name : path) (f : osfile)
| ImageFile (r : CachedReader ImageReader).

Definition obj_Name (o : FileObject) : path :=
  match o with
  | PlainFile name _ => name
  | ImageFile r => CachedReader_Name r
  end.

(** A method may change the object, the system, or both. *)
Definition obj_Read (n : Z) (o : FileObject) (w : W)
    : outcome (list byte * option go_error * FileObject * W) :=
  match o with
  | PlainFile name f => let '(d, e, w) := file_Read f n w in Ok (d, e, o, w)
  | ImageFile r => '(d, e, r) ← CachedReader_Read n r; Ok (d, e, ImageFile r, w)
  end.

Definition obj_Write (data : list byte) (o : FileObject) (w : W)
    : Z * option go_error * FileObject * W :=
  match o with
  | PlainFile name f => let '(n, e, w) := file_Write f data w in (n, e, o, w)
  | ImageFile r => let '(n, e) := CachedReader_Write data r in (n, e, o, w)
  end.

Definition obj_Seek (offset whence : Z) (o : FileObject) (w : W)
    : Z * option go_error * FileObject * W :=
  match o with
  | PlainFile name f => let '(p, e, w) := file_Seek f offset whence w in (p, e, o, w)
  | ImageFile r => let '(p, e, r) := CachedReader_Seek offset whence r in (p, e, ImageFile r, w)
  end.

Definition obj_Stat (o : FileObject) (w : W) : result go_error FileInfo * W :=
  match o with
  | PlainFile _ f => file_Stat f w
  | ImageFile r => (Val (CachedReader_Stat r), w)
  end.

Definition obj_Close (o : FileObject) (w : W) : option go_error * FileObject * W :=
  match o with
  | PlainFile _ f => let '(e, w) := file_Close f w in (e, o, w)
  | ImageFile r => let '(e, r) := CachedReader_Close r in (e, ImageFile r, w)
  end.
End FileObject.
