(* ===== verification/Backend.v ===== *)
(** * The file system backend (internal/fs)

    A table of 64 handles with the time of their last use, an optional block
    device as handle 0, and the configuration.  The operations are written in a
    state monad over the backend and the operating system; a panic is an outcome.
    The backend's lock and the locks of the handles are held for the whole of each
    step, so an operation is one step of the model. *)
From stdpp Require Import gmap.
From S2P Require Import Prelude UdpfsProtocol UdpfsConnection BlockCache CachedReader CompressedFile GoText GoPath CompressedImage OsWorld.

Definition maxHandles : Z := 64.
Definition handleMaxLastUsed : Z := 3600 * 1000 * 1000 * 1000.

(** ** State (backend.go, handles.go) *)

Record writeState := mkWriteState {
  dataBuffer : list byte;
  sectorNumber : Z;
  sectorCount : Z;
  totalChunks : Z;
  receivedChunks : Z;
  blockWrite : bool
}.

Definition zeroWrite : writeState := mkWriteState [] 0 0 0 0 false.

Section Types.
Context {W : Type} `{OS W} `{Decoders}.

(** The methods that the struct copies out of its object are those of [fh_obj]. *)
Record fileHandle := mkFileHandle {
  fh_obj : FileObject;
  wr : writeState;
  fh_readOnly : bool
}.

(** Directory entries are kept by name. *)
Record dirHandle := mkDirHandle {
  dirPath : path;
  entries : list path;
  dh_index : Z
}.

Inductive handle :=
| HFile (f : fileHandle)
| HDir (d : dirHandle).

Record blockDeviceHandle := mkBlockDevice {
  bd_file : fileHandle;
  totalSectorCount : Z
}.

Record Backend := mkBackend {
  lastUsed : list Z;
  handles : list (option handle);
  bdHandle : option blockDeviceHandle;
  fsRoot : path;
  blockDevice : path;
  sectorSize : Z;
  compressionCacheSize : Z;
  b_readOnly : bool;
  enableCompression : bool
}.

Definition eta_backend (b : Backend) : Backend :=
  mkBackend (lastUsed b) (handles b) (bdHandle b) (fsRoot b) (blockDevice b) (sectorSize b)
    (compressionCacheSize b) (b_readOnly b) (enableCompression b).
End Types.

Arguments fileHandle W {_ _}.
Arguments handle W {_ _}.
Arguments Backend W {_ _}.
Arguments blockDeviceHandle W {_ _}.

Section Setters.
Context {W : Type} `{OS W} `{Decoders}.

Ltac backend_setter proj :=
  let e := eval cbv beta delta [eta_backend] in (eta_backend (W := W)) in
  let p := eval pattern proj in e in
  match p with
  | ?g _ => let t := eval cbv beta in (fun f r => g (fun x => f (proj x)) r) in exact t
  end.

#[export] Instance set_lastUsed : Setter (lastUsed (W := W)) :=
  ltac:(backend_setter (lastUsed (W := W))).
#[export] Instance set_handles : Setter (handles (W := W)) :=
  ltac:(backend_setter (handles (W := W))).
#[export] Instance set_bdHandle : Setter (bdHandle (W := W)) :=
  ltac:(backend_setter (bdHandle (W := W))).
#[export] Instance set_fsRoot : Setter (fsRoot (W := W)) :=
  ltac:(backend_setter (fsRoot (W := W))).
#[export] Instance set_blockDevice : Setter (blockDevice (W := W)) :=
  ltac:(backend_setter (blockDevice (W := W))).
#[export] Instance set_sectorSize : Setter (sectorSize (W := W)) :=
  ltac:(backend_setter (sectorSize (W := W))).
#[export] Instance set_compressionCacheSize : Setter (compressionCacheSize (W := W)) :=
  ltac:(backend_setter (compressionCacheSize (W := W))).
#[export] Instance set_b_readOnly : Setter (b_readOnly (W := W)) :=
  ltac:(backend_setter (b_readOnly (W := W))).
#[export] Instance set_enableCompression : Setter (enableCompression (W := W)) :=
  ltac:(backend_setter (enableCompression (W := W))).
End Setters.

(** ** The state monad *)

Section Operations.
Context {W : Type} `{OS W} `{Decoders}.

Definition bk (A : Type) : Type := Backend W * W → outcome (A * (Backend W * W)).

#[export] Instance bk_ret : MRet bk := λ A a s, Ok (a, s).
#[export] Instance bk_bind : MBind bk := λ A B k m s, '(a, s) ← m s; k a s.

Definition gets {A} (f : Backend W → A) : bk A := λ '(b, w), Ok (f b, (b, w)).
Definition modify (f : Backend W → Backend W) : bk () := λ '(b, w), Ok ((), (f b, w)).
Definition call {A} (f : W → A * W) : bk A := λ '(b, w), let '(a, w) := f w in Ok (a, (b, w)).
Definition call_out {A} (f : W → outcome (A * W)) : bk A := λ '(b, w), '(a, w) ← f w; Ok (a, (b, w)).
Definition observe {A} (f : Backend W → W → outcome A) : bk A := λ '(b, w), a ← f b w; Ok (a, (b, w)).
Definition lift {A} (o : outcome A) : bk A := λ s, a ← o; Ok (a, s).

(** ** Handles (handles.go) *)

(** The slot of an external handle; an index outside the array panics. *)
Definition slot (h : Z) : bk (option (handle W)) := hs ← gets handles; lift (index hs h).

Definition set_slot (i : Z) (h : option (handle W)) : bk () :=
  modify (λ b, b <| handles ::= λ l, <[Z.to_nat i := h]> l |>).

(** [s.lastUsed[i] = time.Now()] *)
Definition use_slot (i : Z) : bk () :=
  now ← call os_Now;
  modify (λ b, b <| lastUsed ::= λ l, <[Z.to_nat i := now]> l |>).

Definition handle_Close (h : handle W) : bk () :=
  match h with
  | HFile f => _ ← call (obj_Close (fh_obj f)); mret ()
  | HDir _ => mret ()
  end.

(** The loop of allocHandle: the first free slot, or else the oldest handle and
    the time of its last use. *)
Fixpoint alloc_scan (hs : list (option (handle W))) (lu : list Z) (i oldest ts : Z) : Z + Z * Z :=
  match hs, lu with
  | None :: _, _ => inl i
  | Some _ :: hs, t :: lu =>
      if t <? ts then alloc_scan hs lu (i + 1) i t else alloc_scan hs lu (i + 1) oldest ts
  | _, _ => inr (oldest, ts)
  end.

Definition allocHandle (h : handle W) : bk Z :=
  now ← call os_Now;
  hs ← gets handles;
  lu ← gets lastUsed;
  match alloc_scan hs lu 0 0 now with
  | inl i =>
      _ ← set_slot i (Some h);
      _ ← use_slot i;
      mret (i + 1)
  | inr (oldest, ts) =>
      now ← call os_Now;
      if handleMaxLastUsed <=? now - ts then
        old ← slot oldest;
        _ ← match old with
            | Some old => handle_Close old
            | None => lift (Panic NilDereference)
            end;
        _ ← set_slot oldest (Some h);
        _ ← use_slot oldest;
        mret (oldest + 1)
      else mret (- EMFILE)
  end.

Definition freeHandle (h : Z) : bk bool :=
  if h =? BlockDeviceHandle then mret true
  else
    let i := h - 1 in
    old ← slot i;
    match old with
    | Some old =>
        _ ← handle_Close old;
        _ ← set_slot i None;
        mret true
    | None => mret true
    end.

(** Where a file handle is kept, for the operations that change it in place. *)
Inductive fref := RefBlockDevice | RefSlot (i : Z).

#[export] Instance fref_eq_dec : EqDecision fref.
Proof. solve_decision. Defined.

Definition put_file (r : fref) (f : fileHandle W) : bk () :=
  match r with
  | RefBlockDevice =>
      modify (λ b, b <| bdHandle ::= fmap (λ d, mkBlockDevice f (totalSectorCount d)) |>)
  | RefSlot i => set_slot i (Some (HFile f))
  end.

Definition getFile (h : Z) : bk (option (fref * fileHandle W)) :=
  if h <? 0 then mret None
  else if h =? BlockDeviceHandle then
    bd ← gets bdHandle;
    mret (match bd with Some d => Some (RefBlockDevice, bd_file d) | None => None end)
  else
    let i := h - 1 in
    x ← slot i;
    match x with
    | Some (HFile f) => _ ← use_slot i; mret (Some (RefSlot i, f))
    | _ => mret None
    end.

(** The first slot that holds an open file of this name. *)
Fixpoint find_path (p : path) (hs : list (option (handle W))) (i : Z) : option (Z * fileHandle W) :=
  match hs with
  | [] => None
  | Some (HFile f) :: hs =>
      if bool_decide (obj_Name (fh_obj f) = p) then Some (i, f) else find_path p hs (i + 1)
  | _ :: hs => find_path p hs (i + 1)
  end.

Definition getFileByPath (p : path) : bk (option (fileHandle W)) :=
  hs ← gets handles;
  match find_path p hs 0 with
  | Some (i, f) => _ ← use_slot i; mret (Some f)
  | None => mret None
  end.

(** Whether the file is open, and whether it is open for reading only. *)
Definition getFileState (p : path) : bk (bool * bool) :=
  hs ← gets handles;
  mret (match find_path p hs 0 with Some (_, f) => (true, fh_readOnly f) | None => (false, true) end).

Definition getDir (h : Z) : bk (option (Z * dirHandle)) :=
  let i := h - 1 in
  x ← slot i;
  match x with
  | Some (HDir d) => _ ← use_slot i; mret (Some (i, d))
  | _ => mret None
  end.

Definition newFileHandle (o : FileObject) (readOnly : bool) : fileHandle W :=
  mkFileHandle o zeroWrite readOnly.

(** The methods of the object behind a file handle. *)
Definition file_obj_Read (r : fref) (f : fileHandle W) (n : Z) : bk (list byte * option go_error) :=
  '(d, e, o) ← call_out (obj_Read n (fh_obj f));
  _ ← put_file r (mkFileHandle o (wr f) (fh_readOnly f));
  mret (d, e).

Definition file_obj_Write (r : fref) (f : fileHandle W) (data : list byte) : bk (Z * option go_error) :=
  '(n, e, o) ← call (obj_Write data (fh_obj f));
  _ ← put_file r (mkFileHandle o (wr f) (fh_readOnly f));
  mret (n, e).

(** The handle after a seek is returned too, for the read or write that follows. *)
Definition file_obj_Seek (r : fref) (f : fileHandle W) (offset whence : Z)
    : bk (Z * option go_error * fileHandle W) :=
  '(p, e, o) ← call (obj_Seek offset whence (fh_obj f));
  let f := mkFileHandle o (wr f) (fh_readOnly f) in
  _ ← put_file r f;
  mret (p, e, f).
End Operations.

(** ** Paths (utils.go) *)

(** [resolvePath] for a working directory; the error of [filepath.Abs] is [None]. *)
Definition resolvePath_in (wd : option path) (fsRoot clientPath : path) : option path :=
  if bool_decide (fsRoot = []) then None
  else
    let clientPath := TrimLeftSlashes clientPath in
    let clientPath := Clean (ReplaceBackslashes clientPath) in
    let joined := Join fsRoot clientPath in
    match Abs wd joined with
    | None => None
    | Some resolved =>
        let cleanFsRoot := Clean fsRoot in
        let comparableRoot := TrimSuffix cleanFsRoot [sep] in
        if negb (HasPrefix resolved (comparableRoot ++ [sep])) && negb (bool_decide (resolved = cleanFsRoot))
        then None
        else Some resolved
    end.

(** ** Operations (fileops.go) *)

Section FileOps.
Context {W : Type} `{OS W} `{Decoders}.

Definition resolvePath (clientPath : path) : bk (option path) :=
  observe (λ b w, Ok (resolvePath_in (os_Getwd w) (fsRoot b) clientPath)).

Definition pathExists (p : path) : bk bool :=
  r ← call (os_Stat p);
  mret (match r with Val _ => true | Err _ => false end).

(** The lines that PrintFSInfo logs at startup ([%t] prints a boolean). *)
Definition fmt_bool (b : bool) : path := if b then str "true" else str "false".

Definition PrintFSInfo (b : Backend W) : list path :=
  (if negb (bool_decide (fsRoot b = []))
   then [str "fs: mounted root filesystem " ++ fsRoot b ++ str " (read-only: " ++ fmt_bool (b_readOnly b) ++ str ")"]
   else []) ++
  match bdHandle b with
  | Some bd =>
      [str "fs: mounted block device " ++ blockDevice b ++ str ", (sectors: " ++ Itoa (totalSectorCount bd) ++
       str ", sector size: " ++ Itoa (sectorSize b) ++ str ", read-only: " ++ fmt_bool (b_readOnly b) ++ str ")"]
  | None => []
  end ++
  (if enableCompression b
   then [str "fs: enabled decompression for " ++ GoText.Join GetSupportedFormats (str ", ")] else []).

(** The image that a missing ".iso" file stands for: [None] when it is not there
    or cannot be opened. *)
Definition openImage (fullPath : path) (exists_ : bool) : bk (option (CachedReader ImageReader)) :=
  compression ← gets enableCompression;
  if (compression : bool) && negb exists_ && bool_decide (ToLower (Ext fullPath) = str ".iso") then
    let compressedPath := TrimSuffix fullPath (Ext fullPath) in
    found ← pathExists compressedPath;
    if (found : bool) then
      cacheSize ← gets compressionCacheSize;
      observe (λ b w, image_Open compressedPath (os_Image compressedPath w) cacheSize)
    else mret None
  else mret None.

Definition wantsWrite (flag : Z) : bool := negb (Z.land flag (Z.lor O_WRONLY O_RDWR) =? 0).

(** [StatInfoFromFile] of a stat whose error is ignored: of a nil [os.FileInfo] it
    panics. *)
Definition stat_of (r : result go_error FileInfo) : bk StatInfo :=
  match r with
  | Val fi => mret (StatInfoFromFile fi)
  | Err _ => lift (Panic NilDereference)
  end.

(** The three ways in which Open makes a handle: of a directory, of an image, of a
    plain file. *)
Definition Open_dir (fullPath : path) : bk (Z * StatInfo * option go_error) :=
  r ← call (os_ReadDir fullPath);
  match r with
  | Err e => mret (0, noStat, Some e)
  | Val entries =>
      h ← allocHandle (HDir (mkDirHandle fullPath entries 0));
      if h <? 0 then mret (h, noStat, None)
      else
        r ← call (os_Stat fullPath);
        st ← stat_of r;
        mret (h, st, None)
  end.

Definition Open_image (wrapper : CachedReader ImageReader) : bk (Z * StatInfo * option go_error) :=
  let st := CachedReader_Stat wrapper in
  h ← allocHandle (HFile (newFileHandle (ImageFile wrapper) true));
  if h <? 0 then mret (h, noStat, None)
  else mret (h, StatInfoFromFile st, None).

Definition Open_plain (fullPath : path) (flag : Z) (exists_ : bool) : bk (Z * StatInfo * option go_error) :=
  if negb exists_ && (Z.land flag O_CREATE =? 0) then mret (0, noStat, Some ErrNotExist)
  else
    _ ← (if negb (Z.land flag O_CREATE =? 0) then
           _ ← call (os_MkdirAll (Dir fullPath)); mret ()
         else mret ());
    r ← call (os_OpenFile fullPath flag);
    match r with
    | Err e => mret (0, noStat, Some e)
    | Val f =>
        h ← allocHandle (HFile (newFileHandle (PlainFile fullPath f) (negb (wantsWrite flag))));
        if h <? 0 then
          _ ← call (file_Close f);
          mret (h, noStat, None)
        else
          r ← call (file_Stat f);
          st ← stat_of r;
          mret (h, st, None)
    end.

Definition Open (p : path) (flag : Z) (isDir : bool) : bk (Z * StatInfo * option go_error) :=
  let fail e := mret (0, noStat, Some e) in
  full ← resolvePath p;
  match full with
  | None => fail ErrNotExist
  | Some fullPath =>
      '(open, fileReadOnly) ← getFileState fullPath;
      ro ← gets b_readOnly;
      let wantWrite := wantsWrite flag in
      let openForWriting := open && negb fileReadOnly in
      if wantWrite && (ro || open) then fail ErrPermission
      else if negb wantWrite && openForWriting then fail ErrPermission
      else if (isDir : bool) then Open_dir fullPath
      else
        exists_ ← (if negb (bool_decide (fullPath = [])) then pathExists fullPath else mret false);
        img ← openImage fullPath exists_;
        match img with
        | Some wrapper => Open_image wrapper
        | None => Open_plain fullPath flag exists_
        end
  end.

Definition Close (h : Z) : bk (option go_error) :=
  ok ← freeHandle h;
  mret (if negb ok then Some ErrInvalid else None).

(** [bufLen] is the length of the read buffer; slicing beyond it panics. *)
Definition Read (h size bufLen : Z) : bk (Z * list byte * option go_error) :=
  x ← getFile h;
  match x with
  | None => mret (0, [], Some ErrInvalid)
  | Some (r, f) =>
      if bufLen <? size then lift (Panic SliceOutOfRange)
      else
        '(d, e) ← file_obj_Read r f size;
        match e with
        | Some e =>
            if bool_decide (e = ErrClosed) || bool_decide (e = EOF)
            then mret (i32 (zlen d), d, None) else mret (0, [], Some e)
        | None => mret (i32 (zlen d), d, None)
        end
  end.

Definition WriteStart (h : Z) : bk (option go_error) :=
  x ← getFile h;
  match x with
  | None => mret (Some ErrInvalid)
  | Some (r, f) =>
      if fh_readOnly f then mret (Some ErrPermission)
      else
        let w := wr f in
        _ ← put_file r (mkFileHandle (fh_obj f) (mkWriteState [] (sectorNumber w) (sectorCount w) 0 0 false)
                          (fh_readOnly f));
        mret None
  end.

Definition WriteChunk (h chunkNr chunkSize total : Z) (chunk : list byte) : bk (bool * option go_error) :=
  x ← getFile h;
  match x with
  | None => mret (false, Some ErrInvalid)
  | Some (r, f) =>
      let w := wr f in
      if negb (chunkNr =? receivedChunks w) then mret (false, None)
      else
        let w := mkWriteState (dataBuffer w ++ chunk) (sectorNumber w) (sectorCount w) total
                   (u16 (receivedChunks w + 1)) (blockWrite w) in
        _ ← put_file r (mkFileHandle (fh_obj f) w (fh_readOnly f));
        mret (totalChunks w <=? receivedChunks w, None)
  end.

Definition sector_size (h : Z) : bk Z :=
  ss ← gets sectorSize;
  mret (if negb (h =? BlockDeviceHandle) then 512 else ss).

(** CompleteWrite completes the current write (regular or block).  The method
    value [f.Write] of a handle is never nil. *)
Definition CompleteWrite (h : Z) : bk (Z * option go_error) :=
  x ← getFile h;
  match x with
  | None => mret (0, Some ErrInvalid)
  | Some (r, f) =>
      ss ← sector_size h;
      let data := dataBuffer (wr f) in
      if blockWrite (wr f) then
        let expectedSize := sectorCount (wr f) * ss in
        data ← (if expectedSize <? zlen data then lift (slice data 0 expectedSize) else mret data);
        '(_, e, f) ← file_obj_Seek r f (i64 (sectorNumber (wr f) * ss)) 0;
        match e with
        | Some e => mret (0, Some e)
        | None =>
            '(_, e) ← file_obj_Write r f data;
            mret (0, e)
        end
      else
        '(written, e) ← file_obj_Write r f data;
        match e with
        | Some e => mret (0, Some e)
        | None => mret (i32 written, None)
        end
  end.

Definition Lseek (h offset whence : Z) : bk (Z * option go_error) :=
  x ← getFile h;
  match x with
  | None => mret (-1, None)
  | Some (r, f) => '(p, e, _) ← file_obj_Seek r f offset whence; mret (p, e)
  end.

(** The stat of a directory entry as the client sees it, and its name. *)
Definition entry_stat (dir name : path) (info : FileInfo) : bk (option (path * StatInfo)) :=
  compression ← gets enableCompression;
  if (compression : bool) && bool_decide (Ext name ∈ GetSupportedExtensions) then
    let entryPath := Join dir name in
    cst ← observe (λ b w, image_GetStat entryPath (os_Image entryPath w));
    mret (match cst with
          | None => None
          | Some st => Some (name ++ str ".iso", StatInfoFromFile st)
          end)
  else mret (Some (name, StatInfoFromFile info)).

Definition Dread (h : Z) : bk (bool * path * StatInfo * option go_error) :=
  let none := mret (false, [], noStat, None) in
  x ← getDir h;
  match x with
  | None => mret (false, [], noStat, Some ErrInvalid)
  | Some (i, d) =>
      match entries d !! Z.to_nat (dh_index d) with
      | None => none
      | Some name =>
          _ ← set_slot i (Some (HDir (mkDirHandle (dirPath d) (entries d) (dh_index d + 1))));
          info ← call (os_EntryInfo (dirPath d) name);
          match info with
          | Err _ => none
          | Val info =>
              st ← entry_stat (dirPath d) name info;
              mret (match st with
                    | Some (name, st) => (true, name, st, None)
                    | None => (false, [], noStat, None)
                    end)
          end
      end
  end.

(** Getstat of a path: of the open file of that name if there is one, whose stat
    may differ from that of the path. *)
Definition Getstat_path (p : path) : bk (StatInfo * option go_error) :=
  resolved ← resolvePath p;
  match resolved with
  | None => mret (noStat, Some ErrInvalid)
  | Some resolved =>
      f ← getFileByPath resolved;
      match f with
      | None =>
          r ← call (os_Stat resolved);
          mret (match r with
                | Err _ => (noStat, Some ErrInvalid)
                | Val st => (StatInfoFromFile st, None)
                end)
      | Some f =>
          r ← call (obj_Stat (fh_obj f));
          mret (match r with
                | Err e => (noStat, Some e)
                | Val st => (StatInfoFromFile st, None)
                end)
      end
  end.

(** The empty path is the block device, if there is one. *)
Definition Getstat (p : path) : bk (StatInfo * option go_error) :=
  bd ← gets bdHandle;
  ss ← gets sectorSize;
  match p, bd with
  | [], Some d =>
      let totalBytes := i64 (totalSectorCount d * ss) in
      mret (mkStat 0 0 (u32 (Z.land totalBytes 0xFFFFFFFF)) (u32 (Z.shiftr totalBytes 32)) zero8 zero8 zero8,
            None)
  | _, _ => Getstat_path p
  end.

(** The start of Mkdir, Remove and Rmdir. *)
Definition with_path (p : path) (op : path → bk (option go_error)) : bk (option go_error) :=
  ro ← gets b_readOnly;
  if (ro : bool) then mret (Some ErrPermission)
  else
    resolved ← resolvePath p;
    match resolved with
    | None => mret (Some ErrPermission)
    | Some resolved => op resolved
    end.

Definition Mkdir (p : path) : bk (option go_error) :=
  with_path p (λ resolved,
    e ← call (os_Mkdir resolved);
    mret (if bool_decide (e = Some ErrExist) then None else e)).

Definition Remove (p : path) : bk (option go_error) :=
  with_path p (λ resolved, call (os_Remove resolved)).

Definition Rmdir (p : path) : bk (option go_error) :=
  with_path p (λ resolved, call (os_Remove resolved)).

Definition Bread (h sectorNr count bufLen : Z) : bk (list byte * option go_error) :=
  x ← getFile h;
  match x with
  | None => mret ([], Some ErrInvalid)
  | Some (r, f) =>
      ss ← sector_size h;
      '(_, e, f) ← file_obj_Seek r f (i64 (sectorNr * ss)) 0;
      match e with
      | Some e => mret ([], Some e)
      | None =>
          let n := count * ss in
          if (n <? 0) || (bufLen <? n) then lift (Panic SliceOutOfRange)
          else
            '(d, e) ← file_obj_Read r f n;
            match e with
            | Some e => if bool_decide (e = EOF) then mret (d, None) else mret ([], Some e)
            | None => mret (d, None)
            end
      end
  end.

Definition BwriteStart (h sectorNr count : Z) : bk (option go_error) :=
  x ← getFile h;
  match x with
  | None => mret (Some ErrInvalid)
  | Some (r, f) =>
      if fh_readOnly f then mret (Some ErrPermission)
      else
        _ ← put_file r (mkFileHandle (fh_obj f) (mkWriteState [] sectorNr count 0 0 true) (fh_readOnly f));
        mret None
  end.

(** ** The FS interface *)

Definition backend_call {R} (op : fs_op R) : bk R :=
  match op in fs_op R return bk R with
  | FS_Open p flag isDir => Open p flag isDir
  | FS_Close h => Close h
  | FS_Read h size bufLen => Read h size bufLen
  | FS_WriteStart h => WriteStart h
  | FS_WriteChunk h nr size total chunk => WriteChunk h nr size total chunk
  | FS_CompleteWrite h => CompleteWrite h
  | FS_Lseek h off wh => Lseek h off wh
  | FS_Dread h => Dread h
  | FS_Getstat p => Getstat p
  | FS_Mkdir p => Mkdir p
  | FS_Remove p => Remove p
  | FS_Rmdir p => Rmdir p
  | FS_Bread h nr count bufLen => Bread h nr count bufLen
  | FS_BwriteStart h nr count => BwriteStart h nr count
  end.

#[export] Instance backend_fs : FS (Backend W * W) := λ R op s, backend_call op s.

(** ** Start and shutdown (backend.go) *)

Definition WithFSRoot (p : path) (b : Backend W) : Backend W :=
  if negb (bool_decide (p = [])) then b <| fsRoot := p |> else b.
Definition WithBlockDevice (p : path) (b : Backend W) : Backend W :=
  if negb (bool_decide (p = [])) then b <| blockDevice := p |> else b.
Definition WithSectorSize (n : Z) (b : Backend W) : Backend W :=
  if negb (n =? 0) then b <| sectorSize := n |> else b.
Definition WithReadOnly (b : Backend W) : Backend W := b <| b_readOnly := true |>.
Definition WithCompression (b : Backend W) : Backend W := b <| enableCompression := true |>.
Definition WithCompressionCacheSize (n : Z) (b : Backend W) : Backend W :=
  if negb (n =? 0) then b <| compressionCacheSize := n |> else b.

Definition emptyBackend : Backend W :=
  mkBackend (replicate 64 0) (replicate 64 None) None [] [] 512 0 false false.

(** The block device of NewBackend, if one is configured. *)
Definition open_device (s : Backend W) (w : W) : outcome (result go_error (Backend W) * W) :=
  if bool_decide (blockDevice s = []) then Ok (Val s, w)
  else
    let mode := if negb (b_readOnly s) then O_RDWR else O_RDONLY in
    let '(r, w) := os_OpenFile (blockDevice s) mode w in
    match r with
    | Err _ => Ok (Err OtherError, w)
    | Val f =>
        let '(info, w) := file_Stat f w in
        match info with
        | Err _ => Panic NilDereference
        | Val info =>
            let h := newFileHandle (PlainFile (blockDevice s) f) (b_readOnly s) in
            Ok (Val (s <| bdHandle := Some (mkBlockDevice h (Z.quot (Size_ info) (sectorSize s))) |>), w)
        end
    end.

Definition NewBackend (opts : list (Backend W → Backend W)) (w : W) : outcome (result go_error (Backend W) * W) :=
  let s := foldl (λ s o, o s) emptyBackend opts in
  if bool_decide (fsRoot s = []) then open_device s w
  else
    match Abs (os_Getwd w) (fsRoot s) with
    | None => Ok (Err OtherError, w)
    | Some abs =>
        let '(info, w) := os_Stat abs w in
        match info with
        | Val fi => if IsDir fi then open_device (s <| fsRoot := abs |>) w else Ok (Err OtherError, w)
        | Err _ => Ok (Err OtherError, w)
        end
    end.

Fixpoint free_each (n : nat) (fd : Z) : bk () :=
  match n with
  | O => mret ()
  | S n => _ ← freeHandle fd; free_each n (fd + 1)
  end.

(** Shutdown ranges over the indices of the handle array, 0 to 63. *)
Definition Shutdown : bk () := free_each (Z.to_nat maxHandles) 0.
End FileOps.
