(* ===== verification/BackendLogic.v ===== *)
(** * Reasoning about backend operations

    [wp m Q s]: run from [s], the operation ends, does not panic, and leaves a
    result and a state in [Q].  [ensures I m Q]: from a state in [I], whenever the
    operation ends it leaves a state in [I] and a result in [Q].  One rule per
    primitive; the tactic [wp_step] applies them. *)
From stdpp Require Import gmap.
From S2P Require Import Prelude UdpfsProtocol UdpfsConnection BlockCache CachedReader CompressedFile GoPath CompressedImage OsWorld Backend.

Section Logic.
Context {W : Type} `{OS W} `{Decoders}.
Abbreviation state := (Backend W * W)%type.

Definition wp {A} (m : bk A) (Q : A → state → Prop) (s : state) : Prop :=
  ∃ a s', m s = Ok (a, s') ∧ Q a s'.

Lemma wp_ret {A} (a : A) (Q : A → state → Prop) s : Q a s → wp (mret a) Q s.
Proof. intros HQ. by exists a, s. Qed.

Lemma wp_bind {A B} (m : bk A) (k : A → bk B) Q s :
  wp m (λ a s', wp (k a) Q s') s → wp (m ≫= k) Q s.
Proof.
  intros (a & s' & Hm & b & s'' & Hk & HQ). exists b, s''. split; [|done].
  unfold mbind, bk_bind. by rewrite Hm, bind_Ok.
Qed.

Lemma wp_mono {A} (m : bk A) (P Q : A → state → Prop) s :
  wp m P s → (∀ a s', P a s' → Q a s') → wp m Q s.
Proof. intros (a & s' & Hm & HP) HPQ. exists a, s'. auto. Qed.

Lemma wp_gets {A} (f : Backend W → A) (Q : A → state → Prop) b w : Q (f b) (b, w) → wp (gets f) Q (b, w).
Proof. intros HQ. by exists (f b), (b, w). Qed.

Lemma wp_modify f (Q : () → state → Prop) b w : Q () (f b, w) → wp (modify f) Q (b, w).
Proof. intros HQ. by exists (), (f b, w). Qed.

Lemma wp_call {A} (f : W → A * W) (Q : A → state → Prop) b w :
  (∀ a w', f w = (a, w') → Q a (b, w')) → wp (call f) Q (b, w).
Proof.
  intros HQ. destruct (f w) as [a w'] eqn:E. exists a, (b, w'). unfold call. rewrite E. auto.
Qed.

Lemma wp_call_out {A} (f : W → outcome (A * W)) (Q : A → state → Prop) b w :
  (∃ a w', f w = Ok (a, w') ∧ Q a (b, w')) → wp (call_out f) Q (b, w).
Proof. intros (a & w' & E & HQ). exists a, (b, w'). unfold call_out. by rewrite E, bind_Ok. Qed.

Lemma wp_observe {A} (f : Backend W → W → outcome A) (Q : A → state → Prop) b w :
  (∃ a, f b w = Ok a ∧ Q a (b, w)) → wp (observe f) Q (b, w).
Proof. intros (a & E & HQ). exists a, (b, w). unfold observe. by rewrite E, bind_Ok. Qed.

Lemma wp_lift {A} (o : outcome A) (Q : A → state → Prop) s :
  (∃ a, o = Ok a ∧ Q a s) → wp (lift o) Q s.
Proof. intros (a & -> & HQ). by exists a, s. Qed.
End Logic.

Abbreviation bstate W := (Backend W * W)%type.

(** One step of a weakest-precondition proof. *)
Ltac wp_step :=
  match goal with
  | |- wp (_ ≫= _) _ _ => apply wp_bind
  | |- wp (mret _) _ _ => apply wp_ret
  | |- wp (gets _) _ _ => apply wp_gets
  | |- wp (modify _) _ _ => apply wp_modify
  | |- wp (call _) _ _ => apply wp_call; intros ? ? ?
  | |- wp (match ?x with _ => _ end) _ _ => destruct x eqn:?
  | |- wp (if ?x then _ else _) _ _ => destruct x eqn:?
  end.

(** ** Invariants with results *)

Section Ensures.
Context {W : Type} `{OS W} `{Decoders}.
Context (I : bstate W → Prop).

Definition ensures {A} (m : bk A) (Q : A → Prop) : Prop :=
  ∀ s a s', I s → m s = Ok (a, s') → I s' ∧ Q a.

Lemma ens_ret {A} (a : A) (Q : A → Prop) : Q a → ensures (mret a) Q.
Proof. by intros HQ s a' s' HI [= <- <-]. Qed.

Lemma ens_bind {A B} (m : bk A) (k : A → bk B) (Q : A → Prop) (R : B → Prop) :
  ensures m Q → (∀ a, Q a → ensures (k a) R) → ensures (m ≫= k) R.
Proof.
  intros Hm Hk s b s'' HI Hr. unfold mbind, bk_bind in Hr. apply bind_Ok_inv in Hr as ([a s'] & H1 & H2).
  destruct (Hm s a s' HI H1) as [HI' HQ]. by eapply Hk.
Qed.

Lemma ens_gets {A} (f : Backend W → A) (Q : A → Prop) : (∀ b w, I (b, w) → Q (f b)) → ensures (gets f) Q.
Proof. intros HQ [b w] a s' HI [= <- <-]. split; [done|by eapply HQ]. Qed.

Lemma ens_modify f (Q : () → Prop) : Q () → (∀ b w, I (b, w) → I (f b, w)) → ensures (modify f) Q.
Proof. intros HQ Hf [b w] a s' HI [= <- <-]. auto. Qed.

Lemma ens_call {A} (f : W → A * W) (Q : A → Prop) :
  (∀ b w, I (b, w) → I (b, snd (f w)) ∧ Q (fst (f w))) → ensures (call f) Q.
Proof.
  intros Hf [b w] a s' HI Hr. unfold call in Hr. specialize (Hf b w HI). destruct (f w) as [x w'].
  by injection Hr as <- <-.
Qed.

Lemma ens_call_out {A} (f : W → outcome (A * W)) (Q : A → Prop) :
  (∀ b w a w', I (b, w) → f w = Ok (a, w') → I (b, w') ∧ Q a) → ensures (call_out f) Q.
Proof.
  intros Hf [b w] a s' HI Hr. unfold call_out in Hr. apply bind_Ok_inv in Hr as ([x w'] & E & Hr).
  injection Hr as <- <-. by eapply Hf.
Qed.

Lemma ens_observe {A} (f : Backend W → W → outcome A) (Q : A → Prop) : (∀ a, Q a) → ensures (observe f) Q.
Proof.
  intros HQ [b w] a s' HI Hr. unfold observe in Hr. apply bind_Ok_inv in Hr as (x & _ & Hr).
  injection Hr as <- <-. auto.
Qed.

Lemma ens_lift {A} (o : outcome A) (Q : A → Prop) : (∀ a, o = Ok a → Q a) → ensures (lift o) Q.
Proof.
  intros HQ s a s' HI Hr. unfold lift in Hr. apply bind_Ok_inv in Hr as (x & E & Hr). injection Hr as <- <-. auto.
Qed.

Lemma ens_weaken {A} (m : bk A) (Q R : A → Prop) : ensures m Q → (∀ a, Q a → R a) → ensures m R.
Proof. intros Hm HQR s a s' HI Hr. destruct (Hm s a s' HI Hr). auto. Qed.
End Ensures.

Abbreviation any := (λ _, True).
