(* ===== verification/BackendInvariant.v ===== *)
(** * The invariant of the backend, and rules for its handle operations

    The table and the objects in it are well formed, every file in it is open, and
    no file is in it twice: no operation works on a closed file or closes one twice.
    One rule per handle operation says what it leaves of a state in the invariant. *)
From stdpp Require Import gmap.
From S2P Require Import Prelude UdpfsProtocol UdpfsConnection UdpfsContract BlockCache CachedReader CompressedFile GoPath Cso Zso Chd CompressedImage ImageSafety OsWorld Backend BackendLogic.

(** ** The invariant *)

Section Invariant.
Context {W : Type} `{OSL : OSLaws W} `{Decoders}.
Implicit Types (b : Backend W) (w : W).

(** What the decoders and the image files of the host have to be like: the LZ4
    decoder and libchdr fill the buffers they are given, and the files that can be
    opened as images have a header and a table that can be allocated.  Every world of
    the host is meant, so no client can bring in a file that is not like that. *)
Record images_ok : Prop := {
  im_lz4 : lz4_keeps_length;
  im_chd : chd_fills_buffer;
  im_files : ∀ p w f, os_Image p w = Some f → image_file_sane p f
}.

(** An open image is a reader of some content, whose blocks may fail. *)
Definition obj_ok (o : FileObject (W := W)) : Prop :=
  match o with
  | PlainFile name _ => name ≠ []
  | ImageFile r => info r = zeroInfo ∧ ∃ content, reader_ok (HB := serving) content r
  end.

(** The file of the system behind an object. *)
Definition plain (f : fileHandle W) : option osfile :=
  match fh_obj f with
  | PlainFile _ g => Some g
  | ImageFile _ => None
  end.

(** An image is only open for reading. *)
Definition file_ok (f : fileHandle W) : Prop :=
  obj_ok (fh_obj f) ∧ 0 <= sectorCount (wr f) ∧ (plain f = None → fh_readOnly f = true).

(** The name and the mode of a file, which do not change while it is open. *)
Definition same_id (f f' : fileHandle W) : Prop :=
  obj_Name (fh_obj f) = obj_Name (fh_obj f') ∧ fh_readOnly f = fh_readOnly f'.
Definition dir_ok (d : dirHandle) : Prop :=
  0 <= dh_index d ∧ Forall (λ e, zlen e <= 255) (entries d).

Definition slot_at b (i : Z) : option (handle W) := if i <? 0 then None else mjoin (handles b !! Z.to_nat i).

Definition file_at b (r : fref) : option (fileHandle W) :=
  match r with
  | RefBlockDevice => bd_file <$> bdHandle b
  | RefSlot i => match slot_at b i with Some (HFile f) => Some f | _ => None end
  end.

Record backend_ok (ss : Z) b w : Prop := {
  bo_handles : length (handles b) = 64%nat;
  bo_used : length (lastUsed b) = 64%nat;
  bo_files : ∀ r f, file_at b r = Some f → file_ok f ∧ ∀ g, plain f = Some g → os_isopen g w;
  bo_once : ∀ r r' f f' g, file_at b r = Some f → file_at b r' = Some f' →
    plain f = Some g → plain f' = Some g → r = r';
  bo_dirs : ∀ i d, slot_at b i = Some (HDir d) → dir_ok d;
  bo_exclusive : ∀ i j f f', i ≠ j → file_at b (RefSlot i) = Some f → file_at b (RefSlot j) = Some f' →
    obj_Name (fh_obj f) = obj_Name (fh_obj f') → fh_readOnly f = true ∧ fh_readOnly f' = true;
  bo_sector : sectorSize b = ss ∧ 0 < ss;
  bo_images : enableCompression b = true → images_ok
}.

(** No handle refers to the file. *)
Definition absent b (g : osfile) : Prop := ∀ r f, file_at b r = Some f → plain f ≠ Some g.

Context (ss : Z).

Lemma bo_world b w w' :
  (∀ g, os_isopen g w → os_isopen g w') → backend_ok ss b w → backend_ok ss b w'.
Proof. intros Hw [Bh Bu Bf Bo Bd Bx Bs Bi]. split; try done. intros r f Hf. destruct (Bf r f Hf). auto. Qed.

Lemma bo_step b w w' : os_step w w' → backend_ok ss b w → backend_ok ss b w'.
Proof. intros Hw. apply bo_world. intros g. by apply os_step_open. Qed.

(** Changing a slot: what the slots hold afterwards. *)
Lemma slot_at_insert b i j x :
  0 <= i → (Z.to_nat i < length (handles b))%nat →
  slot_at (b <| handles ::= λ l, <[Z.to_nat i := x]> l |>) j = if decide (j = i) then x else slot_at b j.
Proof.
  intros Hi Hl. unfold slot_at. simpl. case_decide as Hj.
  - subst j. rewrite (proj2 (Z.ltb_ge i 0)), list_lookup_insert_eq by lia. done.
  - destruct (Z.ltb_spec j 0); [done|]. by rewrite list_lookup_insert_ne by lia.
Qed.

Lemma bo_lastUsed b w (g : list Z → list Z) :
  (∀ l, length (g l) = length l) → backend_ok ss b w → backend_ok ss (b <| lastUsed ::= g |>) w.
Proof. intros Hg [Bh Bu Bf Bo Bd Bx Bs Bi]. split; try done. simpl. by rewrite Hg. Qed.

Lemma bo_clear b w i :
  0 <= i < 64 → backend_ok ss b w → backend_ok ss (b <| handles ::= λ l, <[Z.to_nat i := None]> l |>) w.
Proof.
  intros Hi [Bh Bu Bf Bo Bd Bx Bs Bi].
  assert (∀ r f, file_at (b <| handles ::= λ l, <[Z.to_nat i := None]> l |>) r = Some f → file_at b r = Some f) as Hsub.
  { intros [|j] f; [done|]. unfold file_at. rewrite slot_at_insert by lia. by case_decide. }
  split; try done.
  - simpl. by rewrite length_insert.
  - intros r f Hf. by apply (Bf r f), Hsub.
  - intros r r' f f' g Hf Hf'. apply Bo; by apply Hsub.
  - intros j d. rewrite slot_at_insert by lia. case_decide; [done|apply Bd].
  - intros j k f f' Hne Hf Hf'. apply Bx with j k; [done|by apply Hsub..].
Qed.

(** A file can be opened next to those that are open: none of the same name, or
    all of them, and itself, for reading. *)
Definition compatible b (f : fileHandle W) : Prop :=
  ∀ i f', file_at b (RefSlot i) = Some f' → obj_Name (fh_obj f') = obj_Name (fh_obj f) →
    fh_readOnly f' = true ∧ fh_readOnly f = true.

Definition handle_ok b w (h : handle W) : Prop :=
  match h with
  | HFile f => file_ok f ∧ compatible b f ∧ ∀ g, plain f = Some g → os_isopen g w ∧ absent b g
  | HDir d => dir_ok d
  end.

(** Putting a new handle in a slot. *)
Lemma bo_insert b w i h :
  0 <= i < 64 → handle_ok b w h → backend_ok ss b w →
  backend_ok ss (b <| handles ::= λ l, <[Z.to_nat i := Some h]> l |>) w.
Proof.
  intros Hi Hh [Bh Bu Bf Bo Bd Bx Bs Bi].
  assert (∀ r f, file_at (b <| handles ::= λ l, <[Z.to_nat i := Some h]> l |>) r = Some f →
            file_at b r = Some f ∨ (r = RefSlot i ∧ h = HFile f)) as Hsub.
  { intros [|j] f; [by left|]. unfold file_at. rewrite slot_at_insert by lia.
    case_decide; [subst j|by left]. destruct h; [intros [= ->]; by right|done]. }
  split; try done.
  - simpl. by rewrite length_insert.
  - intros r f [Hf|[-> ->]]%Hsub; [by apply (Bf r f)|]. destruct Hh as (Hok & _ & Hg).
    split; [done|]. intros g Hp. by apply Hg.
  - intros r r' f f' g [Hf|[-> ->]]%Hsub [Hf'|[-> E]]%Hsub Hp Hp'; [by eapply Bo| | |done].
    + subst h. destruct Hh as (_ & _ & Hg). destruct (Hg g Hp') as [_ Ha]. by destruct (Ha r f).
    + destruct Hh as (_ & _ & Hg). destruct (Hg g Hp) as [_ Ha]. by destruct (Ha r' f').
  - intros j d. rewrite slot_at_insert by lia. case_decide; [|apply Bd]. intros [= ->]. exact Hh.
  - intros j k f f' Hne [Hf|[[= ->] ->]]%Hsub [Hf'|[[= ->] E]]%Hsub Hn; [by eapply Bx| | |done].
    + subst h. destruct Hh as (_ & Hc & _). by apply (Hc j f).
    + destruct Hh as (_ & Hc & _). destruct (Hc k f' Hf' (eq_sym Hn)). by split.
Qed.

(** Changing a file handle in place. *)
Definition put_at (r : fref) (f : fileHandle W) b : Backend W :=
  match r with
  | RefBlockDevice => b <| bdHandle ::= fmap (λ d, mkBlockDevice f (totalSectorCount d)) |>
  | RefSlot i => b <| handles ::= λ l, <[Z.to_nat i := Some (HFile f)]> l |>
  end.

Lemma file_at_slot b i f : file_at b (RefSlot i) = Some f → 0 <= i ∧ (Z.to_nat i < length (handles b))%nat.
Proof.
  unfold file_at, slot_at. destruct (Z.ltb_spec i 0); [done|]. intros Hf. split; [done|].
  apply lookup_lt_is_Some. destruct (handles b !! Z.to_nat i); [by eexists|done].
Qed.

Lemma file_at_put b r r' f f0 :
  file_at b r = Some f0 → file_at (put_at r f b) r' = if decide (r' = r) then Some f else file_at b r'.
Proof.
  intros Hr. destruct r as [|i].
  - simpl. destruct r' as [|j]; [|done]. rewrite decide_True by done. simpl in Hr.
    destruct (bdHandle b) as [d|] eqn:E; [|done]. simpl. by rewrite E.
  - destruct (file_at_slot b i f0 Hr). destruct r' as [|j]; [done|].
    unfold file_at, put_at. rewrite slot_at_insert by done.
    repeat case_decide; congruence.
Qed.

Lemma bo_put b w r f0 f :
  file_at b r = Some f0 → file_ok f → plain f = plain f0 → same_id f f0 → backend_ok ss b w →
  backend_ok ss (put_at r f b) w.
Proof.
  intros Hr Hf Hp Hid Hb. pose proof Hb as [Bh Bu Bf Bo Bd Bx Bs Bi].
  assert (∀ r' f', file_at (put_at r f b) r' = Some f' →
            ∃ f'', file_at b r' = Some f'' ∧ plain f'' = plain f' ∧ (file_ok f'' → file_ok f') ∧
              same_id f' f'') as Hback.
  { intros r' f'. rewrite (file_at_put b r r' f f0 Hr). case_decide as Er; [subst r'|].
    - intros [= <-]. by exists f0.
    - intros Hf'. by exists f'. }
  split.
  - destruct r; simpl; [done|by rewrite length_insert].
  - destruct r; done.
  - intros r' f' Hf'. destruct (Hback r' f' Hf') as (f'' & E1 & E2 & E3 & _).
    destruct (Bf r' f'' E1) as [K1 K2]. split; [by apply E3|]. intros g Hg. apply K2. congruence.
  - intros r1 r2 f1 f2 g E1 E2 G1 G2. destruct (Hback r1 f1 E1) as (f1' & H1' & P1 & _ & _).
    destruct (Hback r2 f2 E2) as (f2' & H2' & P2 & _ & _). apply (Bo r1 r2 f1' f2' g); congruence.
  - intros j d. destruct r as [|i]; [apply Bd|]. destruct (file_at_slot b i f0 Hr).
    unfold put_at. rewrite slot_at_insert by done. case_decide; [done|apply Bd].
  - intros i j f1 f2 Hne E1 E2 Hn. destruct (Hback (RefSlot i) f1 E1) as (f1' & H1' & _ & _ & [N1 ->]).
    destruct (Hback (RefSlot j) f2 E2) as (f2' & H2' & _ & _ & [N2 ->]).
    apply (Bx i j f1' f2'); congruence.
  - destruct r; done.
  - destruct r; done.
Qed.

(** Closing the handle of a slot and clearing it: no other handle has its file. *)
Definition close_world (h : handle W) w : W :=
  match h with
  | HFile f => snd (obj_Close (fh_obj f) w)
  | HDir _ => w
  end.

Lemma close_world_open h w g :
  (∀ f, h = HFile f → plain f ≠ Some g) → os_isopen g w → os_isopen g (close_world h w).
Proof.
  intros Hg Ho. destruct h as [f|d]; [|done]. specialize (Hg f eq_refl). unfold plain in Hg. simpl.
  unfold obj_Close. destruct (fh_obj f) as [name g'|rd].
  - pose proof (os_close_open g g' w ltac:(congruence) Ho) as Hc. by destruct (file_Close g' w).
  - by destruct (CachedReader_Close rd).
Qed.

Lemma close_world_isdir h w p : os_isdir p w → os_isdir p (close_world h w).
Proof.
  intros Hd. destruct h as [f|d]; [|done]. simpl. unfold obj_Close. destruct (fh_obj f) as [name g|rd].
  - pose proof (os_close_isdir p g w Hd) as Hc. by destruct (file_Close g w).
  - by destruct (CachedReader_Close rd).
Qed.

Lemma bo_close b w i old :
  0 <= i < 64 → slot_at b i = Some old → backend_ok ss b w →
  backend_ok ss (b <| handles ::= λ l, <[Z.to_nat i := None]> l |>) (close_world old w).
Proof.
  intros Hi Hold Hb. pose proof (bo_clear b w i Hi Hb) as [Bh Bu Bf Bo Bd Bx Bs Bi].
  set (b' := b <| handles ::= λ l, <[Z.to_nat i := None]> l |>) in *.
  split; try done. intros r f Hf. destruct (Bf r f Hf) as [K1 K2]. split; [done|]. intros g Hg.
  apply close_world_open; [|by apply K2]. intros f0 -> Hg0.
  assert (file_at b (RefSlot i) = Some f0) as H1 by (unfold file_at; by rewrite Hold).
  assert (r ≠ RefSlot i ∧ file_at b r = Some f) as [Hne H2].
  { destruct Hb as [Bh' _ _ _ _ _ _ _]. destruct r as [|j]; [by split|].
    unfold file_at, b' in Hf. rewrite slot_at_insert in Hf by lia.
    case_decide; [done|]. split; [congruence|exact Hf]. }
  apply Hne. by apply (bo_once _ _ _ Hb r (RefSlot i) f f0 g).
Qed.

Lemma absent_clear b i g : 0 <= i < 64 → length (handles b) = 64%nat →
  absent b g → absent (b <| handles ::= λ l, <[Z.to_nat i := None]> l |>) g.
Proof.
  intros Hi Hl Ha [|j] f Hf; [by apply (Ha RefBlockDevice f)|]. apply (Ha (RefSlot j) f).
  unfold file_at in *. rewrite slot_at_insert in Hf by lia. by case_decide.
Qed.

Lemma compatible_clear b i f : 0 <= i < 64 → length (handles b) = 64%nat →
  compatible b f → compatible (b <| handles ::= λ l, <[Z.to_nat i := None]> l |>) f.
Proof.
  intros Hi Hl Hc j f'. unfold file_at. rewrite slot_at_insert by lia. case_decide; [done|apply (Hc j f')].
Qed.

Lemma bo_replace b w i old h :
  0 <= i < 64 → slot_at b i = Some old → handle_ok b w h → backend_ok ss b w →
  backend_ok ss (b <| handles ::= λ l, <[Z.to_nat i := Some h]> l |>) (close_world old w).
Proof.
  intros Hi Hold Hh Hb. pose proof (bo_close b w i old Hi Hold Hb) as Hc.
  set (b' := b <| handles ::= λ l, <[Z.to_nat i := None]> l |>) in *.
  assert (handle_ok b' (close_world old w) h) as Hh'.
  { destruct h as [f|d]; [|done]. destruct Hh as (Hok & Hc' & Hg). split; [done|].
    split; [by apply compatible_clear; [|apply Hb|]|]. intros g Hp.
    destruct (Hg g Hp) as [Ho Ha]. split.
    - apply close_world_open; [|done]. intros f0 ->. apply (Ha (RefSlot i)). unfold file_at. by rewrite Hold.
    - by apply absent_clear; [|apply Hb|]. }
  pose proof (bo_insert b' (close_world old w) i h Hi Hh' Hc) as Hr.
  assert (b' <| handles ::= λ l, <[Z.to_nat i := Some h]> l |> =
          b <| handles ::= λ l, <[Z.to_nat i := Some h]> l |>) as E; [|by rewrite E in Hr].
  unfold b', set_field, set_handles. simpl. by rewrite list_insert_insert_eq.
Qed.
End Invariant.

(** ** Rules for the handle operations *)

Section Rules.
Context {W : Type} `{OSL : OSLaws W} `{Decoders}.
Context (ss : Z).
Implicit Types (b : Backend W) (w : W).

(** What the scan for a slot finds: a free one with no free one before it, or,
    when all are taken, the first of the oldest ones before [ts]. *)
Lemma alloc_scan_spec (hs : list (option (handle W))) lu i oldest ts :
  length lu = length hs →
  match alloc_scan hs lu i oldest ts with
  | inl k => ∃ n, k = i + Z.of_nat n ∧ hs !! n = Some None ∧ ∀ m, (m < n)%nat → ∃ h, hs !! m = Some (Some h)
  | inr (o, t) => Forall is_Some hs ∧ Forall (λ u, t <= u) lu ∧
      ((o = oldest ∧ t = ts) ∨
       ∃ n, o = i + Z.of_nat n ∧ lu !! n = Some t ∧ t < ts ∧ Forall (λ u, t < u) (take n lu))
  end.
Proof.
  revert lu i oldest ts. induction hs as [|x hs IH]; intros [|u lu] i oldest ts Hl; try done.
  { simpl. repeat split; try done. by left. }
  cbn [alloc_scan]. destruct x as [h|]; last first.
  { exists 0%nat. split; [lia|]. split; [done|lia]. }
  injection Hl as Hl. set (o1 := if u <? ts then i else oldest). set (t1 := if u <? ts then u else ts).
  replace (if u <? ts then _ else _) with (alloc_scan hs lu (i + 1) o1 t1) by (unfold o1, t1; by case_bool).
  specialize (IH lu (i + 1) o1 t1 Hl). destruct (alloc_scan hs lu (i + 1) o1 t1) as [k|[o t]].
  - destruct IH as (n & -> & Hn & Hm). exists (S n). split; [lia|]. split; [done|].
    intros [|m] Hlt; [by exists h|]. apply Hm. lia.
  - destruct IH as (Hall & Hmin & Hor). split; [by constructor|].
    destruct Hor as [[-> ->]|(n & -> & Hn & Ht & Hf)]; unfold t1, o1 in *.
    + split; [constructor; [case_bool; lia|done]|]. case_bool; [right|by left].
      exists 0%nat. split; [lia|]. by split_and!.
    + assert (t < u ∧ t < ts) as [? ?] by (destruct (Z.ltb_spec u ts); lia).
      split; [constructor; [lia|done]|]. right. exists (S n). split; [lia|]. by split_and!; [|..|constructor].
Qed.

(** What an operation that is not about files leaves alone. *)
Record quiet (b b' : Backend W) (w w' : W) : Prop := {
  q_handles : handles b' = handles b;
  q_device : bdHandle b' = bdHandle b;
  q_open : ∀ g, os_isopen g w → os_isopen g w';
  q_isdir : ∀ p, os_isdir p w → os_isdir p w'
}.

Lemma file_at_same b b' r : handles b' = handles b → bdHandle b' = bdHandle b → file_at b' r = file_at b r.
Proof. intros E1 E2. destruct r; simpl; [by rewrite E2|]. unfold slot_at. by rewrite E1. Qed.

Lemma wp_slot i (Q : option (handle W) → bstate W → Prop) b w :
  0 <= i < 64 → backend_ok ss b w → Q (slot_at b i) (b, w) → wp (slot i) Q (b, w).
Proof.
  intros Hi Hb HQ. unfold slot. apply wp_bind, wp_gets, wp_lift.
  destruct (lookup_lt_is_Some_2 (handles b) (Z.to_nat i)) as [x Hx]; [rewrite (bo_handles _ _ _ Hb); lia|].
  exists x. split; [apply index_ok; [lia|done]|]. unfold slot_at in HQ.
  by rewrite (proj2 (Z.ltb_ge i 0)), Hx in HQ by lia.
Qed.

Lemma wp_use_slot i (Q : () → bstate W → Prop) b w :
  backend_ok ss b w →
  (∀ b' w', backend_ok ss b' w' → quiet b b' w w' → Q () (b', w')) → wp (use_slot i) Q (b, w).
Proof.
  intros Hb HQ. unfold use_slot. apply wp_bind, wp_call. intros now w' E. apply wp_modify.
  assert (w' = snd (os_Now w)) as -> by by rewrite E.
  assert (os_step w (snd (os_Now w))) as Hs by (left; constructor).
  apply HQ.
  - apply bo_lastUsed; [intros l; by rewrite length_insert|]. by eapply bo_step.
  - split; try done; [|intros p; apply os_now_isdir]. intros g. by apply os_step_open.
Qed.

Lemma wp_handle_Close h (Q : () → bstate W → Prop) b w :
  Q () (b, close_world h w) → wp (handle_Close h) Q (b, w).
Proof.
  intros HQ. destruct h as [f|d]; [|by apply wp_ret]. apply wp_bind, wp_call. intros a w' E.
  apply wp_ret. simpl in HQ. by rewrite E in HQ.
Qed.

Lemma wp_getFile h (Q : option (fref * fileHandle W) → bstate W → Prop) b w :
  h <= 64 → backend_ok ss b w →
  (∀ x b' w', backend_ok ss b' w' → quiet b b' w w' →
     match x with Some (r, f) => file_at b' r = Some f ∧ 0 <= h | None => True end → Q x (b', w')) →
  wp (getFile h) Q (b, w).
Proof.
  intros Hh Hb HQ. assert (quiet b b w w) as Hq by by split.
  unfold getFile, BlockDeviceHandle. case_bool; [by apply wp_ret, HQ|]. case_bool.
  - apply wp_bind, wp_gets, wp_ret, HQ; [done|done|]. destruct (bdHandle b) as [d|] eqn:Ed; [|done].
    simpl. rewrite Ed. split; [done|lia].
  - apply wp_bind, (wp_slot (h - 1) _ b w ltac:(lia) Hb).
    destruct (slot_at b (h - 1)) as [[f|d]|] eqn:Es; [|by apply wp_ret, HQ..].
    apply wp_bind, wp_use_slot; [done|]. intros b' w' Hb' Hq'. apply wp_ret, HQ; [done|done|].
    rewrite (file_at_same b b') by apply Hq'. unfold file_at. rewrite Es. split; [done|lia].
Qed.

Lemma wp_getDir h (Q : option (Z * dirHandle) → bstate W → Prop) b w :
  1 <= h <= 64 → backend_ok ss b w →
  (∀ x b' w', backend_ok ss b' w' → quiet b b' w w' →
     match x with Some (i, d) => i = h - 1 ∧ slot_at b' i = Some (HDir d) ∧ dir_ok d | None => True end →
     Q x (b', w')) →
  wp (getDir h) Q (b, w).
Proof.
  intros Hh Hb HQ. assert (quiet b b w w) as Hq by by split. unfold getDir.
  apply wp_bind, (wp_slot (h - 1) _ b w ltac:(lia) Hb).
  destruct (slot_at b (h - 1)) as [[f|d]|] eqn:Es; [by apply wp_ret, HQ| |by apply wp_ret, HQ].
  apply wp_bind, wp_use_slot; [done|]. intros b' w' Hb' Hq'. apply wp_ret, HQ; [done|done|].
  split; [done|]. pose proof (bo_dirs _ _ _ Hb _ _ Es). split; [|done].
  unfold slot_at. rewrite (q_handles _ _ _ _ Hq'). exact Es.
Qed.

Lemma wp_put_file r f f0 (Q : () → bstate W → Prop) b w :
  backend_ok ss b w → file_at b r = Some f0 → file_ok f → plain f = plain f0 → same_id f f0 →
  (backend_ok ss (put_at r f b) w → file_at (put_at r f b) r = Some f → Q () (put_at r f b, w)) →
  wp (put_file r f) Q (b, w).
Proof.
  intros Hb Hr Hf Hp Hid HQ.
  assert (Q () (put_at r f b, w)) as HQ'.
  { apply HQ; [by eapply bo_put|]. by rewrite (file_at_put b r r f f0 Hr), decide_True. }
  destruct r; by apply wp_modify.
Qed.

Lemma wp_put_dir i d d0 (Q : () → bstate W → Prop) b w :
  0 <= i < 64 → backend_ok ss b w → slot_at b i = Some (HDir d0) → dir_ok d →
  (∀ b', backend_ok ss b' w → Q () (b', w)) → wp (set_slot i (Some (HDir d))) Q (b, w).
Proof. intros Hi Hb Hs Hd HQ. apply wp_modify, HQ. by apply bo_insert. Qed.

Lemma wp_allocHandle h (Q : Z → bstate W → Prop) b w :
  backend_ok ss b w → handle_ok b w h →
  (∀ a b' w', backend_ok ss b' w' →
     (a < 0 ∧ handles b' = handles b ∧ bdHandle b' = bdHandle b ∨ 1 <= a <= 64) →
     (∀ g, os_isopen g w → absent b g → os_isopen g w') → (∀ p, os_isdir p w → os_isdir p w') →
     Q a (b', w')) →
  wp (allocHandle h) Q (b, w).
Proof.
  intros Hb Hh HQ. unfold allocHandle. apply wp_bind, wp_call. intros now w1 E1.
  assert (w1 = snd (os_Now w)) as -> by by rewrite E1. set (w1 := snd (os_Now w)).
  assert (os_step w w1) as Hs1 by (left; constructor).
  assert (backend_ok ss b w1) as Hb1 by by eapply bo_step.
  assert (handle_ok b w1 h) as Hh1.
  { destruct h as [f|d]; [|done]. destruct Hh as (Hok & Hc & Hg). split; [done|]. split; [done|].
    intros g Hp. destruct (Hg g Hp). split; [by eapply os_step_open|done]. }
  assert (∀ i b2 w2, 0 <= i < 64 → backend_ok ss (b2 <| handles ::= λ l, <[Z.to_nat i := Some h]> l |>) w2 →
            (∀ g, os_isopen g w → absent b g → os_isopen g w2) → (∀ p, os_isdir p w → os_isdir p w2) →
            wp (_ ← set_slot i (Some h); _ ← use_slot i; mret (i + 1)) Q (b2, w2)) as Hput.
  { intros i b2 w2 Hi Hb2 Ho Hd. apply wp_bind, wp_modify, wp_bind, wp_use_slot; [done|].
    intros b3 w3 Hb3 Hq. apply wp_ret, HQ; [done|lia| |]; intros; [by apply Hq, Ho|by apply Hq, Hd]. }
  apply wp_bind, wp_gets, wp_bind, wp_gets.
  pose proof (alloc_scan_spec (handles b) (lastUsed b) 0 0 now) as Hs.
  rewrite (bo_handles _ _ _ Hb), (bo_used _ _ _ Hb) in Hs. specialize (Hs eq_refl).
  destruct (alloc_scan _ _ 0 0 now) as [k|[o t]].
  - destruct Hs as (n & -> & Hn & _). apply lookup_lt_Some in Hn. rewrite (bo_handles _ _ _ Hb) in Hn.
    apply Hput; [lia|by apply bo_insert; [lia|..]|intros; by eapply os_step_open|intros; by apply os_now_isdir].
  - destruct Hs as (Hall & _ & Ho). assert (0 <= o < 64) as Hi.
    { destruct Ho as [[-> _]|(n & -> & Hn & _)]; [lia|].
      apply lookup_lt_Some in Hn. rewrite (bo_used _ _ _ Hb) in Hn. lia. }
    apply wp_bind, wp_call. intros now' w2 E2.
    assert (w2 = snd (os_Now w1)) as -> by by rewrite E2. set (w2 := snd (os_Now w1)).
    assert (os_step w1 w2) as Hs2 by (left; constructor).
    assert (backend_ok ss b w2) as Hb2 by by eapply bo_step.
    assert (∀ g, os_isopen g w → os_isopen g w2) as Ho2 by (intros; by do 2 (eapply os_step_open; [done|])).
    assert (∀ p, os_isdir p w → os_isdir p w2) as Hd2 by (intros; by do 2 apply os_now_isdir).
    case_bool; [|apply wp_ret, HQ; [done|by left|intros; by apply Ho2|done]].
    apply wp_bind, (wp_slot _ _ b w2 Hi Hb2).
    destruct (slot_at b o) as [old|] eqn:Eo; last first.
    { exfalso. unfold slot_at in Eo. rewrite (proj2 (Z.ltb_ge o 0)) in Eo by lia.
      destruct (lookup_lt_is_Some_2 (handles b) (Z.to_nat o)) as [x Hx]; [rewrite (bo_handles _ _ _ Hb); lia|].
      rewrite Hx in Eo. simpl in Eo. subst x. by destruct (Forall_lookup_1 _ _ _ _ Hall Hx). }
    apply wp_bind, wp_handle_Close. apply Hput; [done| | |].
    + apply bo_replace; [done|done| |done]. destruct h as [f|d]; [|done]. destruct Hh1 as (Hok & Hc & Hg).
      split; [done|]. split; [done|]. intros g Hp. destruct (Hg g Hp). split; [by eapply os_step_open|done].
    + intros g Hg Ha. apply close_world_open; [|by apply Ho2]. intros f ->.
      apply (Ha (RefSlot o)). unfold file_at. by rewrite Eo.
    + intros p Hp. by apply close_world_isdir, Hd2.
Qed.

Lemma wp_freeHandle h (Q : bool → bstate W → Prop) b w :
  0 <= h <= 64 → backend_ok ss b w → (∀ b' w', backend_ok ss b' w' → Q true (b', w')) →
  wp (freeHandle h) Q (b, w).
Proof.
  intros Hh Hb HQ. unfold freeHandle, BlockDeviceHandle. case_bool; [by apply wp_ret, HQ|].
  apply wp_bind, (wp_slot (h - 1) _ b w ltac:(lia) Hb).
  destruct (slot_at b (h - 1)) as [old|] eqn:Eo; [|by apply wp_ret, HQ].
  apply wp_bind, wp_handle_Close, wp_bind, wp_modify, wp_ret, HQ. apply bo_close; [lia|done..].
Qed.

(** The methods of an object, on the handle of a reference. *)
(** A file handle whose object has been used: the same file or image. *)
Definition used_object (f : fileHandle W) (o : FileObject) : Prop :=
  match fh_obj f, o with
  | PlainFile name g, PlainFile name' g' => name' = name ∧ g' = g
  | ImageFile rd, ImageFile rd' => info rd' = info rd ∧ ∃ content, reader_ok (HB := serving) content rd'
  | _, _ => False
  end.

Lemma used_object_ok f o :
  file_ok f → used_object f o →
  let f' := mkFileHandle o (wr f) (fh_readOnly f) in file_ok f' ∧ plain f' = plain f ∧ same_id f' f.
Proof.
  intros (Ho & Hs & Hro). unfold used_object, file_ok, plain, same_id, obj_Name, CachedReader_Name in *. simpl.
  destruct (fh_obj f) as [name g|rd], o as [name' g'|rd']; try done.
  - by intros [-> ->].
  - intros [E Hok]. destruct Ho as [Hi _]. split_and!; try done; [|by rewrite E].
    unfold obj_ok. by rewrite E.
Qed.

Lemma wp_put_used r f o (Q : () → bstate W → Prop) b w :
  backend_ok ss b w → file_at b r = Some f → used_object f o →
  (∀ b', backend_ok ss b' w → file_at b' r = Some (mkFileHandle o (wr f) (fh_readOnly f)) → Q () (b', w)) →
  wp (put_file r (mkFileHandle o (wr f) (fh_readOnly f))) Q (b, w).
Proof.
  intros Hb Hr Hu HQ. destruct (bo_files _ _ _ Hb r f Hr) as [Hf _].
  destruct (used_object_ok f o Hf Hu) as (H1 & H2 & H3). apply wp_put_file with f; auto.
Qed.

Lemma wp_obj_Seek r f off wh (Q : Z * option go_error * fileHandle W → bstate W → Prop) b w :
  backend_ok ss b w → file_at b r = Some f →
  (∀ p e f' b' w', backend_ok ss b' w' → file_at b' r = Some f' → wr f' = wr f →
     Q (p, e, f') (b', w')) →
  wp (file_obj_Seek r f off wh) Q (b, w).
Proof.
  intros Hb Hr HQ. destruct (bo_files _ _ _ Hb r f Hr) as [(Ho & Hs & Hro) _].
  unfold file_obj_Seek. apply wp_bind, wp_call. intros [[p e] o] w' E.
  assert (backend_ok ss b w' ∧ used_object f o) as [Hb' Hu].
  { unfold used_object. unfold obj_Seek in E. destruct (fh_obj f) as [name g|rd].
    - assert (w' = snd (file_Seek g off wh w) ∧ o = PlainFile name g) as [-> ->].
      { destruct (file_Seek g off wh w) as [[? ?] ?]. by simplify_eq. }
      split; [|done]. eapply bo_step; [|done]. left. constructor.
    - destruct Ho as [Hi [content Hok]]. pose proof (CachedReader_Seek_spec (HB := serving) content off wh rd Hok) as Hsk.
      assert (info (snd (CachedReader_Seek off wh rd)) = info rd) as Hinfo
        by (unfold CachedReader_Seek; repeat case_bool; done).
      destruct (CachedReader_Seek off wh rd) as [[? ?] rd']. simplify_eq. split; [done|]. split; [done|].
      exists content. apply Hsk. }
  apply wp_bind, wp_put_used; [done..|]. intros b2 Hb2 Hf2. apply wp_ret. by apply HQ.
Qed.

Lemma wp_obj_Write r f data (Q : Z * option go_error → bstate W → Prop) b w :
  backend_ok ss b w → file_at b r = Some f →
  (∀ x b' w', backend_ok ss b' w' → Q x (b', w')) → wp (file_obj_Write r f data) Q (b, w).
Proof.
  intros Hb Hr HQ. destruct (bo_files _ _ _ Hb r f Hr) as [(Ho & Hs & Hro) _].
  unfold file_obj_Write. apply wp_bind, wp_call. intros [[n e] o] w' E.
  assert (backend_ok ss b w' ∧ used_object f o) as (Hb' & Hu).
  { unfold used_object. unfold obj_Write in E. destruct (fh_obj f) as [name g|rd].
    - assert (w' = snd (file_Write g data w) ∧ o = PlainFile name g) as [-> ->].
      { destruct (file_Write g data w) as [[? ?] ?]. by simplify_eq. }
      split; [|done]. eapply bo_step; [|done]. right. constructor.
    - unfold CachedReader_Write in E. simplify_eq. split; [done|]. split; [done|]. apply Ho. }
  apply wp_bind, wp_put_used; [done..|]. intros b2 Hb2 _. apply wp_ret. by apply HQ.
Qed.

Lemma wp_obj_Read r f n (Q : list byte * option go_error → bstate W → Prop) b w :
  0 <= n → backend_ok ss b w → file_at b r = Some f →
  (∀ x b' w', backend_ok ss b' w' → Q x (b', w')) → wp (file_obj_Read r f n) Q (b, w).
Proof.
  intros Hn Hb Hr HQ. destruct (bo_files _ _ _ Hb r f Hr) as [(Ho & Hs & Hro) _].
  unfold file_obj_Read. apply wp_bind, wp_call_out.
  assert (∃ d e o w', obj_Read n (fh_obj f) w = Ok (d, e, o, w') ∧ backend_ok ss b w' ∧ used_object f o)
    as (d & e & o & w' & Hrun & Hb' & Hu).
  { unfold used_object, obj_Read. destruct (fh_obj f) as [name g|rd].
    - destruct (file_Read g n w) as [[d e] w'] eqn:E. exists d, e, (PlainFile name g), w'.
      split; [done|]. split; [|done]. replace w' with (snd (file_Read g n w)) by by rewrite E.
      eapply bo_step; [|done]. left. constructor.
    - destruct Ho as [Hi [content Hok]].
      destruct (CachedReader_Read_spec (HB := serving) content n rd Hok Hn) as (d & e & rd' & -> & Hok' & _ & _ & _ & _ & _ & Hinfo).
      exists d, e, (ImageFile rd'), w. split; [done|]. split; [done|]. split; [done|]. by exists content. }
  eexists _, _. split; [exact Hrun|]. apply wp_bind, wp_put_used; [done..|]. intros b2 Hb2 _.
  apply wp_ret. by apply HQ.
Qed.
End Rules.
