(* ===== verification/BackendContract.v ===== *)
(** * The backend keeps the contract of the FS interface

    Every operation keeps the invariant and ends without a panic when it is called
    with a handle in the table's range and a size that fits the read buffer. *)
From stdpp Require Import gmap.
From S2P Require Import Prelude UdpfsProtocol UdpfsConnection UdpfsContract BlockCache CachedReader CompressedFile GoPath CompressedImage ImageSafety OsWorld Backend BackendLogic BackendInvariant.

(** The state after a call of the system that closes nothing. *)
Ltac world_step E :=
  lazymatch type of E with ?c = (_, ?w') => replace w' with (snd c) by (by rewrite E) end;
  eapply bo_step; [first [apply Step_Open|unfold os_step; eauto with os]|eassumption].

Section Contract.
Context {W : Type} `{OSL : OSLaws W} `{Decoders}.
Context (ss : Z).
Implicit Types (b : Backend W) (w : W).

(** The calls that the backend accepts. *)
Definition backend_pre (R : Type) (op : fs_op R) : Prop :=
  match op with
  | FS_Close h => 0 <= h <= 64
  | FS_Read h size bufLen => h <= 64 ∧ 0 <= size ∧ (h < 0 ∨ size <= bufLen)
  | FS_WriteStart h | FS_WriteChunk h _ _ _ _ | FS_CompleteWrite h | FS_Lseek h _ _ => h <= 64
  | FS_Dread h => 1 <= h <= 64
  | FS_Bread h _ count bufLen =>
      h <= 64 ∧ 0 <= count ∧ (h < 0 ∨ count * (if h =? BlockDeviceHandle then ss else 512) <= bufLen)
  | FS_BwriteStart h _ count => h <= 64 ∧ 0 <= count
  | _ => True
  end.

(** What a caller gets of an operation. *)
Definition post {R} (op : fs_op R) (r : R) (s : bstate W) : Prop :=
  backend_ok ss (fst s) (snd s) ∧ fs_post backend_pre op r.

Lemma wp_sector_size h (Q : Z → bstate W → Prop) b w :
  backend_ok ss b w → Q (if h =? BlockDeviceHandle then ss else 512) (b, w) → wp (sector_size h) Q (b, w).
Proof.
  intros Hb HQ. unfold sector_size. apply wp_bind, wp_gets, wp_ret.
  rewrite (proj1 (bo_sector _ _ _ Hb)). by destruct (h =? BlockDeviceHandle).
Qed.

Lemma file_ok_wr (f : fileHandle W) ws ro :
  file_ok f → 0 <= sectorCount ws → fh_readOnly f = ro → file_ok (mkFileHandle (fh_obj f) ws ro).
Proof. intros (Ho & Hs & Hro) Hw <-. split; [exact Ho|]. split; [exact Hw|exact Hro]. Qed.

Ltac post_done := (apply wp_ret; split; [assumption|done]).

Lemma Close_ok h b w : 0 <= h <= 64 → backend_ok ss b w → wp (Close h) (post (FS_Close h)) (b, w).
Proof.
  intros Hh Hb. apply wp_bind, wp_freeHandle with ss; [done..|]. intros b' w' Hb'. post_done.
Qed.

Lemma Lseek_ok h off wh b w :
  h <= 64 → backend_ok ss b w → wp (Lseek h off wh) (post (FS_Lseek h off wh)) (b, w).
Proof.
  intros Hh Hb. apply wp_bind, wp_getFile with ss; [done..|]. intros [[r f]|] b' w' Hb' _ Hx; [|post_done].
  apply wp_bind, wp_obj_Seek with ss; [done|apply Hx|]. intros p e f' b2 w2 Hb2 _ _. post_done.
Qed.

Lemma Read_ok h size bufLen b w :
  h <= 64 → 0 <= size → h < 0 ∨ size <= bufLen → backend_ok ss b w →
  wp (Read h size bufLen) (post (FS_Read h size bufLen)) (b, w).
Proof.
  intros Hh Hs Hbuf Hb. apply wp_bind, wp_getFile with ss; [done..|].
  intros [[r f]|] b' w' Hb' _ Hx; [|post_done]. destruct Hx as [Hr Hh0].
  rewrite (proj2 (Z.ltb_ge bufLen size)) by lia.
  apply wp_bind, wp_obj_Read with ss; [done..|]. intros [d [e|]] b2 w2 Hb2; [|post_done].
  case_match; post_done.
Qed.

Lemma WriteStart_ok h b w :
  h <= 64 → backend_ok ss b w → wp (WriteStart h) (post (FS_WriteStart h)) (b, w).
Proof.
  intros Hh Hb. apply wp_bind, wp_getFile with ss; [done..|].
  intros [[r f]|] b' w' Hb' _ Hx; [|post_done]. destruct Hx as [Hr _]. case_match; [post_done|].
  destruct (bo_files _ _ _ Hb' r f Hr) as [Hf _].
  apply wp_bind, wp_put_file with ss f; [done|done|by apply file_ok_wr; [|apply Hf|]|done|by split|]. intros Hb2 _. post_done.
Qed.

Lemma BwriteStart_ok h n k b w :
  h <= 64 → 0 <= k → backend_ok ss b w → wp (BwriteStart h n k) (post (FS_BwriteStart h n k)) (b, w).
Proof.
  intros Hh Hk Hb. apply wp_bind, wp_getFile with ss; [done..|].
  intros [[r f]|] b' w' Hb' _ Hx; [|post_done]. destruct Hx as [Hr _]. case_match; [post_done|].
  destruct (bo_files _ _ _ Hb' r f Hr) as [Hf _].
  apply wp_bind, wp_put_file with ss f; [done|done|by apply file_ok_wr|done|by split|]. intros Hb2 _. post_done.
Qed.

Lemma WriteChunk_ok h nr size total chunk b w :
  h <= 64 → backend_ok ss b w →
  wp (WriteChunk h nr size total chunk) (post (FS_WriteChunk h nr size total chunk)) (b, w).
Proof.
  intros Hh Hb. apply wp_bind, wp_getFile with ss; [done..|].
  intros [[r f]|] b' w' Hb' _ Hx; [|post_done]. destruct Hx as [Hr _]. cbv zeta. case_bool; [post_done|].
  destruct (bo_files _ _ _ Hb' r f Hr) as [Hf _].
  apply wp_bind, wp_put_file with ss f; [done|done|by apply file_ok_wr; [|apply Hf|]|done|by split|]. intros Hb2 _. post_done.
Qed.

Lemma CompleteWrite_ok h b w :
  h <= 64 → backend_ok ss b w → wp (CompleteWrite h) (post (FS_CompleteWrite h)) (b, w).
Proof.
  intros Hh Hb. apply wp_bind, wp_getFile with ss; [done..|].
  intros [[r f]|] b' w' Hb' _ Hx; [|post_done]. destruct Hx as [Hr _].
  destruct (bo_files _ _ _ Hb' r f Hr) as [(Ho & Hsc & _) _]. pose proof (bo_sector _ _ _ Hb') as [_ Hss].
  apply wp_bind, wp_sector_size; [done|]. set (sz := if h =? _ then ss else 512).
  assert (0 <= sectorCount (wr f) * sz) as Hsz by (unfold sz; case_bool; nia).
  destruct (blockWrite (wr f)).
  - apply wp_bind. eapply (wp_mono _ (λ _ s, s = (b', w'))).
    { case_match; [|by apply wp_ret]. apply wp_lift. bool_to_prop.
      rewrite slice_ok by lia. eexists. by split. }
    intros data s ->. apply wp_bind, wp_obj_Seek with ss; [done..|].
    intros p [e|] f' b2 w2 Hb2 Hr2 _; [post_done|].
    apply wp_bind, wp_obj_Write with ss; [done..|]. intros [n e] b3 w3 Hb3. post_done.
  - apply wp_bind, wp_obj_Write with ss; [done..|]. intros [n [e|]] b3 w3 Hb3; post_done.
Qed.

Lemma Bread_ok h n k bufLen b w :
  h <= 64 → 0 <= k → h < 0 ∨ k * (if h =? BlockDeviceHandle then ss else 512) <= bufLen → backend_ok ss b w →
  wp (Bread h n k bufLen) (post (FS_Bread h n k bufLen)) (b, w).
Proof.
  intros Hh Hk Hbuf Hb. apply wp_bind, wp_getFile with ss; [done..|].
  intros [[r f]|] b' w' Hb' _ Hx; [|post_done]. destruct Hx as [Hr Hh0].
  apply wp_bind, wp_sector_size; [done|]. pose proof (bo_sector _ _ _ Hb') as [_ Hss].
  set (sz := if h =? _ then ss else 512) in *. assert (0 <= k * sz) by (unfold sz; case_bool; nia).
  apply wp_bind, wp_obj_Seek with ss; [done..|]. intros p [e|] f' b2 w2 Hb2 Hr2 _; [post_done|].
  cbv zeta. rewrite (proj2 (Z.ltb_ge (k * sz) 0)), (proj2 (Z.ltb_ge bufLen (k * sz))) by lia. cbn [orb].
  apply wp_bind, wp_obj_Read with ss; [done..|]. intros [d [e|]] b3 w3 Hb3; [|post_done].
  case_match; post_done.
Qed.

Lemma Dread_ok h b w :
  1 <= h <= 64 → backend_ok ss b w → wp (Dread h) (post (FS_Dread h)) (b, w).
Proof.
  assert (∀ b w (ok : bool) name st e, backend_ok ss b w → stat_wf st → zlen name <= 259 →
    wp (mret (ok, name, st, e)) (post (FS_Dread h)) (b, w)) as Hret.
  { intros. apply wp_ret. split; [done|]. split; [done|]. unfold maxName. lia. }
  intros Hh Hb. apply wp_bind, wp_getDir with ss; [done..|].
  intros [[i d]|] b' w' Hb' _ Hx; [|by apply Hret; [done|apply noStat_wf|]].
  destruct Hx as (-> & Hs & [Hi Hn]).
  destruct (entries d !! Z.to_nat (dh_index d)) as [name|] eqn:En; [|by apply Hret; [done|apply noStat_wf|]].
  pose proof (Forall_lookup_1 _ _ _ _ Hn En) as Hlen. simpl in Hlen.
  apply wp_bind, wp_put_dir with ss d; [lia|done|done|split; [simpl; lia|done]|]. intros b2 Hb2.
  apply wp_bind, wp_call. intros info w2 E.
  assert (backend_ok ss b2 w2) as Hb3.
  { by world_step E. }
  destruct info as [info|e]; [|by apply Hret; [done|apply noStat_wf|]].
  apply wp_bind. unfold entry_stat. apply wp_bind, wp_gets. case_match eqn:Ec; last first.
  { apply wp_ret, Hret; [done|apply StatInfoFromFile_wf|lia]. }
  apply wp_bind, wp_observe.
  destruct (image_GetStat_total (Join (dirPath d) name) (os_Image (Join (dirPath d) name) w2)) as [st Hst]. exists st.
  split; [done|]. apply wp_ret. destruct st as [st|]; [|by apply Hret; [done|apply noStat_wf|]].
  apply Hret; [done|apply StatInfoFromFile_wf|]. rewrite zlen_app. change (zlen (str ".iso")) with 4. lia.
Qed.

Lemma with_path_ok p op (R : fs_op (option go_error)) b w :
  backend_ok ss b w → (∀ q b w, backend_ok ss b w → wp (op q) (λ _ s, backend_ok ss (fst s) (snd s)) (b, w)) →
  (∀ r, fs_post backend_pre R r) → wp (with_path p op) (post R) (b, w).
Proof.
  intros Hb Hop HR. apply wp_bind, wp_gets. case_match; [by apply wp_ret|].
  apply wp_bind, wp_observe. eexists. split; [done|]. case_match; [|by apply wp_ret].
  eapply wp_mono; [by apply Hop|]. by split.
Qed.

Lemma Mkdir_ok p b w : backend_ok ss b w → wp (Mkdir p) (post (FS_Mkdir p)) (b, w).
Proof.
  intros Hb. apply with_path_ok; [done| |done]. clear. intros q b w Hb.
  apply wp_bind, wp_call. intros e w' E. apply wp_ret. by world_step E.
Qed.

Lemma Remove_ok p b w : backend_ok ss b w → wp (Remove p) (post (FS_Remove p)) (b, w).
Proof.
  intros Hb. apply with_path_ok; [done| |done]. clear. intros q b w Hb.
  apply wp_call. intros e w' E. by world_step E.
Qed.

Lemma Rmdir_ok p b w : backend_ok ss b w → wp (Rmdir p) (post (FS_Rmdir p)) (b, w).
Proof. exact (Remove_ok p b w). Qed.

Lemma Getstat_path_ok p b w : backend_ok ss b w → wp (Getstat_path p) (post (FS_Getstat p)) (b, w).
Proof.
  assert (∀ (b : Backend W) w st e, backend_ok ss b w → stat_wf st →
    wp (mret (st, e)) (post (FS_Getstat p)) (b, w)) as Hret by (intros; by apply wp_ret).
  intros Hb. apply wp_bind, wp_observe. eexists. split; [done|].
  case_match eqn:Eq; [|by apply Hret, noStat_wf]. rename l into q.
  apply wp_bind. unfold getFileByPath. apply wp_bind, wp_gets.
  destruct (find_path q (handles b) 0) as [[i f]|].
  - apply wp_bind, wp_use_slot with ss; [done|]. intros b' w' Hb' _. apply wp_ret, wp_bind, wp_call.
    intros r w2 E. assert (backend_ok ss b' w2) as Hb2.
    { unfold obj_Stat in E. destruct (fh_obj f) as [name g|rd]; [|by simplify_eq].
      by world_step E. }
    destruct r; apply Hret; (done || apply StatInfoFromFile_wf || apply noStat_wf).
  - apply wp_ret, wp_bind, wp_call. intros r w' E. assert (backend_ok ss b w') as Hb'.
    { by world_step E. }
    destruct r; apply Hret; (done || apply StatInfoFromFile_wf || apply noStat_wf).
Qed.

Lemma Getstat_ok p b w : backend_ok ss b w → wp (Getstat p) (post (FS_Getstat p)) (b, w).
Proof.
  intros Hb. apply wp_bind, wp_gets, wp_bind, wp_gets.
  destruct p as [|c p]; [|by apply Getstat_path_ok].
  destruct (bdHandle b) as [d|]; [|by apply Getstat_path_ok].
  apply wp_ret. split; [done|]. repeat split; try apply u32_bound; done.
Qed.

(** *** Open *)

(** How an open ends: an error, a negative handle, or a handle of the table. *)
Lemma Open_ret p fl d b w h st e :
  backend_ok ss b w → stat_wf st → (h < 0 ∨ 1 <= h <= 64 ∨ is_Some e) →
  wp (mret (h, st, e)) (post (FS_Open p fl d)) (b, w).
Proof.
  intros Hb Hst Hh. apply wp_ret. split; [done|]. split; [done|]. intros -> Hh0. simpl.
  destruct Hh as [?|[?|[? [=]]]]; lia.
Qed.

(** The open files of this name allow one more that is open for reading only or not. *)
Definition name_free b (q : path) (ro : bool) : Prop :=
  ∀ i f, file_at b (RefSlot i) = Some f → obj_Name (fh_obj f) = q → fh_readOnly f = true ∧ ro = true.

Lemma find_path_spec (q : path) (hs : list (option (handle W))) i :
  match find_path q hs i with
  | Some (k, f) => ∃ n, k = i + Z.of_nat n ∧ hs !! n = Some (Some (HFile f)) ∧ obj_Name (fh_obj f) = q
  | None => ∀ n f, hs !! n = Some (Some (HFile f)) → obj_Name (fh_obj f) ≠ q
  end.
Proof.
  revert i. induction hs as [|x hs IH]; intros i; [done|].
  assert (find_path q (x :: hs) i = find_path q hs (i + 1) ∧ (∀ f, x = Some (HFile f) → obj_Name (fh_obj f) ≠ q) ∨
          ∃ f, x = Some (HFile f) ∧ obj_Name (fh_obj f) = q ∧ find_path q (x :: hs) i = Some (i, f)) as Hx.
  { destruct x as [[f|d]|]; cbn [find_path]; [|by left..].
    case_bool_decide; [right; by exists f|left; split; [done|]]. by intros f' [= <-]. }
  destruct Hx as [[-> Hx]|(f & -> & Hn & ->)]; [|exists 0%nat; split; [lia|done]].
  specialize (IH (i + 1)). destruct (find_path q hs (i + 1)) as [[k f]|].
  - destruct IH as (n & -> & Hn & Hq). exists (S n). split; [lia|done].
  - intros [|n] f Hf; [apply Hx; by injection Hf|by apply (IH n)].
Qed.

Lemma file_at_lookup b i f : file_at b (RefSlot i) = Some f → handles b !! Z.to_nat i = Some (Some (HFile f)).
Proof.
  unfold file_at, slot_at. destruct (i <? 0); [done|]. destruct (handles b !! Z.to_nat i) as [[[f'|d]|]|]; simpl; congruence.
Qed.

Lemma lookup_file_at b n f : handles b !! n = Some (Some (HFile f)) → file_at b (RefSlot (Z.of_nat n)) = Some f.
Proof.
  intros Hf. unfold file_at, slot_at. rewrite (proj2 (Z.ltb_ge _ 0)), Nat2Z.id, Hf by lia. done.
Qed.

(** What the check at the start of Open establishes. *)
Lemma open_check_free q fl b w :
  backend_ok ss b w →
  (wantsWrite fl = true → find_path q (handles b) 0 = None) →
  (∀ k f, find_path q (handles b) 0 = Some (k, f) → wantsWrite fl = false → fh_readOnly f = true) →
  name_free b q (negb (wantsWrite fl)).
Proof.
  intros Hb Hw Hr i f Hf Hn. pose proof (find_path_spec q (handles b) 0) as Hs.
  destruct (find_path q (handles b) 0) as [[k f']|]; last first.
  { by destruct (Hs (Z.to_nat i) f (file_at_lookup b i f Hf)). }
  destruct (wantsWrite fl); [by specialize (Hw eq_refl)|]. split; [|done].
  destruct Hs as (n & _ & Hl & Hq). specialize (Hr _ _ eq_refl eq_refl). apply lookup_file_at in Hl.
  destruct (decide (i = Z.of_nat n)) as [->|Hne]; [congruence|].
  by apply (bo_exclusive _ _ _ Hb i (Z.of_nat n) f f' Hne Hf Hl); rewrite Hn, Hq.
Qed.

(** A file that an open has just made is in no handle. *)
Lemma opened_file_ok q fl b w w' f ro :
  os_OpenFile q fl w = (Val f, w') → q ≠ [] → name_free b q ro → backend_ok ss b w →
  backend_ok ss b w' ∧ os_isopen f w' ∧ absent b f ∧
  handle_ok b w' (HFile (newFileHandle (PlainFile q f) ro)).
Proof.
  intros E Hq Hfree Hb. pose proof (os_open_fresh q fl w f) as Hf. rewrite E in Hf. destruct (Hf eq_refl) as [Hnew Hopen].
  assert (w' = snd (os_OpenFile q fl w)) as Ew by by rewrite E.
  assert (backend_ok ss b w') as Hb' by (rewrite Ew; eapply bo_step; [apply Step_Open|done]).
  assert (absent b f) as Ha.
  { intros r f' Hr Hp. apply Hnew. by apply (bo_files _ _ _ Hb r f' Hr). }
  split; [done|]. split; [done|]. split; [done|]. split; [by split_and!|].
  split; [exact Hfree|]. intros g [= <-]. by split.
Qed.

(** When no handle was free the new file is closed again: it is in no handle. *)
Lemma bo_close_absent b w f : absent b f → backend_ok ss b w → backend_ok ss b (snd (file_Close f w)).
Proof.
  intros Ha [Bh Bu Bf Bo Bd Bs Bi]. split; try done. intros r f' Hr. destruct (Bf r f' Hr) as [K1 K2].
  split; [done|]. intros g Hg. apply os_close_open; [|by apply K2]. intros ->. by apply (Ha r f').
Qed.

Lemma wp_stat_of (r : result go_error FileInfo) (Q : StatInfo → bstate W → Prop) s :
  (∃ fi, r = Val fi ∧ Q (StatInfoFromFile fi) s) → wp (stat_of r) Q s.
Proof. intros (fi & -> & HQ). by apply wp_ret. Qed.

Lemma Open_plain_ok p fl q ex b w :
  q ≠ [] → name_free b q (negb (wantsWrite fl)) → backend_ok ss b w →
  wp (Open_plain q fl ex) (post (FS_Open p fl false)) (b, w).
Proof.
  intros Hq Hfree Hb. unfold Open_plain. case_match; [apply Open_ret; [done|apply noStat_wf|eauto]|].
  apply wp_bind. eapply (wp_mono _ (λ _ s, fst s = b ∧ backend_ok ss b (snd s))).
  { case_match; [|by apply wp_ret]. apply wp_bind, wp_call. intros e w' E. apply wp_ret. split; [done|].
    by world_step E. }
  intros _ [b1 w1] [Eb Hb1]. simpl in Eb, Hb1. subst b1. clear w Hb. apply wp_bind, wp_call. intros [f|e] w2 E; last first.
  { apply Open_ret; [|apply noStat_wf|eauto]. by world_step E. }
  destruct (opened_file_ok q fl b w1 w2 f (negb (wantsWrite fl)) E Hq Hfree Hb1) as (Hb2 & Hopen & Ha & Hok).
  apply wp_bind, wp_allocHandle with ss; [done..|]. intros h b3 w3 Hb3 Hh Ho _.
  case_bool.
  - destruct Hh as [(_ & Eh & Ed)|]; [|lia]. apply wp_bind, wp_call. intros e w4 E4.
    apply Open_ret; [|apply noStat_wf|auto]. replace w4 with (snd (file_Close f w3)) by by rewrite E4.
    apply bo_close_absent; [|done]. intros r f'. rewrite (file_at_same b b3) by done. apply Ha.
  - destruct Hh as [[]|Hh]; [lia|]. apply wp_bind, wp_call. intros r w4 E4.
    destruct (os_fstat_open f w3) as [fi Hfi]; [by apply Ho|]. rewrite E4 in Hfi. simpl in Hfi. subst r.
    apply wp_bind, wp_stat_of. exists fi. split; [done|].
    apply Open_ret; [|apply StatInfoFromFile_wf|auto]. by world_step E4.
Qed.

Lemma Open_dir_ok p fl q b w :
  backend_ok ss b w → wp (Open_dir q) (post (FS_Open p fl true)) (b, w).
Proof.
  intros Hb. unfold Open_dir. apply wp_bind, wp_call. intros [l|e] w1 E.
  - pose proof (os_readdir_isdir q w l) as Hd. pose proof (os_name_len q w l) as Hn. rewrite E in Hd, Hn.
    specialize (Hd eq_refl). specialize (Hn eq_refl). simpl in Hd.
    assert (backend_ok ss b w1) as Hb1.
    { by world_step E. }
    apply wp_bind, wp_allocHandle with ss; [done|split; [done|exact Hn]|]. intros h b2 w2 Hb2 Hh _ Hdir.
    case_bool; [apply Open_ret; [done|apply noStat_wf|auto]|]. destruct Hh as [[]|Hh]; [lia|].
    apply wp_bind, wp_call. intros r w3 E3. destruct (os_stat_isdir q w2) as [fi Hfi]; [by apply Hdir|].
    rewrite E3 in Hfi. simpl in Hfi. subst r. apply wp_bind, wp_stat_of. exists fi. split; [done|].
    apply Open_ret; [|apply StatInfoFromFile_wf|auto]. by world_step E3.
  - apply Open_ret; [|apply noStat_wf|eauto]. by world_step E.
Qed.

Lemma wp_pathExists q (Q : bool → bstate W → Prop) b w :
  backend_ok ss b w → (∀ x w', backend_ok ss b w' → Q x (b, w')) → wp (pathExists q) Q (b, w).
Proof.
  intros Hb HQ. apply wp_bind, wp_call. intros r w' E. apply wp_ret, HQ. by world_step E.
Qed.

Lemma wp_openImage q ex (Q : option (CachedReader ImageReader) → bstate W → Prop) b w :
  backend_ok ss b w →
  (∀ x w', backend_ok ss b w' → (∀ c, x = Some c → obj_ok (ImageFile c)) → Q x (b, w')) →
  wp (openImage q ex) Q (b, w).
Proof.
  intros Hb HQ. apply wp_bind, wp_gets. case_match eqn:Ec; [|by apply wp_ret, HQ].
  apply andb_true_iff in Ec as [[Ec _]%andb_true_iff _].
  apply wp_bind, wp_pathExists; [done|]. intros x w' Hb'. case_match; [|by apply wp_ret, HQ].
  apply wp_bind, wp_gets, wp_observe.
  destruct (bo_images _ _ _ Hb' Ec) as [Hlz Hchd Hf].
  destruct (image_Open_safe Hlz Hchd (TrimSuffix q (Ext q)) (os_Image (TrimSuffix q (Ext q)) w') (compressionCacheSize b))
    as [->|(c & content & -> & Hi & Hc)]; [by apply Hf|..]; (eexists; split; [done|]; apply HQ; [done|]); [done|].
  intros c' [= <-]. split; [done|]. by exists content.
Qed.

Lemma Open_image_ok p fl c b w :
  backend_ok ss b w → obj_ok (ImageFile c) →
  wp (Open_image c) (post (FS_Open p fl false)) (b, w).
Proof.
  intros Hb Hc. apply wp_bind, wp_allocHandle with ss; [done| |].
  { split; [by split_and!|]. split; [|done]. intros i f Hf Hn. split; [|done].
    destruct (bo_files _ _ _ Hb _ _ Hf) as [(Ho & _ & Hro) _]. apply Hro. unfold plain.
    simpl in Hn. unfold CachedReader_Name in Hn. rewrite (proj1 Hc) in Hn.
    by destruct (fh_obj f). } intros h b2 w2 Hb2 Hh _ _.
  case_bool; [apply Open_ret; [done|apply noStat_wf|auto]|].
  apply Open_ret; [done|apply StatInfoFromFile_wf|]. destruct Hh as [[]|]; auto.
Qed.

Lemma resolved_nonempty wd root p q : resolvePath_in wd root p = Some q → q ≠ [].
Proof.
  unfold resolvePath_in. case_bool_decide as Hr; [done|]. set (c := Clean _).
  assert (Join root c ≠ []) as Hj.
  { pose proof (Clean_nonempty (ReplaceBackslashes (TrimLeftSlashes p))). fold c in H1.
    unfold Join. destruct root; [done|]. destruct c; [done|]. apply Clean_nonempty. }
  destruct (Abs wd (Join root c)) as [r|] eqn:Ea; [|done]. case_match; [done|]. intros [= <-].
  unfold Abs in Ea. destruct (IsAbs _).
  - injection Ea as <-. apply Clean_nonempty.
  - destruct wd as [d|]; [|done]. injection Ea as <-. unfold Join at 1.
    destruct d, (Join root c); try done; apply Clean_nonempty.
Qed.

Lemma Open_ok p fl d b w : backend_ok ss b w → wp (Open p fl d) (post (FS_Open p fl d)) (b, w).
Proof.
  intros Hb. apply wp_bind, wp_observe. eexists. split; [done|].
  case_match eqn:Eq; [|apply Open_ret; [done|apply noStat_wf|eauto]]. rename l into q.
  apply resolved_nonempty in Eq. apply wp_bind, wp_bind, wp_gets, wp_ret.
  pose proof (open_check_free q fl b w Hb) as Hfree.
  destruct (find_path q (handles b) 0) as [[i f]|]; apply wp_bind, wp_gets; cbv zeta.
  all: case_match eqn:E1; [apply Open_ret; [done|apply noStat_wf|eauto]|].
  all: case_match eqn:E2; [apply Open_ret; [done|apply noStat_wf|eauto]|].
  all: destruct d; [by apply Open_dir_ok|].
  all: assert (name_free b q (negb (wantsWrite fl))) as Hn;
    [apply Hfree; [intros E; rewrite E in E1; by destruct (b_readOnly b)|
                   intros k f' [= -> ->] E; rewrite E in E2; simpl in E2; by destruct (fh_readOnly f')]|].
  all: apply wp_bind.
  all: eapply (wp_mono _ (λ _ s, fst s = b ∧ backend_ok ss b (snd s)));
    [case_match; [by apply wp_pathExists|by apply wp_ret]|].
  all: intros ex [b' w'] [Eb Hb']; simpl in Eb, Hb'; subst b'; apply wp_bind, wp_openImage; [done|].
  all: intros [c|] w2 Hb2 Hc; [apply Open_image_ok; [done|by apply Hc]|by apply Open_plain_ok].
Qed.

(** ** The contract *)

#[export] Instance backend_contract : FSContract (bstate W).
Proof.
  refine {| fs_inv := λ s, backend_ok ss (fst s) (snd s); fs_pre := backend_pre |}; try done.
  - intros R op [b w] Hb Hpre. simpl in Hb.
    assert (wp (backend_call op) (post op) (b, w)) as (r & s' & Hrun & Hok & Hpost); [|by exists r, s'].
    destruct op; simpl in Hpre; simpl backend_call.
    + by apply Open_ok. + by apply Close_ok. + apply Read_ok; tauto. + by apply WriteStart_ok.
    + by apply WriteChunk_ok. + by apply CompleteWrite_ok. + by apply Lseek_ok. + by apply Dread_ok.
    + by apply Getstat_ok. + by apply Mkdir_ok. + by apply Remove_ok. + by apply Rmdir_ok.
    + apply Bread_ok; tauto. + apply BwriteStart_ok; tauto.
  - intros h [Hh|(n & k & Hh & _)]; by split.
Defined.
End Contract.
