(* ===== verification/MemOs.v ===== *)
(** * A small operating system

    An instance of the [OS] parameter that keeps files in memory, with the proof
    that it satisfies [OSLaws]: the hypotheses of the backend's theorems can hold,
    and the theorems are applied to it at concrete states. *)
From stdpp Require Import gmap.
From S2P Require Import Prelude UdpfsProtocol CachedReader CompressedFile GoPath OsWorld.

Module MemOs.

(** The files of one directory, by full path, and the open files: path and position. *)
Record world := mkWorld {
  clock : Z;
  files : list (path * list byte);
  fds : list (option (path * Z))
}.

Definition root : path := str "/srv".

Definition contents (p : path) (w : world) : option (list byte) :=
  snd <$> List.find (λ e, bool_decide (fst e = p)) (files w).

Definition store (p : path) (d : list byte) (w : world) : world :=
  mkWorld (clock w)
    (if contents p w is Some _ then map (λ e, if bool_decide (fst e = p) then (p, d) else e) (files w)
     else files w ++ [(p, d)]) (fds w).

Definition with_fds (l : list (option (path * Z))) (w : world) : world := mkWorld (clock w) (files w) l.

Definition info_of (p : path) (w : world) : result go_error FileInfo :=
  if bool_decide (p = root) then Val (mkFileInfo false true 0 zeroTime)
  else match contents p w with
       | Some d => Val (mkFileInfo true false (zlen d) zeroTime)
       | None => Err ErrNotExist
       end.

Definition fd_at (f : nat) (w : world) : option (path * Z) := mjoin (fds w !! f).

(** The names of the entries: what follows the directory in their paths. *)
Definition names (w : world) : list path :=
  filter (λ e, zlen e <= 255) (map (λ e, drop (length root + 1) (fst e)) (files w)).

Definition read (f : nat) (n : Z) (w : world) : list byte * option go_error * world :=
  match fd_at f w with
  | None => ([], Some ErrClosed, w)
  | Some (p, pos) =>
      let d := default [] (contents p w) in
      let part := take (Z.to_nat n) (drop (Z.to_nat pos) d) in
      (part, if bool_decide (part = []) then Some EOF else None,
       with_fds (<[f := Some (p, pos + zlen part)]> (fds w)) w)
  end.

Definition write (f : nat) (data : list byte) (w : world) : Z * option go_error * world :=
  match fd_at f w with
  | None => (0, Some ErrClosed, w)
  | Some (p, pos) =>
      let d := default [] (contents p w) in
      let d := take (Z.to_nat pos) d ++ data ++ drop (Z.to_nat pos + length data) d in
      (zlen data, None, with_fds (<[f := Some (p, pos + zlen data)]> (fds w)) (store p d w))
  end.

Definition seek (f : nat) (off wh : Z) (w : world) : Z * option go_error * world :=
  match fd_at f w with
  | None => (0, Some ErrClosed, w)
  | Some (p, pos) =>
      let d := default [] (contents p w) in
      let target := if wh =? 0 then off else if wh =? 1 then pos + off else zlen d + off in
      if target <? 0 then (0, Some OtherError, w)
      else (target, None, with_fds (<[f := Some (p, target)]> (fds w)) w)
  end.

#[global] Instance mem_os : OS world := {|
  osfile := nat;
  os_Now w := (clock w, mkWorld (clock w + 1) (files w) (fds w));
  os_Getwd w := Some root;
  os_Stat p w := (info_of p w, w);
  os_ReadDir p w := (if bool_decide (p = root) then Val (names w) else Err ErrNotExist, w);
  os_EntryInfo d p w := (info_of (Join d p) w, w);
  os_Mkdir p w := (Some ErrExist, w);
  os_MkdirAll p w := (None, w);
  os_Remove p w := (None, mkWorld (clock w) (filter (λ e, fst e ≠ p) (files w)) (fds w));
  os_OpenFile p fl w :=
    let w := if contents p w is Some _ then w else if Z.land fl O_CREATE =? 0 then w else store p [] w in
    match contents p w with
    | Some _ => (Val (length (fds w)), with_fds (fds w ++ [Some (p, 0)]) w)
    | None => (Err ErrNotExist, w)
    end;
  file_Read := read;
  file_Write := write;
  file_Seek := seek;
  file_Stat f w := (match fd_at f w with
                    | Some (p, _) => Val (mkFileInfo true false (zlen (default [] (contents p w))) zeroTime)
                    | None => Err ErrClosed
                    end, w);
  file_Close f w := (None, with_fds (<[f := None]> (fds w)) w);
  os_Image p w := (λ d, mkFile p d zeroTime) <$> contents p w
|}.

Definition isopen (f : nat) (w : world) : Prop := is_Some (fd_at f w).

Lemma isopen_insert f g p pos w : isopen f w → isopen f (with_fds (<[g := Some (p, pos)]> (fds w)) w).
Proof.
  unfold isopen, fd_at, with_fds. simpl. intros [x Hx].
  destruct (decide (g = f)) as [->|Hne]; [|rewrite list_lookup_insert_ne by done; by exists x].
  rewrite list_lookup_insert_eq; [by eexists|]. apply lookup_lt_is_Some.
  destruct (fds w !! f); [by eexists|done].
Qed.

Lemma isopen_fds f w w' : fds w' = fds w → isopen f w → isopen f w'.
Proof. unfold isopen, fd_at. by intros ->. Qed.

Lemma store_fds p d w : fds (store p d w) = fds w.
Proof. done. Qed.

Lemma openfile_fds p fl w :
  fds (snd (os_OpenFile p fl w)) = fds w ∨ ∃ q, fds (snd (os_OpenFile p fl w)) = fds w ++ [Some (q, 0)].
Proof.
  simpl. set (w1 := if contents p w is Some _ then w else _).
  assert (fds w1 = fds w) as E by (unfold w1; by repeat case_match).
  destruct (contents p w1); simpl; rewrite E; [right; by exists p|by left].
Qed.

Lemma step_isopen f w w' : os_step w w' → isopen f w → isopen f w'.
Proof.
  assert (∀ p fl w, isopen f w → isopen f (snd (os_OpenFile p fl w))) as Hopen.
  { intros p fl v [x Hx]. unfold isopen, fd_at in *.
    assert (is_Some (fds v !! f)) as Hl by (destruct (fds v !! f); [by eexists|done]).
    destruct (openfile_fds p fl v) as [E|[q E]]; rewrite E; [by exists x|].
    rewrite lookup_app_l by by apply lookup_lt_is_Some. by exists x. }
  intros [[]|[]] Hf; try (by apply Hopen); try (by eapply isopen_fds; [|exact Hf]); simpl.
  - unfold read. destruct (fd_at _ _) as [[q pos]|]; [|done]. by apply isopen_insert.
  - unfold seek. destruct (fd_at _ _) as [[q pos]|]; [|done]. case_match; [done|]. by apply isopen_insert.
  - unfold write. destruct (fd_at _ _) as [[q pos]|]; [|done].
    apply (isopen_fds _ (with_fds (<[f0:=Some (q, pos + zlen d)]> (fds w0)) w0)); [done|]. by apply isopen_insert.
Qed.

#[global] Instance mem_files : OSFiles world.
Proof.
  refine {| os_isopen := isopen |}.
  - exact step_isopen.
  - intros f g w Hne [x Hx]. exists x. unfold fd_at in *. simpl. by rewrite list_lookup_insert_ne.
  - intros p fl w f. simpl. set (w1 := if contents p w is Some _ then w else _).
    assert (fds w1 = fds w) as E by (unfold w1; by repeat case_match).
    destruct (contents p w1); [|done]. simpl. intros [= <-]. rewrite E. unfold isopen, fd_at. split.
    + rewrite lookup_ge_None_2 by done. by intros [? ?].
    + simpl. rewrite lookup_app_r, Nat.sub_diag by done. by eexists.
Defined.

#[global] Instance mem_host : OSHost world.
Proof.
  refine {| os_isdir := λ p _, p = root |}.
  - intros f w [[p pos] Hf]. simpl. rewrite Hf. by eexists.
  - intros p w l. simpl. by case_bool_decide.
  - done.
  - done.
  - intros p w ->. simpl. unfold info_of. rewrite bool_decide_eq_true_2 by done. by eexists.
  - intros p w l. simpl. case_bool_decide; [|done]. intros [= <-]. apply Forall_forall.
    intros e He. by apply list_elem_of_filter in He as [? _].
Defined.

#[global] Instance mem_laws : OSLaws world := {| os_laws_files := mem_files; os_laws_host := mem_host |}.
End MemOs.
