(* ===== verification/RomOs.v ===== *)
(** * A small read-only host with a compressed image

    The files of [MemOs] on a disk that does not change: a plain file and a CSO
    image.  What would write is refused.  It keeps [OSLaws], and its image is one
    that [images_ok] asks for, so the theorems about a server that decompresses have
    a host to be applied to. *)
From stdpp Require Import gmap.
From S2P Require Import Prelude UdpfsProtocol CachedReader CompressedFile Cso Zso Chd GoPath CompressedImage ImageSafety CompressionProperties OsWorld Backend BackendInvariant MemOs.

Module RomOs.
Import MemOs.

(** What changes: the clock and the open files. *)
Record rom := mkRom { rom_clock : Z; rom_fds : list (option (path * Z)) }.

Definition disk : list (path * list byte) :=
  [(str "/srv/a", map z2b [1; 2; 3]); (str "/srv/game.cso", f_data Stored.cso_file)].

Definition mounted (w : rom) : world := mkWorld (rom_clock w) disk (rom_fds w).
Definition unmount {A} (r : A * world) : A * rom := (fst r, mkRom (clock (snd r)) (fds (snd r))).

#[global] Instance rom_os : OS rom | 10 := {|
  osfile := nat;
  os_Now w := unmount (os_Now (mounted w));
  os_Getwd w := Some root;
  os_Stat p w := unmount (os_Stat p (mounted w));
  os_ReadDir p w := unmount (os_ReadDir p (mounted w));
  os_EntryInfo d p w := unmount (os_EntryInfo d p (mounted w));
  os_Mkdir p w := (Some ErrPermission, w);
  os_MkdirAll p w := (Some ErrPermission, w);
  os_Remove p w := (Some ErrPermission, w);
  os_OpenFile p fl w := if fl =? O_RDONLY then unmount (os_OpenFile p fl (mounted w)) else (Err ErrPermission, w);
  file_Read f n w := unmount (file_Read (OS := mem_os) f n (mounted w));
  file_Write f d w := (0, Some ErrPermission, w);
  file_Seek f o wh w := unmount (file_Seek (OS := mem_os) f o wh (mounted w));
  file_Stat f w := unmount (file_Stat (OS := mem_os) f (mounted w));
  file_Close f w := unmount (file_Close (OS := mem_os) f (mounted w));
  os_Image p w := os_Image p (mounted w)
|}.

(** A file is open on the host when it is on the mounted disk. *)
Definition rom_isopen (f : nat) (w : rom) : Prop := isopen f (mounted w).

Lemma unmount_isopen {A} (f : nat) (r : A * world) : isopen f (snd r) → rom_isopen f (snd (unmount r)).
Proof. exact (isopen_fds f (snd r) (mounted (snd (unmount r))) eq_refl). Qed.

Lemma rom_step_isopen f w w' : os_step w w' → rom_isopen f w → rom_isopen f w'.
Proof.
  assert (∀ {A} (r : A * world), os_read_step (mounted w) (snd r) → rom_isopen f w → rom_isopen f (snd (unmount r))) as Hread.
  { intros A r Hs Hf. apply unmount_isopen. exact (step_isopen f _ _ (or_introl Hs) Hf). }
  intros [Hs|Hs] Hf.
  - destruct Hs; (apply Hread; [constructor|exact Hf]).
  - destruct Hs; try exact Hf. cbn [os_OpenFile rom_os]. by rewrite (proj2 (Z.eqb_neq fl O_RDONLY)).
Qed.

#[global] Instance rom_files : OSFiles rom | 10.
Proof.
  refine (@Build_OSFiles rom rom_os rom_isopen _ _ _).
  - exact rom_step_isopen.
  - intros f g w Hne Hf. apply unmount_isopen. exact (os_close_open (H := mem_os) f g (mounted w) Hne Hf).
  - intros p fl w f. cbn [os_OpenFile rom_os]. destruct (fl =? O_RDONLY); [|done]. intros Ho.
    destruct (os_open_fresh (H := mem_os) p fl (mounted w) f Ho) as [H1 H2]. split; [exact H1|]. by apply unmount_isopen.
Defined.

#[global] Instance rom_host : OSHost rom | 10.
Proof.
  refine {| os_isdir := λ p _, p = root |}.
  - intros f w Hf. exact (os_fstat_open (H := mem_os) f (mounted w) Hf).
  - intros p w l Hr. exact (os_readdir_isdir (H := mem_os) p (mounted w) l Hr).
  - done.
  - done.
  - intros p w Hp. exact (os_stat_isdir (H := mem_os) p (mounted w) Hp).
  - intros p w l Hr. exact (os_name_len (H := mem_os) p (mounted w) l Hr).
Defined.

#[global] Instance rom_laws : OSLaws rom | 10 := {| os_laws_files := rom_files; os_laws_host := rom_host |}.

(** ** The image *)

Lemma game_sane f : f_data f = f_data Stored.cso_file → cso_file_ok f.
Proof.
  intros Hf. assert (f = mkFile (f_base f) (f_data Stored.cso_file) (f_mtime f)) as -> by (rewrite <-Hf; by destruct f).
  split; [done|]. intros c Hc i raw next.
  vm_compute in Hc. injection Hc as <-. cbn [cso_offsets cso_align].
  destruct i as [|[|[|i]]]; intros Hr Hn; try done; injection Hr as <-; injection Hn as <-; [done|].
  intros _. by vm_compute.
Qed.

Lemma rom_images : images_ok (W := rom).
Proof.
  split; [exact Stored.stored_lz4_length|exact Stored.stored_chd_length|].
  intros p w f Hf. cbn [os_Image rom_os mem_os] in Hf. unfold contents in Hf.
  apply fmap_Some in Hf as (d & (e & He & ->)%fmap_Some & ->). apply List.find_some in He as [Hin Hp].
  apply bool_decide_eq_true in Hp. simpl in Hin. destruct Hin as [<-|[<-|[]]]; cbn [fst snd] in *; subst p.
  - split_and!; intros Hx; exfalso; revert Hx; apply (bool_decide_unpack _); by vm_compute.
  - split_and!; intros Hx; [by apply game_sane|exfalso; revert Hx; apply (bool_decide_unpack _); by vm_compute..].
Qed.
End RomOs.
