(* ===== verification/BackendProperties.v ===== *)
(** * The properties of the file system backend *)
From stdpp Require Import gmap.
From S2P Require Import Prelude RdmaSession RdmaTimer RdmaProperties UdpfsProtocol UdpfsConnection UdpfsContract UdpfsProperties BlockCache CachedReader CompressedFile.
From S2P Require Import GoPath CompressedImage CompressionProperties OsWorld Backend BackendLogic BackendInvariant BackendContract MemOs RomOs.

(** ** Paths *)

(** Leading separators do not matter. *)
Lemma walk_trim st p :
  clean_walk true st (split_sep (ReplaceBackslashes (TrimLeftSlashes p))) =
  clean_walk true st (split_sep (ReplaceBackslashes p)).
Proof.
  induction p as [|c p IH]; [done|]. cbn [TrimLeftSlashes].
  destruct (bool_decide (c = sep) || bool_decide (c = backslash)) eqn:E; [|done]. rewrite IH.
  assert (ReplaceBackslashes (c :: p) = sep :: ReplaceBackslashes p) as ->; [|done].
  apply orb_true_iff in E as [->%bool_decide_eq_true| ->%bool_decide_eq_true]; done.
Qed.

Lemma trimmed_relative p : IsAbs (ReplaceBackslashes (TrimLeftSlashes p)) = false.
Proof.
  induction p as [|c p IH]; [done|]. cbn [TrimLeftSlashes].
  destruct (bool_decide (c = sep) || bool_decide (c = backslash)) eqn:E; [exact IH|].
  apply orb_false_iff in E as [E1%bool_decide_eq_false E2%bool_decide_eq_false].
  cbn [ReplaceBackslashes map IsAbs]. rewrite (bool_decide_eq_false_2 (c = backslash)) by done.
  by rewrite bool_decide_eq_false_2.
Qed.

Lemma abs_path_inj a b : Forall normal a → Forall normal b → abs_path a = abs_path b → a = b.
Proof.
  intros Ha Hb Heq. apply (f_equal (λ p, clean_walk true [] (split_sep p))) in Heq. cbv beta in Heq.
  rewrite (walk_abs a Ha), (walk_abs b Hb) in Heq. by apply (inj reverse).
Qed.

Lemma HasPrefix_spec (s p : path) : HasPrefix s p = bool_decide (p `prefix_of` s).
Proof.
  unfold HasPrefix. apply bool_decide_ext. split.
  - intros <-. apply prefix_take.
  - intros [k ->]. by rewrite take_app_length.
Qed.

(** A clean absolute path does not end in a separator, unless it is the root. *)
Lemma join_last rl : Forall normal rl → rl ≠ [] → ∃ p c, join_sep rl = p ++ [c] ∧ c ≠ sep.
Proof.
  induction 1 as [|e rl (He & _ & _ & Hs) Hr IH]; [done|]. intros _. destruct rl as [|e' rl].
  - destruct (exists_last He) as (p & c & ->). exists p, c. split; [done|]. intros ->.
    apply Hs, elem_of_app. right. by left.
  - destruct (IH ltac:(done)) as (p & c & Hp & Hc). exists (e ++ sep :: p), c. split; [|done].
    change (join_sep (e :: e' :: rl)) with (e ++ sep :: join_sep (e' :: rl)). by rewrite Hp, <-app_assoc.
Qed.

Lemma trim_root rl : Forall normal rl → TrimSuffix (abs_path rl) [sep] = if decide (rl = []) then [] else abs_path rl.
Proof.
  intros Hr. case_decide as E; [by subst|]. destruct (join_last rl Hr E) as (p & c & Hp & Hc).
  unfold TrimSuffix. assert (HasSuffix (abs_path rl) [sep] = false) as ->; [|done].
  unfold HasSuffix, abs_path. rewrite Hp. change (sep :: p ++ [c]) with ((sep :: p) ++ [c]).
  replace (length ((sep :: p) ++ [c]) - length [sep])%nat with (length (sep :: p))
    by (rewrite length_app; simpl; lia).
  rewrite drop_app_length, (bool_decide_eq_false_2 ([c] = [sep])) by congruence. apply andb_false_r.
Qed.

(** The string test of resolvePath on clean absolute paths: the elements of the
    root are a prefix of those of the path. *)
Lemma root_check rl es :
  Forall normal rl → Forall normal es →
  negb (HasPrefix (abs_path es) (TrimSuffix (abs_path rl) [sep] ++ [sep])) &&
  negb (bool_decide (abs_path es = abs_path rl)) = negb (bool_decide (rl `prefix_of` es)).
Proof.
  intros Hr He. rewrite HasPrefix_spec, trim_root by done. rewrite <-negb_orb. f_equal.
  rewrite <-bool_decide_or. apply bool_decide_ext. case_decide as E.
  { subst rl. split; [intros _; apply prefix_nil|]. left. by exists (join_sep es). }
  assert ((abs_path rl ++ [sep]) `prefix_of` abs_path es ↔ ∃ x xs, es = rl ++ x :: xs) as ->.
  { destruct (decide (es = [])) as [->|Hne].
    - split; [|intros (x & xs & Hx); by destruct rl]. intros Hp%prefix_length.
      unfold abs_path in Hp. rewrite length_app in Hp. simpl in Hp. lia.
    - rewrite <-join_prefix by done. unfold abs_path. split.
      + intros Hp. by apply prefix_cons_inv_2 in Hp.
      + intros Hp. by apply (prefix_cons sep) in Hp. }
  split.
  - intros [(x & xs & ->)|Heq]; [by apply prefix_app_r|]. by rewrite (abs_path_inj es rl He Hr Heq).
  - intros [[|x xs] ->]; [right; by rewrite app_nil_r|left; by exists x, xs].
Qed.

(** C14: client paths are confined to the root directory.  Whatever the client
    sends, resolving it is walking its elements from the root: backslashes separate
    like slashes, "." and empty elements are skipped, ".." goes up; the result is
    rejected unless the elements of the root are a prefix of it, and an accepted
    path is clean: it has no "." or ".." left that could lead out of the root. *)
Theorem resolvePath_confined wd rl client :
  Forall normal rl →
  let es := reverse (clean_walk true (reverse rl) (split_sep (ReplaceBackslashes client))) in
  Forall normal es ∧
  resolvePath_in wd (abs_path rl) client =
    if bool_decide (rl `prefix_of` es) then Some (abs_path es) else None.
Proof.
  intros Hr es.
  assert (Forall normal es) as Hes.
  { apply Forall_reverse, clean_walk_ok; [by apply Forall_reverse|apply split_no_sep]. }
  split; [done|]. unfold resolvePath_in. rewrite bool_decide_eq_false_2 by done.
  set (c := ReplaceBackslashes (TrimLeftSlashes client)).
  assert (Join (abs_path rl) (Clean c) = abs_path es) as ->.
  { rewrite Join_abs by (done || apply Clean_nonempty). unfold es.
    unfold c. rewrite walk_Clean_rel by apply trimmed_relative. by rewrite walk_trim. }
  unfold Abs. simpl (IsAbs (abs_path es)). cbv iota. rewrite !Clean_abs by done.
  rewrite root_check by done. by destruct (bool_decide (rl `prefix_of` es)).
Qed.

Lemma resolvePath_confined_witness :
  resolvePath_in None (abs_path [str "srv"; str "ps2"]) (str "\DVD/../CD/game.iso") =
    Some (abs_path [str "srv"; str "ps2"; str "CD"; str "game.iso"]) ∧
  resolvePath_in None (abs_path [str "srv"; str "ps2"]) (str "..\..\etc/passwd") = None.
Proof.
  assert (Forall normal [str "srv"; str "ps2"]) as Hr by (apply (bool_decide_unpack _); vm_compute; exact I).
  split.
  - destruct (resolvePath_confined None _ (str "\DVD/../CD/game.iso") Hr) as [_ Hres].
    rewrite Hres. vm_compute. reflexivity.
  - destruct (resolvePath_confined None _ (str "..\..\etc/passwd") Hr) as [_ Hres].
    rewrite Hres. vm_compute. reflexivity.
Defined.

(** ** Every operation, from the start on *)

(** The options that the package offers. *)
Inductive is_option {W} `{OS W} `{Decoders} : (Backend W → Backend W) → Prop :=
| IsFSRoot p : is_option (WithFSRoot p)
| IsBlockDevice p : is_option (WithBlockDevice p)
| IsSectorSize n : is_option (WithSectorSize n)
| IsReadOnly : is_option WithReadOnly
| IsCompression : is_option WithCompression
| IsCacheSize n : is_option (WithCompressionCacheSize n).

Section Runs.
Context {W : Type} `{OSL : OSLaws W} `{Decoders}.
Implicit Types (b : Backend W) (w : W).

(** A sequence of calls of the FS interface. *)
Fixpoint backend_run (ops : list (sigT fs_op)) (s : bstate W) : outcome (bstate W) :=
  match ops with
  | [] => Ok s
  | existT R op :: ops => '(_, s) ← fs_call op s; backend_run ops s
  end.

Definition accepted (ss : Z) (op : sigT fs_op) : Prop := backend_pre ss _ (projT2 op).

(** No options: the table is empty and there is no device yet. *)
Definition fresh b : Prop :=
  handles b = replicate 64 None ∧ lastUsed b = replicate 64 0 ∧ bdHandle b = None.

Lemma option_fresh o b : is_option o → fresh b → fresh (o b).
Proof.
  unfold fresh. destruct b. intros []; simpl; try done;
    unfold WithFSRoot, WithBlockDevice, WithSectorSize, WithCompressionCacheSize; by case_match.
Qed.

Lemma options_fresh opts b : Forall is_option opts → fresh b → fresh (foldl (λ s o, o s) b opts).
Proof. intros Ho. revert b. induction Ho; intros b Hb; simpl; [done|]. by apply IHHo, option_fresh. Qed.

Lemma fresh_slot_at b i : fresh b → slot_at b i = None.
Proof.
  intros (Hh & _ & _). unfold slot_at. case_match; [done|]. rewrite Hh.
  destruct (replicate 64 None !! Z.to_nat i) as [x|] eqn:E; [|done].
  by apply lookup_replicate_1 in E as [-> _].
Qed.

Lemma fresh_file_at b r : fresh b → file_at b r = None.
Proof.
  intros Hf. destruct r as [|i]; simpl; [by rewrite (proj2 (proj2 Hf))|]. by rewrite fresh_slot_at.
Qed.

Lemma fresh_ok b w :
  fresh b → 0 < sectorSize b → (enableCompression b = true → images_ok (W := W)) → backend_ok (sectorSize b) b w.
Proof.
  intros Hf Hs Hi. pose proof Hf as (Hh & Hu & Hd).
  split; try done; [by rewrite Hh|by rewrite Hu|..].
  - intros r f. by rewrite fresh_file_at.
  - intros r r' f f' g. by rewrite fresh_file_at.
  - intros i d. by rewrite fresh_slot_at.
  - intros i j f f' _. by rewrite fresh_file_at.
Qed.

(** Starting the backend establishes the invariant. *)
Lemma open_device_ok s w b w' :
  fresh s → open_device s w = Ok (Val b, w') → 0 < sectorSize b →
  (enableCompression b = true → images_ok (W := W)) → backend_ok (sectorSize b) b w'.
Proof.
  intros Hs Hr Hss Himg. unfold open_device in Hr. case_bool_decide as Eb; [simplify_eq; by apply fresh_ok|].
  destruct (os_OpenFile (blockDevice s) _ w) as [[f|e] v1] eqn:E1; [|done].
  destruct (file_Stat f v1) as [[fi|e] v2] eqn:E2; [|done]. injection Hr as <- <-.
  simpl in Hss, Himg. pose proof (os_open_fresh (blockDevice s) _ w f (f_equal fst E1)) as [_ Hopen].
  rewrite E1 in Hopen. simpl in Hopen.
  assert (os_isopen f v2) as Hopen2.
  { replace v2 with (snd (file_Stat f v1)) by by rewrite E2. eapply os_step_open; [|done]. left. constructor. }
  pose proof (fresh_ok s v2 Hs Hss Himg) as [Bh Bu Bf Bo Bd Bx Bs Bi].
  split; try done.
  - intros [|i] g; [|apply (Bf (RefSlot i))]. intros [= <-]. split; [|by intros g' [= <-]].
    split; [exact Eb|]. by split.
  - intros [|i] [|j] f1 f2 g; [done| | |].
    + intros _ Hf2. change (file_at s (RefSlot j) = Some f2) in Hf2. by rewrite fresh_file_at in Hf2.
    + intros Hf1. change (file_at s (RefSlot i) = Some f1) in Hf1. by rewrite fresh_file_at in Hf1.
    + apply (Bo (RefSlot i) (RefSlot j)).
Qed.

Lemma NewBackend_ok opts w b w' :
  Forall is_option opts → NewBackend opts w = Ok (Val b, w') → 0 < sectorSize b →
  (enableCompression b = true → images_ok (W := W)) → backend_ok (sectorSize b) b w'.
Proof.
  intros Ho Hrun Hss Himg. unfold NewBackend in Hrun. cbv zeta in Hrun.
  assert (fresh (foldl (λ s o, o s) emptyBackend opts)) as Hf by by apply options_fresh.
  set (s0 := foldl (λ s o, o s) emptyBackend opts) in *. clearbody s0.
  case_bool_decide; [by eapply open_device_ok|]. destruct (Abs _ _) as [abs|]; [|done].
  destruct (os_Stat abs w) as [[fi|e] w1]; [|done]. destruct (IsDir fi); [|done].
  eapply open_device_ok; [|exact Hrun|done|done]. by destruct s0.
Qed.

Lemma backend_run_ok ss ops b w :
  backend_ok ss b w → Forall (accepted ss) ops →
  ∃ b' w', backend_run ops (b, w) = Ok (b', w') ∧ backend_ok ss b' w'.
Proof.
  intros Hb Hops. revert b w Hb. induction Hops as [|[R op] ops Hop Hops IH]; intros b w Hb; simpl; [eauto|].
  destruct (fs_returns (FSContract := backend_contract ss) R op (b, w) Hb Hop) as (r & [b' w'] & -> & Hb' & _).
  rewrite bind_Ok. by apply IH.
Qed.

(** C7: from a backend that was started with a positive sector size on a host that
    keeps [OSLaws], and unless decompression is off [images_ok], any sequence of calls
    whose handles are in the table (at most 64, not negative in Close, positive in
    Dread) and whose reads fit the buffer ([accepted]) ends
    without a panic, and throughout: every file behind a handle is open in the system,
    no file is behind two handles, so nothing is used after it is closed or closed
    twice; and a file that is open for writing is open nowhere else: of two handles
    with the same file name both are read-only. *)
Theorem handles_open_and_exclusive opts w0 b0 w1 ops :
  Forall is_option opts → NewBackend opts w0 = Ok (Val b0, w1) → 0 < sectorSize b0 →
  (enableCompression b0 = true → images_ok (W := W)) → Forall (accepted (sectorSize b0)) ops →
  ∃ b w, backend_run ops (b0, w1) = Ok (b, w) ∧
    (∀ r f g, file_at b r = Some f → plain f = Some g → os_isopen g w ∧
       ∀ r' f', file_at b r' = Some f' → plain f' = Some g → r' = r) ∧
    (∀ i j f f', i ≠ j → file_at b (RefSlot i) = Some f → file_at b (RefSlot j) = Some f' →
       obj_Name (fh_obj f) = obj_Name (fh_obj f') → fh_readOnly f = true ∧ fh_readOnly f' = true).
Proof.
  intros Ho Hnew Hss Himg Hops. pose proof (NewBackend_ok opts w0 b0 w1 Ho Hnew Hss Himg) as Hb0.
  destruct (backend_run_ok _ ops b0 w1 Hb0 Hops) as (b & w & Hrun & Hb). exists b, w. split; [done|].
  split; [|apply Hb]. intros r f g Hr Hg. split; [by eapply bo_files|].
  intros r' f' Hr' Hg'. by eapply bo_once.
Qed.
End Runs.

(** Why a host is asked for whose open files have a stat: Open drops the error of
    that stat and uses the result. *)
Lemma stat_failure_panics {W} `{OS W} `{Decoders} q f h e (b b' : Backend W) (w w1 w2 w3 : W) :
  os_OpenFile q O_RDONLY w = (Val f, w1) →
  allocHandle (HFile (newFileHandle (PlainFile q f) true)) (b, w1) = Ok (h, (b', w2)) → 0 <= h →
  file_Stat f w2 = (Err e, w3) →
  Open_plain q O_RDONLY true (b, w) = Panic NilDereference.
Proof.
  intros Ho Ha Hh Hs. unfold Open_plain. change (negb true && _) with false. cbv iota.
  change (negb (Z.land O_RDONLY O_CREATE =? 0)) with false. cbv iota.
  unfold mbind, bk_bind, mret, bk_ret, call. rewrite bind_Ok, Ho, bind_Ok.
  change (negb (wantsWrite O_RDONLY)) with true. rewrite Ha, bind_Ok, (proj2 (Z.ltb_ge h 0)) by lia.
  by rewrite Hs, bind_Ok.
Qed.

(** A backend on the small system, whose root holds one file of three bytes. *)
Definition ram0 : MemOs.world := MemOs.mkWorld 0 [(str "/srv/a", map z2b [1; 2; 3])] [].
Definition ram_backend : Backend MemOs.world := emptyBackend <| fsRoot := MemOs.root |>.

Lemma ram_started : NewBackend [WithFSRoot MemOs.root] ram0 = Ok (Val ram_backend, ram0).
Proof. reflexivity. Defined.

Lemma ram_ok w : backend_ok 512 ram_backend w.
Proof. apply (fresh_ok ram_backend w); [done|done|done]. Qed.

Definition op {R} (o : fs_op R) : sigT fs_op := existT R o.

Definition ram_ops : list (sigT fs_op) :=
  [op (FS_Open (str "a") O_RDWR false); op (FS_Open (str "a") O_RDONLY false); op (FS_WriteStart 1);
   op (FS_WriteChunk 1 0 2 1 (map z2b [9; 9])); op (FS_CompleteWrite 1); op (FS_Close 1);
   op (FS_Open (str "../a") O_RDONLY false); op (FS_Read 1 2 131072)].

(** A backend with decompression on the read-only host: its image is opened twice
    and read, next to the plain file and the directory. *)
Definition rom0 : RomOs.rom := RomOs.mkRom 0 [].
Definition rom_backend : Backend RomOs.rom := emptyBackend <| fsRoot := MemOs.root |> <| enableCompression := true |>.

Lemma rom_started : NewBackend [WithFSRoot MemOs.root; WithCompression] rom0 = Ok (Val rom_backend, rom0).
Proof. reflexivity. Defined.

Definition rom_ops : list (sigT fs_op) :=
  [op (FS_Open (str "game.cso.iso") O_RDONLY false); op (FS_Open (str "game.cso.iso") O_RDONLY false);
   op (FS_Read 1 4 131072); op (FS_Lseek 1 (-1) 2); op (FS_Read 1 2 131072); op (FS_Open (str "a") O_RDONLY false);
   op (FS_Open (str "") O_RDONLY true); op (FS_Dread 4); op (FS_Dread 4); op (FS_Dread 4); op (FS_Close 2)].

Lemma handles_open_and_exclusive_witness :
  (∃ b w, backend_run ram_ops (ram_backend, ram0) = Ok (b, w) ∧
    ∀ i j f f', i ≠ j → file_at b (RefSlot i) = Some f → file_at b (RefSlot j) = Some f' →
      obj_Name (fh_obj f) = obj_Name (fh_obj f') → fh_readOnly f = true ∧ fh_readOnly f' = true) ∧
  ∃ b w, backend_run rom_ops (rom_backend, rom0) = Ok (b, w) ∧
    ∀ i j f f', i ≠ j → file_at b (RefSlot i) = Some f → file_at b (RefSlot j) = Some f' →
      obj_Name (fh_obj f) = obj_Name (fh_obj f') → fh_readOnly f = true ∧ fh_readOnly f' = true.
Proof.
  assert (Forall (accepted 512) ram_ops ∧ Forall (accepted 512) rom_ops) as [Hops Hops'].
  { unfold ram_ops, rom_ops. split; repeat apply Forall_cons_2; try done; unfold accepted; simpl; lia. }
  split.
  - destruct (handles_open_and_exclusive [WithFSRoot MemOs.root] ram0 ram_backend ram0 ram_ops)
      as (b & w & Hrun & _ & Hex); [by repeat constructor|exact ram_started|done|done|exact Hops|].
    exists b, w. split; [exact Hrun|exact Hex].
  - destruct (handles_open_and_exclusive [WithFSRoot MemOs.root; WithCompression] rom0 rom_backend rom0 rom_ops)
      as (b & w & Hrun & _ & Hex);
      [by repeat constructor|exact rom_started|done|intros _; exact RomOs.rom_images|exact Hops'|].
    exists b, w. split; [exact Hrun|exact Hex].
Defined.

(** What that run shows: the image is open under handle 1, at its end, its last byte read. *)
Example rom_run_reads_image :
  match backend_run rom_ops (rom_backend, rom0) with
  | Ok (b, w) => match file_at b (RefSlot 0) with
                 | Some f => match fh_obj f with ImageFile c => cr_size c =? cr_pos c | _ => false end
                 | None => false
                 end
  | _ => false
  end = true.
Proof. by vm_compute. Qed.

(** ** The handle table *)

Section Handles.
Context {W : Type} `{OSL : OSLaws W} `{Decoders}.
Implicit Types (b : Backend W) (w : W).

(** Putting a handle in a slot. *)
Lemma put_slot_run h i b2 w2 a b' w' :
  (_ ← set_slot i (Some h); _ ← use_slot i; mret (i + 1)) (b2, w2) = Ok (a, (b', w')) →
  a = i + 1 ∧ handles b' = <[Z.to_nat i := Some h]> (handles b2).
Proof.
  intros Hr. unfold set_slot, use_slot, modify, call, mbind, bk_bind, mret, bk_ret in Hr.
  rewrite bind_Ok in Hr. destruct (os_Now w2) as [t w3]. rewrite !bind_Ok in Hr. by simplify_eq.
Qed.

(** The slot that the scan picks when all are taken, as a position in the table. *)
Lemma oldest_slot b now o t :
  length (lastUsed b) = 64%nat → Forall (λ u, u <= now) (lastUsed b) → Forall (λ u, t <= u) (lastUsed b) →
  (o = 0 ∧ t = now ∨
   ∃ n, o = 0 + Z.of_nat n ∧ lastUsed b !! n = Some t ∧ t < now ∧ Forall (λ u, t < u) (take n (lastUsed b))) →
  ∃ n, o = Z.of_nat n ∧ lastUsed b !! n = Some t ∧ Forall (λ u, t < u) (take n (lastUsed b)).
Proof.
  intros Hl Hnow Hmin [[-> ->]|(n & -> & ? & _ & ?)]; [|by exists n]. exists 0%nat.
  destruct (lookup_lt_is_Some_2 (lastUsed b) 0) as [u Hu]; [rewrite Hl; lia|].
  split; [done|]. split; [|constructor]. rewrite Hu. f_equal.
  pose proof (Forall_lookup_1 _ _ _ _ Hmin Hu). pose proof (Forall_lookup_1 _ _ _ _ Hnow Hu). simpl in *. lia.
Qed.

(** C32: the policy of the handle table.  A new handle takes the first free slot;
    when all 64 are taken it replaces the handle that has not been used for the
    longest time (the first such one), provided that was at least an hour ago;
    otherwise the open is refused with EMFILE and the table is unchanged.  The
    returned number is the slot plus one, and no other slot changes. *)
Theorem allocHandle_policy ss h b w :
  backend_ok ss b w → handle_ok b w h → Forall (λ t, t <= fst (os_Now w)) (lastUsed b) →
  ∃ a b' w', allocHandle h (b, w) = Ok (a, (b', w')) ∧ backend_ok ss b' w' ∧
    let later := fst (os_Now (snd (os_Now w))) in
    ((∃ n, a = Z.of_nat n + 1 ∧ handles b !! n = Some None ∧
           (∀ m, (m < n)%nat → ∃ x, handles b !! m = Some (Some x)) ∧
           handles b' = <[n := Some h]> (handles b)) ∨
     (Forall is_Some (handles b) ∧ ∃ n t, a = Z.of_nat n + 1 ∧ lastUsed b !! n = Some t ∧
           Forall (λ u, t <= u) (lastUsed b) ∧ Forall (λ u, t < u) (take n (lastUsed b)) ∧
           handleMaxLastUsed <= later - t ∧ handles b' = <[n := Some h]> (handles b)) ∨
     (Forall is_Some (handles b) ∧ a = - EMFILE ∧ handles b' = handles b ∧
      Forall (λ t, later - t < handleMaxLastUsed) (lastUsed b))).
Proof.
  intros Hb Hh Hnow.
  assert (∃ a b' w', allocHandle h (b, w) = Ok (a, (b', w')) ∧ backend_ok ss b' w') as (a & b' & w' & Hrun & Hb').
  { pose proof (wp_allocHandle ss h (λ _ s, backend_ok ss (fst s) (snd s)) b w Hb Hh) as Hwp.
    destruct Hwp as (a & [b' w'] & Hr & Hb'); [done|]. by exists a, b', w'. }
  exists a, b', w'. split; [done|]. split; [done|]. cbv zeta.
  unfold allocHandle, mbind, bk_bind, call, gets in Hrun. destruct (os_Now w) as [now w1] eqn:E1.
  rewrite !bind_Ok in Hrun. simpl fst in *. simpl snd in *.
  pose proof (alloc_scan_spec (handles b) (lastUsed b) 0 0 now) as Hs.
  rewrite (bo_handles _ _ _ Hb), (bo_used _ _ _ Hb) in Hs. specialize (Hs eq_refl).
  destruct (alloc_scan (handles b) (lastUsed b) 0 0 now) as [k|[o t]].
  - left. destruct Hs as (n & -> & Hn & Hm). exists n. apply put_slot_run in Hrun as [-> ->].
    rewrite Z.add_0_l, Nat2Z.id. by split_and!.
  - right. destruct Hs as (Hall & Hmin & Ho).
    destruct (oldest_slot b now o t (bo_used _ _ _ Hb) Hnow Hmin Ho) as (n & -> & Ht & Hfirst).
    destruct (os_Now w1) as [later w2] eqn:E2. rewrite bind_Ok in Hrun. simpl fst.
    destruct (handleMaxLastUsed <=? later - t) eqn:El; bool_to_prop.
    + left. split; [done|]. exists n, t. unfold slot, gets, lift, mbind, bk_bind in Hrun. rewrite bind_Ok in Hrun.
      destruct (lookup_lt_is_Some_2 (handles b) n) as [x Hx].
      { rewrite (bo_handles _ _ _ Hb), <-(bo_used _ _ _ Hb). by eapply lookup_lt_Some. }
      destruct (Forall_lookup_1 _ _ _ _ Hall Hx) as [old ->].
      rewrite (index_ok (handles b) (Z.of_nat n) (Some old)) in Hrun by (rewrite ?Nat2Z.id; done || lia).
      rewrite !bind_Ok in Hrun.
      destruct (wp_handle_Close old (λ _ s, s = (b, close_world old w2)) b w2 eq_refl) as (u & s' & Hc & ->).
      rewrite Hc, bind_Ok in Hrun. apply put_slot_run in Hrun as [-> ->]. rewrite Nat2Z.id. by split_and!.
    + right. injection Hrun as <- <- <-. split; [done|]. split; [done|]. split; [done|].
      eapply Forall_impl; [exact Hmin|]. simpl. intros u Hu. lia.
Qed.

(** ** Handles outside the table *)

(** The handle a call works on. *)
Definition op_handle {R} (op : fs_op R) : option Z :=
  match op with
  | FS_Close h | FS_Read h _ _ | FS_WriteStart h | FS_WriteChunk h _ _ _ _ | FS_CompleteWrite h
  | FS_Lseek h _ _ | FS_Dread h | FS_Bread h _ _ _ | FS_BwriteStart h _ _ => Some h
  | _ => None
  end.

Lemma slot_panics i b w : length (handles b) = 64%nat → 64 <= i → slot i (b, w) = Panic IndexOutOfRange.
Proof.
  intros Hl Hi. unfold slot, gets, lift, mbind, bk_bind, index. rewrite bind_Ok.
  rewrite (proj2 (Z.ltb_ge i 0)), lookup_ge_None_2 by lia. done.
Qed.

Lemma call_panics {R} (op : fs_op R) h b w :
  length (handles b) = 64%nat → op_handle op = Some h → 64 < h → fs_call op (b, w) = Panic IndexOutOfRange.
Proof.
  intros Hl Hop Hh.
  assert (slot (h - 1) (b, w) = Panic IndexOutOfRange) as Hs by (apply slot_panics; [done|lia]).
  assert (getFile h (b, w) = Panic IndexOutOfRange) as Hg.
  { unfold getFile, BlockDeviceHandle. rewrite (proj2 (Z.ltb_ge h 0)), (proj2 (Z.eqb_neq h 0)) by lia.
    unfold mbind, bk_bind. by rewrite Hs. }
  assert (getDir h (b, w) = Panic IndexOutOfRange) as Hd by (unfold getDir, mbind, bk_bind; by rewrite Hs).
  assert (freeHandle h (b, w) = Panic IndexOutOfRange) as Hf.
  { unfold freeHandle, BlockDeviceHandle. rewrite (proj2 (Z.eqb_neq h 0)) by lia.
    unfold mbind, bk_bind. by rewrite Hs. }
  change (backend_call op (b, w) = Panic IndexOutOfRange).
  destruct op; try discriminate Hop; injection Hop as ->; cbn [backend_call];
    unfold Close, Read, WriteStart, WriteChunk, CompleteWrite, Lseek, Dread, Bread, BwriteStart, mbind, bk_bind;
    rewrite ?Hg, ?Hd, ?Hf; done.
Qed.

(** A well-formed request whose first call has a handle above 64. *)
Definition bad_handle (payload : list byte) : Prop :=
  match request_op payload with
  | Some (existT R op) => match op_handle op with Some h => 64 < h | None => False end
  | None => False
  end.

(** C33: a request with a handle above 64 crashes the server.  The handle that the
    client sends is used as an index into the table without a bound check: every
    well-formed CLOSE, READ, WRITE, LSEEK, DREAD, BREAD or BWRITE request with such
    a handle panics, whatever the state. *)
Theorem handle_out_of_range_panics order now payload c b w :
  length (handles b) = 64%nat → payload ≠ [] → bad_handle payload →
  HandlePayload order now payload c (b, w) = Panic IndexOutOfRange.
Proof.
  intros Hl Hne Hbad.
  assert (∀ R (o : fs_op R) h, op_handle o = Some h → 64 < h → fs_call o (b, w) = Panic IndexOutOfRange) as Hp
    by (intros; by eapply call_panics).
  destruct payload as [|x rest]; [done|]. unfold HandlePayload.
  assert (dispatch order (b2z x) (x :: rest) c (b, w) = Some (Panic IndexOutOfRange)) as ->; [|done].
  unfold bad_handle, request_op in Hbad. cbv zeta in Hbad. rewrite le_at_head in Hbad.
  remember (x :: rest) as payload eqn:Ep. clear Ep. remember (b2z x) as msg eqn:Em. clear Em.
  assert (∀ n (o : sigT fs_op),
    match (if zlen payload <? n then None else Some o) with
    | Some (existT R op) => match op_handle op with Some h => 64 < h | None => False end
    | None => False
    end → (zlen payload <? n) = false ∧ match op_handle (projT2 o) with Some h => 64 < h | None => False end)
    as Hneed by (intros n [R o]; by destruct (zlen payload <? n)).
  unfold dispatch.
  destruct (msg =? MsgOpenReq); [by apply Hneed in Hbad as [_ ?]|].
  destruct (msg =? MsgCloseReq).
  { unfold handleClose. destruct (handle_at payload =? BlockDeviceHandle); [done|].
    apply Hneed in Hbad as [-> Hh]. by erewrite Hp. }
  destruct (msg =? MsgReadReq); [unfold handleRead; apply Hneed in Hbad as [-> Hh]; by erewrite Hp|].
  destruct (msg =? MsgWriteReq).
  { destruct (msg =? MsgWriteData); unfold handleWriteReq; apply Hneed in Hbad as [-> Hh]; by erewrite Hp. }
  destruct (msg =? MsgWriteData) eqn:Ewd; [apply Z.eqb_eq in Ewd as ->; done|].
  destruct (msg =? MsgLseekReq); [unfold handleLseek; apply Hneed in Hbad as [-> Hh]; by erewrite Hp|].
  destruct (msg =? MsgDreadReq); [unfold handleDread; apply Hneed in Hbad as [-> Hh]; by erewrite Hp|].
  destruct (msg =? MsgGetstatReq); [by apply Hneed in Hbad as [_ ?]|].
  destruct (msg =? MsgMkdirReq); [by apply Hneed in Hbad as [_ ?]|].
  destruct (msg =? MsgRemoveReq); [by apply Hneed in Hbad as [_ ?]|].
  destruct (msg =? MsgRmdirReq); [by apply Hneed in Hbad as [_ ?]|].
  destruct (msg =? MsgBreadReq); [unfold handleBread; apply Hneed in Hbad as [-> Hh]; by erewrite Hp|].
  destruct (msg =? MsgBwriteReq); [unfold handleBwriteReq; apply Hneed in Hbad as [-> Hh]; by erewrite Hp|done].
Qed.
End Handles.

Lemma allocHandle_policy_witness :
  ∃ b' w', allocHandle (HDir (mkDirHandle MemOs.root [] 0)) (ram_backend, ram0) = Ok (1, (b', w')) ∧
    slot_at b' 0 = Some (HDir (mkDirHandle MemOs.root [] 0)).
Proof.
  destruct (allocHandle_policy 512 (HDir (mkDirHandle MemOs.root [] 0)) ram_backend ram0 (ram_ok ram0))
    as (a & b' & w' & Hrun & _ & Hcase); [by split|by repeat constructor|].
  assert (handles ram_backend !! 0%nat = Some None) as Hfree by reflexivity.
  destruct Hcase as [(n & -> & Hn & Hm & Hb)|[(Hall & _)|(Hall & _)]].
  - exists b', w'. destruct n as [|n]; [|destruct (Hm 0%nat ltac:(lia)) as [y Hy]; by rewrite Hfree in Hy].
    split; [exact Hrun|]. unfold slot_at. rewrite Hb. reflexivity.
  - by destruct (Forall_lookup_1 _ _ _ _ Hall Hfree).
  - by destruct (Forall_lookup_1 _ _ _ _ Hall Hfree).
Defined.

(** READ_REQ of handle 65. *)
Definition read_65 : list byte := map z2b [20; 0; 0; 0; 65; 0; 0; 0; 16; 0; 0; 0].

Lemma handle_out_of_range_panics_witness :
  HandlePayload [] 0 read_65 Echo.conn (ram_backend, ram0) = Panic IndexOutOfRange.
Proof.
  apply (handle_out_of_range_panics [] 0 read_65 Echo.conn ram_backend ram0); [reflexivity|discriminate|].
  unfold bad_handle. vm_compute. reflexivity.
Defined.
