(* ===== verification/BackendData.v ===== *)
(** * What the data operations of the backend do

    Reads, writes and directory listings on an open handle, as functions of its
    file: the calls of the system that are made, and their order.  Between them only
    the clock is read. *)
From stdpp Require Import gmap.
From S2P Require Import Prelude UdpfsProtocol UdpfsConnection BlockCache CachedReader CompressedFile GoPath CompressedImage ImageSafety OsWorld Backend BackendLogic BackendInvariant.

Section Data.
Context {W : Type} `{OS W} `{Decoders}.
Implicit Types (b : Backend W) (w : W).

(** The clock is read, any number of times. *)
Definition ticks (w w' : W) : Prop := rtc (λ w w', w' = snd (os_Now w)) w w'.

Lemma ticks_refl w : ticks w w.
Proof. constructor. Qed.

Lemma ticks_now w : ticks w (snd (os_Now w)).
Proof. by apply rtc_once. Qed.

Lemma ticks_trans w1 w2 w3 : ticks w1 w2 → ticks w2 w3 → ticks w1 w3.
Proof. unfold ticks. intros H1 H2. by etrans. Qed.

(** Where the file of a handle is kept. *)
Definition ref_of (h : Z) : fref := if h =? BlockDeviceHandle then RefBlockDevice else RefSlot (h - 1).

(** The parts of a backend that using a handle does not change. *)
Definition same_files b b' : Prop :=
  handles b' = handles b ∧ bdHandle b' = bdHandle b ∧ sectorSize b' = sectorSize b ∧
  enableCompression b' = enableCompression b.

Lemma same_files_at b b' r : same_files b b' → file_at b' r = file_at b r.
Proof. intros (E1 & E2 & _). by apply file_at_same. Qed.

Lemma use_slot_run i b w :
  ∃ b' w', use_slot i (b, w) = Ok ((), (b', w')) ∧ ticks w w' ∧ same_files b b'.
Proof.
  unfold use_slot, call, modify, mbind, bk_bind. destruct (os_Now w) as [t w'] eqn:E. rewrite bind_Ok.
  eexists _, w'. split; [done|]. split; [|by split_and!].
  replace w' with (snd (os_Now w)) by (by rewrite E). apply ticks_now.
Qed.

Lemma slot_run i b w x : 0 <= i → handles b !! Z.to_nat i = Some x → slot i (b, w) = Ok (x, (b, w)).
Proof.
  intros Hi Hx. unfold slot, gets, lift, mbind, bk_bind. by rewrite bind_Ok, (index_ok _ _ x), bind_Ok.
Qed.

Lemma slot_at_lookup b i x : slot_at b i = Some x → 0 <= i ∧ handles b !! Z.to_nat i = Some (Some x).
Proof.
  unfold slot_at. destruct (Z.ltb_spec i 0); [done|]. destruct (handles b !! Z.to_nat i) as [[y|]|]; simpl; try done.
  by intros [= ->].
Qed.

Lemma getFile_run h f b w :
  0 <= h → file_at b (ref_of h) = Some f →
  ∃ b' w', getFile h (b, w) = Ok (Some (ref_of h, f), (b', w')) ∧ ticks w w' ∧ same_files b b'.
Proof.
  intros Hh Hf. unfold getFile, ref_of, BlockDeviceHandle in *. rewrite (proj2 (Z.ltb_ge h 0)) by lia.
  destruct (h =? 0) eqn:Eh; bool_to_prop.
  - unfold gets, mbind, bk_bind. rewrite bind_Ok. simpl in Hf. destruct (bdHandle b) as [d|]; [|done].
    injection Hf as <-. exists b, w. split; [done|]. split; [apply ticks_refl|by split_and!].
  - unfold file_at in Hf. destruct (slot_at b (h - 1)) as [[f'|d]|] eqn:Es; [|done..]. injection Hf as ->.
    apply slot_at_lookup in Es as [Hi Hl]. unfold mbind, bk_bind. rewrite (slot_run _ _ _ _ Hi Hl), bind_Ok.
    destruct (use_slot_run (h - 1) b w) as (b' & w' & -> & Ht & Hs). rewrite bind_Ok. by exists b', w'.
Qed.

Lemma put_file_run r f b w : put_file r f (b, w) = Ok ((), (put_at r f b, w)).
Proof. by destruct r. Qed.

(** A put keeps the rest of the backend; the file that is put is found again. *)
Lemma put_at_fields r f b :
  sectorSize (put_at r f b) = sectorSize b ∧ enableCompression (put_at r f b) = enableCompression b.
Proof. by destruct r. Qed.

Lemma file_at_put_eq b r f f0 : file_at b r = Some f0 → file_at (put_at r f b) r = Some f.
Proof. intros Hr. by rewrite (file_at_put b r r f f0 Hr), decide_True. Qed.

(** ** Writes in chunks *)

Definition with_wr (ws : writeState) (f : fileHandle W) : fileHandle W :=
  mkFileHandle (fh_obj f) ws (fh_readOnly f).

(** How a write starts: in bytes, or in sectors from a number on. *)
Inductive write_start := PlainWrite | BlockWrite (sectorNr count : Z).

Definition start_call (h : Z) (s : write_start) : bk (option go_error) :=
  match s with
  | PlainWrite => WriteStart h
  | BlockWrite nr count => BwriteStart h nr count
  end.

(** The write state of a started write that has received [k] chunks, [data]. *)
Definition writing (s : write_start) (f : fileHandle W) (total k : Z) (data : list byte) : writeState :=
  match s with
  | PlainWrite => mkWriteState data (sectorNumber (wr f)) (sectorCount (wr f)) total k false
  | BlockWrite nr count => mkWriteState data nr count total k true
  end.

(** The file of a handle, with the sector size, in a state between calls. *)
Definition holds (h ss : Z) (f : fileHandle W) b : Prop :=
  0 <= h ∧ file_at b (ref_of h) = Some f ∧ sectorSize b = ss.

Lemma holds_same h ss f b b' : same_files b b' → holds h ss f b → holds h ss f b'.
Proof.
  intros Hs (Hh & Hf & Hss). split; [done|]. split; [by rewrite (same_files_at b b')|].
  destruct Hs as (_ & _ & -> & _). done.
Qed.

Lemma holds_put h ss f f' b : holds h ss f b → holds h ss f' (put_at (ref_of h) f' b).
Proof.
  intros (Hh & Hf & Hss). split; [done|]. split; [by eapply file_at_put_eq|].
  by rewrite (proj1 (put_at_fields _ _ _)).
Qed.

Lemma start_run h ss s f b w :
  holds h ss f b → fh_readOnly f = false →
  ∃ b' w', start_call h s (b, w) = Ok (None, (b', w')) ∧ ticks w w' ∧
    holds h ss (with_wr (writing s f 0 0 []) f) b'.
Proof.
  intros Hh Hro. destruct (getFile_run h f b w) as (b1 & w1 & Hg & Ht & Hs); [apply Hh..|].
  pose proof (holds_same _ _ _ _ _ Hs Hh) as Hh1.
  destruct s as [|nr count]; simpl; unfold WriteStart, BwriteStart, mbind, bk_bind; rewrite Hg, bind_Ok, Hro;
    rewrite put_file_run, bind_Ok; eexists _, w1; (split; [done|]); (split; [done|]); unfold with_wr; rewrite Hro;
    by eapply holds_put.
Qed.

Lemma WriteChunk_run h ss ws f nr size total chunk b w :
  holds h ss (with_wr ws f) b →
  ∃ b' w', WriteChunk h nr size total chunk (b, w) =
      Ok (if nr =? receivedChunks ws then total <=? u16 (receivedChunks ws + 1) else false, None, (b', w')) ∧
    ticks w w' ∧
    holds h ss (with_wr
      (if nr =? receivedChunks ws
       then mkWriteState (dataBuffer ws ++ chunk) (sectorNumber ws) (sectorCount ws) total
              (u16 (receivedChunks ws + 1)) (blockWrite ws)
       else ws) f) b'.
Proof.
  intros Hh. destruct (getFile_run h (with_wr ws f) b w) as (b1 & w1 & Hg & Ht & Hs); [apply Hh..|].
  pose proof (holds_same _ _ _ _ _ Hs Hh) as Hh1.
  unfold WriteChunk, mbind, bk_bind. rewrite Hg, bind_Ok. cbv zeta. cbn [wr with_wr].
  destruct (nr =? receivedChunks ws); cbn [negb].
  - rewrite put_file_run, bind_Ok. eexists _, w1. split; [done|]. split; [done|]. by eapply holds_put.
  - exists b1, w1. by split_and!.
Qed.

(** The client's chunks arrive in any order, some of them repeatedly: [js] are
    their numbers. *)
Fixpoint arrive (h : Z) (chunks : list (list byte)) (js : list nat) : bk (list (bool * option go_error)) :=
  match js with
  | [] => mret []
  | j :: js =>
      let chunk := default [] (chunks !! j) in
      r ← WriteChunk h (Z.of_nat j) (zlen chunk) (zlen chunks) chunk;
      rs ← arrive h chunks js;
      mret (r :: rs)
  end.

(** The next chunk wanted, after these arrivals. *)
Definition wanted (k : nat) (js : list nat) : nat := foldl (λ k j, if decide (j = k) then S k else k) k js.

(** The answers: done at the arrival of the last chunk in order. *)
Fixpoint answers (n k : nat) (js : list nat) : list (bool * option go_error) :=
  match js with
  | [] => []
  | j :: js => (bool_decide (j = k ∧ S k = n), None) :: answers n (if decide (j = k) then S k else k) js
  end.

Definition total_of (n k : nat) : Z := match k with O => 0 | _ => Z.of_nat n end.

Lemma arrive_run h ss s f (chunks : list (list byte)) js k b w :
  zlen chunks < 65536 → Forall (λ j, (j < length chunks)%nat) js → (k <= length chunks)%nat →
  let n := length chunks in
  holds h ss (with_wr (writing s f (total_of n k) (Z.of_nat k) (concat (take k chunks))) f) b →
  ∃ b' w', arrive h chunks js (b, w) = Ok (answers n k js, (b', w')) ∧ ticks w w' ∧
    let k' := wanted k js in (k <= k' <= n)%nat ∧
    holds h ss (with_wr (writing s f (total_of n k') (Z.of_nat k') (concat (take k' chunks))) f) b'.
Proof.
  intros Hn Hjs. cbv zeta. revert k b w. induction Hjs as [|j js Hj Hjs IH]; intros k b w Hk Hh.
  { exists b, w. split; [done|]. split; [apply ticks_refl|]. by split. }
  cbn [arrive answers wanted foldl]. cbv zeta. unfold mbind, bk_bind.
  destruct (lookup_lt_is_Some_2 chunks j Hj) as [chunk Hc]. assert (default [] (chunks !! j) = chunk) as -> by (by rewrite Hc).
  destruct (WriteChunk_run h ss _ f (Z.of_nat j) (zlen chunk) (zlen chunks) chunk b w Hh)
    as (b1 & w1 & Hr & Ht & Hh1). rewrite Hr, bind_Ok. clear Hr.
  assert (receivedChunks (writing s f (total_of (length chunks) k) (Z.of_nat k) (concat (take k chunks))) = Z.of_nat k)
    as Ek by by destruct s. rewrite Ek in *. unfold zlen in *.
  assert (u16 (Z.of_nat k + 1) = Z.of_nat k + 1 ∨ (j ≠ k)) as Hu.
  { destruct (decide (j = k)) as [->|]; [left|by right]. unfold u16. rewrite Z.mod_small; lia. }
  destruct (decide (j = k)) as [->|Hne].
  - destruct Hu as [Hu|[]]; [|done]. rewrite Z.eqb_refl, Hu in *.
    destruct (IH (S k) b1 w1) as (b' & w' & Hr & Ht' & Hk' & Hh'); [lia| |].
    + replace (concat (take (S k) chunks)) with (concat (take k chunks) ++ chunk); last first.
      { erewrite take_S_r by done. by rewrite concat_app, concat_cons, concat_nil, app_nil_r. }
      replace (Z.of_nat (S k)) with (Z.of_nat k + 1) by lia. destruct s; exact Hh1.
    + rewrite Hr, bind_Ok. exists b', w'. split.
      { assert ((Z.of_nat (length chunks) <=? Z.of_nat k + 1) = bool_decide (k = k ∧ S k = length chunks)) as ->; [|done].
        apply eq_true_iff_eq. rewrite Z.leb_le, bool_decide_eq_true. split; [split; [done|lia]|lia]. }
      split; [by eapply ticks_trans|]. split; [fold (wanted (S k) js); lia|exact Hh'].
  - rewrite (proj2 (Z.eqb_neq _ _)) in * by lia.
    destruct (IH k b1 w1 Hk Hh1) as (b' & w' & Hr & Ht' & Hk' & Hh'). rewrite Hr, bind_Ok. exists b', w'.
    rewrite (bool_decide_eq_false_2 (j = k ∧ _)) by tauto.
    split; [done|]. split; [by eapply ticks_trans|]. by split.
Qed.

(** What completing a write does to the file: the data, from the current position
    or from the sector on; a block write is cut to its number of sectors. *)
Definition finish (h ss : Z) (s : write_start) (f : fileHandle W) (data : list byte) (w : W)
    : Z * option go_error * W :=
  match s with
  | PlainWrite =>
      let '(n, e, _, w) := obj_Write data (fh_obj f) w in
      (match e with Some _ => 0 | None => i32 n end, e, w)
  | BlockWrite nr count =>
      let size := if h =? BlockDeviceHandle then ss else 512 in
      let '(_, e, o, w) := obj_Seek (i64 (nr * size)) 0 (fh_obj f) w in
      match e with
      | Some e => (0, Some e, w)
      | None =>
          let '(_, e, _, w) := obj_Write (take (Z.to_nat (count * size)) data) o w in
          (0, e, w)
      end
  end.

Lemma obj_Write_run r f data b w :
  file_obj_Write r f data (b, w) =
    let '(n, e, o, w) := obj_Write data (fh_obj f) w in
    Ok (n, e, (put_at r (mkFileHandle o (wr f) (fh_readOnly f)) b, w)).
Proof.
  unfold file_obj_Write, call, mbind, bk_bind. destruct (obj_Write data (fh_obj f) w) as [[[n e] o] w'].
  by rewrite bind_Ok, put_file_run, bind_Ok.
Qed.

Lemma obj_Seek_run r f off wh b w :
  file_obj_Seek r f off wh (b, w) =
    let '(p, e, o, w) := obj_Seek off wh (fh_obj f) w in
    let f := mkFileHandle o (wr f) (fh_readOnly f) in
    Ok (p, e, f, (put_at r f b, w)).
Proof.
  unfold file_obj_Seek, call, mbind, bk_bind. destruct (obj_Seek off wh (fh_obj f) w) as [[[p e] o] w'].
  by rewrite bind_Ok, put_file_run, bind_Ok.
Qed.

Lemma sector_size_run h ss f b w :
  holds h ss f b → sector_size h (b, w) = Ok (if h =? BlockDeviceHandle then ss else 512, (b, w)).
Proof.
  intros (_ & _ & <-). unfold sector_size, gets, mbind, bk_bind. rewrite bind_Ok. by destruct (h =? _).
Qed.

Lemma CompleteWrite_run h ss s f total k data b w :
  (∀ nr count, s = BlockWrite nr count → 0 <= count ∧ 0 < ss) →
  holds h ss (with_wr (writing s f total k data) f) b →
  ∃ w1 b', ticks w w1 ∧
    CompleteWrite h (b, w) = Ok (fst (finish h ss s f data w1), (b', snd (finish h ss s f data w1))).
Proof.
  intros Hcount Hh. destruct (getFile_run h _ b w (proj1 Hh) (proj1 (proj2 Hh))) as (b1 & w1 & Hg & Ht & Hs).
  pose proof (holds_same _ _ _ _ _ Hs Hh) as Hh1. exists w1.
  unfold CompleteWrite, mbind, bk_bind. rewrite Hg, bind_Ok, (sector_size_run h ss _ b1 w1 Hh1), bind_Ok.
  cbv zeta. cbn [wr with_wr]. destruct s as [|nr count]; cbn [writing blockWrite dataBuffer finish].
  - rewrite obj_Write_run. cbn [fh_obj with_wr]. destruct (obj_Write data (fh_obj f) w1) as [[[n e] o] w2].
    rewrite bind_Ok. destruct e; by eexists.
  - destruct (Hcount nr count eq_refl) as [Hc Hss]. cbn [sectorCount sectorNumber].
    set (size := if h =? BlockDeviceHandle then ss else 512).
    assert (0 <= count * size) as Hsize by (unfold size; case_bool; nia).
    assert ((if count * size <? zlen data then lift (slice data 0 (count * size)) else mret data) (b1, w1) =
              Ok (take (Z.to_nat (count * size)) data, (b1, w1))) as ->.
    { destruct (Z.ltb_spec (count * size) (zlen data)).
      - unfold lift. rewrite slice_ok, Z.sub_0_r, drop_0 by lia. done.
      - rewrite take_ge by (unfold zlen in *; lia). done. }
    rewrite bind_Ok, obj_Seek_run. cbn [fh_obj with_wr].
    destruct (obj_Seek (i64 (nr * size)) 0 (fh_obj f) w1) as [[[p e] o] w2]. cbv zeta. rewrite bind_Ok.
    destruct e as [e|]; [by eexists|]. rewrite obj_Write_run. cbn [fh_obj].
    destruct (obj_Write _ o w2) as [[[n e] o'] w3]. rewrite bind_Ok. by eexists.
Qed.

Lemma answers_done (n k : nat) js :
  (k < n)%nat → Forall (λ j, (j < n)%nat) js → wanted k js = n →
  length (List.filter fst (answers n k js)) = 1%nat.
Proof.
  intros Hk Hjs. revert k Hk. induction Hjs as [|j js Hj Hjs IH]; intros k Hk Hw; cbn [answers wanted foldl] in *.
  { simpl in Hw. lia. }
  destruct (decide (j = k)) as [->|Hne]; last first.
  { rewrite bool_decide_eq_false_2 by tauto. cbn [List.filter fst]. by apply IH. }
  destruct (decide (S k = n)) as [E|E].
  - rewrite bool_decide_eq_true_2 by done. cbn [List.filter fst length]. f_equal.
    clear IH Hw Hk Hj. assert (∀ m, m = n → length (List.filter fst (answers n m js)) = 0%nat) as Hz; [|by apply Hz].
    intros m ->. clear E. induction Hjs as [|j js Hj Hjs IH]; [done|]. cbn [answers].
    rewrite bool_decide_eq_false_2 by lia. rewrite decide_False by lia. exact IH.
  - rewrite bool_decide_eq_false_2 by tauto. cbn [List.filter fst]. apply IH; [lia|done].
Qed.

(** ** Reads of images *)

Lemma obj_Read_run r f n b w :
  file_obj_Read r f n (b, w) =
    ('(d, e, o, w) ← obj_Read n (fh_obj f) w;
     Ok (d, e, (put_at r (mkFileHandle o (wr f) (fh_readOnly f)) b, w))).
Proof.
  unfold file_obj_Read, call_out, mbind, bk_bind. destruct (obj_Read n (fh_obj f) w) as [[[[d e] o] w']| |];
    [|done..]. rewrite !bind_Ok. cbv beta iota. by rewrite put_file_run, !bind_Ok.
Qed.

(** A handle that holds an opened image of [content], at position [pos]. *)
Definition holds_image (h ss : Z) (content : list byte) (pos : Z) b : Prop :=
  ∃ f rd, holds h ss f b ∧ fh_obj f = ImageFile rd ∧ reader_ok content rd ∧ cr_pos rd = pos.

(** What a read of [n] bytes at [pos] gives. *)
Definition read_at (pos n : Z) (content : list byte) : list byte :=
  take (Z.to_nat n) (drop (Z.to_nat pos) content).

Lemma image_Read_run content n (rd : CachedReader ImageReader) :
  reader_ok content rd → 0 <= n →
  ∃ e rd', CachedReader_Read n rd = Ok (read_at (cr_pos rd) n content, e, rd') ∧ reader_ok content rd' ∧
    cr_pos rd' = cr_pos rd + zlen (read_at (cr_pos rd) n content) ∧ (e = None ∨ e = Some EOF).
Proof.
  intros Hok Hn. pose proof (ro_pos _ _ Hok) as Hpos.
  destruct (CachedReader_Read_spec content n rd Hok Hn) as (part & e & rd' & Hr & Hok' & Hp & Hpos' & Hnone & Herr & Hend & _).
  assert (part = read_at (cr_pos rd) n content ∧ (e = None ∨ e = Some EOF)) as [-> He].
  { destruct e as [er|].
    - destruct (Herr er eq_refl) as [Hf|[-> Hz]]; [by destruct (image_no_failure content er)|].
      destruct (Hend Hz) as [-> _]. split; [|by right]. unfold read_at. rewrite drop_ge; [by rewrite take_nil|].
      unfold zlen in *. lia.
    - split; [|by left]. specialize (Hnone eq_refl). rewrite Hp. unfold read_at.
      destruct (Z.le_gt_cases n (zlen content - cr_pos rd)).
      + do 2 f_equal. unfold zlen in *. lia.
      + rewrite !take_ge; [done|rewrite length_drop; unfold zlen in *; lia..]. }
  exists e, rd'. by split_and!.
Qed.

Lemma Read_image_run h ss content pos size bufLen b w :
  holds_image h ss content pos b → 0 <= size <= bufLen →
  ∃ b' w', Read h size bufLen (b, w) =
      Ok (i32 (zlen (read_at pos size content)), read_at pos size content, None, (b', w')) ∧ ticks w w' ∧
    holds_image h ss content (pos + zlen (read_at pos size content)) b'.
Proof.
  intros (f & rd & Hh & Ho & Hok & <-) Hs.
  destruct (getFile_run h f b w (proj1 Hh) (proj1 (proj2 Hh))) as (b1 & w1 & Hg & Ht & Hsame).
  pose proof (holds_same _ _ _ _ _ Hsame Hh) as Hh1.
  destruct (image_Read_run content size rd Hok (proj1 Hs)) as (e & rd' & Hr & Hok' & Hpos' & He).
  unfold Read, mbind, bk_bind. rewrite Hg, bind_Ok, (proj2 (Z.ltb_ge bufLen size)) by lia.
  rewrite obj_Read_run, Ho. unfold obj_Read. rewrite Hr, !bind_Ok. cbv beta iota.
  set (f' := mkFileHandle (ImageFile rd') (wr f) (fh_readOnly f)).
  exists (put_at (ref_of h) f' b1), w1. split; [by destruct He as [-> | ->]|]. split; [done|].
  exists f', rd'. split; [by eapply holds_put|]. by split_and!.
Qed.

(** A block read of an image seeks to the sector first; a seek outside the image
    ends at its bounds. *)
Lemma Bread_image_run h ss content pos nr count bufLen b w :
  holds_image h ss content pos b → h ≠ BlockDeviceHandle → 0 <= count → count * 512 <= bufLen →
  let start := Z.max 0 (Z.min (i64 (nr * 512)) (zlen content)) in
  ∃ b' w', Bread h nr count bufLen (b, w) = Ok (read_at start (count * 512) content, None, (b', w')) ∧
    ticks w w' ∧ holds_image h ss content (start + zlen (read_at start (count * 512) content)) b'.
Proof.
  intros (f & rd & Hh & Ho & Hok & <-) Hne Hc Hbuf. cbv zeta.
  destruct (getFile_run h f b w (proj1 Hh) (proj1 (proj2 Hh))) as (b1 & w1 & Hg & Ht & Hsame).
  pose proof (holds_same _ _ _ _ _ Hsame Hh) as Hh1.
  unfold Bread, mbind, bk_bind. rewrite Hg, bind_Ok, (sector_size_run h ss _ b1 w1 Hh1), bind_Ok.
  rewrite (proj2 (Z.eqb_neq h BlockDeviceHandle)) by done. rewrite obj_Seek_run, Ho. unfold obj_Seek.
  pose proof (CachedReader_Seek_spec content (i64 (nr * 512)) 0 rd Hok) as Hsk.
  destruct (CachedReader_Seek (i64 (nr * 512)) 0 rd) as [[p e] rd1]. destruct Hsk as (Hok1 & Hp & _ & Hz & _).
  destruct (Hz eq_refl) as [-> ->]. cbv zeta. rewrite bind_Ok. set (start := Z.max 0 _) in *.
  set (f1 := mkFileHandle (ImageFile rd1) (wr f) (fh_readOnly f)).
  assert (holds h ss f1 (put_at (ref_of h) f1 b1)) as Hh2 by by eapply holds_put.
  rewrite (proj2 (Z.ltb_ge (count * 512) 0)), (proj2 (Z.ltb_ge bufLen _)) by lia. cbn [orb].
  destruct (image_Read_run content (count * 512) rd1 Hok1 ltac:(lia)) as (e & rd' & Hr & Hok' & Hpos' & He).
  rewrite Hp in *. rewrite obj_Read_run. cbn [fh_obj f1]. unfold obj_Read. rewrite Hr, !bind_Ok. cbv beta iota.
  set (f2 := mkFileHandle (ImageFile rd') (wr f1) (fh_readOnly f1)).
  exists (put_at (ref_of h) f2 (put_at (ref_of h) f1 b1)), w1. split; [by destruct He as [-> | ->]|]. split; [done|].
  exists f2, rd'. split; [by eapply holds_put|]. by split_and!.
Qed.

(** ** Directories *)

Lemma getDir_run h d b w :
  slot_at b (h - 1) = Some (HDir d) →
  ∃ b' w', getDir h (b, w) = Ok (Some (h - 1, d), (b', w')) ∧ ticks w w' ∧ same_files b b'.
Proof.
  intros Hs. apply slot_at_lookup in Hs as [Hi Hl]. unfold getDir, mbind, bk_bind.
  rewrite (slot_run _ _ _ _ Hi Hl), bind_Ok.
  destruct (use_slot_run (h - 1) b w) as (b' & w' & -> & Ht & Hs). rewrite bind_Ok. by exists b', w'.
Qed.

(** What a directory entry is listed as, with decompression or without: under its
    name and with its own stat, or, when the program reads images of its extension,
    under the name with ".iso" appended and with the stat of the image.  None: its
    information cannot be read, or it is no image after all. *)
Definition listed (compression : bool) (dir name : path) w : option (path * StatInfo) :=
  let '(info, w') := os_EntryInfo dir name w in
  match info with
  | Err _ => None
  | Val fi =>
      if compression && bool_decide (Ext name ∈ GetSupportedExtensions) then
        match image_GetStat (Join dir name) (os_Image (Join dir name) w') with
        | Ok (Some st) => Some (name ++ str ".iso", StatInfoFromFile st)
        | _ => None
        end
      else Some (name, StatInfoFromFile fi)
  end.

(** The answer for an entry: for one that is not listed, the same as at the end of
    the directory. *)
Definition dir_end : bool * path * StatInfo * option go_error := (false, [], noStat, None).

Definition entry_answer (e : option (path * StatInfo)) : bool * path * StatInfo * option go_error :=
  match e with
  | Some (name, st) => (true, name, st, None)
  | None => dir_end
  end.

(** [n] calls of Dread. *)
Fixpoint dread_calls (n : nat) (h : Z) : bk (list (bool * path * StatInfo * option go_error)) :=
  match n with
  | O => mret []
  | S n => r ← Dread h; rs ← dread_calls n h; mret (r :: rs)
  end.

(** The directory of a handle, between calls, and whether the backend decompresses. *)
Definition holds_dir (h : Z) (compression : bool) (d : dirHandle) b : Prop :=
  slot_at b (h - 1) = Some (HDir d) ∧ enableCompression b = compression.

Lemma holds_dir_same h z d b b' : same_files b b' → holds_dir h z d b → holds_dir h z d b'.
Proof. intros (E1 & _ & _ & E4) [Hs Hc]. split; [unfold slot_at in *; by rewrite E1|congruence]. Qed.

Lemma Dread_run h z dir es i b w :
  0 <= i → holds_dir h z (mkDirHandle dir es i) b →
  ∃ b' w', match es !! Z.to_nat i with
    | None => Dread h (b, w) = Ok (dir_end, (b', w')) ∧ holds_dir h z (mkDirHandle dir es i) b'
    | Some name => ∃ w1, Dread h (b, w) = Ok (entry_answer (listed z dir name w1), (b', w')) ∧
        holds_dir h z (mkDirHandle dir es (i + 1)) b'
    end.
Proof.
  intros Hi Hh. destruct (getDir_run h _ b w (proj1 Hh)) as (b1 & w1 & Hg & _ & Hs).
  pose proof (holds_dir_same _ _ _ _ _ Hs Hh) as [Hd Hc]. unfold Dread, mbind, bk_bind. rewrite Hg, bind_Ok.
  cbn [entries dh_index dirPath]. destruct (es !! Z.to_nat i) as [name|]; [|by exists b1, w1].
  unfold set_slot, modify, call. rewrite bind_Ok.
  set (b2 := b1 <| handles ::= _ |>). destruct (os_EntryInfo dir name w1) as [info w2] eqn:E. rewrite bind_Ok.
  exists b2, w2. exists w1. unfold listed. rewrite E.
  assert (holds_dir h z (mkDirHandle dir es (i + 1)) b2) as Hh2.
  { destruct (slot_at_lookup _ _ _ Hd) as [Hi' Hl]. split; [|exact Hc]. unfold b2.
    rewrite slot_at_insert by (done || by eapply lookup_lt_Some). by rewrite decide_True. }
  split; [|done]. destruct info as [info|e]; [|done]. unfold entry_stat, gets, mbind, bk_bind.
  rewrite bind_Ok. replace (enableCompression b2) with z by (symmetry; apply Hh2).
  destruct (z && _); [|done]. unfold observe.
  destruct (image_GetStat_total (Join dir name) (os_Image (Join dir name) w2)) as [[st|] ->]; by rewrite !bind_Ok.
Qed.

(** Enumerating from an index on. *)
Lemma dread_calls_run n h z dir es i b w :
  (i + n = length es)%nat → holds_dir h z (mkDirHandle dir es (Z.of_nat i)) b →
  ∃ rs b' w', dread_calls n h (b, w) = Ok (map entry_answer rs, (b', w')) ∧
    Forall2 (λ name e, ∃ w1, listed z dir name w1 = e) (drop i es) rs ∧
    holds_dir h z (mkDirHandle dir es (Z.of_nat (length es))) b'.
Proof.
  revert i b w. induction n as [|n IH]; intros i b w Hn Hh.
  { exists [], b, w. rewrite drop_ge by lia. split; [done|]. split; [constructor|].
    by replace (length es) with i by lia. }
  destruct (lookup_lt_is_Some_2 es i) as [name Hname]; [lia|].
  destruct (Dread_run h z dir es (Z.of_nat i) b w ltac:(lia) Hh) as (b1 & w1 & Hr). rewrite Nat2Z.id, Hname in Hr.
  destruct Hr as (w0 & Hr & Hh1). replace (Z.of_nat i + 1) with (Z.of_nat (S i)) in Hh1 by lia.
  destruct (IH (S i) b1 w1) as (rs & b' & w' & Hrs & Hf & Hh'); [lia|done|].
  exists (listed z dir name w0 :: rs), b', w'. erewrite (drop_S es) by done.
  cbn [dread_calls]. unfold mbind, bk_bind. rewrite Hr, bind_Ok, Hrs, bind_Ok.
  split; [done|]. split; [|done]. constructor; [by exists w0|done].
Qed.

Lemma dread_end_run n h z dir es b w :
  holds_dir h z (mkDirHandle dir es (Z.of_nat (length es))) b →
  ∃ b' w', dread_calls n h (b, w) = Ok (replicate n dir_end, (b', w')).
Proof.
  revert b w. induction n as [|n IH]; intros b w Hh; [by exists b, w|].
  destruct (Dread_run h z dir es (Z.of_nat (length es)) b w ltac:(lia) Hh) as (b1 & w1 & Hr).
  rewrite Nat2Z.id, lookup_ge_None_2 in Hr by done. destruct Hr as [Hr Hh1].
  destruct (IH b1 w1 Hh1) as (b' & w' & Hrs). exists b', w'. cbn [dread_calls]. unfold mbind, bk_bind.
  by rewrite Hr, bind_Ok, Hrs, bind_Ok.
Qed.
End Data.
