(* ===== verification/DataProperties.v ===== *)
(** * The properties of reads, writes, listings and shutdown of the backend *)
From stdpp Require Import gmap.
From S2P Require Import Prelude RdmaProtocol RdmaSession RdmaPack RdmaInvariant RdmaTimer RdmaReceive RdmaStep.
From S2P Require Import UdpfsProtocol UdpfsConnection UdpfsContract UdpfsProperties BlockCache CachedReader CompressedFile Cso GoPath CompressedImage CompressionProperties OsWorld Backend BackendLogic BackendInvariant BackendContract BackendData MemOs BackendProperties.

Section Writes.
Context {W : Type} `{OS W} `{Decoders}.
Implicit Types (b : Backend W) (w : W).

(** A write of the client's chunks.  All arrivals come before the write is completed;
    the handlers complete it at the first answer that is the last chunk's, and what
    arrives after that finds no write in progress and is refused. *)
Definition write_all (h : Z) (s : write_start) (chunks : list (list byte)) (js : list nat)
    : bk (list (bool * option go_error) * (Z * option go_error)) :=
  _ ← start_call h s;
  rs ← arrive h chunks js;
  r ← CompleteWrite h;
  mret (rs, r).

(** C15: a write in chunks puts exactly the client's data into the file.  However
    often and in whatever order the chunks of a started write arrive, as long as
    they contain the chunks in order somewhere: no chunk is refused, exactly one
    arrival is answered as the last, and completing the write makes one write call
    with the concatenation of the chunks, each once and in order; a block write
    seeks to its sector first and is cut to its number of sectors.  Nothing else
    happens to the system than reading the clock. *)
Theorem chunked_write_exact h ss s f chunks js b w :
  holds h ss f b → fh_readOnly f = false → (0 < length chunks)%nat → zlen chunks < 65536 →
  Forall (λ j, (j < length chunks)%nat) js → wanted 0 js = length chunks →
  (∀ nr count, s = BlockWrite nr count → 0 <= count ∧ 0 < ss) →
  ∃ rs w1 b',
    write_all h s chunks js (b, w) =
      Ok (rs, fst (finish h ss s f (concat chunks) w1), (b', snd (finish h ss s f (concat chunks) w1))) ∧
    ticks w w1 ∧ rs = answers (length chunks) 0 js ∧ length (List.filter fst rs) = 1%nat.
Proof.
  intros Hh Hro Hpos Hn Hjs Hw Hcount. unfold write_all, mbind, bk_bind.
  destruct (start_run h ss s f b w Hh Hro) as (b1 & w1 & -> & Ht1 & Hh1). rewrite bind_Ok.
  destruct (arrive_run h ss s f chunks js 0 b1 w1 Hn Hjs ltac:(lia) Hh1) as (b2 & w2 & -> & Ht2 & _ & Hh2).
  rewrite bind_Ok. cbv zeta in Hh2. rewrite Hw in Hh2. rewrite firstn_all in Hh2.
  destruct (CompleteWrite_run h ss s f _ _ (concat chunks) b2 w2 Hcount Hh2) as (w3 & b3 & Ht3 & ->).
  rewrite bind_Ok. exists (answers (length chunks) 0 js), w3, b3. split; [done|]. split; [|split; [done|]].
  - eapply ticks_trans; [exact Ht1|]. by eapply ticks_trans.
  - by apply answers_done.
Qed.
End Writes.

(** The small system with "a" open for writing as handle 1. *)
Definition ram_file : fileHandle MemOs.world := newFileHandle (PlainFile (str "/srv/a") 0%nat) false.
Definition ram_open : Backend MemOs.world := ram_backend <| handles ::= λ l, <[0%nat := Some (HFile ram_file)]> l |>.
Definition ram1 : MemOs.world := MemOs.mkWorld 0 (MemOs.files ram0) [Some (str "/srv/a", 0)].

Lemma ram_holds : holds 1 512 ram_file ram_open.
Proof. split; [lia|]. split; reflexivity. Qed.

(** Two chunks; the second arrives early, the first twice. *)
Lemma chunked_write_exact_witness :
  ∃ rs w1 b', write_all 1 PlainWrite [map z2b [7; 8]; map z2b [9]] [1; 0; 0; 1]%nat (ram_open, ram1) =
    Ok (rs, fst (finish 1 512 PlainWrite ram_file (map z2b [7; 8; 9]) w1),
        (b', snd (finish 1 512 PlainWrite ram_file (map z2b [7; 8; 9]) w1))) ∧
    rs = [(false, None); (false, None); (false, None); (true, None)].
Proof.
  destruct (chunked_write_exact 1 512 PlainWrite ram_file [map z2b [7; 8]; map z2b [9]] [1; 0; 0; 1]%nat ram_open ram1
    ram_holds eq_refl) as (rs & w1 & b' & Hr & _ & Hrs & _);
    [simpl; lia|reflexivity|repeat constructor; simpl; lia|reflexivity|discriminate|].
  exists rs, w1, b'. split; [exact Hr|]. rewrite Hrs. reflexivity.
Defined.

(** ** Reading images over the protocol *)

Section Images.
Context {W : Type} `{OS W} `{Decoders}.
Implicit Types (b : Backend W) (w : W).

(** A client reads the decompressed content of an image.  For a handle that
    holds an opened image of [content]: a READ_REQ is answered with the next bytes
    of the content, as many as were asked for and are left, and moves the position
    past them; a BREAD_REQ is answered with the bytes of the content from its sector
    on; neither fails, and the reply header carries the number of bytes. *)
Theorem image_requests ss content pos payload c b w :
  session_ok (sess c) → zlen content < 2 ^ 31 → 16 <= zlen payload →
  let h := handle_at payload in
  holds_image h ss content pos b → h ≠ BlockDeviceHandle →
  (le_at payload 8 4 <= dataBufferLen →
    let data := read_at pos (le_at payload 8 4) content in
    ∃ c' b' w', handleRead payload c (b, w) = Ok (zlen data, c', (b', w')) ∧
      send_reply (RRaw (PackResultReply (zlen data)) data) (sess c) = Ok (sess c') ∧ ticks w w' ∧
      holds_image h ss content (pos + zlen data) b') ∧
  (le_at payload 2 2 * 512 <= dataBufferLen →
    let start := Z.max 0 (Z.min (i64 (int64_at payload 8 * 512)) (zlen content)) in
    let data := read_at start (le_at payload 2 2 * 512) content in
    ∃ c' b' w', handleBread payload c (b, w) = Ok (zlen data, c', (b', w')) ∧
      send_reply (RRaw (PackResultReply (zlen data)) data) (sess c) = Ok (sess c') ∧ ticks w w' ∧
      holds_image h ss content (start + zlen data) b').
Proof.
  intros Hs Hc Hl h Hh Hne.
  assert (∀ p n, 0 <= zlen (read_at p n content) < 2 ^ 31) as Hz.
  { intros p n. unfold read_at, zlen in *. rewrite length_take, length_drop. lia. }
  assert (∀ d, 0 <= zlen d < 2 ^ 31 → ∃ c', SendReadResult (i32 (zlen d)) d c = Ok c' ∧
            send_reply (RRaw (PackResultReply (zlen d)) d) (sess c) = Ok (sess c')) as Hsend.
  { intros d Hd. assert (i32 (zlen d) = zlen d) as -> by (unfold i32; rewrite Z.mod_small; lia).
    destruct (SendRaw_ok (PackResultReply (zlen d)) d (sess c) Hs) as (s' & Hr & _).
    { unfold PackResultReply. autorewrite with golen. done. }
    exists (c <| sess := s' |>). unfold SendReadResult. rewrite Hr, bind_Ok. split; [done|exact Hr]. }
  split; intros Hb; cbv zeta.
  - pose proof (le_at_bound payload 8 4) as Hle.
    destruct (Read_image_run h ss content pos (le_at payload 8 4) dataBufferLen b w Hh) as (b' & w' & Hr & Ht & Hh');
      [lia|]. destruct (Hsend (read_at pos (le_at payload 8 4) content) (Hz _ _)) as (c' & Hc' & Hs').
    assert (i32 (zlen (read_at pos (le_at payload 8 4) content)) = zlen (read_at pos (le_at payload 8 4) content)) as Ei
      by (unfold i32; rewrite Z.mod_small; [lia|]; pose proof (Hz pos (le_at payload 8 4)); lia).
    exists c', b', w'. split; [|by split_and!].
    unfold handleRead. rewrite (proj2 (Z.ltb_ge _ _)) by lia. cbv zeta. fold h.
    unfold fs_call, backend_fs, backend_call. by rewrite Hr, bind_Ok, Hc', bind_Ok, Ei.
  - pose proof (le_at_bound payload 2 2) as Hle.
    destruct (Bread_image_run h ss content pos (int64_at payload 8) (le_at payload 2 2) dataBufferLen b w Hh Hne)
      as (b' & w' & Hr & Ht & Hh'); [lia|lia|].
    destruct (Hsend (read_at (Z.max 0 (Z.min (i64 (int64_at payload 8 * 512)) (zlen content)))
                       (le_at payload 2 2 * 512) content) (Hz _ _)) as (c' & Hc' & Hs').
    exists c', b', w'. split; [|by split_and!].
    unfold handleBread. rewrite (proj2 (Z.ltb_ge _ _)) by lia. cbv zeta. fold h.
    unfold fs_call, backend_fs, backend_call. by rewrite Hr, bind_Ok, Hc', bind_Ok.
Qed.
End Images.

(** A backend with the stored CSO file of the compression examples open as handle 1. *)
Definition image_handle : fileHandle MemOs.world :=
  newFileHandle (ImageFile (NewCachedReader (RCso (cso_opened 4 Stored.content Stored.blocks Stored.cso_file)) 2 zeroInfo)) true.
Definition image_backend : Backend MemOs.world :=
  ram_backend <| handles ::= λ l, <[0%nat := Some (HFile image_handle)]> l |>.

Lemma image_backend_holds : holds_image 1 512 Stored.content 0 image_backend.
Proof.
  exists image_handle. eexists. split; [split; [lia|split; reflexivity]|]. split; [reflexivity|].
  split; [|reflexivity]. apply NewCachedReader_ok. apply cso_image_represents; try done. exact Stored.cso_blocks.
Qed.

(** READ_REQ of four bytes of handle 1, and BREAD_REQ of one sector from sector 0. *)
Definition read_4 : list byte := map z2b [20; 0; 0; 0; 1; 0; 0; 0; 4; 0; 0; 0; 0; 0; 0; 0].
Definition bread_1 : list byte := map z2b [40; 0; 1; 0; 1; 0; 0; 0; 0; 0; 0; 0; 0; 0; 0; 0].

Lemma image_requests_witness :
  (∃ c' b' w', handleRead read_4 Echo.conn (image_backend, ram0) = Ok (4, c', (b', w')) ∧
     send_reply (RRaw (PackResultReply 4) (map z2b [1; 2; 3; 4])) (sess Echo.conn) = Ok (sess c')) ∧
  (∃ c' b' w', handleBread bread_1 Echo.conn (image_backend, ram0) = Ok (6, c', (b', w')) ∧
     send_reply (RRaw (PackResultReply 6) Stored.content) (sess Echo.conn) = Ok (sess c')).
Proof.
  destruct Echo.conn_ok as [Hs _].
  assert (zlen Stored.content < 2 ^ 31) as Hc by (vm_compute; reflexivity). split.
  - destruct (proj1 (image_requests 512 Stored.content 0 read_4 Echo.conn image_backend ram0 Hs Hc
      ltac:(vm_compute; discriminate) image_backend_holds ltac:(discriminate)) ltac:(vm_compute; discriminate))
      as (c' & b' & w' & H1 & H2 & _).
    exists c', b', w'. split; [exact H1|exact H2].
  - destruct (proj2 (image_requests 512 Stored.content 0 bread_1 Echo.conn image_backend ram0 Hs Hc
      ltac:(vm_compute; discriminate) image_backend_holds ltac:(discriminate)) ltac:(vm_compute; discriminate))
      as (c' & b' & w' & H1 & H2 & _).
    exists c', b', w'. split; [exact H1|exact H2].
Defined.

(** ** Directory listings *)

Section Listings.
Context {W : Type} `{OS W} `{Decoders}.
Implicit Types (b : Backend W) (w : W).

Lemma dread_calls_app n m h rs rs' b w b1 w1 s2 :
  dread_calls n h (b, w) = Ok (rs, (b1, w1)) → dread_calls m h (b1, w1) = Ok (rs', s2) →
  dread_calls (n + m) h (b, w) = Ok (rs ++ rs', s2).
Proof.
  revert b w rs. induction n as [|n IH]; intros b w rs; simpl.
  { by intros [= <- <- <-] Hm. }
  unfold mbind, bk_bind. destruct (Dread h (b, w)) as [[r [b2 w2]]| |]; [|done..]. rewrite !bind_Ok.
  destruct (dread_calls n h (b2, w2)) as [[rs2 [b3 w3]]| |] eqn:E; [|done..]. rewrite bind_Ok.
  intros [= <- <- <-] Hm. by rewrite (IH b2 w2 rs2 E Hm), bind_Ok.
Qed.

(** A directory is listed completely, each entry once, in the order in which
    the system gave them, and after them every further DREAD is answered with the
    end of the directory.  (An entry that is not listed gets the same answer as the
    end of the directory, although more may follow.) *)
Theorem dread_enumerates n h z dir es b w :
  holds_dir h z (mkDirHandle dir es 0) b →
  ∃ rs b' w',
    dread_calls (length es + n) h (b, w) = Ok (map entry_answer rs ++ replicate n dir_end, (b', w')) ∧
    Forall2 (λ name e, ∃ w1, listed z dir name w1 = e) es rs.
Proof.
  intros Hh. destruct (dread_calls_run (length es) h z dir es 0 b w eq_refl Hh) as (rs & b1 & w1 & Hr & Hf & Hh1).
  destruct (dread_end_run n h z dir es b1 w1 Hh1) as (b2 & w2 & Hr2). rewrite drop_0 in *.
  exists rs, b2, w2. split; [|exact Hf]. by eapply dread_calls_app.
Qed.
End Listings.

(** ** Shutdown *)

Section Shutdown.
Context {W : Type} `{OSL : OSLaws W} `{Decoders}.
Implicit Types (b : Backend W) (w : W).

Lemma freeHandle_run ss h b w :
  backend_ok ss b w → 1 <= h <= 64 →
  ∃ b' w', freeHandle h (b, w) = Ok (true, (b', w')) ∧ backend_ok ss b' w' ∧
    ∀ i, slot_at b' i = if decide (i = h - 1) then None else slot_at b i.
Proof.
  intros Hb Hh. unfold freeHandle, BlockDeviceHandle. rewrite (proj2 (Z.eqb_neq h 0)) by lia.
  assert (∀ i, handles b !! Z.to_nat i = None → 64 <= i ∨ i < 0) as Hout.
  { intros i Hi. apply lookup_ge_None in Hi. rewrite (bo_handles _ _ _ Hb) in Hi. lia. }
  destruct (handles b !! Z.to_nat (h - 1)) as [x|] eqn:Ex; [|destruct (Hout _ Ex); lia].
  unfold mbind, bk_bind. rewrite (slot_run (h - 1) b w x ltac:(lia) Ex), bind_Ok.
  destruct x as [old|]; last first.
  { exists b, w. split; [done|]. split; [done|]. intros i. case_decide as Hi; [subst i|done].
    unfold slot_at. by rewrite (proj2 (Z.ltb_ge _ _)), Ex by lia. }
  assert (slot_at b (h - 1) = Some old) as Hs.
  { unfold slot_at. by rewrite (proj2 (Z.ltb_ge _ _)), Ex by lia. }
  destruct (wp_handle_Close old (λ _ s, s = (b, close_world old w)) b w eq_refl) as (u & s' & -> & ->).
  rewrite bind_Ok. eexists _, _. split; [done|]. split; [by apply bo_close; [lia|..]|].
  intros i. by rewrite slot_at_insert by (rewrite ?(bo_handles _ _ _ Hb); lia).
Qed.

Lemma free_each_run (n : nat) fd ss b w :
  backend_ok ss b w → 1 <= fd → fd + Z.of_nat n <= 65 →
  ∃ b' w', free_each n fd (b, w) = Ok ((), (b', w')) ∧ backend_ok ss b' w' ∧
    ∀ i, slot_at b' i = if decide (fd - 1 <= i < fd - 1 + Z.of_nat n) then None else slot_at b i.
Proof.
  revert fd b w. induction n as [|n IH]; intros fd b w Hb Hfd Hn.
  { exists b, w. split; [done|]. split; [done|]. intros i. by rewrite decide_False by lia. }
  destruct (freeHandle_run ss fd b w Hb ltac:(lia)) as (b1 & w1 & Hr & Hb1 & Hs1).
  destruct (IH (fd + 1) b1 w1 Hb1) as (b2 & w2 & Hr2 & Hb2 & Hs2); [lia..|].
  exists b2, w2. cbn [free_each]. unfold mbind, bk_bind. rewrite Hr, bind_Ok, Hr2.
  split; [done|]. split; [done|]. intros i. rewrite Hs2, Hs1. repeat case_decide; (done || lia).
Qed.

(** Shutting down does not close the last handle.  The loop of Shutdown runs
    over the indices 0 to 63 of the table and frees them as handles, which are
    numbered from 1: slots 0 to 62 are closed and cleared, slot 63 is left as it
    was, and a file in it is still open afterwards. *)
Theorem shutdown_spares_last ss b w :
  backend_ok ss b w →
  ∃ b' w', Shutdown (b, w) = Ok ((), (b', w')) ∧
    (∀ i, 0 <= i < 63 → slot_at b' i = None) ∧ slot_at b' 63 = slot_at b 63 ∧
    ∀ f g, slot_at b 63 = Some (HFile f) → plain f = Some g → os_isopen g w'.
Proof.
  intros Hb. destruct (free_each_run 63 1 ss b w Hb ltac:(lia) ltac:(lia)) as (b' & w' & Hr & Hb' & Hs).
  exists b', w'. split; [exact Hr|]. split; [intros i Hi; by rewrite Hs, decide_True by lia|].
  assert (slot_at b' 63 = slot_at b 63) as E by (by rewrite Hs, decide_False by lia). split; [exact E|].
  intros f g Hf Hg. apply (bo_files _ _ _ Hb' (RefSlot 63) f); [|done]. unfold file_at. by rewrite E, Hf.
Qed.
End Shutdown.

(** The directory of the small system as handle 1. *)
Definition ram_dir : Backend MemOs.world :=
  ram_backend <| handles ::= λ l, <[0%nat := Some (HDir (mkDirHandle MemOs.root [str "a"; str "b"] 0))]> l |>.

Lemma dread_enumerates_witness :
  ∃ rs b' w', dread_calls 3 1 (ram_dir, ram0) = Ok (map entry_answer rs ++ [dir_end], (b', w')) ∧ length rs = 2%nat.
Proof.
  destruct (dread_enumerates 1 1 false MemOs.root [str "a"; str "b"] ram_dir ram0) as (rs & b' & w' & Hr & Hf);
    [split; reflexivity|]. exists rs, b', w'. split; [exact Hr|]. by apply Forall2_length in Hf.
Defined.

Lemma shutdown_spares_last_witness :
  ∃ b' w', Shutdown (ram_backend, ram0) = Ok ((), (b', w')) ∧ slot_at b' 63 = None.
Proof.
  destruct (shutdown_spares_last 512 ram_backend ram0 (ram_ok ram0)) as (b' & w' & Hr & _ & Hs & _).
  exists b', w'. split; [exact Hr|]. rewrite Hs. reflexivity.
Defined.
