(* ===== verification/ServerMetrics.v ===== *)
(** * Peers and their statistics (internal/udpfsd/server.go: peer, metrics.go)

    What the server keeps for a peer, and the text that printPeerStats prints for
    it.  The order in which Go walks a map is not specified: the order of each loop
    is a parameter.  A point in time is printed in the local time zone, which is not
    known here: it stays a point in time in the text. *)
From stdpp Require Import gmap.
From S2P Require Import Prelude GoFloat GoPath GoText GoTime RdmaSession UdpfsProtocol UdpfsConnection.

(** An IPv4 address and port. *)
Definition AddrPort : Type := Z * Z.

(** [AddrPort.String] *)
Definition AddrPort_String (a : AddrPort) : path :=
  let octet n := natural (Z.shiftr (fst a) n mod 256) in
  octet 24 ++ [dot] ++ octet 16 ++ [dot] ++ octet 8 ++ [dot] ++ octet 0 ++ [colon] ++ natural (snd a).

(** Times are in nanoseconds. *)
Record peer := mkPeer { p_conn : Connection; lastSeen : Z }.

(** A piece of output: text, or a time in the format of [time.DateTime]. *)
Inductive chunk :=
| Text (t : path)
| DateTime (t : Z).

Definition nl : path := [Byte.x0a].

(** ** Quantities *)

Definition kb : float64 := float64_of 1024.
Definition mb : float64 := float64_of (1024 * 1024).
Definition gb : float64 := float64_of (1024 * 1024 * 1024).

Definition formatBytes (bytes : Z) : path :=
  if bytes <? 1024 then Itoa bytes ++ str " B"
  else if bytes <? 1024 * 1024 then fmt_fixed 1 (float64_div (float64_of bytes) kb) ++ str " KB"
  else if bytes <? 1024 * 1024 * 1024 then fmt_fixed 2 (float64_div (float64_of bytes) mb) ++ str " MB"
  else fmt_fixed 3 (float64_div (float64_of bytes) gb) ++ str " GB".

Definition formatRate (rate : float64) : path :=
  if SFltb rate kb then fmt_fixed 0 rate ++ str " B/s"
  else if SFltb rate mb then fmt_fixed 1 (float64_div rate kb) ++ str " KB/s"
  else fmt_fixed 2 (float64_div rate mb) ++ str " MB/s".

(** ** A peer *)

(** A loop over a map, in the order of [order]. *)
Definition range_map (order : list Z) (m : gmap Z Z) : list (Z * Z) :=
  omap (λ k, pair k <$> m !! k) order.

(** The orders of the loop over the commands and of the two over the errors. *)
Record stat_orders := mkOrders {
  so_commands : list Z;
  so_errors : list Z;
  so_lines : list Z
}.

Definition count_line (kv : Z * Z) : path := MsgType_String (fst kv) ++ str ": " ++ Itoa (snd kv).

Definition command_lines (order : list Z) (m : gmap Z Z) : list path :=
  map count_line (filter (λ kv, 0 < snd kv) (range_map order m)).

Definition error_total (order : list Z) (m : gmap Z Z) : Z :=
  foldl (λ n kv, i64 (n + snd kv)) 0 (range_map order m).

Definition error_lines (order : list Z) (m : gmap Z Z) : list chunk :=
  map (λ kv, Text ([Byte.x09] ++ count_line kv ++ nl)) (filter (λ kv, 0 < snd kv) (range_map order m)).

Definition stats_header (addr : path) (p : peer) (cmdLines : list path) : list chunk :=
  [Text (nl ++ str "=== Peer: " ++ addr ++ str " ===" ++ nl ++ str "Last seen: "); DateTime (lastSeen p); Text nl;
   Text (str "Commands: " ++ Join cmdLines (str ", ") ++ nl)].

Definition stats_footer (udpfsMetrics : ConnectionStats) (udprdmaMetrics : SessionStats) : list chunk :=
  [Text (nl ++
     str "Read:  " ++ formatBytes (BytesTx udpfsMetrics) ++ str " @ " ++ formatRate (AvgTxThroughput udpfsMetrics) ++ nl ++
     str "Write: " ++ formatBytes (BytesRx udpfsMetrics) ++ str " @ " ++ formatRate (AvgRxThroughput udpfsMetrics) ++ nl ++
     str "Total UDPRDMA packets: RX: " ++ Itoa (TotalPacketsRx udprdmaMetrics) ++
     str ", TX: " ++ Itoa (TotalPacketsTx udprdmaMetrics) ++ nl ++
     str "Peer resets: " ++ Itoa (PeerResetCount udprdmaMetrics) ++
     str ", Peer NACKs: " ++ Itoa (PeerNACKCount udprdmaMetrics) ++ nl ++
     str "Retransmits: " ++ Itoa (Retransmits udprdmaMetrics) ++
     str ", NACKs: " ++ Itoa (NACKCount udprdmaMetrics) ++
     str ", Out-of-order packets: " ++ Itoa (UnexpectedSeqNrCount udprdmaMetrics) ++ nl)].

Definition printPeerStats (o : stat_orders) (addr : path) (p : peer) : outcome (list chunk) :=
  udpfsMetrics ← Connection_GetMetrics (p_conn p);
  let udprdmaMetrics := GetMetrics (sess (p_conn p)) in
  let cmdLines := sort_Strings (command_lines (so_commands o) (CommandCounts udpfsMetrics)) in
  let errCount := error_total (so_errors o) (ErrorCounts udpfsMetrics) in
  Ok (stats_header addr p cmdLines ++
      (if 0 <? errCount then
         Text (str "Errors: " ++ Itoa errCount ++ str " total" ++ nl) ::
         error_lines (so_lines o) (ErrorCounts udpfsMetrics)
       else []) ++
      stats_footer udpfsMetrics udprdmaMetrics).

(** ** What does not depend on the order of the loops *)

Lemma range_map_Permutation order order' m : order ≡ₚ order' → range_map order m ≡ₚ range_map order' m.
Proof. intros Hp. unfold range_map. by rewrite Hp. Qed.

Lemma command_lines_sorted order order' m :
  order ≡ₚ order' → sort_Strings (command_lines order m) = sort_Strings (command_lines order' m).
Proof.
  intros Hp. apply sort_Strings_Permutation. unfold command_lines.
  by rewrite (range_map_Permutation order order').
Qed.

Lemma i64_add_l a b : i64 (i64 a + b) = i64 (a + b).
Proof.
  unfold i64. f_equal.
  replace ((a + 2 ^ 63) mod 2 ^ 64 - 2 ^ 63 + b + 2 ^ 63) with ((a + 2 ^ 63) mod 2 ^ 64 + b) by lia.
  rewrite Zplus_mod_idemp_l. f_equal. lia.
Qed.

Definition sum_counts (l : list (Z * Z)) : Z := foldr (λ kv n, snd kv + n) 0 l.

Lemma error_total_sum order m : error_total order m = i64 (sum_counts (range_map order m)).
Proof.
  unfold error_total. assert (∀ l n, foldl (λ n kv, i64 (n + snd kv)) (i64 n) l = i64 (n + sum_counts l)) as Hl.
  { induction l as [|[k v] l IH]; intros n; cbn [foldl sum_counts foldr snd]; [f_equal; lia|].
    rewrite i64_add_l, IH. f_equal. unfold sum_counts. lia. }
  change 0 with (i64 0) at 1. by rewrite Hl.
Qed.

Lemma sum_counts_Permutation l l' : l ≡ₚ l' → sum_counts l = sum_counts l'.
Proof. induction 1; cbn [sum_counts foldr]; unfold sum_counts in *; lia. Qed.

Lemma error_total_order order order' m : order ≡ₚ order' → error_total order m = error_total order' m.
Proof.
  intros Hp. rewrite !error_total_sum. f_equal. by apply sum_counts_Permutation, range_map_Permutation.
Qed.
