(* ===== verification/Server.v ===== *)
(** * The server (internal/udpfsd: server.go, data.go, discovery.go)

    One file system, one connection per peer address, and the goroutines that work
    on them: the discovery and data handlers, the cleanup and metrics tickers, and
    the ACK timers of the sessions.  The server's mutex covers the table of peers
    only: a packet is processed after the mutex is released.  The data handler goes
    through three steps with a datagram (the peer is looked up, the session takes the
    packet, the request is handled), and steps of the other goroutines fall between
    them. *)
From stdpp Require Import gmap.
From S2P Require Import Prelude RdmaProtocol RdmaSession RdmaWire GoPath GoText UdpfsProtocol UdpfsConnection.
From S2P Require Export GoTime ServerMetrics.

Definition defaultPeerTimeout : Z := 3600 * second.
Definition metricsLoggingPeriod_default : Z := 60 * second.

(** A socket: its address, and whether it has been closed. *)
Record UDPConn := mkConn { conn_local : AddrPort; conn_closed : bool }.

(** [hasFS] says whether a file system has been set, whose state is passed along. *)
Record Server := mkServer {
  startTime : Z;
  peerTimeout : Z;
  hasFS : bool;
  discConn : option UDPConn;
  dataConn : option UDPConn;
  cMap : gmap AddrPort peer;
  bindIP : list byte;
  wg : Z;
  port : Z;
  metricsLoggingPeriod : Z;
  verbose : bool;
  logMetrics : bool
}.

Definition eta_server (s : Server) : Server :=
  mkServer (startTime s) (peerTimeout s) (hasFS s) (discConn s) (dataConn s) (cMap s) (bindIP s) (wg s) (port s)
    (metricsLoggingPeriod s) (verbose s) (logMetrics s).

#[export] Instance set_startTime : Setter startTime := ltac:(mk_setter eta_server startTime).
#[export] Instance set_peerTimeout : Setter peerTimeout := ltac:(mk_setter eta_server peerTimeout).
#[export] Instance set_hasFS : Setter hasFS := ltac:(mk_setter eta_server hasFS).
#[export] Instance set_discConn : Setter discConn := ltac:(mk_setter eta_server discConn).
#[export] Instance set_dataConn : Setter dataConn := ltac:(mk_setter eta_server dataConn).
#[export] Instance set_cMap : Setter cMap := ltac:(mk_setter eta_server cMap).
#[export] Instance set_bindIP : Setter bindIP := ltac:(mk_setter eta_server bindIP).
#[export] Instance set_wg : Setter wg := ltac:(mk_setter eta_server wg).
#[export] Instance set_port : Setter port := ltac:(mk_setter eta_server port).
#[export] Instance set_metricsLoggingPeriod : Setter metricsLoggingPeriod :=
  ltac:(mk_setter eta_server metricsLoggingPeriod).
#[export] Instance set_verbose : Setter verbose := ltac:(mk_setter eta_server verbose).
#[export] Instance set_logMetrics : Setter logMetrics := ltac:(mk_setter eta_server logMetrics).

(** ** Options *)

Definition WithDiscoveryPort (p : Z) (s : Server) : Server :=
  if negb (p =? 0) then s <| port := p |> else s.
Definition WithDataIP (ip : list byte) (s : Server) : Server :=
  if negb (bool_decide (ip = [])) then s <| bindIP := ip |> else s.
Definition WithVerbose (s : Server) : Server := s <| verbose := true |>.
Definition WithFS (fs : bool) (s : Server) : Server := if fs then s <| hasFS := true |> else s.
Definition WithMetrics (loggingPeriod : Z) (s : Server) : Server :=
  let s := if 0 <? loggingPeriod then s <| metricsLoggingPeriod := loggingPeriod |> else s in
  s <| logMetrics := true |>.
Definition WithPeerTimeout (timeout : Z) (s : Server) : Server :=
  if 0 <? timeout then s <| peerTimeout := timeout |> else s.

(** New fails when no file system has been set. *)
Definition New (opts : list (Server → Server)) : option Server :=
  let s := mkServer 0 defaultPeerTimeout false None None ∅ [] 0 UDPFSPort metricsLoggingPeriod_default false false in
  let s := foldl (λ s f, f s) s opts in
  if negb (hasFS s) then None else Some s.

(** ** Start and Close *)

(** The sockets of the host: what [ListenPacket], [ResolveUDPAddr] and [ListenUDP]
    return for "udp4", without a result when they fail.  [ListenPacket] returns an
    interface, behind which there is a [*net.UDPConn] or not. *)
Class Net := {
  net_ListenPacket : path → option (option UDPConn);
  net_ResolveUDPAddr : path → option AddrPort;
  net_ListenUDP : AddrPort → option UDPConn
}.

Inductive start_error := ListenFailed | NotUDPConn | ResolveFailed | DataListenFailed.

(** The address of the data socket: a bind address without a port gets port 0. *)
Definition data_address (ip : path) : path :=
  if negb (bool_decide (ip = [])) then
    match SplitHostPort ip with
    | None => JoinHostPort ip (str "0")
    | Some _ => ip
    end
  else str ":0".

Definition Start `{Net} (now : Z) (s : Server) : option start_error * Server :=
  match net_ListenPacket (str ":" ++ Itoa (port s)) with
  | None => (Some ListenFailed, s)
  | Some None => (Some NotUDPConn, s <| discConn := None |>)
  | Some (Some conn) =>
      let s := s <| discConn := Some conn |> in
      let s := s <| bindIP ::= data_address |> in
      match net_ResolveUDPAddr (bindIP s) with
      | None => (Some ResolveFailed, s)
      | Some dataUDP =>
          match net_ListenUDP dataUDP with
          | None => (Some DataListenFailed, s <| dataConn := None |>)
          | Some conn =>
              let s := s <| dataConn := Some conn |> in
              let s := s <| startTime := now |> in
              (None, s <| wg ::= λ n, n + 2 |>)
          end
      end
  end.

Definition close_conn (c : UDPConn) : UDPConn := mkConn (conn_local c) true.
Definition is_open (c : option UDPConn) : bool :=
  match c with
  | Some c => negb (conn_closed c)
  | None => false
  end.

(** Close closes both sockets and then waits until [wg] is down to 0. *)
Definition Server_Close (s : Server) : Server :=
  let s := s <| dataConn ::= fmap close_conn |> in
  s <| discConn ::= fmap close_conn |>.

(** [wg.Done()] *)
Definition wg_Done (s : Server) : outcome Server :=
  if wg s <=? 0 then Panic NegativeWaitGroup else Ok (s <| wg ::= λ n, n - 1 |>).

(** ** Discovery (discovery.go) *)

(** Both handlers read into a buffer of this size; a longer datagram is cut. *)
Definition readBufferLen : Z := 2048.
Definition read_datagram (data : list byte) : list byte := take (Z.to_nat readBufferLen) data.

(** The reply to a datagram on the discovery socket, sent from the data socket. *)
Definition discovery_reply_to (data : list byte) : option (list byte) :=
  let data := read_datagram data in
  if zlen data <? 6 then None
  else match ProcessDiscoveryPacket data Service_UDPFS with
       | Val reply => Some reply
       | Err _ => None
       end.

(** ** Data (data.go) *)

(** The first half of handleData: the peer of an address, new or known. *)
Definition lookup_peer (now : Z) (a : AddrPort) (s : Server) : Server :=
  let p :=
    match cMap s !! a with
    | None => mkPeer (NewConnection NewSession (verbose s) (logMetrics s)) now
    | Some p => mkPeer (p_conn p) now
    end in
  s <| cMap ::= λ m, <[a := p]> m |>.

(** The calls of the reset callback between two states of a session. *)
Definition reset_calls (s s' : Session) : nat := (length (resets s') - length (resets s))%nat.

Section Server.
Context {W : Type} `{FS W}.

Fixpoint reset_peer (n : nat) (order : list Z) (c : Connection) (w : W) : outcome (Connection * W) :=
  match n with
  | O => Ok (c, w)
  | S n => '(c, w) ← ResetPeer order c w; reset_peer n order c w
  end.

(** The session processes a packet and calls the connection back when its peer has
    been reset; [order] is the order of the callback's loop over the handles. *)
Definition receive_packet (order : list Z) (data : list byte) (c : Connection) (w : W)
    : outcome (option (list byte) * Connection * W) :=
  '(r, s) ← ProcessDataPacket data (sess c);
  '(c, w) ← reset_peer (reset_calls (sess c) s) order (c <| sess := s |>) w;
  match r with
  | Err _ => Ok (None, c, w)
  | Val payload => Ok (payload, c, w)
  end.

(** The rest of handleData, from the connection on: the packet and then the request
    in it, if there is one.  [order'] is the order of the handler's loop. *)
Definition receive (order order' : list Z) (now : Z) (data : list byte) (c : Connection) (w : W)
    : outcome (Connection * W) :=
  '(payload, c, w) ← receive_packet order data c w;
  match payload with
  | None => Ok (c, w)
  | Some payload => HandlePayload order' now payload c w
  end.

(** A call on the connection of a peer.  A peer that cleanup has removed has none. *)
Definition on_peer {A} (a : AddrPort) (f : Connection → W → outcome (A * Connection * W)) (s : Server) (w : W)
    : outcome (A * Server * W) :=
  match cMap s !! a with
  | None => Panic NilDereference
  | Some p =>
      '(x, c, w) ← f (p_conn p) w;
      Ok (x, s <| cMap ::= λ m, <[a := mkPeer c (lastSeen p)]> m |>, w)
  end.

Definition handle_payload (order : list Z) (now : Z) (payload : list byte) (c : Connection) (w : W)
    : outcome (unit * Connection * W) :=
  '(c, w) ← HandlePayload order now payload c w;
  Ok (tt, c, w).

(** handleData without interruption. *)
Definition handleData (order order' : list Z) (now : Z) (a : AddrPort) (data : list byte) (s : Server) (w : W)
    : outcome (Server * W) :=
  '(payload, s, w) ← on_peer a (receive_packet order data) (lookup_peer now a s) w;
  match payload with
  | None => Ok (s, w)
  | Some payload =>
      '(_, s, w) ← on_peer a (handle_payload order' now payload) s w;
      Ok (s, w)
  end.

(** ** Cleanup (server.go)

    The peers in the order in which the loop visits them, each with the time of the
    visit and the order of the loop over its handles. *)
Fixpoint cleanup (visits : list (AddrPort * Z * list Z)) (s : Server) (w : W) : outcome (Server * W) :=
  match visits with
  | [] => Ok (s, w)
  | (a, now, order) :: visits =>
      match cMap s !! a with
      | None => cleanup visits s w
      | Some p =>
          if peerTimeout s <=? now - lastSeen p then
            '(_, w) ← Connection_Close order (p_conn p) w;
            cleanup visits (s <| cMap ::= λ m, delete a m |>) w
          else cleanup visits s w
      end
  end.

(** ** Metrics (server.go)

    The text that metricsLogger prints at a tick: the peers in the order in which the
    loop visits them, each with the orders of the loops over its counters. *)
Fixpoint peer_stats (visits : list (AddrPort * stat_orders)) (s : Server) : outcome (list chunk) :=
  match visits with
  | [] => Ok []
  | (a, o) :: visits =>
      match cMap s !! a with
      | None => peer_stats visits s
      | Some p =>
          text ← printPeerStats o (AddrPort_String a) p;
          rest ← peer_stats visits s;
          Ok (text ++ rest)
      end
  end.

Definition metricsLogger (now : Z) (visits : list (AddrPort * stat_orders)) (s : Server) : outcome (list chunk) :=
  text ← peer_stats visits s;
  Ok ([Text (nl ++ str "========== Server statistics ("); DateTime now;
       Text (str ") ==========" ++ nl ++ str "Uptime: " ++
             Duration_String (Duration_Round (now - startTime s) second) ++ nl)] ++
      text ++ [Text (replicate 61 (z2b 61) ++ nl)]).

(** The ACK timer of a peer's session expires. *)
Definition peer_timer (a : AddrPort) (s : Server) : outcome Server :=
  match cMap s !! a with
  | None => Ok s
  | Some p =>
      sess' ← step OpTimer (sess (p_conn p));
      Ok (s <| cMap ::= λ m, <[a := mkPeer (p_conn p <| sess := sess' |>) (lastSeen p)]> m |>)
  end.

(** ** Interleavings

    The place of the data handler: it waits for a datagram, it has looked up the peer
    of one, the session has returned the payload of a request, or it has returned. *)
Inductive data_job :=
| Reading
| Received (a : AddrPort) (data : list byte)
| Handling (a : AddrPort) (payload : list byte)
| Returned.

(** The peer whose connection the data handler is using. *)
Definition busy_with (j : data_job) : option AddrPort :=
  match j with
  | Received a _ | Handling a _ => Some a
  | Reading | Returned => None
  end.

(** The steps: a datagram on the discovery socket; one on the data socket, up to the
    lookup of its peer; its packet; its request; a tick of cleanup; a tick of the
    metrics logger; the expiry of an ACK timer; the program closes the server; and
    each handler finds its socket closed. *)
Inductive event :=
| EvDiscovery (a : AddrPort) (data : list byte)
| EvArrive (now : Z) (a : AddrPort) (data : list byte)
| EvReceive (order : list Z)
| EvHandle (order : list Z) (now : Z)
| EvCleanup (visits : list (AddrPort * Z * list Z))
| EvMetrics (now : Z) (visits : list (AddrPort * stat_orders))
| EvTimer (a : AddrPort)
| EvClose
| EvDiscoveryExit
| EvDataExit.

(** [job] and [discovering] are where the two handlers are; [replies] are the
    discovery replies sent, [printed] what the metrics logger has printed. *)
Record state := mkState {
  server : Server;
  world : W;
  job : data_job;
  discovering : bool;
  replies : list (AddrPort * list byte);
  printed : list chunk
}.

(** The goroutines of a server that has been started. *)
Definition started (s : Server) (w : W) : state := mkState s w Reading true [] [].

Definition set_server (s : Server) (w : W) (st : state) : state :=
  mkState s w (job st) (discovering st) (replies st) (printed st).
Definition set_job (j : data_job) (st : state) : state :=
  mkState (server st) (world st) j (discovering st) (replies st) (printed st).

(** One turn of the loop of discoveryHandler: it gets a datagram, or, without one, finds
    its socket closed and returns.  The reply is sent from the data socket, if that is
    still open. *)
Definition discoveryHandler (read : option (AddrPort * list byte)) (st : state) : outcome state :=
  let s := server st in
  match read with
  | Some (a, data) =>
      if discovering st && is_open (discConn s) then
        Ok (match discovery_reply_to data with
            | Some r =>
                if is_open (dataConn s)
                then mkState s (world st) (job st) (discovering st) (replies st ++ [(a, r)]) (printed st)
                else st
            | None => st
            end)
      else Ok st
  | None =>
      if discovering st && negb (is_open (discConn s)) then
        s ← wg_Done s;
        Ok (mkState s (world st) (job st) false (replies st) (printed st))
      else Ok st
  end.

(** The same of dataHandler, up to the lookup of the datagram's peer.  One goroutine
    reads the data socket: nothing arrives while it is busy.  A datagram of less than
    six bytes is dropped. *)
Definition dataHandler (read : option (Z * AddrPort * list byte)) (st : state) : outcome state :=
  let s := server st in
  match job st with
  | Reading =>
      match read with
      | Some (now, a, data) =>
          let data := read_datagram data in
          if negb (is_open (dataConn s)) || (zlen data <? 6) then Ok st
          else Ok (set_job (Received a data) (set_server (lookup_peer now a s) (world st) st))
      | None =>
          if negb (is_open (dataConn s)) then
            s ← wg_Done s;
            Ok (set_job Returned (set_server s (world st) st))
          else Ok st
      end
  | _ => Ok st
  end.

Definition server_step (e : event) (st : state) : outcome state :=
  let s := server st in
  match e with
  | EvDiscovery a data => discoveryHandler (Some (a, data)) st
  | EvArrive now a data => dataHandler (Some (now, a, data)) st
  | EvReceive order =>
      match job st with
      | Received a data =>
          '(payload, s, w) ← on_peer a (receive_packet order data) s (world st);
          Ok (set_job (match payload with
                       | Some payload => Handling a payload
                       | None => Reading
                       end) (set_server s w st))
      | _ => Ok st
      end
  | EvHandle order now =>
      match job st with
      | Handling a payload =>
          '(_, s, w) ← on_peer a (handle_payload order now payload) s (world st);
          Ok (set_job Reading (set_server s w st))
      | _ => Ok st
      end
  | EvCleanup visits =>
      '(s, w) ← cleanup visits s (world st);
      Ok (set_server s w st)
  | EvMetrics now visits =>
      if logMetrics s then
        text ← metricsLogger now visits s;
        Ok (mkState s (world st) (job st) (discovering st) (replies st) (printed st ++ text))
      else Ok st
  | EvTimer a =>
      s ← peer_timer a s;
      Ok (set_server s (world st) st)
  | EvClose => Ok (set_server (Server_Close s) (world st) st)
  | EvDiscoveryExit => discoveryHandler None st
  | EvDataExit => dataHandler None st
  end.

Fixpoint server_run (es : list event) (st : state) : outcome state :=
  match es with
  | [] => Ok st
  | e :: es => st ← server_step e st; server_run es st
  end.
End Server.
Arguments state : clear implicits.
