(* ===== verification/ServerContract.v ===== *)
(** * The server keeps its invariant

    What a datagram does to a connection, on every branch, and that every step of
    the server runs without a panic when the file system keeps its contract. *)
From stdpp Require Import gmap.
From S2P Require Import Prelude RdmaProtocol RdmaSession RdmaPack RdmaInvariant RdmaTimer RdmaReceive RdmaWire RdmaStep.
From S2P Require Import UdpfsProtocol UdpfsConnection UdpfsContract UdpfsFrame Server.

Section Contract.
Context {W : Type} `{HW : FSContract W}.

(** A connection of the server: its session calls back on a peer reset. *)
Record connection_ok (c : Connection) : Prop := {
  co_sess : session_ok (sess c);
  co_handles : handles_ok c;
  co_callback : resetCallback (sess c) = true
}.

(** The request in a datagram, if any, is one that the file system accepts. *)
Definition datagram_ok (data : list byte) : Prop :=
  match parse_packet data with
  | Some p => request_ok (dp_payload p)
  | None => True
  end.

Lemma set_sess_id c : c <| sess := sess c |> = c.
Proof. by destruct c. Qed.

Lemma connection_ok_sess c s :
  connection_ok c → session_ok s → resetCallback s = true → connection_ok (c <| sess := s |>).
Proof. intros [_ [Hu Hw] _] Hs Hc. split; [exact Hs|by split|exact Hc]. Qed.

(** The number of calls of the reset callback that a packet causes. *)
Lemma reset_calls_packet data res s s' :
  6 <= zlen data → ProcessDataPacket data s = Ok (res, s') → resetCallback s = true →
  resetCallback s' = true ∧ reset_calls s s' = length (packet_resets s data).
Proof.
  intros Hlen Hr Hc. apply ProcessDataPacket_reset_log in Hr; [|done]. unfold reset_log in Hr.
  injection Hr as Hc' Hl. split; [congruence|]. unfold reset_calls. rewrite Hl, length_app. lia.
Qed.

(** What a packet does: processed by the session, and then, by its place in the
    sequence, nothing, its payload for the handler, or a reset and its payload. *)
Lemma receive_packet_cases order data c (w : W) :
  connection_ok c → 6 <= zlen data →
  ∃ res s', ProcessDataPacket data (sess c) = Ok (res, s') ∧ receive_post data (sess c) s' res ∧
    connection_ok (c <| sess := s' |>) ∧
    receive_packet order data c w =
      match parse_packet data with
      | None => Ok (None, c, w)
      | Some p =>
          match dp_payload p with
          | [] => Ok (None, c <| sess := s' |>, w)
          | payload =>
              match classify (rxSeqExpected (sess c)) (dp_seq p) with
              | InOrder => Ok (Some payload, c <| sess := s' |>, w)
              | PeerReset => '(c, w) ← ResetPeer order (c <| sess := s' |>) w; Ok (Some payload, c, w)
              | Duplicate | OutOfOrder => Ok (None, c <| sess := s' |>, w)
              end
          end
      end.
Proof.
  intros [Hs Hh Hcb] Hlen. destruct (ProcessDataPacket_spec data (sess c) Hs Hlen) as (res & s' & Hrun & Hpost).
  pose proof (reset_calls_packet data res (sess c) s' Hlen Hrun Hcb) as [Hcb' Hn].
  exists res, s'. split; [exact Hrun|]. split; [exact Hpost|].
  split; [by apply connection_ok_sess; [split|apply Hpost|]|].
  unfold receive_packet. rewrite Hrun, bind_Ok, Hn. pose proof (rp_res _ _ _ _ Hpost) as Hres.
  pose proof (rp_wire _ _ _ _ Hpost) as Hwire. clear Hrun Hpost Hn.
  unfold packet_resets. unfold spec_receive in Hres. rewrite Hcb.
  destruct (parse_packet data) as [p|]; last first.
  { destruct Hres as [e ->]. cbn [length reset_peer]. by rewrite bind_Ok, Hwire, set_sess_id. }
  destruct (dp_payload p) as [|x l].
  { rewrite Hres. cbn [length reset_peer]. by rewrite bind_Ok. }
  destruct (classify (rxSeqExpected (sess c)) (dp_seq p)); rewrite Hres; cbn [length reset_peer fst];
    rewrite ?bind_Ok; try done.
  destruct (ResetPeer order _ w) as [[c1 w1]| |]; [|done..]. by rewrite !bind_Ok.
Qed.

(** The same for the packet and its request together. *)
Lemma receive_cases order order' now data c (w : W) :
  connection_ok c → 6 <= zlen data →
  ∃ res s', ProcessDataPacket data (sess c) = Ok (res, s') ∧ receive_post data (sess c) s' res ∧
    connection_ok (c <| sess := s' |>) ∧
    receive order order' now data c w =
      match parse_packet data with
      | None => Ok (c, w)
      | Some p =>
          match dp_payload p with
          | [] => Ok (c <| sess := s' |>, w)
          | payload =>
              match classify (rxSeqExpected (sess c)) (dp_seq p) with
              | InOrder => HandlePayload order' now payload (c <| sess := s' |>) w
              | PeerReset =>
                  '(c, w) ← ResetPeer order (c <| sess := s' |>) w; HandlePayload order' now payload c w
              | Duplicate | OutOfOrder => Ok (c <| sess := s' |>, w)
              end
          end
      end.
Proof.
  intros Hc Hlen. destruct (receive_packet_cases order data c w Hc Hlen) as (res & s' & Hrun & Hpost & Hc' & Hr).
  exists res, s'. split; [exact Hrun|]. split; [exact Hpost|]. split; [exact Hc'|]. clear Hrun Hpost Hc'.
  unfold receive. rewrite Hr. destruct (parse_packet data) as [p|]; [|done]. destruct (dp_payload p); [done|].
  destruct (classify _ _); [done..| |done]. by destruct (ResetPeer order _ w) as [[c1 w1]| |].
Qed.

Lemma ResetPeer_ok order c w :
  connection_ok c → fs_inv w →
  ∃ c' w', ResetPeer order c w = Ok (c', w') ∧ fs_inv w' ∧ connection_ok c' ∧ sess c' = sess c.
Proof.
  intros [Hs Hh Hc] Hinv. destruct (ResetPeer_spec order c w Hh Hinv) as (m & w' & Hr & Hinv' & Hm).
  exists (c <| usedHandles := m |>), w'. split_and!; [done..| |done]. split; [exact Hs| |exact Hc].
  destruct Hh as [Hu Hw]. split; [|exact Hw]. intros h e He. simpl in He. rewrite Hm in He.
  apply fmap_Some in He as (e0 & He0 & _). by eapply Hu.
Qed.

Lemma HandlePayload_ok order now payload c w :
  connection_ok c → fs_inv w → request_ok payload →
  ∃ c' w', HandlePayload order now payload c w = Ok (c', w') ∧ fs_inv w' ∧ connection_ok c'.
Proof.
  intros [Hs Hh Hc] Hinv Hreq. destruct payload as [|b rest]; [by exists c, w|].
  destruct (HandlePayload_handled order now (b :: rest) c w) as (c' & w' & r & Hr & Hi & Hh' & Hs' & _ & _ & Hsend);
    [done..|]. exists c', w'. split_and!; [exact Hr|done|]. split; [done|done|].
  apply send_reply_reset_log in Hsend. injection Hsend as Hcb _. congruence.
Qed.

Lemma receive_packet_ok order data c w :
  connection_ok c → fs_inv w → 6 <= zlen data → datagram_ok data →
  ∃ payload c' w', receive_packet order data c w = Ok (payload, c', w') ∧ fs_inv w' ∧ connection_ok c' ∧
    settings c' = settings c ∧ ∀ p, payload = Some p → request_ok p.
Proof.
  intros Hc Hinv Hlen Hd. destruct (receive_packet_cases order data c w Hc Hlen)
    as (res & s' & _ & _ & Hc' & ->). unfold datagram_ok in Hd.
  destruct (parse_packet data) as [p|]; [|by exists None, c, w].
  destruct (dp_payload p) as [|x l]; [by eexists None, _, w|].
  destruct (classify _ _); [eexists (Some _), _, w|by eexists None, _, w| |by eexists None, _, w].
  - split_and!; [done..|]. by intros ? [= <-].
  - destruct (ResetPeer_ok order _ w Hc' Hinv) as (c1 & w1 & Hr & Hi1 & Hc1 & _). rewrite Hr, bind_Ok.
    eexists (Some _), c1, w1. split_and!; [done..|by apply ResetPeer_settings in Hr|]. by intros ? [= <-].
Qed.

(** ** The server *)

(** The connections are sound, and made with the settings of the server. *)
Definition peers_ok (s : Server) : Prop :=
  ∀ a p, cMap s !! a = Some p → connection_ok (p_conn p) ∧ settings (p_conn p) = (logMetrics s, verbose s).

Definition job_ok (s : Server) (j : data_job) : Prop :=
  match j with
  | Received a data => is_Some (cMap s !! a) ∧ 6 <= zlen data ∧ datagram_ok data
  | Handling a payload => is_Some (cMap s !! a) ∧ request_ok payload
  | Reading | Returned => True
  end.

(** The handlers that Close waits for. *)
Definition running (st : state W) : Z :=
  (if discovering st then 1 else 0) + match job st with Returned => 0 | _ => 1 end.

Record server_ok (st : state W) : Prop := {
  sv_peers : peers_ok (server st);
  sv_world : fs_inv (world st);
  sv_job : job_ok (server st) (job st);
  sv_wg : wg (server st) = running st
}.

(** What is asked of a step: of a datagram that the handles and sizes in it are in
    range, and of cleanup that its loops visit each handle once and that it does not
    find the peer idle whose datagram is being handled. *)
Definition event_ok (e : event) (st : state W) : Prop :=
  match e with
  | EvArrive _ _ data => datagram_ok (read_datagram data)
  | EvCleanup visits =>
      ∀ a now order p, (a, now, order) ∈ visits → cMap (server st) !! a = Some p →
        range_order order (usedHandles (p_conn p)) ∧
        (busy_with (job st) = Some a → now - lastSeen p < peerTimeout (server st))
  | _ => True
  end.

Lemma NewConnection_ok verbose metrics : connection_ok (NewConnection NewSession verbose metrics).
Proof.
  split; [|by split|done].
  destruct (run_ok [OpSetResetCallback] NewSession) as (s & Hrun & Hok); [exact NewSession_ok|by repeat constructor|].
  by injection Hrun as <-.
Qed.

Lemma NewConnection_settings s verbose metrics : settings (NewConnection s verbose metrics) = (metrics, verbose).
Proof. unfold settings. by destruct metrics. Qed.

Lemma peers_ok_insert s a p :
  peers_ok s → connection_ok (p_conn p) → settings (p_conn p) = (logMetrics s, verbose s) →
  peers_ok (s <| cMap ::= λ m, <[a := p]> m |>).
Proof.
  intros Hs Hc Hset k q. simpl. destruct (decide (k = a)) as [->|Hne].
  - rewrite lookup_insert_eq. intros [= <-]. by split.
  - rewrite lookup_insert_ne by done. apply Hs.
Qed.

Lemma job_ok_mono s s' j :
  (∀ a, busy_with j = Some a → is_Some (cMap s !! a) → is_Some (cMap s' !! a)) → job_ok s j → job_ok s' j.
Proof. destruct j; cbn [busy_with job_ok]; naive_solver. Qed.

Lemma lookup_peer_ok now a s : peers_ok s → peers_ok (lookup_peer now a s).
Proof.
  intros Hs. apply peers_ok_insert; [done|..]; destruct (cMap s !! a) as [p|] eqn:E; [by apply (Hs a p)| |by apply (Hs a p)|].
  - apply NewConnection_ok.
  - apply NewConnection_settings.
Qed.

Lemma cleanup_ok visits s w :
  peers_ok s → fs_inv w →
  (∀ a now order p, (a, now, order) ∈ visits → cMap s !! a = Some p → range_order order (usedHandles (p_conn p))) →
  ∃ m w', cleanup visits s w = Ok (s <| cMap := m |>, w') ∧ fs_inv w' ∧ m ⊆ cMap s ∧
    ∀ a p, cMap s !! a = Some p →
      (∀ now order, (a, now, order) ∈ visits → now - lastSeen p < peerTimeout s) → m !! a = Some p.
Proof.
  revert s w. induction visits as [|[[a now] order] visits IH]; intros s w Hs Hinv Ho.
  { exists (cMap s), w. by destruct s. }
  cbn [cleanup]. assert (∀ a now order p, (a, now, order) ∈ visits → cMap s !! a = Some p →
    range_order order (usedHandles (p_conn p))) as Ho' by (intros ?????; eapply Ho; by right).
  assert (∀ v, v ∈ visits → v ∈ (a, now, order) :: visits) as Hin by (intros; by right).
  destruct (cMap s !! a) as [p|] eqn:Ep; last first.
  { destruct (IH s w Hs Hinv Ho') as (m & w' & -> & ? & ? & Hk). exists m, w'. split_and!; eauto. }
  destruct (peerTimeout s <=? now - lastSeen p) eqn:Et; bool_to_prop; last first.
  { destruct (IH s w Hs Hinv Ho') as (m & w' & -> & ? & ? & Hk). exists m, w'. split_and!; eauto. }
  destruct (Connection_Close_spec order (p_conn p) w) as (w1 & -> & Hinv1);
    [by apply (Hs a p)|done|by apply (Ho a now order p); [left|]|]. rewrite bind_Ok.
  set (s1 := s <| cMap ::= λ m, delete a m |>).
  assert (∀ k q, cMap s1 !! k = Some q → cMap s !! k = Some q) as Hsub.
  { intros k q. unfold s1. simpl. intros Hk. by apply lookup_delete_Some in Hk as [_ Hk]. }
  destruct (IH s1 w1) as (m & w' & -> & ? & Hsub' & Hk); [intros k q Hq; by apply (Hs k q), Hsub|done|eauto|].
  exists m, w'. split_and!; [done..| |].
  - etrans; [exact Hsub'|]. apply delete_subseteq.
  - intros k q Hq Hnow. apply Hk; [|eauto]. unfold s1. simpl.
    apply lookup_delete_Some. split; [|done]. intros <-. rewrite Ep in Hq. injection Hq as <-.
    specialize (Hnow now order ltac:(by left)). lia.
Qed.

Lemma peer_timer_ok a s :
  peers_ok s → ∃ m, peer_timer a s = Ok (s <| cMap := m |>) ∧ peers_ok (s <| cMap := m |>) ∧ dom m = dom (cMap s).
Proof.
  intros Hs. unfold peer_timer. destruct (cMap s !! a) as [p|] eqn:Ep; last first.
  { exists (cMap s). by destruct s. }
  destruct (Hs a p Ep) as [[Hok Hh Hc] Hset]. destruct (step_ok OpTimer (sess (p_conn p)) Hok I) as (s' & Hr & Hok').
  rewrite Hr, bind_Ok. eexists. split; [done|]. split.
  - apply (peers_ok_insert s); [done| |exact Hset]. simpl. apply connection_ok_sess; [by split|done|].
    apply timer_reset_log in Hr. injection Hr as Hr _. congruence.
  - rewrite dom_insert_L. apply elem_of_dom_2 in Ep. set_solver.
Qed.

(** A call on the connection of a known peer that keeps the connection sound. *)
Lemma on_peer_ok {A} a f s w (Q : A → Prop) :
  peers_ok s → is_Some (cMap s !! a) →
  (∀ c, connection_ok c → ∃ x c' w', f c w = Ok (x, c', w') ∧ fs_inv w' ∧ connection_ok c' ∧ settings c' = settings c ∧ Q x) →
  ∃ x m w', on_peer a f s w = Ok (x, s <| cMap := m |>, w') ∧ fs_inv w' ∧ peers_ok (s <| cMap := m |>) ∧
    dom m = dom (cMap s) ∧ Q x.
Proof.
  intros Hs [p Ep] Hf. destruct (Hs a p Ep) as [Hc Hset]. unfold on_peer. rewrite Ep.
  destruct (Hf (p_conn p) Hc) as (x & c' & w' & -> & Hw' & Hc' & Hset' & HQ). rewrite bind_Ok.
  eexists x, _, w'. split_and!; [reflexivity|done| | |done].
  - apply (peers_ok_insert s); [done..|]. simpl. congruence.
  - rewrite dom_insert_L. apply elem_of_dom_2 in Ep. set_solver.
Qed.

(** The statistics can be printed whenever the logger runs. *)
Lemma metricsLogger_ok now visits s : peers_ok s → logMetrics s = true → ∃ text, metricsLogger now visits s = Ok text.
Proof.
  intros Hs Hl. assert (∃ text, peer_stats visits s = Ok text) as [text Ht].
  { induction visits as [|[a o] visits [rest IH]]; [by eexists|]. cbn [peer_stats].
    destruct (cMap s !! a) as [p|] eqn:Ep; [|by eexists]. destruct (Hs a p Ep) as [_ Hset].
    rewrite Hl in Hset. injection Hset as Hcol _. apply bool_decide_eq_true in Hcol as [m Hm].
    unfold printPeerStats, Connection_GetMetrics. rewrite Hm, !bind_Ok, IH. by eexists. }
  unfold metricsLogger. rewrite Ht. by eexists.
Qed.

Lemma is_Some_dom {A} (m m' : gmap AddrPort A) a : dom m' = dom m → is_Some (m !! a) → is_Some (m' !! a).
Proof. intros Hd Ha. apply elem_of_dom. rewrite Hd. by apply elem_of_dom. Qed.

(** *** Each step keeps the invariant *)

Lemma step_arrive_ok now a data st :
  server_ok st → datagram_ok (read_datagram data) → ∃ st', server_step (EvArrive now a data) st = Ok st' ∧ server_ok st'.
Proof.
  intros Hst He. pose proof Hst as [Hp Hw Hj Hg]. cbn [server_step]. unfold dataHandler. unfold running in Hg.
  destruct (job st) eqn:Ej; [|by exists st..]. cbv zeta.
  destruct (_ || _) eqn:El; [by exists st|]. apply orb_false_iff in El as [_ El]. bool_to_prop.
  eexists. split; [done|]. split; simpl; [by apply lookup_peer_ok|done| |exact Hg].
  split; [|done]. rewrite lookup_insert_eq. by eexists.
Qed.

Lemma step_receive_ok order st : server_ok st → ∃ st', server_step (EvReceive order) st = Ok st' ∧ server_ok st'.
Proof.
  intros Hst. pose proof Hst as [Hp Hw Hj Hg]. cbn [server_step]. unfold running in Hg.
  destruct (job st) as [|a data|a payload|] eqn:Ej; [by exists st| |by exists st..]. cbv zeta.
  destruct Hj as (Ha & Hl & Hd).
  destruct (on_peer_ok a (receive_packet order data) (server st) (world st)
    (λ x, ∀ p, x = Some p → request_ok p) Hp Ha) as (x & m & w' & -> & Hw' & Hp' & Hdom & HQ).
  { intros c Hc. by apply receive_packet_ok. }
  rewrite bind_Ok. eexists. split; [done|]. split; simpl; [done..| |by destruct x].
  destruct x as [payload|]; [|done]. split; [by eapply is_Some_dom|by apply HQ].
Qed.

Lemma step_handle_ok order now st : server_ok st → ∃ st', server_step (EvHandle order now) st = Ok st' ∧ server_ok st'.
Proof.
  intros Hst. pose proof Hst as [Hp Hw Hj Hg]. cbn [server_step]. unfold running in Hg.
  destruct (job st) as [|a data|a payload|] eqn:Ej; [by exists st..| |by exists st]. cbv zeta.
  destruct Hj as (Ha & Hreq).
  destruct (on_peer_ok a (handle_payload order now payload) (server st) (world st) (λ _, True) Hp Ha)
    as (x & m & w' & -> & Hw' & Hp' & Hdom & _).
  { intros c Hc. destruct (HandlePayload_ok order now payload c (world st) Hc Hw Hreq) as (c' & w' & Hr & Hw' & Hc').
    exists tt, c', w'. unfold handle_payload. rewrite Hr, bind_Ok. split_and!; [done..| |done].
    by apply HandlePayload_settings in Hr. }
  rewrite bind_Ok. eexists. split; [done|]. by split.
Qed.

Lemma step_cleanup_ok visits st :
  server_ok st → event_ok (EvCleanup visits) st → ∃ st', server_step (EvCleanup visits) st = Ok st' ∧ server_ok st'.
Proof.
  intros [Hp Hw Hj Hg] He. cbn [server_step event_ok] in *. cbv zeta.
  destruct (cleanup_ok visits (server st) (world st) Hp Hw) as (m & w & -> & Hw' & Hsub & Hk).
  { intros a now order p Hin Ha. by apply (He a now order p). }
  rewrite bind_Ok. eexists. split; [done|]. split; simpl; [|done| |exact Hg].
  - intros a p Ha. apply (Hp a). by eapply lookup_weaken.
  - eapply job_ok_mono; [|exact Hj]. intros a Hb [p Ep]. exists p. apply Hk; [done|].
    intros now order Hin. by apply (He a now order p Hin Ep).
Qed.

Lemma step_timer_ok a st : server_ok st → ∃ st', server_step (EvTimer a) st = Ok st' ∧ server_ok st'.
Proof.
  intros [Hp Hw Hj Hg]. cbn [server_step]. cbv zeta. destruct (peer_timer_ok a (server st) Hp) as (m & -> & Hp' & Hdom).
  rewrite bind_Ok. eexists. split; [done|]. split; simpl; [done..| |exact Hg].
  eapply job_ok_mono; [|exact Hj]. intros k _. by apply is_Some_dom.
Qed.

Lemma wg_Done_ok s : 0 < wg s → wg_Done s = Ok (s <| wg ::= λ n, n - 1 |>).
Proof. intros Hw. unfold wg_Done. by rewrite (proj2 (Z.leb_gt _ _)) by done. Qed.

Lemma step_exit_ok e st :
  e = EvDiscoveryExit ∨ e = EvDataExit → server_ok st → ∃ st', server_step e st = Ok st' ∧ server_ok st'.
Proof.
  intros He Hst. pose proof Hst as [Hp Hw Hj Hg]. unfold running in Hg.
  destruct He as [-> | ->]; cbn [server_step]; unfold dataHandler, discoveryHandler; cbv zeta.
  - destruct (discovering st && _) eqn:E; [|by exists st]. apply andb_prop in E as [E _]. rewrite E in Hg.
    rewrite wg_Done_ok by (destruct (job st); lia). rewrite bind_Ok. eexists. split; [done|].
    split; simpl; [done..|]. unfold running. simpl. lia.
  - destruct (job st) eqn:Ej; [|by exists st..]. destruct (negb _); [|by exists st].
    rewrite wg_Done_ok by (destruct (discovering st); lia). rewrite bind_Ok. eexists. split; [done|].
    split; simpl; [done..|]. unfold running. simpl. lia.
Qed.

Lemma server_step_ok e st :
  server_ok st → event_ok e st → ∃ st', server_step e st = Ok st' ∧ server_ok st'.
Proof.
  intros Hst He. destruct e as [a data|now a data|order|order now|visits|now visits|a| | |].
  - pose proof Hst as [Hp Hw Hj Hg]. cbn [server_step]. unfold discoveryHandler. cbv zeta. destruct (_ && _); [|by exists st].
    eexists. split; [done|]. by destruct (discovery_reply_to data); [destruct (is_open _)|].
  - by apply step_arrive_ok.
  - by apply step_receive_ok.
  - by apply step_handle_ok.
  - by apply step_cleanup_ok.
  - pose proof Hst as [Hp Hw Hj Hg]. cbn [server_step]. cbv zeta. destruct (logMetrics (server st)) eqn:El; [|by exists st].
    destruct (metricsLogger_ok now visits (server st) Hp El) as [text ->]. rewrite bind_Ok. by eexists.
  - by apply step_timer_ok.
  - destruct Hst as [Hp Hw Hj Hg]. by eexists.
  - apply step_exit_ok; [by left|done].
  - apply step_exit_ok; [by right|done].
Qed.

(** Every step of a run is one that is allowed in its state. *)
Fixpoint events_ok (es : list event) (st : state W) : Prop :=
  match es with
  | [] => True
  | e :: es => event_ok e st ∧ ∀ st', server_step e st = Ok st' → events_ok es st'
  end.

Lemma server_run_ok es st :
  server_ok st → events_ok es st → ∃ st', server_run es st = Ok st' ∧ server_ok st'.
Proof.
  revert st. induction es as [|e es IH]; intros st Hst; [by exists st|]. intros [He Hes]. cbn [server_run].
  destruct (server_step_ok e st Hst He) as (st1 & Hr & Hst1). rewrite Hr, bind_Ok. by apply IH; [|apply Hes].
Qed.
End Contract.
