(* ===== verification/ServerProperties.v ===== *)
(** * The properties of the server *)
From stdpp Require Import gmap.
From S2P Require Import Prelude RdmaProtocol RdmaSession RdmaPack RdmaInvariant RdmaTimer RdmaReceive RdmaWire RdmaStep RdmaProperties.
From S2P Require Import UdpfsProtocol UdpfsConnection UdpfsContract UdpfsProperties CachedReader CompressedFile GoPath CompressedImage CompressionProperties OsWorld Backend BackendInvariant BackendContract MemOs BackendProperties GoText UdpfsFrame Server ServerContract.

(** ** The whole server *)

(** The options that the program defines. *)
Definition server_option (o : Server → Server) : Prop :=
  (∃ p, o = WithDiscoveryPort p) ∨ (∃ ip, o = WithDataIP ip) ∨ o = WithVerbose ∨ (∃ fs, o = WithFS fs) ∨
  (∃ t, o = WithMetrics t) ∨ ∃ t, o = WithPeerTimeout t.

Lemma option_keeps o s : server_option o → cMap (o s) = cMap s ∧ wg (o s) = wg s.
Proof.
  intros [[p ->]|[[ip ->]|[->|[[fs ->]|[[t ->]|[t ->]]]]]];
    unfold WithDiscoveryPort, WithDataIP, WithFS, WithMetrics, WithPeerTimeout; by repeat case_match.
Qed.

Lemma New_fresh opts s : Forall server_option opts → New opts = Some s → cMap s = ∅ ∧ wg s = 0.
Proof.
  unfold New. intros Ho.
  assert (∀ s0, cMap (foldl (λ s f, f s) s0 opts) = cMap s0 ∧ wg (foldl (λ s f, f s) s0 opts) = wg s0) as Hf.
  { clear s. induction Ho as [|o opts H1 _ IH]; intros s0; [done|]. cbn [foldl].
    destruct (IH (o s0)) as [-> ->]. by apply option_keeps. }
  cbv zeta. destruct (negb _); [done|]. intros [= <-]. apply Hf.
Qed.

(** A server that has been started: both sockets are open as the host gave them, the
    data socket on the address of the settings, and two handlers are waited for. *)
Lemma Start_inv `{Net} now s s' :
  Start now s = (None, s') →
  cMap s' = cMap s ∧ wg s' = wg s + 2 ∧ bindIP s' = data_address (bindIP s) ∧ startTime s' = now ∧
  port s' = port s ∧ peerTimeout s' = peerTimeout s ∧ metricsLoggingPeriod s' = metricsLoggingPeriod s ∧
  verbose s' = verbose s ∧ logMetrics s' = logMetrics s ∧ hasFS s' = hasFS s ∧
  ∃ disc a data, net_ListenPacket (str ":" ++ Itoa (port s)) = Some (Some disc) ∧ discConn s' = Some disc ∧
    net_ResolveUDPAddr (data_address (bindIP s)) = Some a ∧ net_ListenUDP a = Some data ∧ dataConn s' = Some data.
Proof.
  unfold Start. destruct (net_ListenPacket _) as [[disc|]|]; [|done..]. simpl.
  destruct (net_ResolveUDPAddr _) as [a|] eqn:Ea; [|done]. destruct (net_ListenUDP a) as [data|] eqn:Ed; [|done].
  intros [= <-]. simpl. split_and!; try done. by exists disc, a, data.
Qed.

Section Whole.
Context {W : Type} `{OSL : OSLaws W} `{Decoders} `{Net}.

(** The whole server, started with any options over a backend started with any
    options, on any operating system that keeps its documented promises, never
    panics: whatever datagrams arrive from whatever peers on the two sockets, in
    whatever order they are lost, repeated or mixed, and however timer expiries,
    cleanups, ticks of the metrics logger and the end of the program fall between
    the steps of their processing.  Asked are only that the handles and sizes in the
    requests are in the range of the table and the buffer, and that cleanup does not
    find the peer idle whose datagram is being processed (see cleanup_race_panics).
    At the end every connection, the file system and the handle table are sound. *)
Theorem server_never_panics bopts w0 b0 w1 sopts s now s' es :
  Forall is_option bopts → NewBackend bopts w0 = Ok (Val b0, w1) → 0 < sectorSize b0 →
  (enableCompression b0 = true → images_ok (W := W)) →
  Forall server_option sopts → New sopts = Some s → Start now s = (None, s') →
  events_ok (HW := backend_contract (sectorSize b0)) es (started s' (b0, w1)) →
  ∃ st, server_run es (started s' (b0, w1)) = Ok st ∧
    server_ok (HW := backend_contract (sectorSize b0)) st ∧
    backend_ok (sectorSize b0) (fst (world st)) (snd (world st)).
Proof.
  intros Hb Hnew Hss Himg Hs Hsnew Hstart Hes.
  pose proof (NewBackend_ok bopts w0 b0 w1 Hb Hnew Hss Himg) as Hok.
  destruct (New_fresh sopts s Hs Hsnew) as [Hm Hwg]. destruct (Start_inv now s s' Hstart) as (Hm' & Hwg' & _).
  destruct (server_run_ok (HW := backend_contract (sectorSize b0)) es (started s' (b0, w1)))
    as (st & Hrun & Hst); [|exact Hes|].
  - split; [|exact Hok|done|simpl; rewrite Hwg', Hwg; done]. simpl. intros a p. by rewrite Hm', Hm.
  - exists st. split; [exact Hrun|]. split; [exact Hst|exact (sv_world _ Hst)].
Qed.
End Whole.

(** A host whose sockets can be had. *)
Definition loopback : Net :=
  {| net_ListenPacket := λ _, Some (Some (mkConn (0, UDPFSPort) false));
     net_ResolveUDPAddr := λ _, Some (0, 0);
     net_ListenUDP := λ a, Some (mkConn (fst a, 50000) false) |}.

(** A session of the small server: a cleanup of an address that is not known, a
    discovery, an OPEN_REQ for "a" and the same datagram again, with a timer expiry
    and a tick of the metrics logger between their steps, and the end. *)
Definition client_a : AddrPort := (0x0A000001, 62966).
Definition open_datagram : list byte := encode 0 0 (mkDesc [] open_a true).

Definition small_events : list event :=
  [EvCleanup [(client_a, 0, [])]; EvDiscovery client_a (map z2b [0; 0; 0; 0; 0; 0]);
   EvArrive 1 client_a open_datagram; EvTimer client_a; EvReceive []; EvTimer client_a; EvHandle [] 1;
   EvMetrics 2 [(client_a, mkOrders [16] [] [])];
   EvArrive 2 client_a open_datagram; EvReceive [1]; EvHandle [1] 2; EvClose; EvDataExit; EvDiscoveryExit].

Definition new_server : Server :=
  mkServer 0 (5 * second) true None None ∅ [] 0 UDPFSPort metricsLoggingPeriod_default false true.
Definition ram_server : Server :=
  mkServer 0 (5 * second) true (Some (mkConn (0, UDPFSPort) false)) (Some (mkConn (0, 50000) false)) ∅ (str ":0") 2
    UDPFSPort metricsLoggingPeriod_default false true.

Lemma new_server_made : New [WithFS true; WithPeerTimeout (5 * second); WithMetrics 0] = Some new_server.
Proof. reflexivity. Qed.

Lemma ram_server_started : @Start loopback 0 new_server = (None, ram_server).
Proof. reflexivity. Qed.

Lemma open_datagram_ok : datagram_ok (HW := backend_contract (W := MemOs.world) 512) (read_datagram open_datagram).
Proof.
  unfold datagram_ok. assert (read_datagram open_datagram = open_datagram) as -> by (vm_compute; reflexivity).
  assert (parse_packet open_datagram = Some (mkDataPacket 0 4095 true (open_a ++ replicate 3 (z2b 0)))) as ->
    by (vm_compute; reflexivity).
  unfold request_ok. cbn [dp_payload].
  assert (request_op (open_a ++ replicate 3 (z2b 0)) = Some (existT _ (FS_Open [z2b 97] O_RDONLY false))) as ->;
    [vm_compute; reflexivity|exact I].
Qed.

Lemma small_events_ok :
  events_ok (HW := backend_contract 512) small_events (started ram_server (ram_backend, ram0)).
Proof.
  unfold small_events. repeat (split; [first [exact I | exact open_datagram_ok | by intros a now order p]|intros ? _]).
  exact I.
Qed.

Lemma server_never_panics_witness :
  ∃ st, server_run small_events (started ram_server (ram_backend, ram0)) = Ok st ∧
    server_ok (HW := backend_contract 512) st.
Proof.
  destruct (server_never_panics (H1 := loopback) [WithFSRoot MemOs.root] ram0 ram_backend ram0
    [WithFS true; WithPeerTimeout (5 * second); WithMetrics 0] new_server 0 ram_server small_events)
    as (st & Hrun & Hok & _);
    [by repeat constructor|exact ram_started|done|done| |exact new_server_made|exact ram_server_started|exact small_events_ok|].
  - repeat apply Forall_cons_2; [| | |constructor]; unfold server_option; eauto 10.
  - exists st. split; [exact Hrun|exact Hok].
Defined.

Section Peers.
Context {W : Type} `{HW : FSContract W}.

(** C9: what one datagram does to a connection, on every branch.  One that is no DATA
    packet changes nothing; one without a payload, a duplicate, or one out of order
    changes the session only (the file system is not called and the handle cache is
    untouched); a packet in order is handed to its handler once; and packet 0 out of
    turn is taken for a restarted peer: its handles are marked and rewound, then its
    request is handled, even when it is an old packet that the network repeats. *)
Theorem datagram_effect order order' now data c (w : W) :
  connection_ok c → 6 <= zlen data →
  ∃ s', (∃ res, ProcessDataPacket data (sess c) = Ok (res, s')) ∧ session_ok s' ∧
    receive order order' now data c w =
      match parse_packet data with
      | None => Ok (c, w)
      | Some p =>
          match dp_payload p with
          | [] => Ok (c <| sess := s' |>, w)
          | payload =>
              match classify (rxSeqExpected (sess c)) (dp_seq p) with
              | InOrder => HandlePayload order' now payload (c <| sess := s' |>) w
              | PeerReset =>
                  '(c, w) ← ResetPeer order (c <| sess := s' |>) w; HandlePayload order' now payload c w
              | Duplicate | OutOfOrder => Ok (c <| sess := s' |>, w)
              end
          end
      end.
Proof.
  intros Hc Hlen. destruct (receive_cases order order' now data c w Hc Hlen) as (res & s' & H1 & H2 & _ & H3).
  exists s'. split; [by exists res|]. split; [apply H2|exact H3].
Qed.

(** The peer that a step is about. *)
Definition addressed (e : event) (st : state W) (a : AddrPort) : Prop :=
  match e with
  | EvDiscovery _ _ => False
  | EvArrive _ a' _ => a' = a
  | EvReceive _ | EvHandle _ _ => busy_with (job st) = Some a
  | EvCleanup visits => ∃ now order p, (a, now, order) ∈ visits ∧ cMap (server st) !! a = Some p ∧
      peerTimeout (server st) <= now - lastSeen p
  | EvTimer a' => a' = a
  | EvMetrics _ _ | EvClose | EvDiscoveryExit | EvDataExit => False
  end.

Lemma on_peer_others {A} k (f : Connection → W → outcome (A * Connection * W)) s w x s' w' a :
  on_peer k f s w = Ok (x, s', w') → a ≠ k → cMap s' !! a = cMap s !! a.
Proof.
  intros Hr Hne. unfold on_peer in Hr. destruct (cMap s !! k); [|done].
  apply bind_Ok_inv in Hr as ([[y c] w1] & _ & Hr). injection Hr as _ <- _. simpl. by rewrite lookup_insert_ne.
Qed.

Lemma wg_Done_cMap s s' : wg_Done s = Ok s' → cMap s' = cMap s.
Proof. unfold wg_Done. case_match; [done|]. by intros [= <-]. Qed.

Lemma cleanup_others visits s w s' (w' : W) a :
  cleanup visits s w = Ok (s', w') →
  (∀ now order p, (a, now, order) ∈ visits → cMap s !! a = Some p → now - lastSeen p < peerTimeout s) →
  cMap s' !! a = cMap s !! a.
Proof.
  revert s w. induction visits as [|[[k now] order] visits IH]; intros s w Hr Ha; cbn [cleanup] in Hr.
  { by injection Hr as <- _. }
  assert (∀ now order p, (a, now, order) ∈ visits → cMap s !! a = Some p → now - lastSeen p < peerTimeout s)
    as Ha' by (intros ????; eapply Ha; by right).
  destruct (cMap s !! k) as [p|] eqn:Ep; [|by eapply IH].
  destruct (peerTimeout s <=? now - lastSeen p) eqn:Et; bool_to_prop; [|by eapply IH].
  apply bind_Ok_inv in Hr as ([c1 w1] & _ & Hr). assert (a ≠ k) as Hne.
  { intros ->. specialize (Ha now order p ltac:(by left) Ep). lia. }
  apply IH in Hr; simpl in *; rewrite ?lookup_delete_ne in * by done; [exact Hr|exact Ha'].
Qed.

(** C16: peers do not disturb each other: a step leaves the connection of every peer
    that it is not about as it was, with its session, its handles and the time it
    was last seen; cleanup is about the peers that it finds idle. *)
Theorem peers_isolated e st st' a :
  server_step e st = Ok st' → ¬ addressed e st a → cMap (server st') !! a = cMap (server st) !! a.
Proof.
  intros Hr Ha. destruct e as [k data|now k data|order|order now|visits|now visits|k| | |];
    cbn [server_step addressed] in *; unfold dataHandler, discoveryHandler in Hr; cbv zeta in Hr.
  - destruct (_ && _); injection Hr as <-; [|done]. by destruct (discovery_reply_to data); [destruct (is_open _)|].
  - destruct (job st); [|by injection Hr as <-..]. destruct (_ || _); injection Hr as <-; [done|].
    unfold lookup_peer. simpl. by rewrite lookup_insert_ne.
  - destruct (job st) as [|k data| |]; [by injection Hr as <-| |by injection Hr as <-..].
    apply bind_Ok_inv in Hr as ([[x s] w] & Hp & Hr). injection Hr as <-. simpl.
    eapply on_peer_others; [exact Hp|]. intros ->. by apply Ha.
  - destruct (job st) as [| |k payload|]; [by injection Hr as <-..| |by injection Hr as <-].
    apply bind_Ok_inv in Hr as ([[x s] w] & Hp & Hr). injection Hr as <-. simpl.
    eapply on_peer_others; [exact Hp|]. intros ->. by apply Ha.
  - apply bind_Ok_inv in Hr as ([s w] & Hp & Hr). injection Hr as <-. simpl. eapply cleanup_others; [exact Hp|].
    intros now order p Hin Hp'. apply Z.lt_nge. intros Hle. apply Ha. by exists now, order, p.
  - destruct (logMetrics _); [|by injection Hr as <-]. apply bind_Ok_inv in Hr as (t & _ & Hr). by injection Hr as <-.
  - apply bind_Ok_inv in Hr as (s & Hp & Hr). injection Hr as <-. unfold peer_timer in Hp.
    destruct (cMap (server st) !! k); [|by injection Hp as <-]. apply bind_Ok_inv in Hp as (s1 & _ & Hp).
    injection Hp as <-. simpl. by rewrite lookup_insert_ne.
  - by injection Hr as <-.
  - destruct (_ && _); [|by injection Hr as <-]. apply bind_Ok_inv in Hr as (s & Hp & Hr). injection Hr as <-.
    simpl. by rewrite (wg_Done_cMap _ _ Hp).
  - destruct (job st); [|by injection Hr as <-..]. destruct (negb _); [|by injection Hr as <-].
    apply bind_Ok_inv in Hr as (s & Hp & Hr). injection Hr as <-. simpl. by rewrite (wg_Done_cMap _ _ Hp).
Qed.

(** ** Cleanup *)

(** The handles that a cleanup closes: those of the idle peers, peer by peer. *)
Fixpoint close_idle (visits : list (AddrPort * list Z)) (now : AddrPort → Z) (s : Server) (w : W) : outcome W :=
  match visits with
  | [] => Ok w
  | (a, order) :: visits =>
      match cMap s !! a with
      | Some p =>
          if decide (peerTimeout s <= now a - lastSeen p) then
            w ← fs_close_all order w; close_idle visits now s w
          else close_idle visits now s w
      | None => close_idle visits now s w
      end
  end.

Definition alive (now : AddrPort → Z) (s : Server) (ap : AddrPort * peer) : Prop :=
  now ap.1 - lastSeen ap.2 < peerTimeout s.

#[export] Instance alive_dec now s ap : Decision (alive now s ap).
Proof. unfold alive. apply _. Defined.

Lemma close_idle_delete visits now s a w :
  a ∉ visits.*1 → close_idle visits now (s <| cMap ::= λ m, delete a m |>) w = close_idle visits now s w.
Proof.
  revert w. induction visits as [|[k order] visits IH]; intros w Hn; [done|]. rewrite fmap_cons in Hn.
  apply not_elem_of_cons in Hn as [Hne Hn]. cbn [close_idle]. simpl cMap. rewrite lookup_delete_ne by done.
  simpl peerTimeout. destruct (cMap s !! k); [|by apply IH]. case_decide; [|by apply IH].
  destruct (fs_close_all order w); [|done..]. rewrite !bind_Ok. by apply IH.
Qed.

(** What the loop leaves of the table once it has visited these peers. *)
Definition left_by (visits : list (AddrPort * list Z)) (now : AddrPort → Z) (s : Server) : gmap AddrPort peer :=
  filter (λ ap, ap.1 ∈ visits.*1 → alive now s ap) (cMap s).

Lemma left_by_cons k order visits now s :
  k ∉ visits.*1 →
  left_by ((k, order) :: visits) now s =
    match cMap s !! k with
    | Some p => if decide (alive now s (k, p)) then left_by visits now s else delete k (left_by visits now s)
    | None => left_by visits now s
    end.
Proof.
  intros Hk. unfold left_by. rewrite fmap_cons. apply map_eq. intros a. apply option_eq. intros q.
  rewrite map_lookup_filter_Some, elem_of_cons. cbn [fst].
  destruct (decide (a = k)) as [->|Hne].
  - destruct (cMap s !! k) as [p|] eqn:Ep; [case_decide|]; rewrite ?lookup_delete_eq, ?map_lookup_filter_Some, ?Ep;
      cbn [fst]; naive_solver.
  - assert ((a ∈ visits.*1 → alive now s (a, q)) ↔ (a = k ∨ a ∈ visits.*1 → alive now s (a, q))) as <- by naive_solver.
    destruct (cMap s !! k); [case_decide|]; rewrite ?lookup_delete_ne, ?map_lookup_filter_Some by done; done.
Qed.

Lemma set_cMap_id s m : m = cMap s → s <| cMap := m |> = s.
Proof. intros ->. by destruct s. Qed.

Lemma left_by_delete visits now s k :
  (s <| cMap ::= λ m, delete k m |>) <| cMap := left_by visits now (s <| cMap ::= λ m, delete k m |>) |> =
  s <| cMap := delete k (left_by visits now s) |>.
Proof. unfold left_by. simpl. by rewrite map_filter_delete. Qed.

Definition timed (now : AddrPort → Z) (v : AddrPort * list Z) : AddrPort * Z * list Z := (v.1, now v.1, v.2).

Lemma cleanup_run visits now s w :
  NoDup visits.*1 →
  (∀ a order p, (a, order) ∈ visits → cMap s !! a = Some p → range_order order (usedHandles (p_conn p))) →
  cleanup (map (timed now) visits) s w =
    (w' ← close_idle visits now s w; Ok (s <| cMap := left_by visits now s |>, w')).
Proof.
  revert s w. induction visits as [|[k order] visits IH]; intros s w Hnd Ho.
  { cbn [map close_idle cleanup]. rewrite bind_Ok, set_cMap_id; [done|]. unfold left_by. apply map_filter_id.
    intros a p _ Hin. by apply not_elem_of_nil in Hin. }
  rewrite fmap_cons in Hnd. apply NoDup_cons in Hnd as [Hk Hnd]. cbn [fst] in Hk.
  assert (∀ a order p, (a, order) ∈ visits → cMap s !! a = Some p → range_order order (usedHandles (p_conn p)))
    as Ho' by (intros ????; eapply Ho; by right).
  rewrite left_by_cons by done. cbn [map close_idle cleanup timed fst snd].
  destruct (cMap s !! k) as [p|] eqn:Ep; [|by apply IH].
  assert (alive now s (k, p) ↔ now k - lastSeen p < peerTimeout s) as Hal by done.
  destruct (Z.leb_spec (peerTimeout s) (now k - lastSeen p)); 
    repeat case_decide; rewrite Hal in *; try lia.
  - rewrite (Connection_Close_run order (p_conn p) w) by (apply (Ho k order p); [by left|done]).
    destruct (fs_close_all order w) as [w1| |]; [|done..]. rewrite !bind_Ok.
    rewrite IH; [|done|]; last first.
    { intros a o q Hin. simpl. intros [Hak Hq]%lookup_delete_Some. by eapply Ho'. }
    rewrite close_idle_delete by done. destruct (close_idle visits now s w1) as [w2| |]; [|done..].
    rewrite !bind_Ok. by rewrite left_by_delete.
  - by apply IH.
Qed.

(** C20: cleanup removes exactly the idle peers and closes exactly their handles.
    Whatever the order in which it visits the peers and their handles: afterwards
    the table holds the peers that had been seen within the timeout, unchanged, and
    the file system has had one Close for every handle of every other peer. *)
Theorem cleanup_removes_idle visits now s w :
  NoDup visits.*1 → (∀ a, is_Some (cMap s !! a) → a ∈ visits.*1) →
  (∀ a order p, (a, order) ∈ visits → cMap s !! a = Some p → range_order order (usedHandles (p_conn p))) →
  cleanup (map (timed now) visits) s w =
    (w' ← close_idle visits now s w; Ok (s <| cMap ::= filter (alive now s) |>, w')).
Proof.
  intros Hnd Hall Ho. rewrite cleanup_run by done.
  assert (left_by visits now s = filter (alive now s) (cMap s)) as ->; [|done].
  apply map_filter_ext. intros a p Hp. split; [|done]. intros Hi. apply Hi, Hall. by exists p.
Qed.
End Peers.

(** The echo file system with a peer that holds handle 1 and one that holds none. *)
Definition client_b : AddrPort := (0x0A000002, 62966).
Definition two_peers : Server :=
  ram_server <| cMap := {[client_a := mkPeer conn_a 0; client_b := mkPeer Echo.conn (4 * second)]} |>.

Lemma cleanup_removes_idle_witness :
  ∃ w, cleanup (map (timed (λ _, 5 * second)) [(client_b, []); (client_a, [1])]) two_peers 0%nat =
         Ok (two_peers <| cMap ::= filter (alive (λ _, 5 * second) two_peers) |>, w) ∧ w = 1%nat.
Proof.
  assert (∀ a order p, (a, order) ∈ [(client_b, []); (client_a, [1])] → cMap two_peers !! a = Some p →
            range_order order (usedHandles (p_conn p))) as Ho.
  { intros a order p [[= -> ->]|[[= -> ->]|Hn%not_elem_of_nil]%elem_of_cons]%elem_of_cons; [| |done].
    - change (Some (mkPeer Echo.conn (4 * second)) = Some p → range_order [] (usedHandles (p_conn p))).
      intros [= <-]. unfold range_order. change (usedHandles (p_conn _)) with (∅ : gmap Z cachedHandle).
      by rewrite map_to_list_empty.
    - change (Some (mkPeer conn_a 0) = Some p → range_order [1] (usedHandles (p_conn p))).
      intros [= <-]. exact conn_a_order. }
  assert (∀ a, is_Some (cMap two_peers !! a) → a ∈ [client_b; client_a]) as Hall.
  { intros a [p Hp]. unfold two_peers in Hp. simpl in Hp. apply lookup_insert_Some in Hp as [[<- _]|[_ Hp]].
    - right. by left.
    - apply lookup_singleton_Some in Hp as [<- _]. by left. }
  exists 1%nat. split; [|reflexivity].
  rewrite (cleanup_removes_idle [(client_b, []); (client_a, [1])] (λ _, 5 * second) two_peers 0%nat);
    [reflexivity| |exact Hall|exact Ho].
  apply (bool_decide_unpack _). reflexivity.
Defined.

(** A datagram whose sequence number is the one before that expected. *)
Lemma datagram_effect_witness :
  ∃ s', receive [] [] 0 (encode 0 4095 (mkDesc [] open_a true)) conn_a 0%nat = Ok (conn_a <| sess := s' |>, 0%nat).
Proof.
  assert (connection_ok conn_a) as Hc.
  { destruct Echo.conn_ok as [Hs Hh]. split; [exact Hs|by apply handles_add|reflexivity]. }
  destruct (datagram_effect [] [] 0 (encode 0 4095 (mkDesc [] open_a true)) conn_a 0%nat Hc)
    as (s' & _ & _ & Hr); [vm_compute; discriminate|].
  assert (parse_packet (encode 0 4095 (mkDesc [] open_a true)) =
            Some (mkDataPacket 4095 4095 true (open_a ++ replicate 3 (z2b 0)))) as E by (vm_compute; reflexivity).
  rewrite E in Hr. exists s'. exact Hr.
Defined.

Lemma peers_isolated_witness :
  ∃ st, server_step (EvArrive 7 client_b open_datagram) (started two_peers 0%nat) = Ok st ∧
    cMap (server st) !! client_a = Some (mkPeer conn_a 0).
Proof.
  eexists. split; [reflexivity|].
  rewrite (peers_isolated (EvArrive 7 client_b open_datagram) (started two_peers 0%nat) _ client_a);
    [reflexivity|reflexivity|]. unfold addressed, client_a, client_b. congruence.
Defined.

(** ** The race between cleanup and a datagram *)

(** C38: a peer can be removed under the data handler.  The table is unlocked while
    a datagram is processed; when cleanup then finds the peer of that datagram idle
    (its timeout has passed since the datagram arrived), before its packet is
    processed or before its request is handled, the handler goes on with a connection
    that is nil and the server panics. *)
Theorem cleanup_race_panics {W} `{FSContract W} order o now now' a p (st : state W) :
  server_ok st → busy_with (job st) = Some a → cMap (server st) !! a = Some p →
  range_order order (usedHandles (p_conn p)) → peerTimeout (server st) <= now - lastSeen p →
  server_run [EvCleanup [(a, now, order)]; EvReceive o; EvHandle o now'] st = Panic NilDereference.
Proof.
  intros [Hp Hw _ _] Hi Ha Ho Ht.
  destruct (Connection_Close_spec order (p_conn p) (world st)) as (w & Hc & _); [by apply (Hp a p)|done|done|].
  cbn [server_run server_step cleanup]. cbv zeta. rewrite Ha, (proj2 (Z.leb_le _ _)), Hc by done. rewrite !bind_Ok.
  set (st1 := set_server _ _ _). assert (job st1 = job st) as -> by done.
  assert (∀ A (f : Connection → W → outcome (A * Connection * W)),
    on_peer a f (server st1) (world st1) = Panic NilDereference) as Hpanic.
  { intros A f. unfold on_peer, st1. simpl. by rewrite lookup_delete_eq. }
  destruct (job st) as [|a' data|a' payload|] eqn:Ej; [done| | |done]; injection Hi as ->.
  - by rewrite Hpanic.
  - rewrite bind_Ok. assert (job st1 = Handling a payload) as -> by done. by rewrite Hpanic.
Qed.

(** A timeout of five seconds, and a datagram of the idle peer. *)
Definition race_server : Server := two_peers <| cMap := {[client_a := mkPeer conn_a 0]} |> <| verbose := true |>.

Lemma cleanup_race_panics_witness :
  server_run [EvCleanup [(client_a, 5 * second, [1])]; EvReceive []; EvHandle [] 0]
    (mkState race_server 0%nat (Received client_a open_datagram) true [] []) = Panic NilDereference.
Proof.
  destruct Echo.conn_ok as [Hs Hh].
  apply (cleanup_race_panics [1] [] (5 * second) 0 client_a (mkPeer conn_a 0));
    [|reflexivity|reflexivity|exact conn_a_order|apply (bool_decide_unpack _); vm_compute; exact I].
  split; [|exact I| |reflexivity].
  - intros a p Hp. simpl in Hp. apply lookup_singleton_Some in Hp as [_ <-].
    split; [split; [exact Hs|by apply handles_add|reflexivity]|reflexivity].
  - split; [by eexists|]. split; [vm_compute; discriminate|].
    unfold datagram_ok, request_ok. case_match; [|done]. by case_match; [case_match|].
Defined.
