(* ===== verification/ServerLifecycle.v ===== *)
(** * The life of the server

    Its start and the address of its data socket, an undisturbed datagram, what the
    metrics logger prints, and that Close comes to an end. *)
From stdpp Require Import gmap sorting.
From S2P Require Import Prelude RdmaProtocol RdmaSession RdmaPack RdmaWire UdpfsProtocol UdpfsConnection UdpfsContract UdpfsProperties GoPath GoText CompressedImage CompressionProperties.
From S2P Require Import OsWorld Backend BackendInvariant BackendContract MemOs BackendProperties Server ServerContract ServerProperties.

(** ** The address of the data socket *)

Lemma zero_port c : c ∈ str "0" → c = Byte.x30.
Proof. by intros [->|?%not_elem_of_nil]%elem_of_cons. Qed.

(** The data socket gets a usable address.  A bind address with a port is used as it
    is, an empty one means any address and port, and an address without a port, be it
    a name, an IPv4 address or a bare IPv6 address with its colons, becomes the same
    host with port 0; in each case the address that is resolved splits into that host
    and port. *)
Theorem data_address_splits ip :
  lbracket ∉ ip → rbracket ∉ ip →
  SplitHostPort (data_address ip) =
    match SplitHostPort ip with
    | Some hp => Some hp
    | None => Some (ip, str "0")
    end ∧
  (is_Some (SplitHostPort ip) → data_address ip = ip).
Proof.
  intros Hl Hr. unfold data_address. destruct (decide (ip = [])) as [->|Hne]; [by split; [|intros [? ?]]|].
  rewrite bool_decide_eq_false_2 by done. cbn [negb].
  destruct (SplitHostPort ip) as [hp|] eqn:E; [by rewrite E|]. split; [|by intros [? ?]].
  apply SplitHostPort_Join; [done..| | |]; by intros ?%zero_port.
Qed.

Lemma data_address_splits_witness :
  data_address (str "192.168.1.1") = str "192.168.1.1:0" ∧
  SplitHostPort (data_address (str "fe80::1")) = Some (str "fe80::1", str "0") ∧
  data_address (str "0.0.0.0:62966") = str "0.0.0.0:62966".
Proof.
  split; [reflexivity|]. split.
  - rewrite (proj1 (data_address_splits (str "fe80::1") ltac:(apply (bool_decide_unpack _); vm_compute; exact I)
      ltac:(apply (bool_decide_unpack _); vm_compute; exact I))). reflexivity.
  - apply data_address_splits; [apply (bool_decide_unpack _); vm_compute; exact I..|]. by eexists.
Defined.

(** ** A datagram without interruption *)

Section Life.
Context {W : Type} `{HW : FSContract W}.

(** When nothing falls between them, the steps of the data handler are handleData. *)
Lemma handleData_steps order order' now a data (st : state W) :
  job st = Reading → is_open (dataConn (server st)) = true → 6 <= zlen (read_datagram data) →
  server_run [EvArrive now a data; EvReceive order; EvHandle order' now] st =
    ('(s, w) ← handleData order order' now a (read_datagram data) (server st) (world st); Ok (set_server s w st)).
Proof.
  intros Hj Ho Hl. cbn [server_run server_step]. unfold dataHandler. rewrite Hj, Ho. cbv zeta.
  rewrite (proj2 (Z.ltb_ge _ _)) by lia. cbn [negb orb]. rewrite bind_Ok. cbn [server_step job set_job server world set_server].
  unfold handleData. destruct (on_peer a (receive_packet order _) _ _) as [[[x s] w]| |]; [|done..]. rewrite !bind_Ok.
  destruct st as [s0 w0 j d r p]. cbn in Hj. subst j. destruct x as [payload|]; cbn [job set_job]; [|done].
  cbn [server world set_server set_job]. by destruct (on_peer a (handle_payload order' now payload) s w) as [[[[] s1] w1]| |].
Qed.

(** ** Close *)

Definition closed (st : state W) : Prop :=
  is_open (dataConn (server st)) = false ∧ is_open (discConn (server st)) = false.

Lemma Server_Close_closed s : is_open (dataConn (Server_Close s)) = false ∧ is_open (discConn (Server_Close s)) = false.
Proof. unfold Server_Close. simpl. by destruct (dataConn s), (discConn s). Qed.

Lemma on_peer_conns {A} a (f : Connection → W → outcome (A * Connection * W)) s w x s' w' :
  on_peer a f s w = Ok (x, s', w') → dataConn s' = dataConn s ∧ discConn s' = discConn s.
Proof.
  unfold on_peer. destruct (cMap s !! a); [|done]. intros Hr. apply bind_Ok_inv in Hr as ([[y c] w1] & _ & Hr).
  by injection Hr as _ <- _.
Qed.

Lemma cleanup_conns visits s (w : W) s' w' :
  cleanup visits s w = Ok (s', w') → dataConn s' = dataConn s ∧ discConn s' = discConn s.
Proof.
  revert s w. induction visits as [|[[a now] order] visits IH]; intros s w Hr; cbn [cleanup] in Hr; [by injection Hr as <- _|].
  destruct (cMap s !! a); [|by eapply IH]. destruct (_ <=? _); [|by eapply IH].
  apply bind_Ok_inv in Hr as ([c1 w1] & _ & Hr). by apply IH in Hr.
Qed.

Lemma wg_Done_conns s s' : wg_Done s = Ok s' → dataConn s' = dataConn s ∧ discConn s' = discConn s.
Proof. unfold wg_Done. case_match; [done|]. by intros [= <-]. Qed.

(** Closed sockets stay closed, and no datagram is taken from them: a handler that is
    not busy does not get busy, and no discovery is answered. *)
Lemma closed_step e st st' :
  closed st → server_step e st = Ok st' →
  closed st' ∧ replies st' = replies st ∧ (busy_with (job st) = None → busy_with (job st') = None).
Proof.
  intros Hc Hr. pose proof Hc as [Hd Hs]. unfold closed.
  destruct e as [a data|now a data|order|order now|visits|now visits|a| | |]; cbn [server_step] in Hr; unfold dataHandler, discoveryHandler in Hr; cbv zeta in Hr.
  - rewrite Hs, andb_false_r in Hr. by injection Hr as <-.
  - rewrite Hd in Hr. cbn [negb orb] in Hr. destruct (job st) eqn:Ej; injection Hr as <-; by rewrite Ej.
  - destruct (job st) as [|a data| |] eqn:Ej; [by injection Hr as <-; rewrite Ej| |by injection Hr as <-; rewrite Ej..].
    apply bind_Ok_inv in Hr as ([[x s] w] & H1 & Hr). injection Hr as <-. apply on_peer_conns in H1 as [E1 E2].
    simpl. by rewrite E1, E2.
  - destruct (job st) as [| |a payload|] eqn:Ej; [by injection Hr as <-; rewrite Ej..| |by injection Hr as <-; rewrite Ej].
    apply bind_Ok_inv in Hr as ([[x s] w] & H1 & Hr). injection Hr as <-. apply on_peer_conns in H1 as [E1 E2].
    simpl. by rewrite E1, E2.
  - apply bind_Ok_inv in Hr as ([s w] & H1 & Hr). injection Hr as <-. apply cleanup_conns in H1 as [E1 E2].
    simpl. by rewrite E1, E2.
  - destruct (logMetrics _); [|by injection Hr as <-]. apply bind_Ok_inv in Hr as (t & _ & Hr). by injection Hr as <-.
  - apply bind_Ok_inv in Hr as (s & H1 & Hr). injection Hr as <-. unfold peer_timer in H1.
    destruct (cMap (server st) !! a); [|by injection H1 as <-]. apply bind_Ok_inv in H1 as (s1 & _ & H1). by injection H1 as <-.
  - injection Hr as <-. simpl. destruct (Server_Close_closed (server st)). by split_and!.
  - destruct (_ && _); [|by injection Hr as <-]. apply bind_Ok_inv in Hr as (s & H1 & Hr). injection Hr as <-.
    apply wg_Done_conns in H1 as [E1 E2]. simpl. by rewrite E1, E2.
  - destruct (job st) eqn:Ej; [|by injection Hr as <-; rewrite Ej..]. destruct (negb _); [|by injection Hr as <-; rewrite Ej].
    apply bind_Ok_inv in Hr as (s & H1 & Hr). injection Hr as <-. apply wg_Done_conns in H1 as [E1 E2].
    simpl. by rewrite E1, E2.
Qed.

Lemma closed_run es st st' :
  closed st → server_run es st = Ok st' →
  closed st' ∧ replies st' = replies st ∧ (busy_with (job st) = None → busy_with (job st') = None).
Proof.
  revert st. induction es as [|e es IH]; intros st Hc Hr; cbn [server_run] in Hr; [by injection Hr as <-|].
  apply bind_Ok_inv in Hr as (st1 & H1 & Hr). destruct (closed_step e st st1 Hc H1) as (Hc1 & E1 & B1).
  destruct (IH st1 Hc1 Hr) as (Hc2 & E2 & B2). split_and!; [done|congruence|auto].
Qed.

(** The handlers finish what they have begun and return. *)
Lemma handlers_return order order' now (st : state W) :
  server_ok st → closed st →
  ∃ st', server_run [EvReceive order; EvHandle order' now; EvDataExit; EvDiscoveryExit] st = Ok st' ∧
    server_ok st' ∧ job st' = Returned ∧ discovering st' = false.
Proof.
  intros Hst Hc.
  destruct (step_receive_ok order st Hst) as (st1 & H1 & Hst1). destruct (closed_step _ _ _ Hc H1) as (Hc1 & _).
  destruct (step_handle_ok order' now st1 Hst1) as (st2 & H2 & Hst2). destruct (closed_step _ _ _ Hc1 H2) as (Hc2 & _ & B2).
  destruct (step_exit_ok EvDataExit st2 ltac:(by right) Hst2) as (st3 & H3 & Hst3).
  destruct (step_exit_ok EvDiscoveryExit st3 ltac:(by left) Hst3) as (st4 & H4 & Hst4).
  destruct (closed_step _ _ _ Hc2 H3) as (Hc3 & _).
  exists st4. cbn [server_run]. rewrite H1, bind_Ok, H2, bind_Ok, H3, bind_Ok, H4, bind_Ok. split_and!; [done..| |].
  - assert (job st2 = Reading ∨ job st2 = Returned) as Hj2.
    { cbn [server_step] in H1, H2. cbv zeta in H1, H2.
      destruct (job st1) as [|a data|a payload|] eqn:E1; [by injection H2 as <-; left| | |by injection H2 as <-; right].
      - exfalso. destruct (job st) eqn:E; [by injection H1 as <-; rewrite E in E1| |by injection H1 as <-; rewrite E in E1..].
        apply bind_Ok_inv in H1 as ([[x s] w] & _ & H1). injection H1 as <-. simpl in E1. by destruct x.
      - apply bind_Ok_inv in H2 as ([[x s] w] & _ & H2). injection H2 as <-. by left. }
    assert (job st3 = Returned) as Hj3.
    { cbn [server_step] in H3. unfold dataHandler in H3. cbv zeta in H3. destruct Hc2 as [Hd2 _]. destruct Hj2 as [E|E]; rewrite E in H3.
      - rewrite Hd2 in H3. cbn [negb] in H3. apply bind_Ok_inv in H3 as (s & _ & H3). by injection H3 as <-.
      - by injection H3 as <-. }
    cbn [server_step] in H4. unfold discoveryHandler in H4. cbv zeta in H4. destruct (_ && _); [|by injection H4 as <-].
    apply bind_Ok_inv in H4 as (s & _ & H4). by injection H4 as <-.
  - cbn [server_step] in H4. unfold discoveryHandler in H4. cbv zeta in H4. destruct Hc3 as [_ Hs3]. rewrite Hs3 in H4. cbn [negb] in H4.
    rewrite andb_true_r in H4. destruct (discovering st3) eqn:E; [|by injection H4 as <-].
    apply bind_Ok_inv in H4 as (s & _ & H4). by injection H4 as <-.
Qed.

(** C19: Close returns.  Once the program closes the server, no datagram is taken from
    the sockets any more and no discovery answered; and whatever the other goroutines
    do meanwhile within [events_ok] (requests in range, and no cleanup of the peer
    whose datagram is being handled, which can panic or deadlock, see
    cleanup_race_panics and cleanup_reset_deadlock), as soon as the handlers get to
    run, the data handler finishes the datagram it has and both return, after which
    the wait group is at zero and Close comes back. *)
Theorem close_returns order order' now es (st st1 : state W) :
  server_ok st → events_ok (EvClose :: es) st → server_run (EvClose :: es) st = Ok st1 →
  replies st1 = replies st ∧ (busy_with (job st) = None → busy_with (job st1) = None) ∧
  ∃ st2, server_run [EvReceive order; EvHandle order' now; EvDataExit; EvDiscoveryExit] st1 = Ok st2 ∧
    wg (server st2) = 0 ∧ job st2 = Returned ∧ discovering st2 = false.
Proof.
  intros Hst Hes Hrun. destruct (server_run_ok _ _ Hst Hes) as (st1' & Hrun' & Hst1).
  rewrite Hrun in Hrun'. injection Hrun' as <-. cbn [server_run] in Hrun. apply bind_Ok_inv in Hrun as (st0 & H0 & Hrun).
  injection H0 as <-. destruct (closed_run es (set_server (Server_Close (server st)) (world st) st) st1
    (Server_Close_closed (server st)) Hrun) as (Hc & Hrep & Hbusy).
  split; [exact Hrep|]. split; [exact Hbusy|].
  destruct (handlers_return order order' now st1 Hst1 Hc) as (st2 & Hr & Hst2 & Hj & Hd).
  exists st2. split_and!; [done| |done..]. rewrite (sv_wg _ Hst2). unfold running. by rewrite Hj, Hd.
Qed.
End Life.

(** The small server, closed while a datagram is in the session. *)
Lemma close_returns_witness :
  ∃ st1 st2, server_run [EvClose; EvArrive 3 client_a open_datagram; EvTimer client_a]
    (set_job (Received client_a open_datagram) (started (lookup_peer 1 client_a ram_server) (ram_backend, ram0))) = Ok st1 ∧
    server_run [EvReceive []; EvHandle [] 2; EvDataExit; EvDiscoveryExit] st1 = Ok st2 ∧ wg (server st2) = 0.
Proof.
  set (st := set_job _ _).
  assert (server_ok (HW := backend_contract 512) st) as Hst.
  { split; [|exact (fresh_ok ram_backend ram0 ltac:(done) ltac:(done) ltac:(done))| |done].
    - by apply lookup_peer_ok.
    - split; [by eexists|]. split; [vm_compute; discriminate|exact open_datagram_ok]. }
  assert (events_ok (HW := backend_contract 512) [EvClose; EvArrive 3 client_a open_datagram; EvTimer client_a] st) as Hes.
  { repeat (split; [first [exact I | exact open_datagram_ok]|intros ? _]). exact I. }
  destruct (server_run_ok (HW := backend_contract 512) _ st Hst Hes) as (st1 & Hrun & _).
  destruct (close_returns (HW := backend_contract 512) [] [] 2 [EvArrive 3 client_a open_datagram; EvTimer client_a]
    st st1 Hst Hes Hrun) as (_ & _ & st2 & Hr & Hwg & _).
  exists st1, st2. split; [exact Hrun|]. split; [exact Hr|exact Hwg].
Defined.

(** ** Statistics *)

(** C40: what is printed of a peer does not depend on how Go walks the maps of its
    counters, but for the order of the lines of the errors.  Whatever orders the loops
    take over the same keys, the text is the header, the lines of the commands in
    alphabetical order, the total of the errors (their sum, at the width of an int64)
    with its lines if it is positive, and the footer; only the lines of the errors come
    in the order of their loop, and they are the same lines. *)
Theorem statistics_deterministic o o' addr p m :
  so_commands o ≡ₚ so_commands o' → so_errors o ≡ₚ so_errors o' → so_lines o ≡ₚ so_lines o' →
  Connection_GetMetrics (p_conn p) = Ok m →
  ∃ cmds n, Sorted str_le cmds ∧ cmds ≡ₚ command_lines (so_commands o) (CommandCounts m) ∧
    n = i64 (sum_counts (range_map (so_errors o) (ErrorCounts m))) ∧
    error_lines (so_lines o) (ErrorCounts m) ≡ₚ error_lines (so_lines o') (ErrorCounts m) ∧
    ∀ q, q ∈ [o; o'] →
      printPeerStats q addr p =
        Ok (stats_header addr p cmds ++
            (if 0 <? n then Text (str "Errors: " ++ Itoa n ++ str " total" ++ nl) ::
                            error_lines (so_lines q) (ErrorCounts m)
             else []) ++
            stats_footer m (GetMetrics (sess (p_conn p)))).
Proof.
  intros H1 H2 H3 Hm. exists (sort_Strings (command_lines (so_commands o) (CommandCounts m))).
  exists (error_total (so_errors o) (ErrorCounts m)). split; [apply Sorted_merge_sort, _|].
  split; [apply merge_sort_Permutation|]. split; [apply error_total_sum|].
  split; [unfold error_lines; by rewrite (range_map_Permutation _ _ _ H3)|].
  intros q Hq. unfold printPeerStats. rewrite Hm, bind_Ok. cbv zeta.
  assert (so_commands q ≡ₚ so_commands o ∧ so_errors q ≡ₚ so_errors o) as [Hc He].
  { apply elem_of_cons in Hq as [->|[->|?%not_elem_of_nil]%elem_of_cons]; done. }
  by rewrite (command_lines_sorted _ _ _ Hc), (error_total_order _ _ _ He).
Qed.

(** A peer with three requests, two of which failed, printed in two orders. *)
Definition busy_peer : peer :=
  mkPeer (NewConnection NewSession true true <| collector := Some (newMetricCollector
    <| commandCounts := {[MsgReadReq := 2; MsgOpenReq := 1]} |> <| errorCounts := {[MsgReadReq := 1; MsgOpenReq := 1]} |>) |>) 0.
Definition busy_orders : stat_orders :=
  mkOrders [MsgReadReq; MsgOpenReq] [MsgReadReq; MsgOpenReq] [MsgOpenReq; MsgReadReq].
Definition busy_orders' : stat_orders :=
  mkOrders [MsgOpenReq; MsgReadReq] [MsgOpenReq; MsgReadReq] [MsgReadReq; MsgOpenReq].

Lemma statistics_deterministic_witness :
  ∃ before lines lines' after,
    printPeerStats busy_orders (str "10.0.0.1:62966") busy_peer = Ok (before ++ lines ++ after) ∧
    printPeerStats busy_orders' (str "10.0.0.1:62966") busy_peer = Ok (before ++ lines' ++ after) ∧
    lines ≡ₚ lines'.
Proof.
  destruct (statistics_deterministic busy_orders busy_orders' (str "10.0.0.1:62966") busy_peer _
    (Permutation_swap _ _ _) (Permutation_swap _ _ _) (Permutation_swap _ _ _) eq_refl)
    as (cmds & n & _ & _ & _ & Hp & Hr).
  eexists _, _, _, _. split; [apply Hr; by left|]. split; [apply Hr; right; by left|].
  destruct (0 <? n); [by rewrite Hp|done].
Defined.
