(* ===== verification/LockOrder.v ===== *)
(** * Mutexes and goroutines

    A goroutine is seen as the sequence of its [Lock] and [Unlock] calls; a step of
    the program is a step of one goroutine.  A [prog] describes the sequences that a
    piece of code can make: it is written like the code, with the conditions left
    open.  Goroutines that take the mutexes in the order of a rank do not deadlock,
    whatever their number and however they are interleaved; a goroutine may break the
    order for mutexes that no other one uses meanwhile. *)
From stdpp Require Import functions relations.
From S2P Require Import Prelude.

(** ** Mutexes *)

(** The server's; of a connection: its own, its session's and its collector's; the
    backend's; and of a handle: its own and that of its block cache. *)
Inductive mutex :=
| MServer
| MConnection (k : Z)
| MSession (k : Z)
| MCollector (k : Z)
| MBackend
| MHandle (h : Z)
| MCache (h : Z).

#[export] Instance mutex_eq_dec : EqDecision mutex.
Proof. solve_decision. Defined.

Inductive action := Lock (m : mutex) | Unlock (m : mutex).

(** ** Code and its sequences *)

Inductive prog :=
| Skip
| Locked (m : mutex) (p : prog)
| Seq (p q : prog)
| Alt (p q : prog)
| Loop (p : prog)
| Any (f : Z → prog).

Declare Scope prog_scope.
Delimit Scope prog_scope with prog.
Bind Scope prog_scope with prog.
Notation "p ;; q" := (Seq p q) : prog_scope.

Definition Opt (p : prog) : prog := Alt p Skip.

Inductive traces : prog → list action → Prop :=
| tr_skip : traces Skip []
| tr_locked m p t : traces p t → traces (Locked m p) (Lock m :: t ++ [Unlock m])
| tr_seq p q t u : traces p t → traces q u → traces (Seq p q) (t ++ u)
| tr_alt_l p q t : traces p t → traces (Alt p q) t
| tr_alt_r p q t : traces q t → traces (Alt p q) t
| tr_loop_stop p : traces (Loop p) []
| tr_loop_go p t u : traces p t → traces (Loop p) u → traces (Loop p) (t ++ u)
| tr_any f n t : traces (f n) t → traces (Any f) t.

(** The mutexes that a piece of code can take. *)
Fixpoint mentions (p : prog) (m : mutex) : Prop :=
  match p with
  | Skip => False
  | Locked m' p => m' = m ∨ mentions p m
  | Seq p q | Alt p q => mentions p m ∨ mentions q m
  | Loop p => mentions p m
  | Any f => ∃ n, mentions (f n) m
  end.

Lemma traces_mentions p t m : traces p t → Lock m ∈ t → mentions p m.
Proof.
  induction 1 as [|m' p t _ IH|p q t u _ IHt _ IHu|p q t _ IH|p q t _ IH|p|p t u _ IHt _ IHu|f n t _ IH];
    cbn [mentions] in *; set_solver.
Qed.

(** ** Goroutines *)

(** The data handler, the two tickers, and any number of timer callbacks. *)
Inductive tid := TData | TCleanup | TMetrics | TTimer (n : Z).

#[export] Instance tid_eq_dec : EqDecision tid.
Proof. solve_decision. Defined.

Record thread := mkThread { held : list mutex; todo : list action }.

Abbreviation config := (tid → thread).
Definition all_idle : config := λ _, mkThread [] [].

Definition release (m : mutex) (l : list mutex) : list mutex := filter (λ x, x ≠ m) l.

(** A [Lock] waits until nobody holds the mutex, its own goroutine included; a
    goroutine that has nothing to do begins with a sequence that [may] allows. *)
Inductive lock_step (may : config → tid → list action → Prop) : config → config → Prop :=
| step_lock c i m rest :
    todo (c i) = Lock m :: rest → (∀ j, m ∉ held (c j)) →
    lock_step may c (<[i := mkThread (m :: held (c i)) rest]> c)
| step_unlock c i m rest :
    todo (c i) = Unlock m :: rest →
    lock_step may c (<[i := mkThread (release m (held (c i))) rest]> c)
| step_begin c i t :
    todo (c i) = [] → may c i t → lock_step may c (<[i := mkThread (held (c i)) t]> c).

(** A goroutine holds the mutex, or is going to take it. *)
Definition uses (c : config) (i : tid) (m : mutex) : Prop := m ∈ held (c i) ∨ Lock m ∈ todo (c i).

(** Goroutines that wait for one another: a set in which everyone waits for a mutex
    that someone of the set holds. *)
Definition waits_for (c : config) (i j : tid) : Prop :=
  ∃ m rest, todo (c i) = Lock m :: rest ∧ m ∈ held (c j).

Definition deadlock (c : config) : Prop :=
  ∃ S : list tid, S ≠ [] ∧ ∀ i, i ∈ S → ∃ j, j ∈ S ∧ waits_for c i j.

Lemma release_subset m l x : x ∈ release m l → x ∈ l.
Proof. unfold release. rewrite list_elem_of_filter. tauto. Qed.

(** What a goroutine uses after a step it used before, but for what it begins with. *)
Lemma uses_step may c c' :
  lock_step may c c' →
  ∀ i m, uses c' i m → uses c i m ∨ ∃ t, may c i t ∧ Lock m ∈ t.
Proof.
  intros Hs j x. unfold uses. destruct Hs as [c i m rest Ht _|c i m rest Ht|c i t Ht Hm];
    (destruct (decide (j = i)) as [->|Hne]; [rewrite fn_lookup_insert; cbn [held todo]|rewrite fn_lookup_insert_ne; by auto]).
  - rewrite Ht, !elem_of_cons. naive_solver.
  - rewrite Ht, elem_of_cons. intros [Hx%release_subset|Hx]; auto.
  - intros [Hx|Hx]; [auto|right; by exists t].
Qed.

(** ** The order *)

Definition rank (m : mutex) : Z :=
  match m with
  | MServer => 0
  | MConnection _ => 1
  | MSession _ => 2
  | MBackend => 3
  | MHandle _ => 4
  | MCache _ => 5
  | MCollector _ => 6
  end.

Definition above (held : list mutex) (m : mutex) : Prop := Forall (λ h, rank h < rank m) held.

Section Order.
(** The mutexes that a goroutine may take out of order. *)
Context (exempt : tid → mutex → Prop).

Fixpoint disciplined (i : tid) (held : list mutex) (t : list action) : Prop :=
  match t with
  | [] => held = []
  | Lock m :: t => (m ∉ held) ∧ (exempt i m ∨ above held m) ∧ disciplined i (m :: held) t
  | Unlock m :: t => m ∈ held ∧ disciplined i (release m held) t
  end.

Fixpoint checked (i : tid) (held : list mutex) (p : prog) : Prop :=
  match p with
  | Skip => True
  | Locked m p => (m ∉ held) ∧ (exempt i m ∨ above held m) ∧ checked i (m :: held) p
  | Seq p q | Alt p q => checked i held p ∧ checked i held q
  | Loop p => checked i held p
  | Any f => ∀ n, checked i held (f n)
  end.

Lemma release_head m held : m ∉ held → release m (m :: held) = held.
Proof.
  intros Hm. unfold release. rewrite filter_cons_False by (intros Hn; by apply Hn).
  induction held as [|x held IH]; [done|]. apply not_elem_of_cons in Hm as [Hx Hm].
  rewrite filter_cons_True by congruence. by rewrite IH.
Qed.

(** Code that passes the check makes disciplined sequences only. *)
Lemma traces_disciplined i p t :
  traces p t → ∀ held rest, checked i held p → disciplined i held rest → disciplined i held (t ++ rest).
Proof.
  induction 1 as [|m p t _ IH|p q t u _ IHt _ IHu|p q t _ IH|p q t _ IH|p|p t u _ IHt _ IHu|f n t _ IH];
    intros held rest Hc Hr; cbn [checked] in Hc.
  - done.
  - destruct Hc as (Hm & Ho & Hc). cbn [app disciplined]. split; [done|]. split; [done|].
    rewrite <- app_assoc. apply IH; [done|]. cbn [app disciplined]. rewrite release_head by done.
    split; [by left|done].
  - rewrite <- app_assoc. destruct Hc as [Hp Hq]. apply IHt; [done|]. by apply IHu.
  - apply IH; [apply Hc|done].
  - apply IH; [apply Hc|done].
  - done.
  - rewrite <- app_assoc. apply IHt; [done|]. by apply IHu.
  - apply IH; [apply Hc|done].
Qed.

Record orderly (c : config) : Prop := {
  od_disciplined : ∀ i, disciplined i (held (c i)) (todo (c i));
  od_private : ∀ i j m, exempt i m → uses c i m → uses c j m → j = i
}.

Lemma all_idle_orderly : orderly all_idle.
Proof. split; [done|]. intros i j m _ [Hu|Hu]; by apply not_elem_of_nil in Hu. Qed.

Definition waiting_rank (c : config) (i : tid) : Z :=
  match todo (c i) with
  | Lock m :: _ => rank m
  | _ => 0
  end.

Lemma max_in {A} (f : A → Z) (l : list A) : l ≠ [] → ∃ x, x ∈ l ∧ ∀ y, y ∈ l → f y <= f x.
Proof.
  induction l as [|x l IH]; [done|]. intros _. destruct l as [|y l].
  { exists x. split; [by left|]. by intros z [->|?%not_elem_of_nil]%elem_of_cons. }
  destruct IH as (z & Hz & Hmax); [done|]. destruct (Z.le_gt_cases (f x) (f z)).
  - exists z. split; [by right|]. intros u [->|Hu]%elem_of_cons; [done|by apply Hmax].
  - exists x. split; [by left|]. intros u [->|Hu]%elem_of_cons; [done|]. specialize (Hmax u Hu). lia.
Qed.

(** The goroutine of the set that waits for the mutex of the highest rank waits for
    one that waits for a higher one. *)
Lemma orderly_no_deadlock c : orderly c → ¬ deadlock c.
Proof.
  intros [Hd Hp] (S & Hne & HS). destruct (max_in (waiting_rank c) S Hne) as (i & Hi & Hmax).
  destruct (HS i Hi) as (j & Hj & m & rest & Hw & Hm). destruct (HS j Hj) as (j' & Hj' & m' & rest' & Hw' & Hm').
  pose proof (Hd j) as Hdj. rewrite Hw' in Hdj. destruct Hdj as (Hn & [Hex|Hab] & _).
  - assert (j' = j) as -> by (apply (Hp j j' m' Hex); [right; rewrite Hw'; by left|by left]). done.
  - specialize (Hmax j Hj). unfold waiting_rank in Hmax. rewrite Hw, Hw' in Hmax.
    unfold above in Hab. rewrite Forall_forall in Hab. specialize (Hab m Hm). lia.
Qed.

(** A step that only moves on keeps the order. *)
Lemma orderly_move c i h t :
  orderly c → disciplined i h t → (∀ m, m ∈ h ∨ Lock m ∈ t → uses c i m) → orderly (<[i := mkThread h t]> c).
Proof.
  intros [Hd Hp] Hi Hu. assert (∀ j m, uses (<[i := mkThread h t]> c) j m → uses c j m) as Hmono.
  { intros j m. unfold uses. destruct (decide (j = i)) as [->|Hne].
    - rewrite fn_lookup_insert. apply Hu.
    - by rewrite fn_lookup_insert_ne. }
  split.
  - intros j. destruct (decide (j = i)) as [->|Hne]; [by rewrite fn_lookup_insert|by rewrite fn_lookup_insert_ne].
  - intros j k m Hex Hj Hk. apply (Hp j k m Hex); by apply Hmono.
Qed.

Lemma orderly_step may c c' :
  orderly c →
  (∀ i t, may c i t → disciplined i [] t ∧
     (∀ m j, j ≠ i → Lock m ∈ t → uses c j m → ¬ exempt i m ∧ ¬ exempt j m)) →
  lock_step may c c' → orderly c'.
Proof.
  intros Hc Hmay Hs. pose proof Hc as [Hd Hp]. destruct Hs as [c i m rest Ht _|c i m rest Ht|c i t Ht Hm].
  - pose proof (Hd i) as Hi. rewrite Ht in Hi. destruct Hi as (_ & _ & Hi). apply orderly_move; [done..|].
    intros x Hx. unfold uses. rewrite Ht, !elem_of_cons. rewrite elem_of_cons in Hx. naive_solver.
  - pose proof (Hd i) as Hi. rewrite Ht in Hi. destruct Hi as (_ & Hi). apply orderly_move; [done..|].
    intros x [Hx%release_subset|Hx]; unfold uses; [by left|right; rewrite Ht; by right].
  - pose proof (Hd i) as Hi. rewrite Ht in Hi. cbn [disciplined] in Hi. rewrite Hi.
    destruct (Hmay i t Hm) as [Ht' Hx]. split.
    + intros j. destruct (decide (j = i)) as [->|Hne]; [by rewrite fn_lookup_insert|by rewrite fn_lookup_insert_ne].
    + intros j k m Hex. unfold uses. destruct (decide (j = i)) as [->|Hji], (decide (k = i)) as [->|Hki];
        rewrite ?fn_lookup_insert, ?(fn_lookup_insert_ne c i) by done; [done| | |by apply (Hp j k m)].
      * intros [?%not_elem_of_nil|Hl] Hk; [done|]. destruct (Hx m k Hki Hl Hk) as [Hn _]. done.
      * intros Hj [?%not_elem_of_nil|Hl]; [done|]. destruct (Hx m j Hji Hl Hj) as [_ Hn]. done.
Qed.
End Order.

(** Goroutines that wait for one another wait for ever. *)
Lemma deadlock_step may c c' : deadlock c → lock_step may c c' → deadlock c'.
Proof.
  intros (S & Hne & HS) Hs. exists S. split; [done|].
  assert (∃ i x, (i ∉ S) ∧ c' = <[i := x]> c) as (i & x & Hi & ->).
  { destruct Hs as [c i m rest Ht Hf|c i m rest Ht|c i t Ht Hm]; eexists i, _; (split; [|done]); intros Hi;
      destruct (HS i Hi) as (j & _ & m' & rest' & Hw & Hm'); rewrite Ht in Hw; [|done|done].
    injection Hw as <- _. by apply (Hf j). }
  intros j Hj. destruct (HS j Hj) as (l & Hl & m & rest & Hw & Hm). exists l. split; [done|]. exists m, rest.
  rewrite !fn_lookup_insert_ne by (intros ->; done). done.
Qed.

Lemma deadlock_forever may c c' : deadlock c → rtc (lock_step may) c c' → deadlock c'.
Proof. intros Hd Hr. induction Hr as [|c1 c2 c3 Hs _ IH]; [done|]. by eapply IH, deadlock_step. Qed.
