(* ===== verification/Locks.v ===== *)
(** * The mutexes of the server

    Which mutexes each operation of the program takes, and in which order, written
    down call by call; that the goroutines of the server do not deadlock as long as
    cleanup does not close the connection whose datagram is being handled, and that
    they do when it does.  A connection is named by a number: one that is made after
    another was removed is another one. *)
From stdpp Require Import functions relations.
From S2P Require Import Prelude LockOrder.
#[local] Open Scope prog_scope.

(** ** Backend (internal/fs) *)

(** allocHandle, freeHandle, getFile, getDir, getFileByPath and getFileState each hold
    the backend's mutex; closing a file object takes none. *)
Definition lock_allocHandle : prog := Locked MBackend Skip.
Definition lock_freeHandle : prog := Opt (Locked MBackend Skip).
Definition lock_getFile : prog := Opt (Locked MBackend Skip).
Definition lock_getDir : prog := Locked MBackend Skip.
Definition lock_getFileByPath : prog := Locked MBackend Skip.
Definition lock_getFileState : prog := Locked MBackend Skip.

(** An operation on an open file: the handle is looked up and, if it is one, locked. *)
Definition on_file (body : Z → prog) : prog := lock_getFile ;; Any (λ h, Opt (Locked (MHandle h) (body h))).

(** Reading a compressed image asks its block cache, which has a mutex. *)
Definition lock_cache (h : Z) : prog := Loop (Locked (MCache h) Skip).

Definition lock_Open : prog := Opt (lock_getFileState ;; Opt lock_allocHandle).
Definition lock_Close : prog := lock_freeHandle.
Definition lock_Read : prog := on_file lock_cache.
Definition lock_WriteStart : prog := on_file (λ _, Skip).
Definition lock_WriteChunk : prog := on_file (λ _, Skip).
Definition lock_CompleteWrite : prog := on_file (λ _, Skip).
Definition lock_Lseek : prog := on_file (λ _, Skip).
Definition lock_Dread : prog := lock_getDir ;; Any (λ h, Opt (Locked (MHandle h) Skip)).
Definition lock_Getstat : prog := Opt (lock_getFileByPath ;; Any (λ h, Opt (Locked (MHandle h) Skip))).
Definition lock_Bread : prog := on_file lock_cache.
Definition lock_BwriteStart : prog := on_file (λ _, Skip).

Section Connection.
Context (k : Z).

(** ** Session and connection (udprdma, udpfs) *)

Definition lock_send : prog := Locked (MSession k) Skip.
Definition lock_ackTimerFunc : prog := Locked (MSession k) Skip.

(** lookupHandle, addHandle, removeHandle, getWriteHandle, setWriteHandle and
    clearWriteHandle. *)
Definition lock_handles : prog := Locked (MConnection k) Skip.
Definition lock_SendWriteDone : prog := lock_handles ;; lock_send.

Definition lock_ResetPeer : prog := Locked (MConnection k) (Loop lock_Lseek).
Definition lock_Connection_Close : prog := Locked (MConnection k) (Loop lock_Close ;; Locked (MSession k) Skip).

(** A packet that resets the peer calls back under the session's mutex. *)
Definition lock_ProcessDataPacket : prog := Locked (MSession k) (Opt lock_ResetPeer).

Definition lock_logMetric : prog := Locked (MCollector k) Skip.

(** ** Handlers *)

Definition lock_handleOpen : prog :=
  Alt lock_send
    (Opt lock_handles ;; Alt lock_send (lock_Open ;; Opt lock_handles ;; lock_send)).
Definition lock_handleClose : prog := Alt lock_send (lock_Close ;; Opt lock_handles ;; lock_send).
Definition lock_handleRead : prog := Alt lock_send (Locked (MConnection k) (lock_Read ;; lock_send)).
Definition lock_handleChunk : prog :=
  lock_WriteChunk ;; Alt lock_SendWriteDone (Alt lock_send (lock_CompleteWrite ;; lock_SendWriteDone)).
Definition lock_handleWriteReq : prog :=
  Alt lock_send
    (lock_WriteStart ;; Alt lock_SendWriteDone (lock_handles ;; Alt lock_send lock_handleChunk)).
Definition lock_handleWriteData : prog := Alt lock_send (lock_handles ;; Alt lock_send lock_handleChunk).
Definition lock_handleLseek : prog := Alt lock_send (lock_Lseek ;; lock_send).
Definition lock_handleDread : prog := Alt lock_send (lock_Dread ;; lock_send).
Definition lock_handleGetstat : prog := Alt lock_send (lock_Getstat ;; lock_send).
Definition lock_handlePathOp : prog := lock_send.
Definition lock_handleBread : prog := Alt lock_send (Locked (MConnection k) (lock_Bread ;; lock_send)).
Definition lock_handleBwriteReq : prog :=
  Alt lock_send
    (lock_BwriteStart ;; Alt lock_SendWriteDone (lock_handles ;; Alt lock_send lock_handleChunk)).

Definition lock_HandlePayload : prog :=
  Alt lock_send
    (Alt lock_handleOpen (Alt lock_handleClose (Alt lock_handleRead (Alt lock_handleWriteReq
      (Alt lock_handleWriteData (Alt lock_handleLseek (Alt lock_handleDread (Alt lock_handleGetstat
        (Alt lock_handlePathOp (Alt lock_handleBread lock_handleBwriteReq))))))))) ;;
     Opt lock_logMetric).

(** ** Goroutines (internal/udpfsd) *)

Definition lock_handleData : prog :=
  Locked MServer Skip ;; lock_ProcessDataPacket ;; Opt lock_HandlePayload.

Definition lock_printPeerStats : prog := Locked (MCollector k) Skip ;; Locked (MSession k) Skip.
End Connection.

(** A loop over connections. *)
Fixpoint each (ks : list Z) (body : Z → prog) : prog :=
  match ks with
  | [] => Skip
  | k :: ks => body k ;; each ks body
  end.

(** A sweep of cleanup that closes the connections [ks]. *)
Definition lock_cleanup (ks : list Z) : prog := Locked MServer (each ks lock_Connection_Close).
Definition lock_metricsLogger (ks : list Z) : prog := Locked MServer (each ks lock_printPeerStats).

(** What each goroutine does at a time: the data handler a datagram of the connection
    [k], a timer its callback, the tickers a tick. *)
Inductive job_of : tid → prog → Prop :=
| job_data k : job_of TData (lock_handleData k)
| job_timer n k : job_of (TTimer n) (lock_ackTimerFunc k)
| job_cleanup ks : job_of TCleanup (lock_cleanup ks)
| job_metrics ks : job_of TMetrics (lock_metricsLogger ks).

Definition may_begin (c : config) (i : tid) (t : list action) : Prop := ∃ p, job_of i p ∧ traces p t.

(** The same, without the race: cleanup does not close the connection that the data
    handler is using, and the data handler does not get one that is being removed. *)
Definition may_begin_apart (c : config) (i : tid) (t : list action) : Prop :=
  may_begin c i t ∧
  ∀ k, Lock (MConnection k) ∈ t →
    match i with
    | TCleanup => ¬ uses c TData (MConnection k)
    | TData => ¬ uses c TCleanup (MConnection k)
    | _ => True
    end.

(** ** The check *)

(** The data handler takes the mutex of its connection under that of the session. *)
Definition exempt (i : tid) (m : mutex) : Prop :=
  match i, m with
  | TData, MConnection _ => True
  | _, _ => False
  end.

Ltac check_locks :=
  repeat match goal with
  | |- checked _ _ _ _ => hnf
  | |- _ ∧ _ => split
  | |- True => exact I
  | |- ∀ _, _ => intros ?
  | |- _ ∉ [] => apply not_elem_of_nil
  | |- _ ∉ _ :: _ => apply not_elem_of_cons
  | |- _ ≠ _ => congruence
  | |- exempt TData (MConnection _) ∨ _ => left; exact I
  | |- _ ∨ above _ _ => right; unfold above; repeat constructor; cbn [rank]; lia
  end.

Lemma checked_handleData k : checked exempt TData [] (lock_handleData k).
Proof. unfold lock_handleData. check_locks. Qed.

Lemma checked_timer n k : checked exempt (TTimer n) [] (lock_ackTimerFunc k).
Proof. check_locks. Qed.

Lemma checked_each i held ks body :
  (∀ k, checked exempt i held (body k)) → checked exempt i held (each ks body).
Proof. intros Hb. induction ks as [|k ks IH]; cbn [each checked]; [done|]. by split. Qed.

Lemma checked_cleanup ks : checked exempt TCleanup [] (lock_cleanup ks).
Proof. unfold lock_cleanup. cbn [checked]. split_and!; [check_locks..|]. apply checked_each. intros k. check_locks. Qed.

Lemma checked_metrics ks : checked exempt TMetrics [] (lock_metricsLogger ks).
Proof. unfold lock_metricsLogger. cbn [checked]. split_and!; [check_locks..|]. apply checked_each. intros k. check_locks. Qed.

Lemma job_checked i p : job_of i p → checked exempt i [] p.
Proof. intros []; auto using checked_handleData, checked_timer, checked_cleanup, checked_metrics. Qed.

Lemma job_disciplined i t c : may_begin c i t → disciplined exempt i [] t.
Proof.
  intros (p & Hj & Ht). rewrite <- (app_nil_r t). eapply traces_disciplined; [exact Ht|by apply job_checked|done].
Qed.

Lemma mentions_each ks body m : mentions (each ks body) m → ∃ k, mentions (body k) m.
Proof. induction ks as [|k ks IH]; cbn [each mentions]; [done|]. intros [Hm|Hm]; [by exists k|by apply IH]. Qed.

(** Only the data handler and cleanup use the mutex of a connection. *)
Lemma job_connection i t c k : may_begin c i t → Lock (MConnection k) ∈ t → i = TData ∨ i = TCleanup.
Proof.
  intros (p & Hj & Ht) Hl. apply (traces_mentions _ _ _ Ht) in Hl.
  destruct Hj as [k'|n k'|ks|ks]; [by left| |by right|]; exfalso.
  - by destruct Hl.
  - destruct Hl as [?|Hl]; [done|]. apply mentions_each in Hl as [k' [[?|[]]|[?|[]]]]; done.
Qed.

(** ** The goroutines of the server *)

Definition lock_inv (c : config) : Prop :=
  orderly exempt c ∧ ∀ i k, uses c i (MConnection k) → i = TData ∨ i = TCleanup.

Lemma lock_inv_step c c' : lock_inv c → lock_step may_begin_apart c c' → lock_inv c'.
Proof.
  intros [Ho Hu] Hs. split.
  - eapply orderly_step; [exact Ho| |exact Hs]. intros i t [Hm Hapart]. split; [by eapply job_disciplined|].
    intros m j Hne Hl Hj. split; intros Hex.
    + destruct i, m; try done. specialize (Hapart k Hl). cbn in Hapart.
      destruct (Hu j k Hj) as [->| ->]; [done|]. by apply Hapart.
    + destruct j, m; try done. destruct (job_connection i t c k Hm Hl) as [->| ->]; [done|]. by apply (Hapart k Hl).
  - intros i k Hi. destruct (uses_step _ _ _ Hs _ _ Hi) as [Hi'|(t & [Hm _] & Hl)]; [by eapply Hu|].
    by eapply job_connection.
Qed.

(** C18: the server does not deadlock.  The data handler, the cleanup ticker, the metrics
    logger and any number of timer callbacks, with the mutexes of the server, the
    connections, their sessions and collectors, the backend, its handles and the
    block caches: however their Lock and Unlock calls are interleaved, and however
    often each begins anew, no set of goroutines ever waits for one another; provided
    that cleanup does not close the connection whose datagram is being handled. *)
Theorem server_never_deadlocks c : rtc (lock_step may_begin_apart) all_idle c → ¬ deadlock c.
Proof.
  intros Hr. assert (lock_inv c) as [Ho _]; [|by eapply orderly_no_deadlock].
  assert (lock_inv all_idle) as Hi.
  { split; [apply all_idle_orderly|]. intros i k [Hu|Hu]; by apply not_elem_of_nil in Hu. }
  clear -Hr Hi. induction Hr as [|c1 c2 c3 Hs _ IH]; [done|]. apply IH. by eapply lock_inv_step.
Qed.

(** ** The race between cleanup and a peer reset *)

(** A datagram of connection [k] that resets its peer, which has no handles open, and
    a sweep that closes it. *)
Definition reset_trace (k : Z) : list action :=
  [Lock MServer; Unlock MServer; Lock (MSession k); Lock (MConnection k); Unlock (MConnection k); Unlock (MSession k)].
Definition close_trace (k : Z) : list action :=
  [Lock MServer; Lock (MConnection k); Lock (MSession k); Unlock (MSession k); Unlock (MConnection k); Unlock MServer].

Lemma reset_traces k : traces (lock_handleData k) (reset_trace k).
Proof.
  unfold lock_handleData, lock_ProcessDataPacket, lock_ResetPeer, Opt.
  apply (tr_seq _ _ [Lock MServer; Unlock MServer]); [apply (tr_locked _ _ []), tr_skip|].
  apply (tr_seq _ _ [Lock (MSession k); Lock (MConnection k); Unlock (MConnection k); Unlock (MSession k)] []);
    [|apply tr_alt_r, tr_skip].
  apply (tr_locked _ _ [Lock (MConnection k); Unlock (MConnection k)]), tr_alt_l.
  apply (tr_locked _ _ []), tr_loop_stop.
Qed.

Lemma close_traces k : traces (lock_cleanup [k]) (close_trace k).
Proof.
  unfold lock_cleanup, lock_Connection_Close. cbn [each].
  apply (tr_locked _ _ [Lock (MConnection k); Lock (MSession k); Unlock (MSession k); Unlock (MConnection k)]).
  rewrite <- (app_nil_r [_; _; _; _]). apply tr_seq; [|apply tr_skip].
  apply (tr_locked _ _ [Lock (MSession k); Unlock (MSession k)]).
  apply (tr_seq _ _ []); [apply tr_loop_stop|]. apply (tr_locked _ _ []), tr_skip.
Qed.

(** Both have taken their first mutexes of the connection. *)
Definition in_race (k : Z) (c : config) : Prop :=
  c TData = mkThread [MSession k] (drop 3 (reset_trace k)) ∧
  c TCleanup = mkThread [MConnection k; MServer] (drop 2 (close_trace k)).

Lemma race_deadlock k c : in_race k c → deadlock c.
Proof.
  intros [Hd Hc]. exists [TData; TCleanup]. split; [done|].
  intros i [->|[->|?%not_elem_of_nil]%elem_of_cons]%elem_of_cons; [| |done].
  - exists TCleanup. split; [right; by left|]. exists (MConnection k). eexists. rewrite Hd, Hc. split; [reflexivity|by left].
  - exists TData. split; [by left|]. exists (MSession k). eexists. rewrite Hd, Hc. split; [reflexivity|by left].
Qed.

Ltac nobody_holds := intros [| | |?]; cbn; first [apply not_elem_of_nil | set_solver].

Lemma race_reachable k : ∃ c, rtc (lock_step may_begin) all_idle c ∧ in_race k c.
Proof.
  eexists. split.
  - eapply rtc_l; [apply (step_begin _ _ TData (reset_trace k)); [reflexivity|]; eexists; split; [apply job_data|apply reset_traces]|].
    eapply rtc_l; [apply (step_begin _ _ TCleanup (close_trace k)); [reflexivity|]; eexists; split; [apply job_cleanup|apply close_traces]|].
    eapply rtc_l; [eapply (step_lock _ _ TData); [reflexivity|nobody_holds]|].
    eapply rtc_l; [eapply (step_unlock _ _ TData); reflexivity|].
    eapply rtc_l; [eapply (step_lock _ _ TData); [reflexivity|nobody_holds]|].
    eapply rtc_l; [eapply (step_lock _ _ TCleanup); [reflexivity|nobody_holds]|].
    eapply rtc_l; [eapply (step_lock _ _ TCleanup); [reflexivity|nobody_holds]|]. apply rtc_refl.
  - split; reflexivity.
Qed.

(** C39: cleanup can hang the server.  A sweep that closes a connection takes its mutex and
    then the session's; a datagram that resets the peer of the same connection takes
    the session's and then, in the callback, the connection's: for every connection
    there is a run in which both wait for each other, with the server's mutex held by
    cleanup, and from there on they wait for ever, whatever the other goroutines do. *)
Theorem cleanup_reset_deadlock k :
  ∃ c, rtc (lock_step may_begin) all_idle c ∧ held (c TData) = [MSession k] ∧
    held (c TCleanup) = [MConnection k; MServer] ∧ waits_for c TData TCleanup ∧ waits_for c TCleanup TData ∧
    ∀ c', rtc (lock_step may_begin) c c' → deadlock c'.
Proof.
  destruct (race_reachable k) as (c & Hr & Hrace). exists c. split; [exact Hr|]. pose proof Hrace as [Hd Hc].
  split; [by rewrite Hd|]. split; [by rewrite Hc|]. split; [|split].
  - exists (MConnection k). eexists. rewrite Hd, Hc. split; [reflexivity|by left].
  - exists (MSession k). eexists. rewrite Hd, Hc. split; [reflexivity|by left].
  - intros c' Hr'. eapply deadlock_forever; [by eapply race_deadlock|exact Hr'].
Qed.

(** A datagram of connection 1, and a sweep that closes connection 2 meanwhile. *)
Definition apart (c : config) : Prop := MSession 1 ∈ held (c TData) ∧ MConnection 2 ∈ held (c TCleanup).

Lemma data_begins (c : config) :
  ¬ uses c TCleanup (MConnection 1) → may_begin_apart c TData (reset_trace 1).
Proof.
  intros Hn. split; [eexists; split; [apply job_data|apply reset_traces]|].
  intros k Hk. unfold reset_trace in Hk. assert (k = 1) as -> by set_solver. exact Hn.
Qed.

Lemma cleanup_begins (c : config) :
  ¬ uses c TData (MConnection 2) → may_begin_apart c TCleanup (close_trace 2).
Proof.
  intros Hn. split; [eexists; split; [apply job_cleanup|apply close_traces]|].
  intros k Hk. unfold close_trace in Hk. assert (k = 2) as -> by set_solver. exact Hn.
Qed.

Lemma apart_reachable : ∃ c, rtc (lock_step may_begin_apart) all_idle c ∧ apart c.
Proof.
  eexists. split.
  - eapply rtc_l; [apply (step_begin _ _ TData (reset_trace 1)); [reflexivity|apply data_begins; unfold uses; cbn; set_solver]|].
    eapply rtc_l; [apply (step_begin _ _ TCleanup (close_trace 2)); [reflexivity|apply cleanup_begins; unfold uses; cbn; set_solver]|].
    eapply rtc_l; [eapply (step_lock _ _ TData); [reflexivity|nobody_holds]|].
    eapply rtc_l; [eapply (step_unlock _ _ TData); reflexivity|].
    eapply rtc_l; [eapply (step_lock _ _ TData); [reflexivity|nobody_holds]|].
    eapply rtc_l; [eapply (step_lock _ _ TCleanup); [reflexivity|nobody_holds]|].
    eapply rtc_l; [eapply (step_lock _ _ TCleanup); [reflexivity|nobody_holds]|]. apply rtc_refl.
  - split; by left.
Qed.

Lemma server_never_deadlocks_witness :
  ∃ c, rtc (lock_step may_begin_apart) all_idle c ∧ apart c ∧ ¬ deadlock c.
Proof.
  destruct apart_reachable as (c & Hr & Ha). exists c. split; [exact Hr|]. split; [exact Ha|].
  exact (server_never_deadlocks c Hr).
Defined.
