(* ===== verification/ReadOnly.v ===== *)
(** * A read-only server does not write

    The invariant of a backend that was started read-only: every handle is read-only
    and the system has only been asked to look, and to close files; that the
    operations keep it, and with them the handlers of a connection and the server. *)
From stdpp Require Import gmap.
From S2P Require Import Prelude RdmaProtocol RdmaSession RdmaPack RdmaReceive RdmaWire UdpfsProtocol UdpfsConnection UdpfsContract UdpfsProperties BlockCache CachedReader CompressedFile GoPath CompressedImage OsWorld Backend BackendLogic BackendInvariant BackendContract.
From S2P Require Import BackendProperties Server ServerContract ServerProperties MemOs CompressionProperties.

(** ** The invariant *)

Section ReadOnly.
Context {W : Type} `{OS W} `{Decoders}.
Implicit Types (b : Backend W) (w : W).

(** A call that only looks, or closes a file. *)
Definition look_step (w w' : W) : Prop := os_read_step w w' ∨ ∃ f, w' = snd (file_Close f w).

Definition ro_handle (h : handle W) : Prop :=
  match h with
  | HFile f => fh_readOnly f = true
  | HDir _ => True
  end.

Definition ro_files b : Prop :=
  b_readOnly b = true ∧ (∀ d, bdHandle b = Some d → fh_readOnly (bd_file d) = true) ∧
  ∀ i h, handles b !! i = Some (Some h) → ro_handle h.

Definition ro_inv (w0 : W) (s : bstate W) : Prop := ro_files (fst s) ∧ rtc look_step w0 (snd s).

Context (w0 : W).
Abbreviation I := (ro_inv w0).

Lemma I_step b w w' : look_step w w' → I (b, w) → I (b, w').
Proof. intros Hs [Hf Hw]. split; [done|]. by eapply rtc_r. Qed.

Lemma ens_read {A} (f : W → A * W) (Q : A → Prop) :
  (∀ w, os_read_step w (snd (f w))) → (∀ a, Q a) → ensures I (call f) Q.
Proof. intros Hf HQ. apply ens_call. intros b w HI. split; [|apply HQ]. eapply I_step, HI. left. apply Hf. Qed.

Lemma ens_slot i : ensures I (slot i) (λ x, ∀ h, x = Some h → ro_handle h).
Proof.
  unfold slot. eapply ens_bind; [apply (ens_gets _ _ (λ hs, ∀ i h, hs !! i = Some (Some h) → ro_handle h))|].
  - intros b w [[_ [_ Hh]] _]. exact Hh.
  - intros hs Hhs. apply ens_lift. intros x Hx h ->. unfold index in Hx. destruct (i <? 0); [done|].
    destruct (hs !! Z.to_nat i) as [y|] eqn:E; [|done]. injection Hx as ->. by eapply Hhs.
Qed.

Lemma ens_set_slot i x : (∀ h, x = Some h → ro_handle h) → ensures I (set_slot i x) any.
Proof.
  intros Hx. apply ens_modify; [done|]. intros b w [(Hr & Hd & Hh) Hw]. split; [|done]. split; [done|].
  split; [done|]. intros k h. simpl. intros Hk. destruct (decide (k = Z.to_nat i)) as [->|Hne].
  - assert (Z.to_nat i < length (handles b))%nat by (apply lookup_lt_Some in Hk; by rewrite length_insert in Hk).
    rewrite list_lookup_insert_eq in Hk by done. by injection Hk as ->; apply Hx.
  - rewrite list_lookup_insert_ne in Hk by done. by eapply Hh.
Qed.

Lemma ens_use_slot i : ensures I (use_slot i) any.
Proof.
  unfold use_slot. eapply ens_bind; [apply (ens_read _ any); [intros; constructor|done]|]. intros now _.
  by apply ens_modify.
Qed.

Lemma ens_handle_Close h : ensures I (handle_Close h) any.
Proof.
  destruct h as [f|d]; [|by apply ens_ret]. unfold handle_Close. eapply ens_bind; [|intros; by apply ens_ret].
  apply (ens_call _ _ any). intros b w HI. split; [|done]. unfold obj_Close. destruct (fh_obj f) as [name g|rd].
  - eapply I_step, HI. right. exists g. by destruct (file_Close g w).
  - by destruct (CachedReader_Close rd).
Qed.

Lemma ens_allocHandle h : ro_handle h → ensures I (allocHandle h) any.
Proof.
  intros Hh. assert (∀ i, ensures I (_ ← set_slot i (Some h); _ ← use_slot i; mret (i + 1)) any) as Hput.
  { intros i. eapply ens_bind; [apply ens_set_slot; by intros h' [= <-]|]. intros _ _.
    eapply ens_bind; [apply ens_use_slot|]. intros _ _. by apply ens_ret. }
  unfold allocHandle. eapply ens_bind; [apply (ens_read _ any); [intros; constructor|done]|]. intros now _.
  eapply ens_bind; [by apply (ens_gets _ _ any)|]. intros hs _. eapply ens_bind; [by apply (ens_gets _ _ any)|].
  intros lu _. destruct (alloc_scan hs lu 0 0 now) as [i|[o t]]; [apply Hput|].
  eapply ens_bind; [apply (ens_read _ any); [intros; constructor|done]|]. intros later _.
  destruct (handleMaxLastUsed <=? later - t); [|by apply ens_ret].
  eapply ens_bind; [apply ens_slot|]. intros old _. eapply ens_bind; [|intros _ _; apply Hput].
  destruct old; [apply ens_handle_Close|by apply ens_lift].
Qed.

Lemma ens_freeHandle h : ensures I (freeHandle h) any.
Proof.
  unfold freeHandle. destruct (h =? BlockDeviceHandle); [by apply ens_ret|]. cbv zeta.
  eapply ens_bind; [apply ens_slot|]. intros [old|] _; [|by apply ens_ret].
  eapply ens_bind; [apply ens_handle_Close|]. intros _ _.
  eapply ens_bind; [by apply ens_set_slot|]. intros _ _. by apply ens_ret.
Qed.

Definition ro_found (x : option (fref * fileHandle W)) : Prop := ∀ r f, x = Some (r, f) → fh_readOnly f = true.

Lemma ens_getFile h : ensures I (getFile h) ro_found.
Proof.
  unfold getFile. destruct (h <? 0); [by apply ens_ret|]. destruct (h =? BlockDeviceHandle).
  - eapply ens_bind; [apply (ens_gets _ _ (λ bd, ∀ d, bd = Some d → fh_readOnly (bd_file d) = true))|].
    + intros b w [(_ & Hd & _) _]. exact Hd.
    + intros bd Hbd. apply ens_ret. destruct bd as [d|]; [|done]. intros r f [= <- <-]. by apply Hbd.
  - cbv zeta. eapply ens_bind; [apply ens_slot|]. intros x Hx. destruct x as [[f|d]|]; [|by apply ens_ret..].
    eapply ens_bind; [apply ens_use_slot|]. intros _ _. apply ens_ret. intros r f' [= <- <-]. exact (Hx _ eq_refl).
Qed.

Lemma ens_put_file r f : fh_readOnly f = true → ensures I (put_file r f) any.
Proof.
  intros Hf. destruct r as [|i]; [|by apply ens_set_slot; intros h [= <-]].
  apply ens_modify; [done|]. intros b w [(Hr & Hd & Hh) Hw]. split; [|done]. split; [done|]. split; [|done].
  intros d. simpl. destruct (bdHandle b); [|done]. by intros [= <-].
Qed.

Lemma ens_getDir h : ensures I (getDir h) any.
Proof.
  unfold getDir. cbv zeta. eapply ens_bind; [apply ens_slot|]. intros [[f|d]|] _; [by apply ens_ret| |by apply ens_ret].
  eapply ens_bind; [apply ens_use_slot|]. intros _ _. by apply ens_ret.
Qed.

Lemma ens_obj_Seek r f off wh :
  fh_readOnly f = true → ensures I (file_obj_Seek r f off wh) (λ x, fh_readOnly (snd x) = true).
Proof.
  intros Hf. unfold file_obj_Seek. eapply (ens_bind _ _ _ any).
  - apply ens_call. intros b w HI. split; [|done]. unfold obj_Seek. destruct (fh_obj f) as [name g|rd].
    + assert (I (b, snd (file_Seek g off wh w))) as HI' by (eapply I_step, HI; left; constructor).
      by destruct (file_Seek g off wh w) as [[? ?] ?].
    + by destruct (CachedReader_Seek off wh rd) as [[? ?] ?].
  - intros [[p e] o] _. cbv zeta. eapply ens_bind; [by apply ens_put_file|]. intros _ _. by apply ens_ret.
Qed.

Lemma ens_obj_Read r f n : fh_readOnly f = true → ensures I (file_obj_Read r f n) any.
Proof.
  intros Hf. unfold file_obj_Read. eapply (ens_bind _ _ _ any).
  - apply ens_call_out. intros b w a w' HI Hr. split; [|done]. unfold obj_Read in Hr. destruct (fh_obj f) as [name g|rd].
    + assert (I (b, snd (file_Read g n w))) as HI' by (eapply I_step, HI; left; constructor).
      destruct (file_Read g n w) as [[? ?] ?]. by injection Hr as _ <-.
    + apply bind_Ok_inv in Hr as ([[? ?] ?] & _ & Hr). by injection Hr as _ <-.
  - intros [[d e] o] _. eapply ens_bind; [by apply ens_put_file|]. intros _ _. by apply ens_ret.
Qed.

(** ** Operations *)

(** The calls that the handlers make of a read-only server. *)
Definition ro_allowed {R} (op : fs_op R) : Prop :=
  match op with
  | FS_Open _ flag _ => flag = O_RDONLY ∨ wantsWrite flag = true
  | FS_WriteChunk _ _ _ _ _ | FS_CompleteWrite _ => False
  | _ => True
  end.

(** Writes do not get started. *)
Definition ro_result {R} (op : fs_op R) : R → Prop :=
  match op in fs_op R return R → Prop with
  | FS_WriteStart _ => λ r, r ≠ None
  | FS_BwriteStart _ _ _ => λ r, r ≠ None
  | _ => λ _, True
  end.

Lemma ens_read_only : ensures I (gets b_readOnly) (λ ro, ro = true).
Proof. apply ens_gets. by intros b w [[Hr _] _]. Qed.

Lemma ens_resolvePath p : ensures I (resolvePath p) any.
Proof. by apply ens_observe. Qed.

Lemma ens_pathExists p : ensures I (pathExists p) any.
Proof.
  unfold pathExists. eapply ens_bind; [apply (ens_read _ any); [intros; constructor|done]|].
  intros r _. by apply ens_ret.
Qed.

Lemma ens_gets_any {A} (f : Backend W → A) : ensures I (gets f) any.
Proof. by apply ens_gets. Qed.

Lemma ens_observe_any {A} (f : Backend W → W → outcome A) : ensures I (observe f) any.
Proof. by apply ens_observe. Qed.

Lemma ens_stat {A} (f : W → A * W) : (∀ w, os_read_step w (snd (f w))) → ensures I (call f) any.
Proof. intros Hf. by apply ens_read. Qed.

Ltac ens_step :=
  first
    [ apply ens_ret; first [done | by intros ? ?]
    | eapply ens_bind; [first [apply ens_gets_any | apply ens_resolvePath | apply ens_pathExists | apply ens_getDir
                              | apply ens_freeHandle | apply ens_use_slot | apply ens_observe_any
                              | by apply ens_allocHandle
                              | apply ens_stat; intros; constructor]|intros ? _]
    | by apply ens_lift
    | apply ens_observe_any
    | match goal with
      | |- ensures _ (match ?x with _ => _ end) _ => destruct x
      end ].
Ltac ens_go := cbv zeta; repeat (ens_step; cbv zeta).

Lemma ens_stat_of r : ensures I (stat_of r) any.
Proof. unfold stat_of. ens_go. Qed.

Lemma ens_getFileState p : ensures I (getFileState p) any.
Proof. unfold getFileState. ens_go. Qed.

Lemma ens_openImage p ex : ensures I (openImage p ex) any.
Proof. unfold openImage. ens_go. Qed.

Lemma ens_Open p flag d : flag = O_RDONLY ∨ wantsWrite flag = true → ensures I (Open p flag d) any.
Proof.
  intros Hf. unfold Open. cbv zeta. ens_step. case_match; [|by apply ens_ret].
  eapply ens_bind; [apply ens_getFileState|]. intros [open ro'] _.
  eapply ens_bind; [apply ens_read_only|]. intros ro ->. rewrite orb_true_l, andb_true_r.
  destruct (wantsWrite flag) eqn:Ew; [by apply ens_ret|]. destruct Hf as [->|]; [|done].
  destruct (negb false && _); [by apply ens_ret|]. destruct d.
  { unfold Open_dir. ens_go. eapply ens_bind; [apply ens_stat_of|]. intros st _. by apply ens_ret. }
  eapply (ens_bind _ _ _ any); [ens_go|]. intros ex _. eapply ens_bind; [apply ens_openImage|].
  intros [rd|] _; [unfold Open_image; ens_go|]. unfold Open_plain.
  destruct (negb ex && _); [by apply ens_ret|]. cbn [negb Z.land O_RDONLY Z.eqb].
  eapply (ens_bind _ _ _ any); [by apply ens_ret|]. intros _ _. ens_step. ens_step; [|ens_go].
  eapply ens_bind; [by apply ens_allocHandle|]. intros h _. destruct (h <? 0).
  - eapply (ens_bind _ _ _ any); [|intros; by apply ens_ret]. apply ens_call. intros b w HI. split; [|done].
    eapply I_step, HI. right. by eexists.
  - ens_step. eapply ens_bind; [apply ens_stat_of|]. intros st _. by apply ens_ret.
Qed.

Lemma ens_with_path p op (Q : option go_error → Prop) :
  (∀ r, Q r) → ensures I (with_path p op) Q.
Proof.
  intros HQ. unfold with_path. eapply ens_bind; [apply ens_read_only|]. intros ro ->. by apply ens_ret.
Qed.

Lemma ens_sector_size h : ensures I (sector_size h) any.
Proof. unfold sector_size. ens_go. Qed.

Lemma ens_Dread h : ensures I (Dread h) any.
Proof.
  unfold Dread. cbv zeta. eapply ens_bind; [apply ens_getDir|]. intros [[i d]|] _; [|by apply ens_ret].
  destruct (entries d !! _) as [name|]; [|by apply ens_ret].
  eapply ens_bind; [apply ens_set_slot; by intros h' [= <-]|]. intros _ _. ens_step. ens_step; [|by apply ens_ret].
  eapply (ens_bind _ _ _ any); [unfold entry_stat; ens_go|]. intros st _. by apply ens_ret.
Qed.

Lemma ens_Getstat p : ensures I (Getstat p) any.
Proof.
  assert (ensures I (Getstat_path p) any) as Hp.
  { unfold Getstat_path. ens_step. ens_step; [|ens_go]. eapply (ens_bind _ _ _ any).
    { unfold getFileByPath. ens_go. }
    intros [f|] _; [|ens_go]. eapply (ens_bind _ _ _ any); [|intros r _; ens_go].
    apply ens_call. intros b w HI. split; [|done]. unfold obj_Stat. destruct (fh_obj f); [|done].
    eapply I_step, HI. left. constructor. }
  unfold Getstat. ens_step. ens_step. repeat case_match; [by apply ens_ret|exact Hp|exact Hp].
Qed.

(** Every call that is allowed keeps the invariant. *)
Lemma backend_ro {R} (op : fs_op R) : ro_allowed op → ensures I (backend_call op) (ro_result op).
Proof.
  intros Hop. destruct op; cbn [backend_call ro_result ro_allowed] in *; try done.
  - by apply ens_Open.
  - unfold Close. ens_go.
  - unfold Read. eapply ens_bind; [apply ens_getFile|]. intros [[r f]|] Hf; [|by apply ens_ret].
    destruct (_ <? _); [by apply ens_lift|]. eapply ens_bind; [by apply ens_obj_Read, (Hf r f)|].
    intros [d e] _. ens_go.
  - unfold WriteStart. eapply ens_bind; [apply ens_getFile|]. intros [[r f]|] Hf; [|by apply ens_ret].
    rewrite (Hf r f eq_refl). by apply ens_ret.
  - unfold Lseek. eapply ens_bind; [apply ens_getFile|]. intros [[r f]|] Hf; [|by apply ens_ret].
    eapply ens_bind; [by apply ens_obj_Seek, (Hf r f)|]. intros [[p e] f'] _. by apply ens_ret.
  - apply ens_Dread.
  - apply ens_Getstat.
  - by apply ens_with_path.
  - by apply ens_with_path.
  - by apply ens_with_path.
  - unfold Bread. eapply ens_bind; [apply ens_getFile|]. intros [[r f]|] Hf; [|by apply ens_ret].
    eapply ens_bind; [apply ens_sector_size|]. intros ss _.
    eapply ens_bind; [by apply ens_obj_Seek, (Hf r f)|]. intros [[p e] f'] Hf'.
    destruct e; [by apply ens_ret|]. cbv zeta. destruct (_ || _); [by apply ens_lift|].
    eapply ens_bind; [by apply ens_obj_Read|]. intros [d e] _. ens_go.
  - unfold BwriteStart. eapply ens_bind; [apply ens_getFile|]. intros [[r f]|] Hf; [|by apply ens_ret].
    rewrite (Hf r f eq_refl). by apply ens_ret.
Qed.
End ReadOnly.

(** ** Handlers *)

Section Handlers.
Context {W : Type} `{FS W}.
Context (I : W → Prop).
Hypothesis call_ro : ∀ R (op : fs_op R) w r w',
  I w → ro_allowed op → fs_call op w = Ok (r, w') → I w' ∧ ro_result op r.

(** A connection that is not writing, after a handler. *)
Definition ro_res (o : outcome (Z * Connection * W)) : Prop :=
  ∀ st c w, o = Ok (st, c, w) → I w ∧ activeWriteHandle c = -1.

Lemma res_call {R} (op : fs_op R) w (k : R * W → outcome (Z * Connection * W)) :
  I w → ro_allowed op → (∀ r w', I w' → ro_result op r → ro_res (k (r, w'))) → ro_res (fs_call op w ≫= k).
Proof.
  intros Hw Hop Hk st c w' Hr. apply bind_Ok_inv in Hr as ([r w1] & Hc & Hr).
  destruct (call_ro R op w r w1 Hw Hop Hc). by eapply Hk.
Qed.

Lemma res_send (send : outcome Connection) st w :
  I w → (∀ c', send = Ok c' → activeWriteHandle c' = -1) → ro_res (c ← send; Ok (st, c, w)).
Proof. intros Hw Hs st' c w' Hr. apply bind_Ok_inv in Hr as (c1 & Hc & Hr). injection Hr as _ <- <-. auto. Qed.

Lemma data_awh p c c' : Connection_SendData p c = Ok c' → activeWriteHandle c' = activeWriteHandle c.
Proof. unfold Connection_SendData. intros Hr. apply bind_Ok_inv in Hr as (s & _ & Hr). by injection Hr as <-. Qed.

Lemma raw_awh n d c c' : SendReadResult n d c = Ok c' → activeWriteHandle c' = activeWriteHandle c.
Proof. unfold SendReadResult. intros Hr. apply bind_Ok_inv in Hr as (s & _ & Hr). by injection Hr as <-. Qed.

Lemma open_awh h st c c' : SendOpenReply h st c = Ok c' → activeWriteHandle c' = activeWriteHandle c.
Proof. unfold SendOpenReply. apply data_awh. Qed.
Lemma close_awh n c c' : SendCloseReply n c = Ok c' → activeWriteHandle c' = activeWriteHandle c.
Proof. unfold SendCloseReply. apply data_awh. Qed.
Lemma lseek_awh p c c' : SendLseekReply p c = Ok c' → activeWriteHandle c' = activeWriteHandle c.
Proof. unfold SendLseekReply. apply data_awh. Qed.
Lemma dread_awh n p st c c' : SendDreadReply n p st c = Ok c' → activeWriteHandle c' = activeWriteHandle c.
Proof. unfold SendDreadReply. apply data_awh. Qed.
Lemma getstat_awh n st c c' : SendGetstatReply n st c = Ok c' → activeWriteHandle c' = activeWriteHandle c.
Proof. unfold SendGetstatReply. apply data_awh. Qed.
Lemma result_awh n c c' : SendResultReplyOnly n c = Ok c' → activeWriteHandle c' = activeWriteHandle c.
Proof. unfold SendResultReplyOnly. apply data_awh. Qed.

Lemma done_awh n c c' : SendWriteDone n c = Ok c' → activeWriteHandle c' = -1.
Proof. unfold SendWriteDone. by intros ->%data_awh. Qed.

Lemma res_ack st c w : I w → activeWriteHandle c = -1 → ro_res (Ok (st, Connection_SendACK true c, w)).
Proof. intros Hw Hc st' c' w' [= _ <- <-]. by split. Qed.

Lemma remove_awh h c : activeWriteHandle c = -1 → activeWriteHandle (removeHandle h c) = -1.
Proof. intros Hc. unfold removeHandle. simpl. by case_match. Qed.

(** The flags that a request can ask for. *)
Lemma wire_flags f : udpfsFlagsToOSFlags f = O_RDONLY ∨ wantsWrite (udpfsFlagsToOSFlags f) = true.
Proof.
  assert (∀ acc a b d : Z, (acc = O_WRONLY ∨ acc = O_RDWR) → (a = 0 ∨ a = O_APPEND) → (b = 0 ∨ b = O_CREATE) →
    (d = 0 ∨ d = O_TRUNC) → wantsWrite (Z.lor acc (Z.lor (Z.lor a b) d)) = true) as Hw.
  { intros acc a b d [-> | ->] [-> | ->] [-> | ->] [-> | ->]; reflexivity. }
  unfold udpfsFlagsToOSFlags. cbv zeta. repeat case_match; try (by left); right; reflexivity.
Qed.

(** The sends are told apart by their heads: unifying two of them would unfold the
    transport. *)
Ltac send_done :=
  apply res_send; [assumption|intros ? Hsend;
    lazymatch type of Hsend with
    | SendWriteDone _ _ = _ => exact (done_awh _ _ _ Hsend)
    | SendReadResult _ _ _ = _ => rewrite (raw_awh _ _ _ _ Hsend)
    | SendOpenReply _ _ _ = _ => rewrite (open_awh _ _ _ _ Hsend)
    | SendCloseReply _ _ = _ => rewrite (close_awh _ _ _ Hsend)
    | SendLseekReply _ _ = _ => rewrite (lseek_awh _ _ _ Hsend)
    | SendDreadReply _ _ _ _ = _ => rewrite (dread_awh _ _ _ _ _ Hsend)
    | SendGetstatReply _ _ _ = _ => rewrite (getstat_awh _ _ _ _ Hsend)
    | SendResultReplyOnly _ _ = _ => rewrite (result_awh _ _ _ Hsend)
    end; first [assumption | by apply remove_awh]].

Ltac res_step :=
  lazymatch goal with
  | |- ro_res (Ok (_, Connection_SendACK true _, _)) => by apply res_ack
  | |- ro_res (fs_call _ _ ≫= _) => apply res_call; [assumption|done|intros ? ? ? ?]
  | |- ro_res (_ ≫= λ c, Ok (_, c, _)) => send_done
  | |- ro_res (match ?x with _ => _ end) => destruct x eqn:?
  end.
Ltac res_go := cbv zeta; repeat (res_step; cbv beta iota zeta).

Lemma ro_handleClose payload c w : I w → activeWriteHandle c = -1 → ro_res (handleClose payload c w).
Proof. intros Hw Hc. unfold handleClose. res_go. Qed.
Lemma ro_handleRead payload c w : I w → activeWriteHandle c = -1 → ro_res (handleRead payload c w).
Proof. intros Hw Hc. unfold handleRead. res_go. Qed.
Lemma ro_handleLseek payload c w : I w → activeWriteHandle c = -1 → ro_res (handleLseek payload c w).
Proof. intros Hw Hc. unfold handleLseek. res_go. Qed.
Lemma ro_handleDread payload c w : I w → activeWriteHandle c = -1 → ro_res (handleDread payload c w).
Proof. intros Hw Hc. unfold handleDread. res_go. Qed.
Lemma ro_handleGetstat payload c w : I w → activeWriteHandle c = -1 → ro_res (handleGetstat payload c w).
Proof. intros Hw Hc. unfold handleGetstat. res_go. Qed.
Lemma ro_handleBread payload c w : I w → activeWriteHandle c = -1 → ro_res (handleBread payload c w).
Proof. intros Hw Hc. unfold handleBread. res_go. Qed.

Lemma ro_handleWriteReq payload c w : I w → activeWriteHandle c = -1 → ro_res (handleWriteReq payload c w).
Proof.
  intros Hw Hc. unfold handleWriteReq. res_step; [res_step|]. cbv zeta. apply res_call; [assumption|done|].
  intros [e|] w' Hw' Hr; [res_go|done].
Qed.

Lemma ro_handleBwriteReq payload c w : I w → activeWriteHandle c = -1 → ro_res (handleBwriteReq payload c w).
Proof.
  intros Hw Hc. unfold handleBwriteReq. res_step; [res_step|]. cbv zeta. apply res_call; [assumption|done|].
  intros [e|] w' Hw' Hr; [res_go|done].
Qed.

Lemma ro_handleWriteData payload c w : I w → activeWriteHandle c = -1 → ro_res (handleWriteData payload c w).
Proof.
  intros Hw Hc. unfold handleWriteData, getWriteHandle. res_step; [res_step|]. rewrite Hc. cbv zeta.
  by apply res_ack.
Qed.

Lemma ro_handlePathOp op payload c w :
  (∀ p, ro_allowed (op p)) → I w → activeWriteHandle c = -1 → ro_res (handlePathOp op payload c w).
Proof.
  intros Hop Hw Hc. unfold handlePathOp. res_step; [res_step|]. cbv zeta. apply res_call; [assumption|apply Hop|].
  intros e w' Hw' _. res_go.
Qed.

Lemma ro_handleOpen order payload c w : I w → activeWriteHandle c = -1 → ro_res (handleOpen order payload c w).
Proof.
  intros Hw Hc. unfold handleOpen. res_step; [res_step|]. cbv zeta.
  set (found := if negb _ then _ else _).
  assert (activeWriteHandle (snd found) = -1) as Hc'.
  { unfold found, lookupHandle. by repeat case_match. }
  clearbody found. destruct found as [[h|] c1]; simpl in Hc'; [res_step|].
  apply res_call; [assumption|apply wire_flags|]. intros [[h st] err] w' Hw' _. res_go.
Qed.

Ltac by_handler :=
  lazymatch goal with
  | |- ro_res (handleOpen _ _ _ _) => by apply ro_handleOpen
  | |- ro_res (handleClose _ _ _) => by apply ro_handleClose
  | |- ro_res (handleRead _ _ _) => by apply ro_handleRead
  | |- ro_res (handleWriteReq _ _ _) => by apply ro_handleWriteReq
  | |- ro_res (handleWriteData _ _ _) => by apply ro_handleWriteData
  | |- ro_res (handleLseek _ _ _) => by apply ro_handleLseek
  | |- ro_res (handleDread _ _ _) => by apply ro_handleDread
  | |- ro_res (handleGetstat _ _ _) => by apply ro_handleGetstat
  | |- ro_res (handleBread _ _ _) => by apply ro_handleBread
  | |- ro_res (handleBwriteReq _ _ _) => by apply ro_handleBwriteReq
  | |- ro_res _ => by apply ro_handlePathOp
  end.

Lemma HandlePayload_ro order now payload c w c' w' :
  I w → activeWriteHandle c = -1 → HandlePayload order now payload c w = Ok (c', w') →
  I w' ∧ activeWriteHandle c' = -1.
Proof.
  intros Hw Hc Hr. destruct payload as [|x rest]; [by injection Hr as <- <-|]. unfold HandlePayload in Hr.
  assert (∀ o, dispatch order (b2z x) (x :: rest) c w = Some o → ro_res o) as Hd.
  { intros o. unfold dispatch.
    do 13 (destruct (b2z x =? _); [intros [= <-]; by_handler|]). done. }
  destruct (dispatch _ _ _ _ _) as [o|].
  - apply bind_Ok_inv in Hr as ([[st c1] w1] & Ho & Hr). rewrite log_step in Hr. destruct (Hd o eq_refl _ _ _ Ho). by injection Hr as <- <-.
  - by injection Hr as <- <-.
Qed.

(** ** Connections and the server *)

Lemma ResetPeer_ro order c w c' w' :
  I w → activeWriteHandle c = -1 → ResetPeer order c w = Ok (c', w') → I w' ∧ activeWriteHandle c' = -1.
Proof.
  revert c w. induction order as [|h order IH]; intros c w Hw Hc Hr; cbn [ResetPeer] in Hr; [by injection Hr as <- <-|].
  destruct (usedHandles c !! h) as [e|]; [|by eapply IH].
  apply bind_Ok_inv in Hr as ([r w1] & H1 & Hr). destruct (call_ro _ (FS_Lseek h 0 0) _ _ _ Hw Logic.I H1) as [Hw1 _].
  eapply IH, Hr; [exact Hw1|exact Hc].
Qed.

Lemma Connection_Close_ro order c w c' w' :
  I w → Connection_Close order c w = Ok (c', w') → I w'.
Proof.
  revert c w. induction order as [|h order IH]; intros c w Hw Hr; cbn [Connection_Close] in Hr; [by injection Hr as _ <-|].
  destruct (usedHandles c !! h) as [e|]; [|by eapply IH].
  apply bind_Ok_inv in Hr as ([r w1] & H1 & Hr). destruct (call_ro _ (FS_Close h) _ _ _ Hw Logic.I H1) as [Hw1 _].
  eapply IH, Hr. exact Hw1.
Qed.

Lemma reset_peer_ro n order c w c' w' :
  I w → activeWriteHandle c = -1 → reset_peer n order c w = Ok (c', w') → I w' ∧ activeWriteHandle c' = -1.
Proof.
  revert c w. induction n as [|n IH]; intros c w Hw Hc Hr; cbn [reset_peer] in Hr; [by injection Hr as <- <-|].
  apply bind_Ok_inv in Hr as ([c1 w1] & H1 & Hr). destruct (ResetPeer_ro _ _ _ _ _ Hw Hc H1). by eapply IH.
Qed.

Lemma receive_packet_ro order data c w x c' w' :
  I w → activeWriteHandle c = -1 → receive_packet order data c w = Ok (x, c', w') →
  I w' ∧ activeWriteHandle c' = -1.
Proof.
  intros Hw Hc Hr. unfold receive_packet in Hr. apply bind_Ok_inv in Hr as ([r s] & _ & Hr).
  apply bind_Ok_inv in Hr as ([c1 w1] & H1 & Hr). apply reset_peer_ro in H1 as [Hw1 Hc1]; [|done|done].
  destruct r; by injection Hr as _ <- <-.
Qed.

Lemma handle_payload_ro order now payload c w x c' w' :
  I w → activeWriteHandle c = -1 → handle_payload order now payload c w = Ok (x, c', w') →
  I w' ∧ activeWriteHandle c' = -1.
Proof.
  intros Hw Hc Hr. unfold handle_payload in Hr. apply bind_Ok_inv in Hr as ([c1 w1] & H1 & Hr).
  injection Hr as _ <- <-. by eapply HandlePayload_ro.
Qed.

(** A server whose peers are not writing. *)
Definition ro_peers (s : Server) : Prop := ∀ a p, cMap s !! a = Some p → activeWriteHandle (p_conn p) = -1.

Lemma ro_peers_insert s a p : ro_peers s → activeWriteHandle (p_conn p) = -1 → ro_peers (s <| cMap ::= λ m, <[a := p]> m |>).
Proof.
  intros Hs Hp k q. simpl. destruct (decide (k = a)) as [->|Hne].
  - rewrite lookup_insert_eq. by intros [= <-].
  - rewrite lookup_insert_ne by done. apply Hs.
Qed.

Lemma cleanup_ro visits s w s' w' :
  I w → ro_peers s → cleanup visits s w = Ok (s', w') → I w' ∧ ro_peers s'.
Proof.
  revert s w. induction visits as [|[[a now] order] visits IH]; intros s w Hw Hs Hr; cbn [cleanup] in Hr.
  { by injection Hr as <- <-. }
  destruct (cMap s !! a) as [p|]; [|by eapply IH]. destruct (_ <=? _); [|by eapply IH].
  apply bind_Ok_inv in Hr as ([c1 w1] & H1 & Hr). apply Connection_Close_ro in H1; [|done].
  eapply IH, Hr; [done|]. intros k q. simpl. intros [_ Hq]%lookup_delete_Some. by eapply Hs.
Qed.

Lemma on_peer_ro {A} a (f : Connection → W → outcome (A * Connection * W)) s w x s' w' :
  I w → ro_peers s →
  (∀ c w x c' w', I w → activeWriteHandle c = -1 → f c w = Ok (x, c', w') → I w' ∧ activeWriteHandle c' = -1) →
  on_peer a f s w = Ok (x, s', w') → I w' ∧ ro_peers s'.
Proof.
  intros Hw Hp Hf Hr. unfold on_peer in Hr. destruct (cMap s !! a) as [p|] eqn:E; [|done].
  apply bind_Ok_inv in Hr as ([[y c1] w1] & H1 & Hr). injection Hr as _ <- <-.
  apply Hf in H1 as [Hw1 Hc1]; [|done|by eapply Hp]. split; [done|]. by apply ro_peers_insert.
Qed.

Definition ro_server (st : state W) : Prop := I (world st) ∧ ro_peers (server st).

Lemma wg_Done_ro s s' : ro_peers s → wg_Done s = Ok s' → ro_peers s'.
Proof. unfold ro_peers. by intros Hs ->%wg_Done_cMap. Qed.

Lemma server_step_ro e st st' : ro_server st → server_step e st = Ok st' → ro_server st'.
Proof.
  intros [Hw Hp] Hr. destruct e as [a data|now a data|order|order now|visits|now visits|a| | |];
    cbn [server_step] in Hr; unfold dataHandler, discoveryHandler in Hr; cbv zeta in Hr.
  - destruct (_ && _); injection Hr as <-; [|done]. by destruct (discovery_reply_to data); [destruct (is_open _)|].
  - destruct (job st); [|by injection Hr as <-..]. destruct (_ || _); injection Hr as <-; [done|].
    split; [done|]. apply ro_peers_insert; [done|].
    destruct (cMap (server st) !! a) eqn:E; [exact (Hp _ _ E)|reflexivity].
  - destruct (job st) as [|k data| |]; [by injection Hr as <-| |by injection Hr as <-..].
    apply bind_Ok_inv in Hr as ([[x s] w] & H1 & Hr). injection Hr as <-.
    eapply on_peer_ro in H1; [exact H1|done|done|]. intros *. apply receive_packet_ro.
  - destruct (job st) as [| |k payload|]; [by injection Hr as <-..| |by injection Hr as <-].
    apply bind_Ok_inv in Hr as ([[x s] w] & H1 & Hr). injection Hr as <-.
    eapply on_peer_ro in H1; [exact H1|done|done|]. intros *. apply handle_payload_ro.
  - apply bind_Ok_inv in Hr as ([s w] & H1 & Hr). injection Hr as <-. by eapply cleanup_ro in H1.
  - destruct (logMetrics _); [|by injection Hr as <-]. apply bind_Ok_inv in Hr as (t & _ & Hr). by injection Hr as <-.
  - apply bind_Ok_inv in Hr as (s & H1 & Hr). injection Hr as <-. split; [done|]. unfold peer_timer in H1.
    destruct (cMap (server st) !! a) as [p|] eqn:E; [|by injection H1 as <-].
    apply bind_Ok_inv in H1 as (s1 & _ & H1). injection H1 as <-. apply ro_peers_insert; [done|]. by apply (Hp a p).
  - by injection Hr as <-.
  - destruct (_ && _); [|by injection Hr as <-]. apply bind_Ok_inv in Hr as (s & H1 & Hr). injection Hr as <-.
    split; [done|]. by eapply wg_Done_ro.
  - destruct (job st); [|by injection Hr as <-..]. destruct (negb _); [|by injection Hr as <-].
    apply bind_Ok_inv in Hr as (s & H1 & Hr). injection Hr as <-. split; [done|]. by eapply wg_Done_ro.
Qed.

Lemma server_run_ro es st st' : ro_server st → server_run es st = Ok st' → ro_server st'.
Proof.
  revert st. induction es as [|e es IH]; intros st Hst Hr; cbn [server_run] in Hr; [by injection Hr as <-|].
  apply bind_Ok_inv in Hr as (st1 & H1 & Hr). eapply IH, Hr. by eapply server_step_ro.
Qed.
End Handlers.

Section Whole.
Context {W : Type} `{OS W} `{Decoders}.

Lemma open_device_ro w0 s w (b : Backend W) w1 :
  fresh s → rtc look_step w0 w → open_device s w = Ok (Val b, w1) → b_readOnly b = true → ro_inv w0 (b, w1).
Proof.
  intros (Hh & _ & Hd) Hw Hr Hro.
  assert (∀ s' : Backend W, handles s' = handles s → ∀ i h, handles s' !! i = Some (Some h) → ro_handle h) as Hempty.
  { intros s' -> i h. rewrite Hh. by intros [[=] _]%lookup_replicate. }
  unfold open_device in Hr. destruct (bool_decide (blockDevice s = [])).
  { injection Hr as -> ->. split; [|exact Hw]. split; [exact Hro|]. split; [|by apply Hempty].
    simpl. by rewrite Hd. }
  cbv zeta in Hr. destruct (os_OpenFile _ _ w) as [[f|e] w2] eqn:Eo; [|done].
  destruct (file_Stat f w2) as [[fi|e] w3] eqn:Es; [|done]. injection Hr as <- <-. simpl in Hro. rewrite Hro in Eo.
  cbn [negb] in Eo.
  split; [split; [exact Hro|]; split; [|by apply Hempty]; by intros d [= <-]|].
  apply (rtc_r _ w2); [apply (rtc_r _ w); [exact Hw|]|]; left.
  - replace w2 with (snd (os_OpenFile (blockDevice s) O_RDONLY w)) by (by rewrite Eo). apply Step_OpenRead.
  - replace w3 with (snd (file_Stat f w2)) by (by rewrite Es). apply Step_FStat.
Qed.

Lemma backend_call_ro w0 R (op : fs_op R) w r w' :
  ro_inv w0 w → ro_allowed op → fs_call op w = Ok (r, w') → ro_inv w0 w' ∧ ro_result op r.
Proof. intros Hw Hop Hc. exact (backend_ro w0 op Hop w r w' Hw Hc). Qed.

Lemma NewBackend_ro opts w0 (b : Backend W) w1 :
  Forall is_option opts → NewBackend opts w0 = Ok (Val b, w1) → b_readOnly b = true → ro_inv w0 (b, w1).
Proof.
  intros Ho Hn Hro. unfold NewBackend in Hn. cbv zeta in Hn.
  assert (fresh (foldl (λ s o, o s) emptyBackend opts)) as Hf by by apply options_fresh.
  set (s0 := foldl (λ s o, o s) emptyBackend opts) in *. clearbody s0.
  destruct (bool_decide (fsRoot s0 = [])); [by eapply open_device_ro|].
  destruct (Abs _ _) as [abs|]; [|done]. destruct (os_Stat abs w0) as [[fi|e] w] eqn:E; [|done].
  destruct (IsDir fi); [|done]. eapply open_device_ro; [| |exact Hn|exact Hro]; [by destruct s0|].
  apply rtc_once. left. replace w with (snd (os_Stat abs w0)) by (by rewrite E). apply Step_Stat.
Qed.

(** A server that is started read-only never writes.  Started over a backend
    with the read-only option, whatever datagrams arrive and however timers and
    cleanups fall between them, the operating system is only asked to look (stat,
    read a directory, open a file read-only, read, seek, the time) and to close
    files: no write, no directory made, nothing removed, no file opened for writing,
    created or truncated, from the start of the backend on. *)
Theorem readonly_never_writes `{Net} bopts w0 (b0 : Backend W) w1 sopts s now s' es st :
  Forall is_option bopts → NewBackend bopts w0 = Ok (Val b0, w1) → b_readOnly b0 = true →
  Forall server_option sopts → New sopts = Some s → Start now s = (None, s') →
  server_run es (started s' (b0, w1)) = Ok st →
  rtc look_step w0 (snd (world st)) ∧ b_readOnly (fst (world st)) = true.
Proof.
  intros Hb Hnew Hro Hs Hsnew Hstart Hrun. pose proof (NewBackend_ro bopts w0 b0 w1 Hb Hnew Hro) as Hinv.
  destruct (New_fresh sopts s Hs Hsnew) as [Hm _]. destruct (Start_inv now s s' Hstart) as (Hm' & _).
  destruct (server_run_ro (ro_inv w0) (backend_call_ro w0) es (started s' (b0, w1)) st) as [[[Hf _] Hw] _];
    [|exact Hrun|by split].
  split; [exact Hinv|]. intros a p. simpl. by rewrite Hm', Hm.
Qed.
End Whole.

(** The small system served read-only: an OPEN_REQ for reading and one for writing. *)
Definition ro_backend : Backend MemOs.world := ram_backend <| b_readOnly := true |>.
Definition open_a_rw : list byte := map z2b [16; 0; 3; 6; 0; 0; 0; 0; 97].
Definition ro_events : list event :=
  [EvArrive 1 client_a open_datagram; EvReceive []; EvHandle [] 1;
   EvArrive 2 client_a (encode 0 1 (mkDesc [] open_a_rw true)); EvReceive [1]; EvHandle [1] 2].

Lemma ro_backend_started :
  NewBackend [WithFSRoot MemOs.root; WithReadOnly] ram0 = Ok (Val ro_backend, ram0).
Proof. reflexivity. Qed.

Lemma ro_start_ok : server_ok (HW := backend_contract 512) (started ram_server (ro_backend, ram0)).
Proof. split; [done| |done..]. exact (fresh_ok ro_backend ram0 ltac:(done) ltac:(done) ltac:(done)). Qed.

Lemma open_rw_ok :
  datagram_ok (HW := backend_contract (W := MemOs.world) 512) (read_datagram (encode 0 1 (mkDesc [] open_a_rw true))).
Proof.
  unfold datagram_ok. set (d := read_datagram _). vm_compute in d. subst d.
  set (q := parse_packet _). vm_compute in q. subst q. unfold request_ok. cbn [dp_payload].
  set (q := request_op _). vm_compute in q. subst q. exact Logic.I.
Qed.

Lemma ro_events_ok :
  events_ok (HW := backend_contract 512) ro_events (started ram_server (ro_backend, ram0)).
Proof.
  repeat (split; [first [exact Logic.I | exact open_datagram_ok | exact open_rw_ok]|intros ? _]). exact Logic.I.
Qed.

Lemma readonly_never_writes_witness :
  ∃ st, server_run ro_events (started ram_server (ro_backend, ram0)) = Ok st ∧
    rtc look_step ram0 (snd (world st)).
Proof.
  destruct (server_run_ok (HW := backend_contract 512) ro_events (started ram_server (ro_backend, ram0)))
    as (st & Hrun & _); [exact ro_start_ok|exact ro_events_ok|]. exists st. split; [exact Hrun|].
  destruct (readonly_never_writes (H1 := loopback) [WithFSRoot MemOs.root; WithReadOnly] ram0 ro_backend ram0
    [WithFS true; WithPeerTimeout (5 * second); WithMetrics 0] new_server 0 ram_server ro_events st) as [Hw _];
    [by repeat constructor|exact ro_backend_started|reflexivity| |exact new_server_made|exact ram_server_started
    |exact Hrun|exact Hw].
  repeat apply Forall_cons_2; [| | |constructor]; unfold server_option; eauto 10.
Defined.
