(* ===== verification/Main.v ===== *)
(** * The program (cmd/udpfsd/main.go)

    Flags, the environment variables that override them, and the start: what the
    settings mean for the backend and the server.  Parsing the command line itself
    is package flag's work: a run starts from the values of the flags.  After a
    signal the program closes the server: the event [EvClose] of a run. *)
From stdpp Require Import gmap.
From S2P Require Import Prelude GoFloat GoText GoTime RdmaProtocol UdpfsConnection GoPath CompressedImage OsWorld Backend Server.

(** ** Flags and environment *)

(** The variables behind the flags. *)
Record flags := mkFlags {
  fl_root : path;
  fl_path : path;
  fl_port : Z;
  fl_bindIP : path;
  fl_sectorSize : Z;
  fl_readOnly : bool;
  fl_verbose : bool;
  fl_logMetrics : bool;
  fl_logMetricsPeriod : path;
  fl_disableCompression : bool;
  fl_compressionCacheSize : Z;
  fl_peerTimeout : path
}.

Definition eta_flags (f : flags) : flags :=
  mkFlags (fl_root f) (fl_path f) (fl_port f) (fl_bindIP f) (fl_sectorSize f) (fl_readOnly f) (fl_verbose f)
    (fl_logMetrics f) (fl_logMetricsPeriod f) (fl_disableCompression f) (fl_compressionCacheSize f)
    (fl_peerTimeout f).

#[export] Instance set_fl_root : Setter fl_root := ltac:(mk_setter eta_flags fl_root).
#[export] Instance set_fl_path : Setter fl_path := ltac:(mk_setter eta_flags fl_path).
#[export] Instance set_fl_port : Setter fl_port := ltac:(mk_setter eta_flags fl_port).
#[export] Instance set_fl_bindIP : Setter fl_bindIP := ltac:(mk_setter eta_flags fl_bindIP).
#[export] Instance set_fl_sectorSize : Setter fl_sectorSize := ltac:(mk_setter eta_flags fl_sectorSize).
#[export] Instance set_fl_readOnly : Setter fl_readOnly := ltac:(mk_setter eta_flags fl_readOnly).
#[export] Instance set_fl_verbose : Setter fl_verbose := ltac:(mk_setter eta_flags fl_verbose).
#[export] Instance set_fl_logMetrics : Setter fl_logMetrics := ltac:(mk_setter eta_flags fl_logMetrics).
#[export] Instance set_fl_logMetricsPeriod : Setter fl_logMetricsPeriod :=
  ltac:(mk_setter eta_flags fl_logMetricsPeriod).
#[export] Instance set_fl_disableCompression : Setter fl_disableCompression :=
  ltac:(mk_setter eta_flags fl_disableCompression).
#[export] Instance set_fl_compressionCacheSize : Setter fl_compressionCacheSize :=
  ltac:(mk_setter eta_flags fl_compressionCacheSize).
#[export] Instance set_fl_peerTimeout : Setter fl_peerTimeout := ltac:(mk_setter eta_flags fl_peerTimeout).

Definition defaultFsRoot : path := str "./fsroot".

(** The flags of an empty command line. *)
Definition default_flags : flags := mkFlags [] [] UDPFSPort [] 512 false false false [] false 32 [].

(** [os.Getenv]: the empty string for a variable that is not set. *)
Definition environment : Type := path → path.

(** [strings.ToUpper(strings.ReplaceAll(key, "-", "_"))] for a key in ASCII. *)
Definition env_name (key : path) : path :=
  map (λ c, if bool_decide (c = Byte.x2d) then Byte.x5f
            else if (97 <=? b2z c) && (b2z c <=? 122) then z2b (b2z c - 32) else c) key.

Definition envVarLookup (env : environment) (key defaultValue : path) : path :=
  let value := env (env_name key) in
  if negb (bool_decide (value = [])) then value else defaultValue.

(** The settings that are strings (two forms), and those that are parsed. *)
Definition load_string (env : environment) (key old : path) : path :=
  let value := envVarLookup env key old in
  if negb (bool_decide (value = [])) then value else old.

Definition load_value (env : environment) (key old : path) : path :=
  let value := envVarLookup env key [] in
  if negb (bool_decide (value = [])) then value else old.

Definition load_parsed {A} (parse : path → option A) (env : environment) (key : path) (old : A) : A :=
  let value := envVarLookup env key [] in
  if negb (bool_decide (value = [])) then
    match parse value with
    | Some v => v
    | None => old
    end
  else old.

Definition loadEnvironment (env : environment) (f : flags) : flags :=
  let f := f <| fl_root ::= load_string env (str "fsroot") |> in
  let f := f <| fl_path ::= load_string env (str "bdpath") |> in
  let f := f <| fl_port ::= load_parsed Atoi env (str "port") |> in
  let f := f <| fl_bindIP ::= load_string env (str "bind") |> in
  let f := f <| fl_sectorSize ::= load_parsed Atoi env (str "sector-size") |> in
  let f := f <| fl_readOnly ::= load_parsed ParseBool env (str "ro") |> in
  let f := f <| fl_verbose ::= load_parsed ParseBool env (str "verbose") |> in
  let f := f <| fl_logMetrics ::= load_parsed ParseBool env (str "metrics") |> in
  let f := f <| fl_logMetricsPeriod ::= load_value env (str "metrics-period") |> in
  let f := f <| fl_disableCompression ::= load_parsed ParseBool env (str "no-compression") |> in
  let f := f <| fl_compressionCacheSize ::= load_parsed Atoi env (str "compression-cache-size") |> in
  f <| fl_peerTimeout ::= load_value env (str "peer-timeout") |>.

(** ** The start *)

(** A duration that is not set, or malformed, is 0. *)
Definition duration_setting (s : path) : Z :=
  if negb (bool_decide (s = [])) then
    match ParseDuration s with
    | Some d => d
    | None => 0
    end
  else 0.

Definition default_root (f : flags) : flags :=
  if bool_decide (fl_path f = []) && bool_decide (fl_root f = []) then f <| fl_root := defaultFsRoot |> else f.

Section Main.
Context {W : Type} `{OS W} `{Decoders}.

Definition backend_options (f : flags) : list (Backend W → Backend W) :=
  [WithFSRoot (fl_root f); WithBlockDevice (fl_path f); WithSectorSize (fl_sectorSize f);
   WithCompressionCacheSize (fl_compressionCacheSize f)] ++
  (if fl_readOnly f then [WithReadOnly] else []) ++
  (if negb (fl_disableCompression f) then [WithCompression] else []).

Definition server_options (f : flags) : list (Server → Server) :=
  [WithDiscoveryPort (fl_port f); WithDataIP (fl_bindIP f); WithFS true;
   WithPeerTimeout (duration_setting (fl_peerTimeout f))] ++
  (if fl_verbose f then [WithVerbose] else []) ++
  (if fl_logMetrics f then [WithMetrics (duration_setting (fl_logMetricsPeriod f))] else []).

(** From the flags to the server that has been started, or to an exit with status 1. *)
Inductive main_result :=
| Exit (status : Z)
| Ready (s : Server) (b : Backend W).

Definition main `{Net} (env : environment) (f : flags) (now : Z) (w : W) : outcome (main_result * W) :=
  let f := default_root (loadEnvironment env f) in
  '(r, w) ← NewBackend (backend_options f) w;
  match r with
  | Err _ => Ok (Exit 1, w)
  | Val b =>
      match New (server_options f) with
      | None => Ok (Exit 1, w)
      | Some s =>
          match Start now s with
          | (Some _, _) => Ok (Exit 1, w)
          | (None, s) => Ok (Ready s b, w)
          end
      end
  end.
End Main.
Arguments main_result : clear implicits.
