(* ===== verification/MainProperties.v ===== *)
(** * The properties of the program

    What its settings are, and the two theorems about a whole run, from the command
    line and the environment on: that it never panics, and that a read-only one never
    writes. *)
From stdpp Require Import gmap.
From S2P Require Import Prelude RdmaProtocol RdmaSession RdmaPack RdmaReceive UdpfsProtocol UdpfsConnection UdpfsContract UdpfsProperties GoPath CompressedImage OsWorld Backend BackendInvariant BackendContract.
From S2P Require Import MemOs RomOs CompressionProperties BackendProperties GoText Server ServerContract ServerProperties ReadOnly Main.

(** ** Parsing durations *)

(** More fuel than the length of the string makes no difference. *)
Lemma leadingInt_suffix x s v r : leadingInt x s = Some (v, r) → ∃ p, s = p ++ r.
Proof.
  revert x. induction s as [|c s IH]; intros x; simpl; [intros [= <- <-]; by exists []|].
  destruct (is_digit c); [|intros [= <- <-]; by exists []].
  destruct (_ <? x); [done|]. destruct (_ <? _); [done|]. intros (p & ->)%IH. by exists (c :: p).
Qed.

Lemma leadingFraction_suffix x sc o s f sc' r : leadingFraction x sc o s = (f, sc', r) → ∃ p, s = p ++ r.
Proof.
  revert x sc o. induction s as [|c s IH]; intros x sc o; simpl; [intros [= <- <- <-]; by exists []|].
  destruct (is_digit c); [|intros [= <- <- <-]; by exists []].
  repeat case_match; intros (p & ->)%IH; by exists (c :: p).
Qed.

Lemma leadingUnit_eq s u r : leadingUnit s = (u, r) → s = u ++ r.
Proof.
  revert u r. induction s as [|c s IH]; intros u r; simpl; [by intros [= <- <-]|].
  destruct (_ || _); [by intros [= <- <-]|]. destruct (leadingUnit s) as [u' r'] eqn:E.
  intros [= <- <-]. by rewrite (IH u' r').
Qed.

Lemma duration_part_shorter s v r : duration_part s = Some (v, r) → (length r < length s)%nat.
Proof.
  unfold duration_part. destruct (negb _); [done|].
  destruct (leadingInt 0 s) as [[v1 s1]|] eqn:E1; [|done]. cbn [mbind option_bind].
  apply leadingInt_suffix in E1 as [p1 E1].
  destruct (match s1 with [] => _ | _ => _ end) as [[[f sc] post] s2] eqn:E2.
  assert (∃ p2, s1 = p2 ++ s2) as [p2 E2'].
  { destruct s1 as [|c s1']; [injection E2 as <- <- <- <-; by exists []|].
    destruct (bool_decide _); [|injection E2 as <- <- <- <-; by exists []].
    destruct (leadingFraction 0 _ false s1') as [[f' sc'] s2'] eqn:E3. injection E2 as <- <- <- <-.
    apply leadingFraction_suffix in E3 as [p ->]. by exists (c :: p). }
  clear E2. destruct (_ && _); [done|]. destruct (leadingUnit s2) as [u s3] eqn:E3. apply leadingUnit_eq in E3.
  case_bool_decide as Hu; [done|]. destruct (unit_value u); [|done]. cbn [mbind option_bind].
  destruct (_ <? v1); [done|]. destruct (_ <? _); [done|]. intros [= _ <-].
  rewrite E1, E2', E3, !length_app. destruct u; [done|]. simpl. lia.
Qed.

Lemma duration_parts_fuel fuel d s :
  (length s <= fuel)%nat → duration_parts fuel d s = duration_parts (length s) d s.
Proof.
  revert d s. assert (∀ n m d s, (length s <= n)%nat → (length s <= m)%nat →
    duration_parts n d s = duration_parts m d s) as H; [|by intros; apply H].
  induction n as [|n IH]; intros m d s Hn Hm; [destruct s; [by destruct m|simpl in *; lia]|].
  destruct s as [|c s]; [by destruct m|]. destruct m as [|m]; [simpl in *; lia|].
  cbn [duration_parts]. destruct (duration_part (c :: s)) as [[v r]|] eqn:E; [|done]. cbn [mbind option_bind].
  apply duration_part_shorter in E. destruct (_ <? _); [done|]. apply IH; simpl in *; lia.
Qed.

Example durations :
  map ParseDuration [str "1h30m"; str "1.5s"; str "-2m"; str "100ms1us"; str "0"; str "5"; str ".s"] =
    [Some 5400000000000; Some 1500000000; Some (-120000000000); Some 100001000; Some 0; None; None].
Proof. vm_compute. reflexivity. Qed.

(** ** Settings *)

(** A setting that may be overridden: the value of its variable where that is set
    and can be read, and otherwise that of the flag. *)
Definition override {A} (parse : path → option A) (value : path) (flag : A) : A := default flag (parse value).

Definition nonempty (s : path) : option path := if bool_decide (s = []) then None else Some s.

(** A duration where it is a positive one, and otherwise the default. *)
Definition positive_or (d : Z) (s : path) : Z :=
  match ParseDuration s with
  | Some n => if 0 <? n then n else d
  | None => d
  end.

Lemma load_string_override env key name old :
  env_name key = name → load_string env key old = override nonempty (env name) old.
Proof.
  intros <-. unfold load_string, envVarLookup, override, nonempty. generalize (env (env_name key)). intros v.
  destruct v; [|done]. by destruct old.
Qed.

Lemma load_parsed_override {A} (parse : path → option A) env key name old :
  env_name key = name → parse [] = None → load_parsed parse env key old = override parse (env name) old.
Proof.
  intros <- Hp. unfold load_parsed, envVarLookup, override. generalize (env (env_name key)). intros v.
  destruct v; [|done]. by rewrite Hp.
Qed.

Lemma load_value_override env key name old :
  env_name key = name → load_value env key old = override nonempty (env name) old.
Proof.
  intros <-. unfold load_value, envVarLookup, override, nonempty. generalize (env (env_name key)). intros v.
  by destruct v.
Qed.

Lemma loadEnvironment_eq env f :
  loadEnvironment env f =
    mkFlags (override nonempty (env (str "FSROOT")) (fl_root f)) (override nonempty (env (str "BDPATH")) (fl_path f))
      (override Atoi (env (str "PORT")) (fl_port f)) (override nonempty (env (str "BIND")) (fl_bindIP f))
      (override Atoi (env (str "SECTOR_SIZE")) (fl_sectorSize f)) (override ParseBool (env (str "RO")) (fl_readOnly f))
      (override ParseBool (env (str "VERBOSE")) (fl_verbose f)) (override ParseBool (env (str "METRICS")) (fl_logMetrics f))
      (override nonempty (env (str "METRICS_PERIOD")) (fl_logMetricsPeriod f))
      (override ParseBool (env (str "NO_COMPRESSION")) (fl_disableCompression f))
      (override Atoi (env (str "COMPRESSION_CACHE_SIZE")) (fl_compressionCacheSize f))
      (override nonempty (env (str "PEER_TIMEOUT")) (fl_peerTimeout f)).
Proof.
  transitivity (mkFlags (load_string env (str "fsroot") (fl_root f)) (load_string env (str "bdpath") (fl_path f))
    (load_parsed Atoi env (str "port") (fl_port f)) (load_string env (str "bind") (fl_bindIP f))
    (load_parsed Atoi env (str "sector-size") (fl_sectorSize f)) (load_parsed ParseBool env (str "ro") (fl_readOnly f))
    (load_parsed ParseBool env (str "verbose") (fl_verbose f))
    (load_parsed ParseBool env (str "metrics") (fl_logMetrics f))
    (load_value env (str "metrics-period") (fl_logMetricsPeriod f))
    (load_parsed ParseBool env (str "no-compression") (fl_disableCompression f))
    (load_parsed Atoi env (str "compression-cache-size") (fl_compressionCacheSize f))
    (load_value env (str "peer-timeout") (fl_peerTimeout f))); [by destruct f|].
  f_equal; by first [apply load_string_override|apply load_parsed_override|apply load_value_override].
Qed.

Lemma main_inv {W} `{OS W} `{Decoders} `{Net} env f now (w : W) s b w1 :
  main env f now w = Ok (Ready s b, w1) →
  let g := default_root (loadEnvironment env f) in
  NewBackend (backend_options g) w = Ok (Val b, w1) ∧
  ∃ s0, New (server_options g) = Some s0 ∧ Start now s0 = (None, s).
Proof.
  unfold main. cbv zeta. intros Hr. apply bind_Ok_inv in Hr as ([[b1|e] w2] & Hb & Hr); [|done].
  destruct (New _) as [s0|] eqn:Hs; [|done]. destruct (Start now s0) as [[e|] s1] eqn:Hst; [done|].
  injection Hr as -> -> ->. split; [done|]. by exists s0.
Qed.

Lemma server_options_ok g : Forall server_option (server_options g).
Proof.
  unfold server_options. rewrite !Forall_app. unfold server_option.
  split_and!; repeat case_match; repeat (apply Forall_cons_2; [eauto 10|]); constructor.
Qed.

Lemma backend_options_ok {W} `{OS W} `{Decoders} g : Forall (is_option (W := W)) (backend_options g).
Proof.
  unfold backend_options. rewrite !Forall_app.
  split; [repeat constructor|split; case_match; repeat constructor].
Qed.

(** What the start of the backend keeps of the options. *)
Lemma NewBackend_settings {W} `{OS W} `{Decoders} opts (w : W) b w1 :
  NewBackend opts w = Ok (Val b, w1) →
  let s := foldl (λ s o, o s) emptyBackend opts in
  b_readOnly b = b_readOnly s ∧ enableCompression b = enableCompression s ∧ sectorSize b = sectorSize s ∧
  compressionCacheSize b = compressionCacheSize s ∧ blockDevice b = blockDevice s ∧
  (fsRoot s = [] → fsRoot b = []) ∧ (fsRoot s ≠ [] → Abs (os_Getwd w) (fsRoot s) = Some (fsRoot b)).
Proof.
  unfold NewBackend. cbv zeta. generalize (foldl (λ s o, o s) (emptyBackend (W := W)) opts). intros s Hr.
  assert (∀ s0 w0, open_device s0 w0 = Ok (Val b, w1) → b_readOnly b = b_readOnly s0 ∧
    enableCompression b = enableCompression s0 ∧ sectorSize b = sectorSize s0 ∧
    compressionCacheSize b = compressionCacheSize s0 ∧ blockDevice b = blockDevice s0 ∧ fsRoot b = fsRoot s0) as Hd.
  { clear Hr. intros s0 w0. unfold open_device. case_bool_decide; [intros Hb; by injection Hb as <- _|]. cbv zeta.
    destruct (os_OpenFile _ _ w0) as [[h|e] w2]; [|done]. destruct (file_Stat h w2) as [[fi|e] w3]; [|done].
    intros Hb. by injection Hb as <- _. }
  case_bool_decide as Er.
  - destruct (Hd s w Hr) as (? & ? & ? & ? & ? & ?). by split_and!; [..|congruence|].
  - destruct (Abs _ _) as [abs|] eqn:Ea; [|done]. destruct (os_Stat abs w) as [[fi|e] w2]; [|done].
    destruct (IsDir fi); [|done]. destruct (Hd _ _ Hr) as (? & ? & ? & ? & ? & Hf). simpl in Hf.
    split_and!; [done..|]. intros _. by rewrite Hf.
Qed.

Lemma backend_settings {W} `{OS W} `{Decoders} g :
  let s := foldl (λ s o, o s) (emptyBackend (W := W)) (backend_options g) in
  b_readOnly s = fl_readOnly g ∧ enableCompression s = negb (fl_disableCompression g) ∧
  sectorSize s = (if fl_sectorSize g =? 0 then 512 else fl_sectorSize g) ∧
  compressionCacheSize s = fl_compressionCacheSize g ∧ blockDevice s = fl_path g ∧ fsRoot s = fl_root g.
Proof.
  unfold backend_options, WithFSRoot, WithBlockDevice, WithSectorSize, WithCompressionCacheSize.
  destruct g as [root dev po bi ss ro ve lm lp dc cs pt]. simpl.
  destruct (Z.eqb_spec cs 0) as [->|], (Z.eqb_spec ss 0); destruct root, dev, ro, dc; done.
Qed.

Lemma duration_setting_or d s : (if 0 <? duration_setting s then duration_setting s else d) = positive_or d s.
Proof.
  unfold duration_setting, positive_or. case_bool_decide as E; [by subst s|]. simpl.
  by destruct (ParseDuration s).
Qed.

Lemma server_settings g s :
  New (server_options g) = Some s →
  port s = (if fl_port g =? 0 then UDPFSPort else fl_port g) ∧ bindIP s = fl_bindIP g ∧
  peerTimeout s = positive_or (3600 * second) (fl_peerTimeout g) ∧ verbose s = fl_verbose g ∧
  logMetrics s = fl_logMetrics g ∧
  metricsLoggingPeriod s = (if fl_logMetrics g then positive_or (60 * second) (fl_logMetricsPeriod g) else 60 * second).
Proof.
  unfold New, server_options. rewrite <- !duration_setting_or. generalize (duration_setting (fl_peerTimeout g)).
  generalize (duration_setting (fl_logMetricsPeriod g)). intros mp pt.
  unfold WithDiscoveryPort, WithDataIP, WithPeerTimeout, WithMetrics.
  destruct g as [root dev po bi ss ro ve lm lp dc cs pt']. simpl.
  destruct (po =? 0), (0 <? mp), (0 <? pt), bi, ve, lm; by intros [= <-].
Qed.

(** C21: where every setting of the running server comes from: the environment variable
    that the code reads for it where that is set and can be read, the flag otherwise,
    and the default where that is empty, 0 or not a positive duration.  (README.md
    names the same variables, but says that COMPRESSION=0 and NO_COMPRESSION=0 disable
    compression: the first is not read, the second enables it.)
    Without a root and a device the root is ./fsroot; the root that is served is
    absolute.  The server listens on the sockets that the host gives for this port
    and for this bind address, completed by a port where it has none. *)
Theorem main_settings {W} `{OS W} `{Decoders} `{Net} env f now (w : W) s b w1 :
  main env f now w = Ok (Ready s b, w1) →
  let dev := override nonempty (env (str "BDPATH")) (fl_path f) in
  let root := override nonempty (env (str "FSROOT")) (fl_root f) in
  let root := if bool_decide (dev = []) && bool_decide (root = []) then str "./fsroot" else root in
  let ss := override Atoi (env (str "SECTOR_SIZE")) (fl_sectorSize f) in
  let p := override Atoi (env (str "PORT")) (fl_port f) in
  let metrics := override ParseBool (env (str "METRICS")) (fl_logMetrics f) in
  (fsRoot b = [] ∧ root = [] ∨ Abs (os_Getwd w) root = Some (fsRoot b)) ∧ blockDevice b = dev ∧
  sectorSize b = (if ss =? 0 then 512 else ss) ∧
  b_readOnly b = override ParseBool (env (str "RO")) (fl_readOnly f) ∧
  enableCompression b = negb (override ParseBool (env (str "NO_COMPRESSION")) (fl_disableCompression f)) ∧
  compressionCacheSize b = override Atoi (env (str "COMPRESSION_CACHE_SIZE")) (fl_compressionCacheSize f) ∧
  port s = (if p =? 0 then 62966 else p) ∧ bindIP s = data_address (override nonempty (env (str "BIND")) (fl_bindIP f)) ∧
  (∃ disc a data, net_ListenPacket (str ":" ++ Itoa (port s)) = Some (Some disc) ∧ discConn s = Some disc ∧
    net_ResolveUDPAddr (bindIP s) = Some a ∧ net_ListenUDP a = Some data ∧ dataConn s = Some data) ∧
  peerTimeout s = positive_or (3600 * second) (override nonempty (env (str "PEER_TIMEOUT")) (fl_peerTimeout f)) ∧
  verbose s = override ParseBool (env (str "VERBOSE")) (fl_verbose f) ∧ logMetrics s = metrics ∧
  metricsLoggingPeriod s =
    (if metrics : bool
     then positive_or (60 * second) (override nonempty (env (str "METRICS_PERIOD")) (fl_logMetricsPeriod f))
     else 60 * second).
Proof.
  intros Hm. apply main_inv in Hm as (Hb & s0 & Hs & Hst). apply NewBackend_settings in Hb. cbv zeta in Hb.
  apply Start_inv in Hst as (_ & _ & Hbind & _ & Hport & Hto & Hper & Hver & Hlog & _ & Hsock).
  pose proof (backend_settings (default_root (loadEnvironment env f))) as Hg. cbv zeta in Hg.
  destruct Hg as (Hg1 & Hg2 & Hg3 & Hg4 & Hg5 & Hg6).
  rewrite Hg1, Hg2, Hg3, Hg4, Hg5, Hg6 in Hb. destruct Hb as (Hb1 & Hb2 & Hb3 & Hb4 & Hb5 & Hr1 & Hr2).
  apply server_settings in Hs as (Hs1 & Hs2 & Hs3 & Hs4 & Hs5 & Hs6). rewrite Hbind, Hport, Hto, Hper, Hver, Hlog.
  clear Hbind Hport Hto Hper Hver Hlog. rewrite loadEnvironment_eq in *.
  clear Hg1 Hg2 Hg3 Hg4 Hg5 Hg6. unfold default_root in *. cbn [fl_path fl_root] in *. cbv zeta.
  change 62966 with UDPFSPort. set (dev := override _ (env (str "BDPATH")) _) in *.
  set (root := override _ (env (str "FSROOT")) _) in *.
  destruct (bool_decide (dev = []) && bool_decide (root = [])); simpl in *; rewrite Hs2 in *; split_and!; try done.
  - right. by apply Hr2.
  - destruct (decide (root = [])) as [E|E]; [left; split; [by apply Hr1|done]|right; by apply Hr2].
Qed.

(** The small system with its root as a flag, read-only by the environment. *)
Definition ram_env : environment := λ k,
  if bool_decide (k = str "RO") then str "1" else if bool_decide (k = str "PEER_TIMEOUT") then str "90s" else [].
Definition ram_flags : flags := default_flags <| fl_root := MemOs.root |> <| fl_disableCompression := true |>.

Definition main_backend : Backend MemOs.world := ro_backend <| compressionCacheSize := 32 |>.
Definition main_server : Server :=
  mkServer 7 (90 * second) true (Some (mkConn (0, UDPFSPort) false)) (Some (mkConn (0, 50000) false)) ∅ (str ":0") 2
    UDPFSPort metricsLoggingPeriod_default false false.

#[local] Existing Instance loopback.

Lemma ram_main : main ram_env ram_flags 7 ram0 = Ok (Ready main_server main_backend, ram0).
Proof. reflexivity. Qed.

Lemma main_settings_witness :
  main ram_env ram_flags 7 ram0 = Ok (Ready main_server main_backend, ram0) ∧
  peerTimeout main_server = 90 * second ∧ b_readOnly main_backend = true.
Proof.
  split; [exact ram_main|].
  destruct (main_settings ram_env ram_flags 7 ram0 main_server main_backend ram0 ram_main)
    as (_ & _ & _ & Hro & _ & _ & _ & _ & _ & Hto & _).
  split; [exact Hto|exact Hro].
Defined.

(** ** Whole runs *)

Section Run.
Context {W : Type} `{OSL : OSLaws W} `{Decoders} `{Net}.

Lemma open_device_returns (s : Backend W) w : ∃ r w1, open_device s w = Ok (r, w1).
Proof.
  unfold open_device. case_bool_decide; [by eexists _, _|]. cbv zeta.
  destruct (os_OpenFile (blockDevice s) _ w) as [[h|e] w1] eqn:E; [|by eexists _, _].
  pose proof (os_open_fresh (blockDevice s) _ w h (f_equal fst E)) as [_ Ho]. rewrite E in Ho.
  apply os_fstat_open in Ho as [fi Hf]. simpl in Hf.
  destruct (file_Stat h w1) as [r w2]. simpl in Hf. subst r. by eexists _, _.
Qed.

Lemma NewBackend_returns opts (w : W) : ∃ r w1, NewBackend opts w = Ok (r, w1).
Proof.
  unfold NewBackend. cbv zeta. case_bool_decide; [apply open_device_returns|].
  destruct (Abs _ _) as [abs|]; [|by eexists _, _]. destruct (os_Stat abs w) as [[fi|e] w1]; [|by eexists _, _].
  destruct (IsDir fi); [apply open_device_returns|by eexists _, _].
Qed.

Lemma main_returns env f now (w : W) :
  ∃ r w1, main env f now w = Ok (r, w1) ∧ (r = Exit 1 ∨ ∃ s b, r = Ready s b).
Proof.
  unfold main. cbv zeta. destruct (NewBackend_returns (backend_options (default_root (loadEnvironment env f))) w)
    as ([b|e] & w1 & ->); rewrite bind_Ok; [|by eexists _, _; split; [|left]].
  destruct (New _) as [s|]; [|by eexists _, _; split; [|left]].
  destruct (Start now s) as [[e|] s']; eexists _, _; (split; [done|]); [by left|right; by eexists _, _].
Qed.

(** C1: the program does not panic.  Its environment and flags are any (but for a
    negative sector size), its sockets whatever the host has to give, and its host one
    that keeps [OSLaws]: opened files stay open until they are closed, the stat of an
    open file and of a directory that was just read succeeds, names have at most 255
    bytes.  Unless decompression is off, [images_ok] is asked for too: decoders that
    fill their buffer and image files whose header and table can be allocated (see
    negative_size_panics and stat_failure_panics for what happens otherwise).  Then
    the program either exits with status 1 or gets a server that is listening; and
    that server runs without a panic, whatever datagrams arrive from whatever peers on
    the two sockets, in whatever order they are lost, repeated or mixed, and however
    timer expiries, cleanups, ticks of the metrics logger and the end of the program
    fall between the arrival of a datagram, the processing of its packet and that of
    its request, as long as [events_ok] holds of the run: the requests have a handle
    in the table (at most 64, not negative in a CLOSE, positive in a DREAD) and a size
    within the buffer (see handle_out_of_range_panics), and no
    cleanup finds the peer idle whose datagram is being processed (see
    cleanup_race_panics).  At the end every connection, the file system and the handle
    table are sound. *)
Theorem program_never_panics env f now (w : W) :
  0 <= override Atoi (env (str "SECTOR_SIZE")) (fl_sectorSize f) →
  (override ParseBool (env (str "NO_COMPRESSION")) (fl_disableCompression f) = false → images_ok (W := W)) →
  ∃ r w1, main env f now w = Ok (r, w1) ∧
    match r with
    | Exit status => status = 1
    | Ready s b =>
        ∀ es, events_ok (HW := backend_contract (sectorSize b)) es (started s (b, w1)) →
          ∃ st, server_run es (started s (b, w1)) = Ok st ∧
            server_ok (HW := backend_contract (sectorSize b)) st ∧
            backend_ok (sectorSize b) (fst (world st)) (snd (world st))
    end.
Proof.
  intros Hss Himg. destruct (main_returns env f now w) as (r & w1 & Hm & Hr). exists r, w1. split; [exact Hm|].
  destruct Hr as [->|(s & b & ->)]; [done|]. intros es Hes.
  pose proof (main_inv env f now w s b w1 Hm) as (Hb & s0 & Hs & Hst).
  apply NewBackend_settings in Hb as Hset. destruct Hset as (_ & Hc & Hz & _).
  destruct (backend_settings (W := W) (default_root (loadEnvironment env f))) as (_ & Hc' & Hz' & _).
  rewrite Hc', loadEnvironment_eq in Hc. rewrite Hz', loadEnvironment_eq in Hz. unfold default_root in Hc, Hz.
  eapply server_never_panics;
    [apply backend_options_ok|exact Hb| | |apply server_options_ok|exact Hs|exact Hst|exact Hes].
  - rewrite Hz. destruct (_ && _); simpl; by destruct (Z.eqb_spec (override Atoi (env (str "SECTOR_SIZE")) (fl_sectorSize f)) 0); lia.
  - intros Hen. apply Himg. rewrite Hc in Hen. by destruct (_ && _); apply negb_true_iff in Hen.
Qed.
End Run.

(** C2: a program that is started read-only never writes.  When RO, or without it
    the flag -ro, says so, then from the start of the program on, whatever datagrams
    arrive and however timers and cleanups fall between them, the operating system is
    only asked to look (stat, read a directory, open a file read-only, read, seek,
    the time) and to close files: no write, no directory made, nothing removed, no
    file opened for writing, created or truncated. *)
Theorem program_readonly {W} `{OS W} `{Decoders} `{Net} env f now (w : W) s b w1 es st :
  override ParseBool (env (str "RO")) (fl_readOnly f) = true →
  main env f now w = Ok (Ready s b, w1) → server_run es (started s (b, w1)) = Ok st →
  rtc look_step w (snd (world st)) ∧ b_readOnly (fst (world st)) = true.
Proof.
  intros Hro Hm Hrun. apply main_inv in Hm as (Hb & s0 & Hs & Hst). apply NewBackend_settings in Hb as Hset.
  destruct Hset as (Hr & _). destruct (backend_settings (W := W) (default_root (loadEnvironment env f))) as (Hr' & _).
  rewrite Hr', loadEnvironment_eq in Hr.
  eapply readonly_never_writes; [apply backend_options_ok|exact Hb| |apply server_options_ok|exact Hs|exact Hst|exact Hrun].
  rewrite Hr. unfold default_root. by destruct (_ && _).
Qed.

(** ** A run of the small system *)

Definition main_state : state (Backend MemOs.world * MemOs.world) :=
  started main_server (main_backend, ram0).

Lemma main_events_ok : events_ok (HW := backend_contract 512) ro_events main_state.
Proof.
  repeat (split; [first [exact Logic.I | exact open_datagram_ok | exact open_rw_ok]|intros ? _]). exact Logic.I.
Qed.

(** The program in its default configuration, with decompression, on the read-only
    host: a client opens the image and reads of it. *)
Definition rom_flags : flags := default_flags <| fl_root := MemOs.root |>.
Definition rom_main_backend : Backend RomOs.rom := rom_backend <| compressionCacheSize := 32 |>.
Definition rom_server : Server := main_server <| peerTimeout := defaultPeerTimeout |>.

Lemma rom_main : main (λ _, []) rom_flags 7 rom0 = Ok (Ready rom_server rom_main_backend, rom0).
Proof. reflexivity. Qed.

Definition open_game : list byte := map z2b [16; 0; 1; 0; 0; 0; 0; 0] ++ str "game.cso.iso".
Definition read_game : list byte := map z2b [20; 0; 0; 0; 1; 0; 0; 0; 4; 0; 0; 0].
Definition rom_events : list event :=
  [EvArrive 1 client_a (encode 0 0 (mkDesc [] open_game true)); EvReceive []; EvHandle [] 1;
   EvArrive 2 client_a (encode 0 1 (mkDesc [] read_game true)); EvReceive [1]; EvTimer client_a; EvHandle [1] 2].

Lemma rom_datagram_ok seq payload R (o : fs_op R) :
  parse_packet (read_datagram (encode 0 seq (mkDesc [] payload true))) =
    Some (mkDataPacket seq 4095 true payload) →
  request_op payload = Some (existT R o) → backend_pre 512 R o →
  datagram_ok (HW := backend_contract (W := RomOs.rom) 512) (read_datagram (encode 0 seq (mkDesc [] payload true))).
Proof. intros Hp Hr Ho. unfold datagram_ok, request_ok. rewrite Hp. cbn [dp_payload]. by rewrite Hr. Qed.

Lemma rom_events_ok :
  events_ok (HW := backend_contract 512) rom_events (started rom_server (rom_main_backend, rom0)).
Proof.
  assert (datagram_ok (HW := backend_contract (W := RomOs.rom) 512)
            (read_datagram (encode 0 0 (mkDesc [] open_game true)))) as Ho
    by (eapply rom_datagram_ok; [by vm_compute|by vm_compute|exact Logic.I]).
  assert (datagram_ok (HW := backend_contract (W := RomOs.rom) 512)
            (read_datagram (encode 0 1 (mkDesc [] read_game true)))) as Hr
    by (eapply rom_datagram_ok; [by vm_compute|by vm_compute|simpl; lia]).
  repeat (split; [first [exact Logic.I | exact Ho | exact Hr]|intros ? _]). exact Logic.I.
Qed.

Lemma program_never_panics_witness :
  (∃ st, server_run ro_events main_state = Ok st ∧ server_ok (HW := backend_contract 512) st) ∧
  ∃ st, server_run rom_events (started rom_server (rom_main_backend, rom0)) = Ok st ∧
    server_ok (HW := backend_contract 512) st.
Proof.
  split.
  - destruct (program_never_panics ram_env ram_flags 7 ram0) as (r & w1 & Hm & Hr); [vm_compute; discriminate|done|].
    rewrite ram_main in Hm. injection Hm as <- <-.
    destruct (Hr ro_events main_events_ok) as (st & Hrun & Hok & _). exists st. split; [exact Hrun|exact Hok].
  - destruct (program_never_panics (λ _, []) rom_flags 7 rom0) as (r & w1 & Hm & Hr);
      [vm_compute; discriminate|intros _; exact RomOs.rom_images|].
    rewrite rom_main in Hm. injection Hm as <- <-.
    destruct (Hr rom_events rom_events_ok) as (st & Hrun & Hok & _). exists st. split; [exact Hrun|exact Hok].
Defined.

Lemma program_readonly_witness :
  ∃ st, server_run ro_events main_state = Ok st ∧ rtc look_step ram0 (snd (world st)).
Proof.
  assert (server_ok (HW := backend_contract 512) main_state) as Hok.
  { split; [done| |done..]. exact (fresh_ok main_backend ram0 ltac:(done) ltac:(done) ltac:(done)). }
  destruct (server_run_ok (HW := backend_contract 512) ro_events main_state Hok main_events_ok) as (st & Hrun & _).
  exists st. split; [exact Hrun|].
  apply (program_readonly ram_env ram_flags 7 ram0 main_server main_backend ram0 ro_events st);
    [reflexivity|exact ram_main|exact Hrun].
Defined.
