(* ===== verification/ClientRead.v ===== *)
(** * A client that reads over the network

    A client at the other end of a connection: it sends READ_REQs, acknowledges what
    it gets, and puts the payloads together.  What it reads, through its session, the
    server's, the request handler and the file system, is the content of the image
    that is open on the server. *)
From Equations Require Import Equations.
From stdpp Require Import gmap.
From S2P Require Import Prelude RdmaProtocol RdmaSession RdmaPack RdmaInvariant RdmaTransfer RdmaTimer RdmaAck RdmaReceive RdmaWire RdmaStep RdmaDelivery RdmaLiveness.
From S2P Require Import UdpfsProtocol UdpfsLog UdpfsConnection UdpfsContract UdpfsProperties CompressedFile CachedReader GoPath CompressedImage OsWorld Backend BackendInvariant BackendContract BackendData MemOs Server ServerContract CompressionProperties BackendProperties DataProperties ServerProperties.

(** ** The payloads of a reply *)

Lemma padding_whole c : zlen c mod 4 = 0 → padding c = [].
Proof. intros Hc. apply nil_length_inv. pose proof (zlen_padding c). rewrite pad4_spec in *. unfold zlen in *. zlia. Qed.

Lemma chunk_payloads m l :
  (Z.of_nat m + 1) mod 4 = 0 → ∃ x, concat (map payload_of (chunk_plan m l)) = l ++ padding x.
Proof.
  intros Hm. induction l as [l IH] using (induction_ltof1 _ length). unfold ltof in IH.
  destruct (decide (l = [])) as [->|Hne]; [exists []; by simp chunk_plan|].
  rewrite chunk_plan_step by done. cbn [map concat]. unfold payload_of at 1. cbn [d_header d_chunk].
  rewrite app_nil_l. assert (0 < length l)%nat by (destruct l; simpl in *; [done|lia]).
  destruct (decide (drop (S m) l = [])) as [E|E].
  - rewrite E. simp chunk_plan. exists (take (S m) l). cbn [map concat]. rewrite app_nil_r. f_equal.
    apply take_ge. apply (f_equal length) in E. rewrite length_drop in E. simpl in E. lia.
  - destruct (IH (drop (S m) l)) as [pad ->]; [rewrite length_drop; lia|].
    rewrite padding_whole, app_nil_r, app_assoc, take_drop; [by exists pad|].
    assert (S m < length l)%nat by (apply Nat.nle_gt; intros Hle; apply E, drop_ge, Hle).
    unfold zlen. rewrite length_take, Nat.min_l by lia. lia.
Qed.

(** The header and the data, and then zeros up to a multiple of four. *)
Lemma plan_payloads header data :
  zlen header mod 4 = 0 → 0 < zlen header < 64 →
  ∃ x, concat (map payload_of (plan (mkTransfer header (Some data) 0 (optimalChunkSize (zlen data))))) =
    header ++ data ++ padding x.
Proof.
  intros Hm Hh. rewrite optimalChunkSize_1408 by apply zlen_nonneg. unfold plan.
  cbn [t_data t_offset t_header t_maxChunk]. rewrite (proj2 (Z.ltb_lt _ _)) by lia. cbn [Z.eqb andb].
  set (k := first_chunk _). set (m := Z.to_nat _).
  assert (Z.of_nat k = MaxDataPayload - zlen header) as Hk.
  { unfold k, first_chunk. cbn [t_header t_maxChunk]. unfold MaxDataPayload. lia. }
  destruct (chunk_payloads m (drop k data)) as [pad Hpad]; [reflexivity|].
  cbn [map concat]. rewrite Hpad. unfold payload_of. cbn [d_header d_chunk]. rewrite <-!app_assoc.
  destruct (decide (length data <= k)%nat) as [Hle|Hgt].
  - rewrite drop_ge in Hpad by done. simp chunk_plan in Hpad. cbn [map concat] in Hpad.
    rewrite app_nil_l in Hpad. rewrite (take_ge data), drop_ge, <-Hpad by done. exists data. by rewrite app_nil_l, app_nil_r.
  - rewrite padding_whole; [exists pad; by rewrite app_nil_l, app_assoc with (l := take k data), take_drop|].
    unfold MaxDataPayload in Hk. unfold zlen in *. rewrite length_take, Nat.min_l by lia. zlia.
Qed.

Lemma plan_length header data :
  0 < zlen header < MaxDataPayload →
  (length (plan (mkTransfer header (Some data) 0 (optimalChunkSize (zlen data)))) <= S (length data))%nat.
Proof.
  intros Hh. rewrite optimalChunkSize_1408 by apply zlen_nonneg.
  change 1408 with MaxDataPayload. destruct (plan_with_header header data Hh) as [Hd Hhs Hs _]. revert Hd Hhs Hs.
  generalize (plan (mkTransfer header (Some data) 0 MaxDataPayload)). intros [|d ds] <- Hhs Hs; [simpl; lia|].
  cbn [length] in *. rewrite Nat.sub_succ, Nat.sub_0_r in Hhs. injection Hhs as _ Hhs.
  apply Forall_cons in Hs as [_ Hs]. cbn [map concat]. rewrite length_app.
  assert (length ds <= length (concat (map d_chunk ds)))%nat; [|lia].
  clear d. induction ds as [|d ds IH]; [done|]. cbn [length map concat] in *. rewrite length_app.
  injection Hhs as Hd Hhs. apply Forall_cons in Hs as [H1 Hs]. rewrite Hd in H1. change (zlen (@nil byte)) with 0 in H1.
  specialize (IH Hhs Hs). unfold zlen in H1. lia.
Qed.

(** ** Packets at a session that has nothing to send *)

Lemma control_packet_parse ack tx rx :
  0 <= tx < 4096 → 0 <= rx < 4096 →
  ∃ p, parse_packet (control_packet ack tx rx) = Some p ∧ dp_payload p = [].
Proof.
  intros Htx Hrx. destruct (control_parse ack tx rx Htx Hrx) as (Hh & Hl & Hd).
  unfold parse_packet. rewrite Hh, Hd. cbn [PacketType]. rewrite Z.eqb_refl. by eexists.
Qed.

(** A session that has something to send, or that waits for the acknowledgement of
    all it has sent. *)
Definition sending (s : Session) : bool := transferPending s || finPending s.

Lemma onPeerAck_idle a s s' :
  session_ok s → 0 <= a < 4096 → sending s = false → onPeerAck a s = Ok s' →
  txSeqNr s' = txSeqNr s ∧ wire s' = wire s ∧ sending s' = false.
Proof.
  intros [Hc Ht _] Ha [Hp Hf]%orb_false_iff. destruct (onAck_spec a s Hc Ht Ha) as (s1 & Hr & _ & _ & Htr & Hw & Htx & _ & _ & _ & Hacc).
  unfold onPeerAck. rewrite Hr, bind_Ok. assert (transferPending s1 = transferPending s) as E.
  { unfold transferPending. by rewrite Htr. }
  rewrite E, Hp. intros [= <-]. split_and!; [done..|]. unfold sending. rewrite E, Hp.
  destruct (ack_accepted a s); [|by subst]. destruct Hacc as (_ & _ & _ & -> & _). by rewrite Hf; destruct (_ =? _).
Qed.

(** A packet in order changes nothing but the receiver's side. *)
Lemma ProcessDataPacket_idle data p s res s' :
  session_ok s → 6 <= zlen data → sending s = false → parse_packet data = Some p →
  dp_payload p ≠ [] → dp_seq p = rxSeqExpected s → ProcessDataPacket data s = Ok (res, s') →
  txSeqNr s' = txSeqNr s ∧ batched (wire s') = batched (wire s) ∧ sending s' = false.
Proof.
  intros Hok Hlen Hp Hparse Hne Hseq. pose proof (ProcessDataPacket_run data s Hlen) as Hrun. rewrite Hparse in Hrun.
  destruct Hrun as (Ha & Hsq & n & Hn & Hpay & ->). case_bool; [by rewrite Hpay, E in Hne|].
  unfold receive_payload. cbv zeta. simpl rxSeqExpected. rewrite Hseq, Z.eqb_refl. cbn [negb].
  set (s1 := sendACK true _).
  assert (session_ok s1 ∧ txSeqNr s1 = txSeqNr s ∧ batched (wire s1) = batched (wire s) ∧ sending s1 = false)
    as (Hok1 & Htx1 & Hw1 & Hp1).
  { unfold s1. split; [apply sendACK_ok, session_ok_rx; [by apply session_ok_metrics|]|].
    - rewrite next_seq. zlia.
    - destruct (sendACK_shape true ((s <| metrics := count_rx s |>) <| rxSeqExpected := Z.land (u16 (rxSeqExpected s + 1)) 0xFFF |>))
        as [m Hs]. rewrite Hs. simpl. rewrite batched_app. by rewrite app_nil_r. }
  clearbody s1. intros Hr. apply bind_Ok_inv in Hr as (s2 & Hack & Hr).
  apply bind_Ok_inv in Hr as (q & _ & Hr). injection Hr as _ <-. destruct (dp_isack p).
  - destruct (onPeerAck_idle _ _ _ Hok1 Ha Hp1 Hack) as (E1 & E2 & E3). split; [congruence|]. by rewrite E2.
  - injection Hack as <-. by split_and!.
Qed.

(** ** The client *)

(** A READ_REQ for [n] bytes of handle [h]. *)
Definition read_request (h n : Z) : list byte :=
  map z2b [MsgReadReq; 0; 0; 0] ++ le_put 4 (u32 h) ++ le_put 4 (u32 n).

(** What the client makes of a reply: the result in its header is the number of the
    bytes that follow it. *)
Definition client_data (payloads : list (list byte)) : list byte :=
  let b := concat payloads in take (Z.to_nat (i32 (le_at b 4 4))) (drop 8 b).

(** The session that the client receives with, and the number of its next request. *)
Record client := mkClient { cl_sess : Session; cl_seq : Z }.

Section Client.
Context {W : Type} `{FS W}.

(** A datagram of the peer [a] arrives and is processed. *)
Definition deliver (a : AddrPort) (now : Z) (data : list byte) (st : state W) : outcome (state W) :=
  server_run [EvArrive now a data; EvReceive []; EvHandle [] now] st.

(** The packets of the transfers that the server has sent to the peer. *)
Definition sent_to (a : AddrPort) (st : state W) : list (list byte) :=
  match cMap (server st) !! a with
  | Some p => batched (wire (sess (p_conn p)))
  | None => []
  end.

(** The client acknowledges what has been sent until there is nothing more to send. *)
Fixpoint acknowledge (fuel : nat) (a : AddrPort) (now : Z) (st : state W) : outcome (state W) :=
  match cMap (server st) !! a with
  | None => Ok st
  | Some p =>
      let s := sess (p_conn p) in
      if sending s then
        match fuel with
        | O => OutOfFuel
        | S fuel => st ← deliver a now (control_packet true 0 (txSeqNr s)) st; acknowledge fuel a now st
        end
      else Ok st
  end.

(** One read: the request, the acknowledgements, and what its session returns. *)
Definition client_read (a : AddrPort) (now h n : Z) (c : client) (st : state W)
    : outcome (list byte * client * state W) :=
  let before := length (sent_to a st) in
  st ← deliver a now (encode (rxSeqExpected (cl_sess c)) (cl_seq c) (mkDesc [] (read_request h n) true)) st;
  st ← acknowledge (Z.to_nat n + 2) a now st;
  '(payloads, r) ← process_all (drop before (sent_to a st)) (cl_sess c);
  Ok (client_data payloads, mkClient r ((cl_seq c + 1) mod 4096), st).

Fixpoint client_reads (k : nat) (a : AddrPort) (now h n : Z) (c : client) (st : state W)
    : outcome (list byte * client * state W) :=
  match k with
  | O => Ok ([], c, st)
  | S k =>
      '(d, c, st) ← client_read a now h n c st;
      '(ds, c, st) ← client_reads k a now h n c st;
      Ok (d ++ ds, c, st)
  end.

End Client.

(** ** The server's side of a read *)

Section Serving.
Context {W : Type} `{HW : FSContract W}.

(** The data handler waits for a datagram. *)
Definition listening (st : state W) : Prop := job st = Reading ∧ is_open (dataConn (server st)) = true.

(** Client and server agree on the sequence numbers of both directions, and the
    server is not sending. *)
Record linked (a : AddrPort) (c : client) (st : state W) (p : peer) : Prop := {
  ln_peer : cMap (server st) !! a = Some p;
  ln_free : listening st;
  ln_conn : connection_ok (p_conn p);
  ln_client : session_ok (cl_sess c);
  ln_replies : rxSeqExpected (cl_sess c) = txSeqNr (sess (p_conn p));
  ln_requests : rxSeqExpected (sess (p_conn p)) = cl_seq c;
  ln_idle : sending (sess (p_conn p)) = false
}.

Lemma deliver_run a now data st p c w :
  cMap (server st) !! a = Some p → listening st → 6 <= zlen data <= readBufferLen →
  receive [] [] now data (p_conn p) (world st) = Ok (c, w) →
  deliver a now data st =
    Ok (set_server (server st <| cMap ::= λ m, <[a := mkPeer c now]> m |>) w st).
Proof.
  intros Hp [Hj Ho] Hl Hr. unfold deliver. cbn [server_run server_step]. unfold dataHandler. rewrite Hj, Ho. cbv zeta.
  assert (read_datagram data = data) as ->.
  { unfold read_datagram. apply take_ge. unfold zlen in Hl. lia. }
  rewrite (proj2 (Z.ltb_ge _ _)) by lia. cbn [negb orb]. rewrite bind_Ok. cbn [server_step job set_job server world set_server].
  unfold on_peer, lookup_peer. rewrite Hp. simpl cMap. rewrite lookup_insert_eq. cbn [p_conn lastSeen].
  unfold receive in Hr. apply bind_Ok_inv in Hr as ([[payload c1] w1] & Hr1 & Hr). rewrite Hr1, !bind_Ok.
  assert (∀ x y z : peer, <[a := x]> (<[a := y]> (<[a := z]> (cMap (server st)))) = <[a := x]> (cMap (server st))) as Hins.
  { intros x y z. by rewrite !insert_insert_eq. }
  destruct payload as [payload|]; cbn [job set_job].
  - cbn [server world set_server set_job]. simpl cMap. rewrite lookup_insert_eq. cbn [p_conn lastSeen].
    unfold handle_payload. rewrite Hr, !bind_Ok. destruct st. cbn in Hj |- *. subst. unfold set_server, set_job. cbn.
    do 2 f_equal. unfold set_field, set_cMap. cbn. f_equal. apply Hins.
  - injection Hr as -> ->. destruct st. cbn in Hj |- *. subst. unfold set_server, set_job. cbn.
    do 2 f_equal. unfold set_field, set_cMap. cbn. f_equal. apply insert_insert_eq.
Qed.

(** A packet without a payload is for the session alone. *)
Lemma receive_control_packet now d p c (w : W) res s' :
  connection_ok c → 6 <= zlen d → parse_packet d = Some p → dp_payload p = [] →
  ProcessDataPacket d (sess c) = Ok (res, s') →
  receive [] [] now d c w = Ok (c <| sess := s' |>, w) ∧ resetCallback s' = true.
Proof.
  intros Hc Hl Hp He Hr. destruct (reset_calls_packet d _ _ _ Hl Hr (co_callback _ Hc)) as [Hcb _]. split; [|done].
  destruct (receive_cases [] [] now d c w Hc Hl) as (res' & s2 & Hr2 & _ & _ & ->).
  rewrite Hr in Hr2. injection Hr2 as <- <-. by rewrite Hp, He.
Qed.

Lemma ack_everything_eq s :
  ack_everything s = ('(_, s) ← ProcessDataPacket (control_packet true 0 (txSeqNr s)) s; Ok s).
Proof. reflexivity. Qed.

(** An acknowledgement on a connection is one on its session. *)
Lemma receive_ack now c (w : W) s' :
  connection_ok c → ack_everything (sess c) = Ok s' →
  receive [] [] now (control_packet true 0 (txSeqNr (sess c))) c w = Ok (c <| sess := s' |>, w) ∧
  resetCallback s' = true.
Proof.
  intros Hc Ha. pose proof (ci_tx _ _ _ _ _ _ _ _ (so_core _ (co_sess _ Hc))) as Htx.
  destruct (control_packet_parse true 0 (txSeqNr (sess c)) ltac:(lia) Htx) as (p & Hp & He).
  destruct (control_parse true 0 (txSeqNr (sess c)) ltac:(lia) Htx) as (_ & Hl & _).
  rewrite ack_everything_eq in Ha. revert Hl Hp Ha. generalize (control_packet true 0 (txSeqNr (sess c))). intros d Hl Hp Ha.
  apply bind_Ok_inv in Ha as ([res s1] & Hr & Ha). injection Ha as ->.
  apply (receive_control_packet now d p c w res); [done|lia|done..].
Qed.

Lemma acknowledge_drive fuel a now c st p s' :
  cMap (server st) !! a = Some p → listening st → p_conn p = c → connection_ok c →
  settled (sess c) → drive fuel (sess c) = Ok s' →
  ∃ st' p', acknowledge fuel a now st = Ok st' ∧ cMap (server st') !! a = Some p' ∧ listening st' ∧
    p_conn p' = c <| sess := s' |> ∧ connection_ok (p_conn p') ∧ world st' = world st.
Proof.
  revert c st p. induction fuel as [|fuel IH]; intros c st p Hp Hi <- Hc Hset Hd; cbn [acknowledge]; rewrite Hp;
    cbn [drive] in Hd; cbv zeta; unfold sending; destruct (_ || _) eqn:Hb; try done;
    [injection Hd as <-; exists st, p; by rewrite set_sess_id| |injection Hd as <-; exists st, p; by rewrite set_sess_id].
  apply bind_Ok_inv in Hd as (s1 & Ha & Hd).
  destruct (ack_everything_spec (sess (p_conn p)) (se_ok _ Hset) (settled_busy _ Hset Hb)) as (s1' & _ & Ha' & Hset1 & _).
  rewrite Ha in Ha'. injection Ha' as <-. destruct (receive_ack now (p_conn p) (world st) s1 Hc Ha) as [Hr Hcb].
  pose proof (ci_tx _ _ _ _ _ _ _ _ (so_core _ (co_sess _ Hc))) as Htx.
  rewrite (deliver_run a now _ st p _ (world st) Hp Hi) with (2 := Hr), bind_Ok.
  2: { destruct (control_parse true 0 (txSeqNr (sess (p_conn p))) ltac:(lia) Htx) as (_ & -> & _).
       unfold readBufferLen. lia. }
  assert (connection_ok (p_conn p <| sess := s1 |>)) as Hc1 by (by apply connection_ok_sess; [|apply Hset1|]).
  match goal with |- context [acknowledge fuel a now ?x] =>
    destruct (IH (p_conn p <| sess := s1 |>) x (mkPeer (p_conn p <| sess := s1 |>) now))
      as (st' & p' & H1 & H2 & H3 & H4 & H5 & H6); [apply lookup_insert_eq|done|done|exact Hc1|exact Hset1|exact Hd|] end.
  by exists st', p'.
Qed.

(** A handle in a request. *)
Lemma handle_bytes h : 0 <= h < 2 ^ 31 → i32 (le_get (le_put 4 (u32 h))) = h.
Proof.
  intros Hh. assert (u32 h = h) as -> by (unfold u32; rewrite Z.mod_small; lia).
  rewrite le_get_put4 by lia. unfold i32. rewrite Z.mod_small by lia. lia.
Qed.

Lemma read_request_fields h n :
  0 <= h < 2 ^ 31 → 0 <= n < 2 ^ 32 →
  zlen (read_request h n) = 12 ∧ handle_at (read_request h n) = h ∧ le_at (read_request h n) 8 4 = n.
Proof.
  intros Hh Hn. split; [done|]. split; [exact (handle_bytes h Hh)|].
  change (le_at _ 8 4) with (le_get (le_put 4 (u32 n))).
  assert (u32 n = n) as -> by (unfold u32; rewrite Z.mod_small; lia). by rewrite le_get_put4.
Qed.

(** The dispatcher of a message that begins with its type. *)
Lemma HandlePayload_dispatch now payload msg rest c (w : W) st c1 w1 :
  payload = z2b msg :: rest → 0 <= msg < 256 → dispatch [] msg payload c w = Some (Ok (st, c1, w1)) →
  HandlePayload [] now payload c w = Ok (c1 <| collector ::= fmap (logMetric now msg st) |>, w1).
Proof.
  intros -> Hmsg Hd. unfold HandlePayload. rewrite b2z_z2b, Z.mod_small by done. by rewrite Hd, bind_Ok, log_step.
Qed.

(** The handler of a read request: the file system's answer goes out as a reply. *)
Lemma HandlePayload_read now h n len data c (w w' : W) s1 :
  0 <= h < 2 ^ 31 → 0 <= n < 2 ^ 32 → fs_call (FS_Read h n dataBufferLen) w = Ok (len, data, None, w') →
  SendRawDataWithHeader (PackResultReply len) data (sess c) = Ok s1 →
  ∃ c', HandlePayload [] now (read_request h n) c w = Ok (c', w') ∧ sess c' = s1 ∧
    usedHandles c' = usedHandles c ∧ activeWriteHandle c' = activeWriteHandle c.
Proof.
  intros Hh Hn Hr Hs. destruct (read_request_fields h n Hh Hn) as (Hl & H1 & H2).
  assert (handleRead (read_request h n) c w = Ok (len, c <| sess := s1 |>, w')) as Hrun.
  { unfold handleRead. rewrite Hl, H1, H2. cbn [Z.ltb]. cbv zeta.
    change (12 <? 12) with false. cbv iota. rewrite Hr, bind_Ok. unfold SendReadResult. by rewrite Hs, !bind_Ok. }
  exists ((c <| sess := s1 |>) <| collector ::= fmap (logMetric now MsgReadReq len) |>).
  split; [|by split_and!]. eapply (HandlePayload_dispatch now _ MsgReadReq); [reflexivity|done|]. exact (f_equal Some Hrun).
Qed.

(** A message of a linked client, in one packet: its payload, with the padding of the
    packet, reaches the handler on a session that has only counted it. *)
Lemma deliver_message a now m c st p :
  linked a c st p → m ≠ [] → zlen m <= 1408 →
  ∃ s0, connection_ok (p_conn p <| sess := s0 |>) ∧ txSeqNr s0 = txSeqNr (sess (p_conn p)) ∧
    rxSeqExpected s0 = (cl_seq c + 1) mod 4096 ∧ sending s0 = false ∧
    batched (wire s0) = batched (wire (sess (p_conn p))) ∧
    ∀ c1 w', HandlePayload [] now (m ++ padding m) (p_conn p <| sess := s0 |>) (world st) = Ok (c1, w') →
      ∃ st1, deliver a now (encode (rxSeqExpected (cl_sess c)) (cl_seq c) (mkDesc [] m true)) st = Ok st1 ∧
        cMap (server st1) !! a = Some (mkPeer c1 now) ∧ listening st1 ∧ world st1 = w'.
Proof.
  intros [Hp Hi Hc Hr Hrep Hreq Hidle] Hne Hm. set (d := encode _ _ _).
  pose proof (ci_rx _ _ _ _ _ _ _ _ (so_core _ (co_sess _ Hc))) as Hsq. rewrite Hreq in Hsq.
  assert (desc_ok (mkDesc [] m true)) as Hdesc.
  { unfold desc_ok. cbn [d_header d_chunk]. change (zlen (@nil byte)) with 0. split_and!; [done|lia|lia]. }
  pose proof (encode_parse (rxSeqExpected (cl_sess c)) (cl_seq c) _ Hdesc Hsq) as Hparse. fold d in Hparse.
  assert (6 <= zlen d <= readBufferLen) as Hl.
  { unfold d. rewrite zlen_encode. unfold packet_size. cbn [d_header d_chunk]. rewrite pad4_spec. change (zlen (@nil byte)) with 0.
    pose proof (zlen_nonneg m). unfold readBufferLen. zlia. }
  change (payload_of (mkDesc [] m true)) with (m ++ padding m) in Hparse.
  assert (m ++ padding m ≠ []) as Hne' by by destruct m. revert Hparse Hne'. generalize (m ++ padding m).
  intros m' Hparse Hne'. clearbody d.
  destruct (receive_cases [] [] now d (p_conn p) (world st) Hc ltac:(lia)) as (res & s0 & Hrun & Hpost & Hc0 & Hrecv).
  rewrite Hparse in Hrecv. cbn [dp_payload dp_seq] in Hrecv.
  assert (classify (rxSeqExpected (sess (p_conn p))) (cl_seq c) = InOrder) as Hcl by (rewrite Hreq; unfold classify; by rewrite Z.eqb_refl).
  rewrite Hcl in Hrecv.
  destruct (ProcessDataPacket_idle d _ (sess (p_conn p)) res s0 (co_sess _ Hc) ltac:(lia) Hidle Hparse Hne'
    (eq_sym Hreq) Hrun) as (Htx & Hb & Hpend).
  assert (rxSeqExpected s0 = (cl_seq c + 1) mod 4096) as Hrx.
  { rewrite (rp_rx _ _ _ _ Hpost). unfold spec_receive. rewrite Hparse. cbn [dp_payload dp_seq]. rewrite Hcl.
    by destruct m'. }
  exists s0. split_and!; [done..|]. intros c1 w' Hh. eexists.
  split; [apply (deliver_run a now d st p c1 w' Hp Hi Hl); rewrite Hrecv; by destruct m'|].
  split_and!; [apply lookup_insert_eq|done..].
Qed.

(** A connection with a new session, and the same handles. *)
Lemma connection_ok_handles c s :
  handles_ok c → session_ok s → resetCallback s = true → sess c = s → connection_ok c.
Proof. intros Hh Hs Hcb <-. by split. Qed.

(** The read request of a linked client is handled, and the reply is on its way. *)
Lemma deliver_read a now h n len data c st p w' :
  linked a c st p → 0 <= h < 2 ^ 31 → 0 <= n < 2 ^ 32 →
  fs_call (FS_Read h n dataBufferLen) (world st) = Ok (len, data, None, w') →
  ∃ s0 st1 p1, deliver a now (encode (rxSeqExpected (cl_sess c)) (cl_seq c) (mkDesc [] (read_request h n) true)) st = Ok st1 ∧
    session_ok s0 ∧ txSeqNr s0 = txSeqNr (sess (p_conn p)) ∧ rxSeqExpected s0 = (cl_seq c + 1) mod 4096 ∧
    batched (wire s0) = batched (wire (sess (p_conn p))) ∧
    cMap (server st1) !! a = Some p1 ∧ listening st1 ∧ connection_ok (p_conn p1) ∧ world st1 = w' ∧
    SendRawDataWithHeader (PackResultReply len) data s0 = Ok (sess (p_conn p1)).
Proof.
  intros Hl Hh Hn Hfs.
  destruct (deliver_message a now (read_request h n) c st p Hl) as (s0 & Hc0 & Htx & Hrx & _ & Hb & Hdel);
    [done|change (zlen (read_request h n)) with 12; lia|].
  change (read_request h n ++ padding (read_request h n)) with (read_request h n) in Hdel.
  set (c0 := p_conn p <| sess := s0 |>) in *.
  destruct (SendRaw_ok (PackResultReply len) data s0 (co_sess _ Hc0)) as (s1 & Hs & Hok1).
  { unfold PackResultReply. autorewrite with golen. done. }
  destruct (HandlePayload_read now h n len data c0 (world st) w' s1 Hh Hn Hfs Hs) as (c1 & Hrun & Hs1 & Hu & Hw).
  destruct (Hdel c1 w' Hrun) as (st1 & Hd & Hp1 & Hi1 & Hw1). exists s0, st1, (mkPeer c1 now).
  split_and!; [done|exact (co_sess _ Hc0)|done|done|done|done|done| |done|by rewrite <-Hs1 in Hs].
  cbn [p_conn]. destruct Hc0 as [_ [Hu0 Hw0] Hcb].
  apply (connection_ok_handles c1 s1); [split; rewrite ?Hu, ?Hw; done|done| |done].
  apply SendRaw_reset_log in Hs. injection Hs as -> _. exact Hcb.
Qed.

Lemma reply_fields len :
  0 <= len < 2 ^ 31 →
  zlen (PackResultReply len) = 8 ∧ ∀ rest, i32 (le_at (PackResultReply len ++ rest) 4 4) = len.
Proof.
  intros Hl. split; [unfold PackResultReply; by autorewrite with golen|]. intros rest.
  change (le_at (PackResultReply len ++ rest) 4 4) with (le_get (le_put 4 (u32 len))).
  assert (u32 len = len) as -> by (unfold u32; rewrite Z.mod_small; lia).
  rewrite le_get_put4 by lia. unfold i32. rewrite Z.mod_small by lia. lia.
Qed.

Lemma client_data_reply data :
  zlen data < 2 ^ 31 →
  client_data (map payload_of (plan (mkTransfer (PackResultReply (zlen data)) (Some data) 0
    (optimalChunkSize (zlen data))))) = data.
Proof.
  intros Hd. pose proof (zlen_nonneg data). destruct (reply_fields (zlen data) ltac:(lia)) as [Hz Hf].
  destruct (plan_payloads (PackResultReply (zlen data)) data) as [pad Hpad]; rewrite ?Hz; [done|lia|].
  unfold client_data. rewrite Hpad, Hf. rewrite drop_app_length' by (apply Nat2Z.inj; symmetry; exact Hz).
  apply take_app_length'. unfold zlen. lia.
Qed.

(** One read: the client gets exactly what the file system read, and both sides are
    ready for the next. *)
Lemma client_read_run a now h n data c st p w' :
  linked a c st p → 0 <= h < 2 ^ 31 → 0 <= n < 2 ^ 32 → zlen data < 2 ^ 31 → zlen data <= n →
  fs_call (FS_Read h n dataBufferLen) (world st) = Ok (zlen data, data, None, w') →
  ∃ c' st' p', client_read a now h n c st = Ok (data, c', st') ∧ linked a c' st' p' ∧ world st' = w'.
Proof.
  intros Hl Hh Hn Hd Hdn Hfs. pose proof Hl as [Hp Hi Hc Hr Hrep Hreq Hidle]. pose proof (zlen_nonneg data) as H0.
  destruct (deliver_read a now h n (zlen data) data c st p w' Hl Hh Hn Hfs)
    as (s0 & st1 & p1 & Hdel & Hok0 & Htx0 & Hrx0 & Hb0 & Hp1 & Hi1 & Hc1 & Hw1 & Hsend).
  destruct (reply_fields (zlen data) ltac:(lia)) as [Hz _].
  pose proof (plan_length (PackResultReply (zlen data)) data ltac:(rewrite Hz; unfold MaxDataPayload; lia)) as Hpl.
  destruct (transfer_delivers (Z.to_nat n + 2) (PackResultReply (zlen data)) data s0 (cl_sess c) Hok0 Hr
    ltac:(congruence) ltac:(by rewrite Hz) ltac:(rewrite Hz; lia))
    as (s1 & s2 & r & pkts & Hsend' & Hset1 & Hdrive & Hset & Hpend & Hfin & Hrx2 & Hb2 & Hproc & Hokr & Hrxr & _);
    [eapply Nat.le_lt_trans; [exact Hpl|unfold zlen in Hdn; lia]|]. rewrite Hsend in Hsend'. injection Hsend' as <-.
  destruct (acknowledge_drive (Z.to_nat n + 2) a now (p_conn p1) st1 p1 s2 Hp1 Hi1 eq_refl Hc1 Hset1 Hdrive)
    as (st2 & p2 & Hack & Hp2 & Hi2 & Hs2 & Hc2 & Hw2).
  assert (sess (p_conn p2) = s2) as Es by (by rewrite Hs2).
  exists (mkClient r ((cl_seq c + 1) mod 4096)), st2, p2. split; [|split].
  - unfold client_read. rewrite Hdel, bind_Ok, Hack, bind_Ok. unfold sent_to. rewrite Hp, Hp2, Es, Hb2, Hb0.
    rewrite drop_app_length, Hproc, bind_Ok. by rewrite client_data_reply.
  - split; [done..|by rewrite Es|rewrite Es; cbn [cl_seq]; congruence|unfold sending; by rewrite Es, Hpend, Hfin].
  - congruence.
Qed.
End Serving.

(** ** Reading an image *)

Lemma read_at_app pos n m (content : list byte) :
  0 <= pos → 0 <= n → 0 <= m →
  read_at pos n content ++ read_at (pos + zlen (read_at pos n content)) m content = read_at pos (n + m) content.
Proof.
  intros Hp Hn Hm. unfold read_at. set (l := drop (Z.to_nat pos) content).
  assert (drop (Z.to_nat (pos + zlen (take (Z.to_nat n) l))) content = drop (length (take (Z.to_nat n) l)) l) as ->.
  { unfold l at 3. rewrite drop_drop. f_equal. unfold zlen. lia. }
  rewrite Z2Nat.inj_add, length_take by lia. destruct (decide (Z.to_nat n <= length l)%nat).
  - rewrite Nat.min_l by done. apply take_take_drop.
  - rewrite Nat.min_r, !take_ge, drop_all by (rewrite ?length_drop; lia). by rewrite ?take_nil, app_nil_r.
Qed.

Section Image.
Context {W : Type} `{OSL : OSLaws W} `{Decoders} (ss : Z).

#[local] Instance the_contract : FSContract (Backend W * W) := backend_contract ss.

Lemma client_reads_run k a now h n content pos c st p :
  linked a c st p → holds_image h ss content pos (fst (world st)) → zlen content < 2 ^ 31 →
  0 <= h < 2 ^ 31 → 0 <= pos → 0 <= n <= dataBufferLen →
  ∃ c' st' p', client_reads k a now h n c st = Ok (read_at pos (Z.of_nat k * n) content, c', st') ∧
    linked a c' st' p' ∧ holds_image h ss content (pos + zlen (read_at pos (Z.of_nat k * n) content)) (fst (world st')) ∧
    ticks (snd (world st)) (snd (world st')).
Proof.
  revert pos c st p. induction k as [|k IH]; intros pos c st p Hl Hi Hc Hh Hp Hn; cbn [client_reads].
  { exists c, st, p. change (Z.of_nat 0 * n) with 0. unfold read_at. rewrite take_0, Z.add_0_r.
    split_and!; [done..|apply ticks_refl]. }
  destruct (world st) as [b w] eqn:Ew. cbn [fst snd] in *.
  destruct (Read_image_run h ss content pos n dataBufferLen b w Hi Hn) as (b1 & w1 & Hr & Ht & Hi1).
  set (d := read_at pos n content) in *. assert (zlen d <= zlen content ∧ zlen d <= n) as [Hd Hdn].
  { unfold d, read_at, zlen. rewrite length_take, length_drop. lia. }
  pose proof (zlen_nonneg d). assert (i32 (zlen d) = zlen d) as Ed by (unfold i32; rewrite Z.mod_small; lia).
  rewrite Ed in Hr.
  destruct (client_read_run a now h n d c st p (b1, w1) Hl Hh ltac:(unfold dataBufferLen in *; lia) ltac:(lia) Hdn)
    as (c1 & st1 & p1 & Hrun & Hl1 & Hw1); [by rewrite Ew|].
  destruct (IH (pos + zlen d) c1 st1 p1 Hl1) as (c2 & st2 & p2 & Hrun2 & Hl2 & Hi2 & Ht2);
    [by rewrite Hw1|done|done|lia|done|]. rewrite Hw1 in Ht2.
  exists c2, st2, p2. rewrite Hrun, bind_Ok, Hrun2, bind_Ok.
  replace (Z.of_nat (S k) * n) with (n + Z.of_nat k * n) by lia.
  rewrite <- (read_at_app pos n (Z.of_nat k * n) content) by lia. fold d. rewrite zlen_app, Z.add_assoc.
  split_and!; [done..|]. by eapply ticks_trans.
Qed.

(** C3: what a client reads is what is on the server, end to end.  A client whose
    connection to the server is idle sends READ_REQs of [n] bytes for a handle with
    an opened image, one after another, and acknowledges the packets that it gets;
    each request passes through the server's session and the handler to the image,
    and the replies through the sessions of both sides back.  The data that the
    client puts together from the payloads are the next [k * n] bytes of the
    decompressed content, in particular all of it when it reads from the start
    and far enough; and client and server are left ready for the next request. *)
Theorem client_reads_image k a now h n content pos c st p :
  linked a c st p → holds_image h ss content pos (fst (world st)) → zlen content < 2 ^ 31 →
  0 <= h < 2 ^ 31 → 0 <= pos → 0 <= n <= dataBufferLen →
  ∃ data c' st' p', client_reads k a now h n c st = Ok (data, c', st') ∧
    data = read_at pos (Z.of_nat k * n) content ∧
    (pos = 0 → zlen content <= Z.of_nat k * n → data = content) ∧
    linked a c' st' p' ∧ holds_image h ss content (pos + zlen data) (fst (world st')).
Proof.
  intros Hl Hi Hc Hh Hp Hn.
  destruct (client_reads_run k a now h n content pos c st p Hl Hi Hc Hh Hp Hn) as (c' & st' & p' & Hr & Hl' & Hi' & _).
  exists (read_at pos (Z.of_nat k * n) content), c', st', p'. split_and!; [done..| |done|done].
  intros -> Hk. unfold read_at. rewrite drop_0. apply take_ge. unfold zlen in Hk. lia.
Qed.
End Image.

(** A new connection to a server whose handle 1 is the stored image of the examples;
    two reads of four bytes get its six bytes. *)
Definition image_server : state (Backend MemOs.world * MemOs.world) :=
  started (ram_server <| cMap := {[client_a := mkPeer (NewConnection NewSession true true) 0]} |>) (image_backend, ram0).

Definition new_client : client := mkClient NewSession 0.

Lemma image_server_linked :
  linked (HW := the_contract 512) client_a new_client image_server (mkPeer (NewConnection NewSession true true) 0).
Proof.
  split; try reflexivity; [by split|apply NewConnection_ok|exact NewSession_ok].
Qed.

Lemma client_reads_image_witness :
  ∃ c' st', client_reads 2 client_a 0 1 4 new_client image_server = Ok (Stored.content, c', st').
Proof.
  destruct (client_reads_image 512 2 client_a 0 1 4 Stored.content 0 new_client image_server _ image_server_linked)
    as (data & c' & st' & p' & Hr & _ & Hd & _);
    [exact image_backend_holds|vm_compute; reflexivity|lia|lia|unfold dataBufferLen; lia|].
  exists c', st'. rewrite <- (Hd eq_refl); [exact Hr|]. vm_compute. discriminate.
Defined.
