(* ===== verification/ClientRequest.v ===== *)
(** * A client that sends requests over the network

    A client at the other end of a connection sends any request in one packet,
    acknowledges what it gets, and has the payloads of the reply.  First for every
    request and every file system that keeps its contract, then for the listing of a
    directory. *)
From stdpp Require Import gmap.
From S2P Require Import Prelude RdmaProtocol RdmaSession RdmaPack RdmaInvariant RdmaTransfer RdmaTimer RdmaAck RdmaReceive RdmaWire RdmaStep RdmaDelivery RdmaLiveness RdmaTyped.
From S2P Require Import UdpfsProtocol UdpfsLog UdpfsConnection UdpfsContract UdpfsProperties CompressedFile CachedReader GoPath CompressedImage OsWorld Backend BackendInvariant BackendContract BackendData MemOs RomOs Server ServerContract BackendProperties DataProperties ServerProperties ClientRead.

(** The bytes of a reply, without the padding of its packets. *)
Definition reply_bytes (r : reply) : list byte :=
  match r with
  | RData p => p
  | RRaw h d => h ++ d
  | RAck => []
  end.

Lemma expected_reply_nonempty msg p : expected_reply msg (RData p) = true → p ≠ [].
Proof.
  intros He ->. revert He. unfold expected_reply. cbv zeta. cbn [reply_kind head fmap option_fmap option_map].
  repeat case_match; vm_compute; discriminate.
Qed.

Section Client.
Context {W : Type} `{FS W}.

(** The request, the acknowledgements, and what the client's session returns. *)
Definition client_request (fuel : nat) (a : AddrPort) (now : Z) (m : list byte) (c : client) (st : state W)
    : outcome (list (list byte) * client * state W) :=
  let before := length (sent_to a st) in
  st ← deliver a now (encode (rxSeqExpected (cl_sess c)) (cl_seq c) (mkDesc [] m true)) st;
  st ← acknowledge fuel a now st;
  '(payloads, r) ← process_all (drop before (sent_to a st)) (cl_sess c);
  Ok (payloads, mkClient r ((cl_seq c + 1) mod 4096), st).
End Client.

(** ** A reply on its way *)

(** The acknowledgements that are enough for a reply. *)
Definition reply_fuel (r : reply) : nat :=
  match r with
  | RData _ => 2
  | RRaw h d => S (length (plan (mkTransfer h (Some d) 0 (optimalChunkSize (zlen d)))))
  | RAck => 0
  end.

(** A reply is sent, and after so many acknowledgements it has arrived. *)
Record arrives (r : reply) (s s1 s2 rs rs' : Session) (payloads : list (list byte)) : Prop := {
  ar_send : send_reply r s = Ok s1;
  ar_drive : drive (reply_fuel r) s1 = Ok s2;
  ar_busy : sending s1 = true → settled s1;
  ar_done : sending s2 = false;
  ar_requests : rxSeqExpected s2 = rxSeqExpected s;
  ar_packets : ∃ pkts, batched (wire s2) = batched (wire s) ++ pkts ∧ process_all pkts rs = Ok (payloads, rs');
  ar_client : session_ok rs';
  ar_replies : rxSeqExpected rs' = txSeqNr s2;
  ar_bytes : ∃ x, concat payloads = reply_bytes r ++ padding x ∧ ∀ p, r = RData p → x = p
}.

Lemma reply_arrives r s rs :
  session_ok s → session_ok rs → rxSeqExpected rs = txSeqNr s → sending s = false →
  reply_fits r → (∀ p, r = RData p → p ≠ []) →
  ∃ s1 s2 rs' payloads, arrives r s s1 s2 rs rs' payloads.
Proof.
  intros Hs Hrs Hrx Hidle Hfit Hne. destruct r as [p|h d|]; cbn [reply_fits] in Hfit.
  - destruct (message_delivers p s rs Hs Hrs Hrx (Hne p eq_refl) Hfit)
      as (s1 & s2 & rs' & pkts & H1 & H2 & H3 & H4 & H5 & H6 & H7 & H8 & H9 & H10 & H11).
    exists s1, s2, rs', [p ++ padding p].
    split; [done|done|done|unfold sending; by rewrite H5, H6|done|by exists pkts|done|done|].
    exists p. cbn [concat reply_bytes]. split; [apply app_nil_r|]. by intros ? [= ->].
  - destruct (transfer_delivers (reply_fuel (RRaw h d)) h d s rs Hs Hrs Hrx)
      as (s1 & s2 & rs' & pkts & H1 & H2 & H3 & H4 & H5 & H6 & H7 & H8 & H9 & H10 & H11 & _);
      [by rewrite Hfit|rewrite Hfit; lia|cbn [reply_fuel]; lia|].
    eexists s1, s2, rs', _. split; [exact H1|exact H3|done|unfold sending; by rewrite H5, H6|done|by exists pkts|done|done|].
    destruct (plan_payloads h d) as [pad Hpad]; [by rewrite Hfit|rewrite Hfit; lia|].
    exists pad. rewrite Hpad. cbn [reply_bytes]. split; [by rewrite app_assoc|done].
  - destruct (sendACK_shape true s) as [mt Hsh]. change (sendACK true s) with (SendACK true s) in Hsh.
    assert (sending (SendACK true s) = false) as Hq by (by rewrite Hsh).
    exists (SendACK true s), (SendACK true s), rs, [].
    split; [done| |by rewrite Hq|done|by rewrite Hsh| |done|by rewrite Hsh|by exists []].
    + unfold sending in Hq. cbn [drive reply_fuel]. by rewrite Hq.
    + exists []. split; [|done]. rewrite Hsh. simpl. by rewrite batched_app.
Qed.

Section Serving.
Context {W : Type} `{HW : FSContract W}.

Lemma acknowledge_arrives a now r s s2 rs rs' payloads c st p :
  cMap (server st) !! a = Some p → listening st → p_conn p = c → connection_ok c →
  arrives r s (sess c) s2 rs rs' payloads →
  ∃ st' p', acknowledge (reply_fuel r) a now st = Ok st' ∧ cMap (server st') !! a = Some p' ∧ listening st' ∧
    p_conn p' = c <| sess := s2 |> ∧ connection_ok (p_conn p') ∧ world st' = world st.
Proof.
  intros Hp Hi <- Hc [_ Hd Hb _ _ _ _ _ _]. destruct (sending (sess (p_conn p))) eqn:E.
  { apply (acknowledge_drive (reply_fuel r) a now (p_conn p) st p s2); auto. }
  exists st, p. pose proof E as [E1 E2]%orb_false_iff. rewrite (drive_idle (reply_fuel r) _ E1 E2) in Hd. injection Hd as <-.
  rewrite set_sess_id. split_and!; [|done..]. destruct (reply_fuel r); cbn [acknowledge]; rewrite Hp; cbv zeta; by rewrite E.
Qed.

(** One request with its reply, whatever the handler does: both sides are ready for
    the next. *)
Lemma client_request_run a now m c st p :
  linked a c st p → m ≠ [] → zlen m <= 1408 →
  ∃ s0, connection_ok (p_conn p <| sess := s0 |>) ∧ ∀ c1 w1 r,
    HandlePayload [] now (m ++ padding m) (p_conn p <| sess := s0 |>) (world st) = Ok (c1, w1) →
    handles_ok c1 → session_ok (sess c1) → send_reply r s0 = Ok (sess c1) → reply_fits r → (∀ q, r = RData q → q ≠ []) →
    ∃ payloads x c' st' p', client_request (reply_fuel r) a now m c st = Ok (payloads, c', st') ∧
      concat payloads = reply_bytes r ++ padding x ∧ (∀ q, r = RData q → x = q) ∧ linked a c' st' p' ∧ world st' = w1 ∧
      usedHandles (p_conn p') = usedHandles c1 ∧ activeWriteHandle (p_conn p') = activeWriteHandle c1.
Proof.
  intros Hl Hne Hm. destruct (deliver_message a now m c st p Hl Hne Hm) as (s0 & Hc0 & Htx & Hrx & Hidle & Hb & Hdel).
  exists s0. split; [done|]. intros c1 w1 r Hrun Hh Hs1 Hsend Hfit Hr. destruct (Hdel c1 w1 Hrun) as (st1 & Hd & Hp1 & Hi1 & Hw1).
  pose proof Hl as [Hp _ _ Hcl Hrep _ _]. assert (connection_ok c1) as Hc1.
  { apply (connection_ok_handles c1 (sess c1)); [done|done| |done]. apply send_reply_reset_log in Hsend.
    injection Hsend as -> _. exact (co_callback _ Hc0). }
  destruct (reply_arrives r s0 (cl_sess c) (co_sess _ Hc0) Hcl ltac:(congruence) Hidle Hfit Hr)
    as (s1 & s2 & rs' & payloads & Har). pose proof (ar_send _ _ _ _ _ _ _ Har) as Es.
  rewrite Hsend in Es. injection Es as <-.
  destruct (acknowledge_arrives a now r s0 s2 (cl_sess c) rs' payloads c1 st1 _ Hp1 Hi1 eq_refl Hc1 Har)
    as (st2 & p2 & Hack & Hp2 & Hi2 & Hs2 & Hc2 & Hw2).
  destruct Har as [_ _ _ Hdone Hreq (pkts & Hpk & Hproc) Hcl' Hrep' (x & Hbytes & Hx)].
  assert (sess (p_conn p2) = s2) as E2 by (by rewrite Hs2).
  exists payloads, x, (mkClient rs' ((cl_seq c + 1) mod 4096)), st2, p2. split_and!.
  - unfold client_request. rewrite Hd, bind_Ok, Hack, bind_Ok. unfold sent_to. rewrite Hp, Hp2, E2, Hpk, Hb.
    by rewrite drop_app_length, Hproc, bind_Ok.
  - exact Hbytes.
  - exact Hx.
  - split; [done..|by rewrite E2|rewrite E2; cbn [cl_seq]; congruence|by rewrite E2].
  - congruence.
  - by rewrite Hs2.
  - by rewrite Hs2.
Qed.

(** C5: a request is answered end to end.  A client whose connection to the server is
    idle sends a request in one packet, over any file system that keeps its contract;
    the request is one that the contract accepts: its handle is in the table and its
    size within the buffer ([request_ok]; others panic, see
    handle_out_of_range_panics).  The server's session hands it to the handlers, and the client, which
    acknowledges the packets that it gets, has after finitely many of them all the
    bytes of one reply, of the kind that belongs to the request, followed by at most
    three bytes of padding; client and server are left ready for the next request, and the
    file system as the handler left it, sound. *)
Theorem client_gets_reply a now m c st p :
  linked a c st p → m ≠ [] → zlen m <= 1408 → fs_inv (world st) → request_ok (m ++ padding m) →
  ∃ r payloads x c' st' p' s0 c1,
    HandlePayload [] now (m ++ padding m) (p_conn p <| sess := s0 |>) (world st) = Ok (c1, world st') ∧
    client_request (reply_fuel r) a now m c st = Ok (payloads, c', st') ∧
    expected_reply (le_at (m ++ padding m) 0 1) r = true ∧ send_reply r s0 = Ok (sess c1) ∧
    concat payloads = reply_bytes r ++ padding x ∧ linked a c' st' p' ∧ fs_inv (world st').
Proof.
  intros Hl Hne Hm Hinv Hreq. destruct (client_request_run a now m c st p Hl Hne Hm) as (s0 & Hc0 & Hrun).
  destruct (HandlePayload_handled [] now (m ++ padding m) (p_conn p <| sess := s0 |>) (world st))
    as (c1 & w1 & r & H1 & H2 & H3 & H4 & H5 & H6 & H7); [by destruct m|apply Hc0..|done|done|].
  change (sess (p_conn p <| sess := s0 |>)) with s0 in H7.
  destruct (Hrun c1 w1 r H1 H3 H4 H7 H6) as (payloads & x & c' & st' & p' & R1 & R2 & _ & R3 & R4 & _).
  { intros q ->. by eapply expected_reply_nonempty. }
  exists r, payloads, x, c', st', p', s0, c1. rewrite R4. by split_and!.
Qed.
End Serving.

(** ** Listing a directory *)

Definition dread_request (h : Z) : list byte := map z2b [MsgDreadReq; 0; 0; 0] ++ le_put 4 (u32 h).

(** What the client makes of a DREAD_REPLY: an entry, or none. *)
Definition dread_entry (payloads : list (list byte)) : option (list byte * StatInfo) :=
  let '(result, name, st) := client_dread (concat payloads) in
  if result =? 1 then Some (name, st) else None.

Section Listing.
Context {W : Type} `{FS W}.

(** [k] DREAD_REQs, one after the other. *)
Fixpoint client_list (k : nat) (a : AddrPort) (now h : Z) (c : client) (st : state W)
    : outcome (list (option (list byte * StatInfo)) * client * state W) :=
  match k with
  | O => Ok ([], c, st)
  | S k =>
      '(payloads, c, st) ← client_request 2 a now (dread_request h) c st;
      '(es, c, st) ← client_list k a now h c st;
      Ok (dread_entry payloads :: es, c, st)
  end.
End Listing.

Lemma dread_reply_entry name st :
  stat_wf st → 0 < zlen name <= maxName →
  let p := PackDreadReply 1 name st in padding p = [] ∧ dread_entry [p] = Some (name, st).
Proof.
  intros Hst Hn p. destruct (dread_reply_roundtrip name st Hst) as (Hr & Hl & _); [unfold maxName in Hn; lia|].
  split; [apply padding_whole; unfold p; rewrite Hl, pad4_spec; zlia|].
  unfold dread_entry. cbn [concat]. rewrite app_nil_r. unfold p. by rewrite Hr.
Qed.

Section Directory.
Context {W : Type} `{OSL : OSLaws W} `{Decoders} (ss : Z).
Implicit Types (b : Backend W) (w : W).

#[local] Instance list_contract : FSContract (Backend W * W) := backend_contract ss.

(** The entry in an answer of the backend. *)
Definition seen (r : bool * path * StatInfo * option go_error) : option (list byte * StatInfo) :=
  let '(ok, name, st, _) := r in if (ok : bool) then Some (name, st) else None.

(** The reply that handleDread makes of it. *)
Definition dread_reply (r : bool * path * StatInfo * option go_error) : list byte :=
  let '(ok, name, st, _) := r in if (ok : bool) then PackDreadReply 1 name st else PackDreadReply 0 [] noStat.

Lemma handleDread_run h c ok name st b w b' w' s1 :
  0 <= h < 2 ^ 31 → Dread h (b, w) = Ok (ok, name, st, None, (b', w')) →
  SendData (dread_reply (ok, name, st, None)) (sess c) = Ok s1 →
  handleDread (dread_request h) c (b, w) = Ok (0, c <| sess := s1 |>, (b', w')).
Proof.
  intros Hh Hd Hs. unfold handleDread. change (zlen (dread_request h) <? 8) with false. cbv iota zeta.
  assert (handle_at (dread_request h) = h) as -> by exact (handle_bytes h Hh).
  unfold fs_call, backend_fs, backend_call. rewrite Hd, bind_Ok. cbn [dread_reply] in Hs.
  destruct ok; cbn [negb]; unfold SendDreadReply, Connection_SendData; rewrite Hs, !bind_Ok; reflexivity.
Qed.

(** A DREAD_REQ end to end: the client has the entry of the backend's answer. *)
Lemma client_dread_run a now h ok name stat c st p b' w' :
  linked a c st p → 0 <= h < 2 ^ 31 →
  Dread h (world st) = Ok (ok, name, stat, None, (b', w')) →
  (ok = true → stat_wf stat ∧ 0 < zlen name <= maxName) →
  ∃ payloads c' st' p', client_request 2 a now (dread_request h) c st = Ok (payloads, c', st') ∧
    dread_entry payloads = seen (ok, name, stat, None) ∧ linked a c' st' p' ∧ world st' = (b', w').
Proof.
  intros Hl Hh Hd Hok. set (q := dread_reply (ok, name, stat, None)).
  assert (q ≠ [] ∧ zlen q <= MaxSingle ∧ padding q = [] ∧ dread_entry [q] = seen (ok, name, stat, None))
    as (Hq & Hfit & Hpad & Hent).
  { unfold q, dread_reply, seen. destruct ok; [|by vm_compute]. destruct (Hok eq_refl) as [Hst Hn].
    destruct (dread_reply_entry name stat Hst Hn) as [Hp He]. split_and!; [|apply PackDreadReply_fits; lia|done..].
    rewrite PackDreadReply_layout by done. discriminate. }
  destruct (client_request_run a now (dread_request h) c st p Hl) as (s0 & Hc0 & Hrun); [done|change (zlen (dread_request h)) with 8; lia|].
  change (dread_request h ++ padding (dread_request h)) with (dread_request h) in Hrun.
  destruct (SendData_ok q s0 (co_sess _ Hc0) Hfit) as (s1 & Hs & Hok1).
  set (c0 := p_conn p <| sess := s0 |>) in *.
  destruct (world st) as [b w]. pose proof (handleDread_run h c0 ok name stat b w b' w' s1 Hh Hd Hs) as Hh1.
  pose proof (HandlePayload_dispatch now (dread_request h) MsgDreadReq _ c0 (b, w) _ _ _ eq_refl ltac:(done) (f_equal Some Hh1)) as Hp.
  destruct (Hrun _ _ (RData q) Hp) as (payloads & x & c' & st' & p' & R1 & R2 & R3 & R4 & R5 & _).
  - destruct (co_handles _ Hc0). by split.
  - exact Hok1.
  - exact Hs.
  - exact Hfit.
  - by intros ? [= <-].
  - exists payloads, c', st', p'. rewrite (R3 q eq_refl), Hpad, app_nil_r in R2. cbn [reply_bytes] in R2.
    split_and!; [exact R1| |done|done]. rewrite <-Hent. unfold dread_entry. by rewrite R2; cbn [concat]; rewrite app_nil_r.
Qed.

(** What an entry is listed as fits a reply. *)
Lemma listed_fits z dir name w name' st :
  0 < zlen name → zlen name + 4 <= maxName → listed z dir name w = Some (name', st) →
  stat_wf st ∧ 0 < zlen name' <= maxName.
Proof.
  intros Hpos Hn. unfold listed. destruct (os_EntryInfo dir name w) as [[fi|e] w']; [|done]. destruct (z && _).
  - destruct (image_GetStat _ _) as [[i|]| |]; try done. intros [= <- <-]. split; [apply StatInfoFromFile_wf|].
    rewrite zlen_app. change (zlen (str ".iso")) with 4. lia.
  - intros [= <- <-]. split; [apply StatInfoFromFile_wf|lia].
Qed.

(** The answers of [k] calls of Dread, end to end. *)
Lemma client_list_run k a now h z dir es i c st p :
  linked a c st p → 1 <= h <= 64 → Forall (λ name, 0 < zlen name ∧ zlen name + 4 <= maxName) es →
  holds_dir h z (mkDirHandle dir es (Z.of_nat i)) (fst (world st)) → (i <= length es)%nat →
  ∃ rs c' st' p', dread_calls k h (world st) = Ok (rs, world st') ∧
    client_list k a now h c st = Ok (map seen rs, c', st') ∧ linked a c' st' p'.
Proof.
  intros Hl Hh Hes. revert i c st p Hl. induction k as [|k IH]; intros i c st p Hl Hd Hi.
  { by exists [], c, st, p. }
  destruct (world st) as [b w] eqn:Ew. cbn [fst] in Hd.
  destruct (Dread_run h z dir es (Z.of_nat i) b w ltac:(lia) Hd) as (b1 & w1 & Hr). rewrite Nat2Z.id in Hr.
  assert (∃ ok name stat j, Dread h (b, w) = Ok (ok, name, stat, None, (b1, w1)) ∧ (ok = true → stat_wf stat ∧ 0 < zlen name <= maxName) ∧
    holds_dir h z (mkDirHandle dir es (Z.of_nat j)) b1 ∧ (j <= length es)%nat) as (ok & name & stat & j & Hr1 & Hok & Hd1 & Hj).
  { destruct (es !! i) as [name|] eqn:En; last first.
    { destruct Hr as [Hr Hd1]. by exists false, [], noStat, i. }
    destruct Hr as (w0 & Hr & Hd1). replace (Z.of_nat i + 1) with (Z.of_nat (S i)) in Hd1 by lia.
    pose proof (lookup_lt_Some _ _ _ En). pose proof (Forall_lookup_1 _ _ _ _ Hes En) as [Hn0 Hn].
    destruct (listed z dir name w0) as [[name' stat]|] eqn:El; cbn [entry_answer] in Hr.
    - exists true, name', stat, (S i). split_and!; [done| |done|lia]. intros _. exact (listed_fits _ _ _ _ _ _ Hn0 Hn El).
    - exists false, [], noStat, (S i). by split_and!; [..|lia]. }
  destruct (client_dread_run a now h ok name stat c st p b1 w1 Hl ltac:(lia)) as (payloads & c1 & st1 & p1 & Hc1 & He & Hl1 & Hw1);
    [by rewrite Ew|done|].
  destruct (IH j c1 st1 p1 Hl1) as (rs & c2 & st2 & p2 & Hrs & Hc2 & Hl2); [by rewrite Hw1|done|].
  exists ((ok, name, stat, None) :: rs), c2, st2, p2. split_and!; [| |done].
  - cbn [dread_calls]. unfold mbind, bk_bind. rewrite Hr1, bind_Ok. rewrite Hw1 in Hrs. by rewrite Hrs, bind_Ok.
  - cbn [client_list]. by rewrite Hc1, bind_Ok, Hc2, bind_Ok, He.
Qed.

Lemma seen_answers rs n : map seen (map entry_answer rs ++ replicate n dir_end) = rs ++ replicate n None.
Proof.
  rewrite map_app. f_equal; [|induction n as [|n IH]; [done|cbn [replicate map]; by rewrite IH]].
  induction rs as [|[[name st]|] rs IH]; [done|..]; cbn [map]; by rewrite IH.
Qed.

(** C22: a client lists a directory end to end, with decompression or without.  A
    client whose connection to the server is idle sends DREAD_REQs for a handle with an
    opened directory, one after another, and acknowledges the replies: it gets one
    reply for every entry, in the order in which the system gave them, and after them
    only replies without an entry.  The reply to an entry has its name and the stat
    that the system has for it; when the backend decompresses and the extension is
    that of an image, the name with ".iso" appended and the stat in the image's
    header.  (An entry whose information cannot be read any more, or that has an
    image's extension but is none, looks like the end of the directory, although more
    may follow.)  Client and server are left ready for the next request. *)
Theorem client_lists_directory n a now h compression dir es c st p :
  linked a c st p → 1 <= h <= 64 → Forall (λ name, 0 < zlen name ∧ zlen name + 4 <= maxName) es →
  holds_dir h compression (mkDirHandle dir es 0) (fst (world st)) →
  ∃ rs c' st' p',
    client_list (length es + n) a now h c st = Ok (rs ++ replicate n None, c', st') ∧
    Forall2 (λ name e, ∃ w1, listed compression dir name w1 = e) es rs ∧ linked a c' st' p'.
Proof.
  intros Hl Hh Hes Hd.
  destruct (client_list_run (length es + n) a now h compression dir es 0 c st p Hl Hh Hes Hd ltac:(lia))
    as (rs & c' & st' & p' & Hr & Hc & Hl').
  destruct (world st) as [b w]. destruct (dread_enumerates n h compression dir es b w Hd) as (xs & b' & w' & He & Hxs).
  rewrite Hr in He. injection He as -> _. exists xs, c', st', p'. rewrite seen_answers in Hc. by split_and!.
Qed.
End Directory.

(** New connections to a server of the small system, fresh, and with its directory
    open as handle 1. *)
Definition fresh_peer : peer := mkPeer (NewConnection NewSession true true) 0.
Definition server_with (b : Backend MemOs.world) : state (Backend MemOs.world * MemOs.world) :=
  started (ram_server <| cMap := {[client_a := fresh_peer]} |>) (b, ram0).

Lemma server_with_linked b : linked (HW := list_contract 512) client_a new_client (server_with b) fresh_peer.
Proof. split; try reflexivity; [by split|apply NewConnection_ok|exact NewSession_ok]. Qed.

Lemma client_gets_reply_witness :
  ∃ r payloads c' st', client_request (reply_fuel r) client_a 0 open_a new_client (server_with ram_backend) = Ok (payloads, c', st') ∧
    expected_reply MsgOpenReq r = true.
Proof.
  destruct (client_gets_reply (HW := list_contract 512) client_a 0 open_a new_client (server_with ram_backend) fresh_peer
    (server_with_linked ram_backend)) as (r & payloads & x & c' & st' & p' & s0 & c1 & _ & H1 & H2 & _);
    [discriminate|vm_compute; discriminate|exact (ram_ok ram0)|exact I|].
  exists r, payloads, c', st'. split; [exact H1|exact H2].
Defined.

(** The directory of the read-only host, with its image, as handle 1. *)
Definition rom_peer_server : state (Backend RomOs.rom * RomOs.rom) :=
  started (ram_server <| cMap := {[client_a := fresh_peer]} |>)
    (rom_backend <| handles ::= λ l, <[0%nat := Some (HDir (mkDirHandle MemOs.root [str "a"; str "game.cso"] 0))]> l |>, rom0).

Lemma rom_peer_linked :
  linked (HW := list_contract (W := RomOs.rom) 512) client_a new_client rom_peer_server fresh_peer.
Proof. split; try reflexivity; [by split|apply NewConnection_ok|exact NewSession_ok]. Qed.

Lemma client_lists_directory_witness :
  ∃ rs c' st', client_list 3 client_a 0 1 new_client rom_peer_server = Ok (rs ++ [None], c', st') ∧
    map (fmap fst) rs = [Some (str "a"); Some (str "game.cso.iso")].
Proof.
  destruct (client_lists_directory (W := RomOs.rom) 512 1 client_a 0 1 true MemOs.root [str "a"; str "game.cso"] new_client
    rom_peer_server fresh_peer rom_peer_linked) as (rs & c' & st' & p' & Hr & Hf & _);
    [lia|repeat constructor; vm_compute; (reflexivity || discriminate)|split; reflexivity|].
  exists rs, c', st'. split; [exact Hr|].
  inversion_clear Hf as [|? e1 ? ? [w1 E1] Hf']. inversion_clear Hf' as [|? e2 ? ? [w2 E2] Hf'']. inversion_clear Hf''.
  rewrite <-E1, <-E2. reflexivity.
Defined.
