(* ===== verification/ClientWrite.v ===== *)
(** * A client that writes over the network

    A client at the other end of a connection: it starts a write, sends its data in
    chunks, one message each, acknowledges the reply, and reads the result from it.
    What reaches the file, through the client's packets, the server's session, the
    request handlers and the file system, is one write of the client's data. *)
From stdpp Require Import gmap.
From S2P Require Import Prelude RdmaProtocol RdmaSession RdmaPack RdmaInvariant RdmaTransfer RdmaTimer RdmaAck RdmaReceive RdmaWire RdmaStep RdmaDelivery RdmaLiveness RdmaTyped.
From S2P Require Import UdpfsProtocol UdpfsLog UdpfsConnection UdpfsContract UdpfsProperties CompressedFile CachedReader GoPath CompressedImage OsWorld Backend BackendInvariant BackendContract BackendData MemOs Server ServerContract BackendProperties DataProperties ServerProperties ClientRead ClientRequest.

(** ** The client *)

(** WRITE_REQ for [size] bytes, or BWRITE_REQ for [count] sectors from [nr] on. *)
Definition start_request (h size : Z) (s : write_start) : list byte :=
  match s with
  | PlainWrite => map z2b [MsgWriteReq; 0; 0; 0] ++ le_put 4 (u32 h) ++ le_put 4 (u32 size)
  | BlockWrite nr count =>
      (map z2b [MsgBwriteReq; 0] ++ le_put 2 count ++ le_put 4 (u32 h)) ++
      le_put 4 (u32 nr) ++ le_put 4 (u32 (Z.shiftr nr 32)) ++ []
  end.

(** A chunk: a WRITE_DATA message, or what follows a request in its message. *)
Definition chunk_message (msg nr total : Z) (d : list byte) : list byte :=
  map z2b [msg; 0] ++ le_put 2 nr ++ le_put 2 (zlen d) ++ le_put 2 total ++ d.

Fixpoint data_messages (k : nat) (total : Z) (chunks : list (list byte)) : list (list byte) :=
  match chunks with
  | [] => []
  | d :: ds => chunk_message MsgWriteData (Z.of_nat k) total d :: data_messages (S k) total ds
  end.

(** The messages of a write; the first chunk comes in the request if [inline]. *)
Definition write_messages (inline : bool) (h : Z) (s : write_start) (chunks : list (list byte)) : list (list byte) :=
  let request := start_request h (zlen (concat chunks)) s in
  match inline, chunks with
  | true, d :: ds => (request ++ chunk_message 0 0 (zlen chunks) d) :: data_messages 1 (zlen chunks) ds
  | _, _ => request :: data_messages 0 (zlen chunks) chunks
  end.

Section Client.
Context {W : Type} `{FS W}.

(** Each message in a packet of its own. *)
Fixpoint send_messages (a : AddrPort) (now : Z) (ms : list (list byte)) (c : client) (st : state W)
    : outcome (client * state W) :=
  match ms with
  | [] => Ok (c, st)
  | m :: ms =>
      st ← deliver a now (encode (rxSeqExpected (cl_sess c)) (cl_seq c) (mkDesc [] m true)) st;
      send_messages a now ms (mkClient (cl_sess c) ((cl_seq c + 1) mod 4096)) st
  end.

(** One write: the messages, the acknowledgement of the reply, and its result. *)
Definition client_write (inline : bool) (a : AddrPort) (now h : Z) (s : write_start) (chunks : list (list byte))
    (c : client) (st : state W) : outcome (Z * client * state W) :=
  let before := length (sent_to a st) in
  '(c, st) ← send_messages a now (write_messages inline h s chunks) c st;
  st ← acknowledge 2 a now st;
  '(payloads, r) ← process_all (drop before (sent_to a st)) (cl_sess c);
  Ok (i32 (le_at (concat payloads) 4 4), mkClient r (cl_seq c), st).
End Client.

(** ** The messages *)

Lemma zlen_start_request h size s :
  zlen (start_request h size s) = match s with PlainWrite => 12 | BlockWrite _ _ => 16 end.
Proof. by destruct s. Qed.

Lemma zlen_chunk_message msg nr total d : zlen (chunk_message msg nr total d) = 8 + zlen d.
Proof. unfold chunk_message. autorewrite with golen. rewrite !zlen_app. unfold zlen. rewrite !length_le_put. simpl. lia. Qed.

Lemma start_request_fields h size s rest :
  0 <= h < 2 ^ 31 → (∀ nr count, s = BlockWrite nr count → - 2 ^ 63 <= nr < 2 ^ 63 ∧ 0 <= count < 65536) →
  let p := start_request h size s ++ rest in
  handle_at p = h ∧ ∀ nr count, s = BlockWrite nr count → le_at p 2 2 = count ∧ int64_at p 8 = nr.
Proof.
  intros Hh Hs. destruct s as [|nr count]; cbv zeta; (split; [exact (handle_bytes h Hh)|]); [done|].
  intros ? ? [= <- <-]. destruct (Hs nr count eq_refl) as [Hnr Hc]. split.
  - change (le_get (le_put 2 count) = count). apply (le_get_put_small 2). change (256 ^ Z.of_nat 2) with 65536. lia.
  - unfold start_request. rewrite <-!app_assoc, app_nil_l.
    destruct (position_roundtrip (map z2b [MsgBwriteReq; 0] ++ le_put 2 count ++ le_put 4 (u32 h)) nr rest 0 Hnr) as [Hp _];
      [lia|]. rewrite <-!app_assoc in Hp. exact Hp.
Qed.

(** What a handler makes of a chunk, whatever the padding of its packet. *)
Definition chunk_data (cp : list byte) : list byte :=
  if le_at cp 4 2 <? zlen (drop 8 cp) then take (Z.to_nat (le_at cp 4 2)) (drop 8 cp) else drop 8 cp.

Lemma chunk_message_fields msg nr total d pad :
  0 <= nr < 65536 → 0 <= total < 65536 → zlen d < 65536 →
  let cp := chunk_message msg nr total d ++ pad in
  le_at cp 2 2 = nr ∧ le_at cp 4 2 = zlen d ∧ le_at cp 6 2 = total ∧ chunk_data cp = d.
Proof.
  intros Hnr Ht Hd cp. pose proof (zlen_nonneg d) as H0.
  assert (∀ z, 0 <= z < 65536 → le_get (le_put 2 z) = z) as Hle by (intros z Hz; by apply (le_get_put_small 2)).
  assert (le_at cp 4 2 = zlen d) as Hsz by (change (le_get (le_put 2 (zlen d)) = zlen d); apply Hle; lia).
  split_and!; [by apply (Hle nr)|exact Hsz|by apply (Hle total)|].
  unfold chunk_data. rewrite Hsz. change (drop 8 cp) with (d ++ pad). rewrite zlen_app. pose proof (zlen_nonneg pad).
  destruct (Z.ltb_spec (zlen d) (zlen d + zlen pad)).
  - apply take_app_length'. unfold zlen. lia.
  - assert (pad = []) as -> by (destruct pad; [done|unfold zlen in *; simpl in *; lia]).
    apply app_nil_r.
Qed.

(** ** One message at the server *)

Section Serving.
Context {W : Type} `{HW : FSContract W}.

(** The session of a connection after a message: nothing sent, one packet received. *)
Definition next_client (c : client) : client := mkClient (cl_sess c) ((cl_seq c + 1) mod 4096).

Lemma set_sess_handle (c : Connection) s : activeWriteHandle (c <| sess := s |>) = activeWriteHandle c.
Proof. by destruct c. Qed.

(** A message that is answered with an acknowledgement only, in a handler that
    leaves [h] as the handle of the write. *)
Lemma message_acked a now m msg rest h c st p w' :
  linked a c st p → m = z2b msg :: rest → 0 <= msg < 256 → zlen m <= 1408 → fs_pre _ (FS_WriteStart h) →
  (∀ c0, activeWriteHandle c0 = activeWriteHandle (p_conn p) → ∃ st0,
     dispatch [] msg (m ++ padding m) c0 (world st) = Some (Ok (st0, Connection_SendACK true (setWriteHandle h c0), w'))) →
  ∃ st1 p1, deliver a now (encode (rxSeqExpected (cl_sess c)) (cl_seq c) (mkDesc [] m true)) st = Ok st1 ∧
    linked a (next_client c) st1 p1 ∧ activeWriteHandle (p_conn p1) = h ∧ world st1 = w' ∧
    batched (wire (sess (p_conn p1))) = batched (wire (sess (p_conn p))).
Proof.
  intros Hl Hm Hmsg Hlen Hpre Hrun. destruct (deliver_message a now m c st p Hl) as (s0 & Hc0 & Htx & Hrx & Hpend & Hb & Hdel);
    [by rewrite Hm|done|].
  assert (m ++ padding m = z2b msg :: rest ++ padding m) as Hpay by (by rewrite Hm).
  destruct (Hrun (p_conn p <| sess := s0 |>) (set_sess_handle _ _)) as [st0 Hd].
  destruct (Hdel _ _ (HandlePayload_dispatch now _ msg (rest ++ padding m) _ _ _ _ _ Hpay Hmsg Hd))
    as (st1 & Hdl & Hp1 & Hi1 & Hw1). clear Hd Hdel.
  match type of Hp1 with _ = Some (mkPeer ?x _) => set (c1 := x) in * end.
  assert (sess c1 = sendACK true s0 ∧ activeWriteHandle c1 = h) as [Hs1 Hwh] by done.
  assert (handles_ok c1) as Hh1.
  { destruct (handles_set h _ (co_handles _ Hc0)) as [H1 H2]; [by left|]. by split. }
  clearbody c1. exists st1, (mkPeer c1 now). pose proof Hl as [_ _ _ Hcl Hrep _ _].
  pose proof (sendACK_ok true s0 (co_sess _ Hc0)) as Hok1. destruct (sendACK_shape true s0) as [mt Hs].
  assert (batched (wire (sess c1)) = batched (wire s0)) as Hb1.
  { rewrite Hs1, Hs. simpl. rewrite batched_app. apply app_nil_r. }
  split_and!; [done| |done|done|by rewrite <-Hb].
  split; cbn [p_conn next_client cl_sess cl_seq]; [done|done| |done|rewrite Hs1, Hs..].
  - apply (connection_ok_handles _ (sendACK true s0)); [done|done| |done]. rewrite Hs. exact (co_callback _ Hc0).
  - simpl. congruence.
  - exact Hrx.
  - exact Hpend.
Qed.

(** A message that ends the write with a WRITE_DONE. *)
Lemma message_done a now m msg rest r c st p w' :
  linked a c st p → m = z2b msg :: rest → 0 <= msg < 256 → zlen m <= 1408 →
  (∀ c0 s1, activeWriteHandle c0 = activeWriteHandle (p_conn p) → SendData (PackWriteDone r) (sess c0) = Ok s1 → ∃ st0,
     dispatch [] msg (m ++ padding m) c0 (world st) = Some (Ok (st0, clearWriteHandle c0 <| sess := s1 |>, w'))) →
  ∃ s0 st1 p1, deliver a now (encode (rxSeqExpected (cl_sess c)) (cl_seq c) (mkDesc [] m true)) st = Ok st1 ∧
    session_ok s0 ∧ txSeqNr s0 = txSeqNr (sess (p_conn p)) ∧ rxSeqExpected s0 = (cl_seq c + 1) mod 4096 ∧
    batched (wire s0) = batched (wire (sess (p_conn p))) ∧
    cMap (server st1) !! a = Some p1 ∧ listening st1 ∧ connection_ok (p_conn p1) ∧ world st1 = w' ∧
    activeWriteHandle (p_conn p1) = -1 ∧ SendData (PackWriteDone r) s0 = Ok (sess (p_conn p1)).
Proof.
  intros Hl Hm Hmsg Hlen Hrun. destruct (deliver_message a now m c st p Hl) as (s0 & Hc0 & Htx & Hrx & Hpend & Hb & Hdel);
    [by rewrite Hm|done|].
  assert (m ++ padding m = z2b msg :: rest ++ padding m) as Hpay by (by rewrite Hm).
  destruct (SendData_ok (PackWriteDone r) s0 (co_sess _ Hc0)) as (s1 & Hs & Hok1); [vm_compute; discriminate|].
  destruct (Hrun (p_conn p <| sess := s0 |>) s1 (set_sess_handle _ _) Hs) as [st0 Hd].
  destruct (Hdel _ _ (HandlePayload_dispatch now _ msg (rest ++ padding m) _ _ _ _ _ Hpay Hmsg Hd))
    as (st1 & Hdl & Hp1 & Hi1 & Hw1). clear Hd Hdel. match type of Hp1 with _ = Some ?q => exists s0, st1, q end.
  split; [exact Hdl|].
  split_and!; [exact (co_sess _ Hc0)|done|done|done|exact Hp1|done| |done|done|exact Hs].
  cbn [p_conn]. apply (connection_ok_handles _ s1); [|done| |done].
  - destruct (handles_clear _ (co_handles _ Hc0)) as [H1 H2]. by split.
  - apply SendData_reset_log in Hs. injection Hs as -> _. exact (co_callback _ Hc0).
Qed.
End Serving.

(** ** The chunks of a write *)

(** The result in the WRITE_DONE of a completed write. *)
Definition done_result {W} (r : Z * option go_error * W) : Z :=
  match snd (fst r) with Some _ => - errToErrno (snd (fst r)) | None => fst (fst r) end.

(** The parameters of a block write fit into its request. *)
Definition start_fits (ss : Z) (s : write_start) : Prop :=
  match s with
  | PlainWrite => True
  | BlockWrite nr count => - 2 ^ 63 <= nr < 2 ^ 63 ∧ 0 <= count < 65536 ∧ 0 < ss
  end.

Section Writing.
Context {W : Type} `{OSL : OSLaws W} `{Decoders} (ss : Z).
Implicit Types (b : Backend W) (w : W) (f : fileHandle W).

#[local] Instance write_contract : FSContract (Backend W * W) := backend_contract ss.

(** A write of [n] chunks that has received [k] of them, [data]. *)
Definition receiving (h : Z) (s : write_start) f (n k : nat) (data : list byte) b : Prop :=
  holds h ss (with_wr (writing s f (total_of n k) (Z.of_nat k) data) f) b.

Lemma WriteChunk_next h s f n k data d size b w :
  receiving h s f n k data b → (k < n)%nat → Z.of_nat n < 65536 →
  ∃ b' w', WriteChunk h (Z.of_nat k) size (Z.of_nat n) d (b, w) = Ok (bool_decide (S k = n), None, (b', w')) ∧
    ticks w w' ∧ receiving h s f n (S k) (data ++ d) b'.
Proof.
  intros Hh Hk Hn. destruct (WriteChunk_run h ss _ f (Z.of_nat k) size (Z.of_nat n) d b w Hh) as (b' & w' & Hr & Ht & Hh').
  assert (receivedChunks (writing s f (total_of n k) (Z.of_nat k) data) = Z.of_nat k) as Ek by by destruct s.
  rewrite Ek, Z.eqb_refl in *. assert (u16 (Z.of_nat k + 1) = Z.of_nat (S k)) as Eu by (unfold u16; rewrite Z.mod_small; lia).
  rewrite Eu in *. exists b', w'. split; [|split; [done|]].
  - rewrite Hr. do 3 f_equal. apply eq_true_iff_eq. rewrite Z.leb_le, bool_decide_eq_true. lia.
  - unfold receiving. destruct s; exact Hh'.
Qed.

Lemma handleChunk_next msg h s f n k data d pad payload b w :
  receiving h s f n k data b → (k < n)%nat → Z.of_nat n < 65536 → zlen d < 65536 →
  ∃ b' w', ticks w w' ∧ receiving h s f n (S k) (data ++ d) b' ∧
    ∀ c, handleChunk payload (chunk_message msg (Z.of_nat k) (Z.of_nat n) d ++ pad) h c (b, w) =
      if bool_decide (S k = n) then
        '(r, err, w) ← CompleteWrite h (b', w');
        c ← SendWriteDone (match err with Some _ => - errToErrno err | None => r end) c;
        Ok (match err with Some _ => - errToErrno err | None => zlen payload end, c, w)
      else Ok (zlen payload, Connection_SendACK true c, (b', w')).
Proof.
  intros Hh Hk Hn Hd. destruct (WriteChunk_next h s f n k data d (zlen d) b w Hh Hk Hn) as (b' & w' & Hr & Ht & Hh').
  exists b', w'. split_and!; [done..|]. intros c.
  destruct (chunk_message_fields msg (Z.of_nat k) (Z.of_nat n) d pad) as (F1 & F2 & F3 & F4); [lia|lia|done|].
  unfold handleChunk. rewrite F1, F3. cbv zeta. fold (chunk_data (chunk_message msg (Z.of_nat k) (Z.of_nat n) d ++ pad)).
  rewrite F2, F4. unfold fs_call, backend_fs, backend_call. rewrite Hr, bind_Ok. case_bool_decide; [|reflexivity].
  destruct (CompleteWrite h (b', w')) as [[[r [e|]] w2]| |]; [rewrite !bind_Ok; reflexivity..|reflexivity|reflexivity].
Qed.

(** The type of the request that starts a write, and its handler. *)
Definition start_type (s : write_start) : Z :=
  match s with PlainWrite => MsgWriteReq | BlockWrite _ _ => MsgBwriteReq end.

Lemma start_next h size s f n tail b w :
  holds h ss f b → fh_readOnly f = false → 0 <= h <= 64 → start_fits ss s → tail = [] ∨ 8 <= zlen tail →
  ∃ b' w', ticks w w' ∧ receiving h s f n 0 [] b' ∧ ∀ c,
    dispatch [] (start_type s) (start_request h size s ++ tail) c (b, w) =
      Some (if decide (tail = []) then Ok (0, Connection_SendACK true (setWriteHandle h c), (b', w'))
            else handleChunk (start_request h size s ++ tail) tail h (setWriteHandle h c) (b', w')).
Proof.
  intros Hh Hro Hr Hfit Htail. destruct (start_run h ss s f b w Hh Hro) as (b' & w' & Hrun & Ht & Hh').
  exists b', w'. split_and!; [done..|]. intros c.
  destruct (start_request_fields h size s tail) as [F1 F2]; [lia|by destruct s; [done|intros ? ? [= <- <-]; destruct Hfit as (? & ? & _)]|].
  pose proof (zlen_start_request h size s) as Hz. set (req := start_request h size s) in *.
  assert (zlen (req ++ tail) = zlen req + zlen tail) as Hl by apply zlen_app.
  assert (drop (length req) (req ++ tail) = tail) as Hdrop by apply drop_app_length.
  pose proof (zlen_nonneg tail) as Hpos. assert (tail = [] ↔ zlen tail = 0) as Hnil by (unfold zlen; destruct tail; simpl; split; (done || lia)).
  destruct s as [|nr count]; cbn [start_type start_call] in *;
    [change (dispatch [] MsgWriteReq (req ++ tail) c (b, w)) with (Some (handleWriteReq (req ++ tail) c (b, w)))
    |change (dispatch [] MsgBwriteReq (req ++ tail) c (b, w)) with (Some (handleBwriteReq (req ++ tail) c (b, w)))];
    f_equal; [unfold handleWriteReq|unfold handleBwriteReq; destruct (F2 nr count eq_refl) as [F3 F4]; rewrite F3, F4];
    rewrite F1, Hl, Hz; rewrite (proj2 (Z.ltb_ge _ _)) by lia; cbv zeta;
    unfold fs_call, backend_fs, backend_call; rewrite Hrun, bind_Ok;
    change 12%nat with (length req) || change 16%nat with (length req); rewrite Hdrop;
    (case_decide as Hd; [rewrite (proj2 (Z.leb_le _ _)) by (apply Hnil in Hd; lia); reflexivity|]);
    (rewrite (proj2 (Z.leb_gt _ _)), (proj2 (Z.ltb_ge _ _)) by (destruct Htail; [done|lia])); reflexivity.
Qed.

(** *** From the chunks to the reply *)

(** Between two messages of a write. *)
Record midway (a : AddrPort) (h : Z) (s : write_start) f (n k : nat) (data : list byte) (pre : list (list byte)) (w0 : W)
    (c : client) (st : state (Backend W * W)) (p : peer) : Prop := {
  mw_linked : linked a c st p;
  mw_handle : activeWriteHandle (p_conn p) = h;
  mw_receiving : receiving h s f n k data (fst (world st));
  mw_ticks : ticks w0 (snd (world st));
  mw_sent : batched (wire (sess (p_conn p))) = pre
}.

(** After the last: the data are written, and the reply is on its way. *)
Record finished (a : AddrPort) (h : Z) (s : write_start) f (data : list byte) (pre : list (list byte)) (w0 : W)
    (c : client) (st : state (Backend W * W)) (p : peer) (s0 : Session) (w1 : W) : Prop := {
  fd_peer : cMap (server st) !! a = Some p;
  fd_free : listening st;
  fd_conn : connection_ok (p_conn p);
  fd_client : session_ok (cl_sess c);
  fd_sess : session_ok s0;
  fd_replies : rxSeqExpected (cl_sess c) = txSeqNr s0;
  fd_requests : rxSeqExpected s0 = cl_seq c;
  fd_sent : batched (wire s0) = pre;
  fd_handle : activeWriteHandle (p_conn p) = -1;
  fd_ticks : ticks w0 w1;
  fd_world : snd (world st) = snd (finish h ss s f data w1);
  fd_reply : SendData (PackWriteDone (done_result (finish h ss s f data w1))) s0 = Ok (sess (p_conn p))
}.

(** A message whose handler comes to chunk [k] of the write. *)
Definition carries (m : list byte) (msg x h : Z) (n k : nat) (d : list byte) (st : state (Backend W * W)) (p : peer)
    b w : Prop :=
  ∃ pad, ∀ c0, activeWriteHandle c0 = activeWriteHandle (p_conn p) →
    dispatch [] msg (m ++ padding m) c0 (world st) =
      Some (handleChunk (m ++ padding m) (chunk_message x (Z.of_nat k) (Z.of_nat n) d ++ pad) h (setWriteHandle h c0) (b, w)).

Section Message.
Context (a : AddrPort) (now : Z) (m rest : list byte) (msg x h : Z) (s : write_start) (f : fileHandle W) (n k : nat) (data d : list byte).
Context (w0 w : W) (b : Backend W) (c : client) (st : state (Backend W * W)) (p : peer).
Context (Hl : linked a c st p) (Hm : m = z2b msg :: rest) (Hmsg : 0 <= msg < 256) (Hlen : zlen m <= 1408).
Context (Hh : 0 <= h <= 64) (Hn : Z.of_nat n < 65536) (Hd : zlen d < 65536).
Context (Hcarry : carries m msg x h n k d st p b w) (Hrecv : receiving h s f n k data b) (Ht : ticks w0 w).

Lemma chunk_acked :
  (S k < n)%nat →
  ∃ st1 p1, deliver a now (encode (rxSeqExpected (cl_sess c)) (cl_seq c) (mkDesc [] m true)) st = Ok st1 ∧
    midway a h s f n (S k) (data ++ d) (batched (wire (sess (p_conn p)))) w0 (next_client c) st1 p1.
Proof.
  intros Hk. destruct Hcarry as [pad Hrun].
  destruct (handleChunk_next x h s f n k data d pad (m ++ padding m) b w Hrecv ltac:(lia) Hn Hd)
    as (b' & w' & Ht' & Hr' & Hch). rewrite bool_decide_eq_false_2 in Hch by lia.
  destruct (message_acked a now m msg rest h c st p (b', w') Hl Hm Hmsg Hlen) as (st1 & p1 & H1 & H2 & H3 & H4 & H5).
  { simpl. lia. }
  { intros c0 Hc0. rewrite (Hrun c0 Hc0), Hch. by eexists. }
  exists st1, p1. split; [exact H1|]. split; rewrite ?H4; [done..| |done]. by eapply ticks_trans.
Qed.

Lemma chunk_finished :
  S k = n → start_fits ss s →
  ∃ st1 p1 s0 w1, deliver a now (encode (rxSeqExpected (cl_sess c)) (cl_seq c) (mkDesc [] m true)) st = Ok st1 ∧
    finished a h s f (data ++ d) (batched (wire (sess (p_conn p)))) w0 (next_client c) st1 p1 s0 w1.
Proof.
  intros Hk Hfit. destruct Hcarry as [pad Hrun].
  destruct (handleChunk_next x h s f n k data d pad (m ++ padding m) b w Hrecv ltac:(lia) Hn Hd)
    as (b1 & w1 & Ht1 & Hr1 & Hch). rewrite bool_decide_eq_true_2 in Hch by done.
  assert (∀ nr count, s = BlockWrite nr count → 0 <= count ∧ 0 < ss) as Hcount.
  { intros nr count ->. destruct Hfit as (_ & ? & ?). lia. }
  destruct (CompleteWrite_run h ss s f _ _ (data ++ d) b1 w1 Hcount Hr1) as (w2 & b2 & Ht2 & Hcw).
  set (r := finish h ss s f (data ++ d) w2) in *. rewrite Hcw in Hch.
  destruct (message_done a now m msg rest (done_result r) c st p (b2, snd r) Hl Hm Hmsg Hlen)
    as (s0 & st1 & p1 & H1 & H2 & H3 & H4 & H5 & H6 & H7 & H8 & H9 & H10 & H11).
  { intros c0 s1 Hc0 Hs. rewrite (Hrun c0 Hc0), Hch, bind_Ok. unfold done_result in Hs. destruct r as [[z e] w3].
    cbn [fst snd] in *. unfold SendWriteDone, Connection_SendData. eexists. f_equal.
    change (sess (clearWriteHandle (setWriteHandle h c0))) with (sess c0). rewrite Hs, !bind_Ok. reflexivity. }
  exists st1, p1, s0, w2. split; [exact H1|]. pose proof Hl as [_ _ _ Hcl Hrep _ _].
  split; [done..|by rewrite H3|done|done|done| |by rewrite H9|done].
  eapply ticks_trans; [done|]. by eapply ticks_trans.
Qed.
End Message.

Lemma setWriteHandle_same h c : activeWriteHandle c = h → setWriteHandle h c = c.
Proof. intros <-. by destruct c. Qed.

(** A WRITE_DATA of a started write carries its chunk. *)
Lemma data_carries h n k d st p :
  0 <= h → activeWriteHandle (p_conn p) = h →
  carries (chunk_message MsgWriteData (Z.of_nat k) (Z.of_nat n) d) MsgWriteData MsgWriteData h n k d st p
    (fst (world st)) (snd (world st)).
Proof.
  intros Hh Hw. pose proof (zlen_chunk_message MsgWriteData (Z.of_nat k) (Z.of_nat n) d) as Hz.
  set (m := chunk_message _ _ _ _) in *. exists (padding m). intros c0 Hc0. rewrite Hw in Hc0.
  change (dispatch [] MsgWriteData (m ++ padding m) c0 (world st)) with (Some (handleWriteData (m ++ padding m) c0 (world st))).
  f_equal. unfold handleWriteData, getWriteHandle. pose proof (zlen_nonneg d). pose proof (zlen_nonneg (padding m)).
  rewrite (proj2 (Z.ltb_ge _ _)) by (rewrite zlen_app, Hz; lia). cbv zeta.
  rewrite Hc0, (proj2 (Z.eqb_neq h (-1))), setWriteHandle_same by (done || lia). by destruct (world st).
Qed.

Section Chunks.
Context (a : AddrPort) (now h : Z) (s : write_start) (f : fileHandle W) (n : nat) (pre : list (list byte)) (w0 : W).
Context (Hh : 0 <= h <= 64) (Hn : Z.of_nat n < 65536) (Hfit : start_fits ss s).

Lemma data_messages_run ds k data c st p :
  midway a h s f n k data pre w0 c st p → n = (k + length ds)%nat → ds ≠ [] →
  Forall (λ m, zlen m <= 1408) (data_messages k (Z.of_nat n) ds) →
  ∃ c' st' p' s0 w1, send_messages a now (data_messages k (Z.of_nat n) ds) c st = Ok (c', st') ∧
    finished a h s f (data ++ concat ds) pre w0 c' st' p' s0 w1.
Proof.
  revert k data c st p. induction ds as [|d ds IH]; intros k data c st p [Hl Hwh Hr Ht <-] Hk Hne Hfits; [done|].
  cbn [data_messages send_messages length] in *. apply Forall_cons in Hfits as [Hm Hfits].
  pose proof (zlen_nonneg d) as Hd0. assert (zlen d < 65536) as Hd by (rewrite zlen_chunk_message in Hm; lia).
  pose proof (data_carries h n k d st p (proj1 Hh) Hwh) as Hcarry. destruct (decide (ds = [])) as [->|Hds].
  - destruct (chunk_finished a now (chunk_message MsgWriteData (Z.of_nat k) (Z.of_nat n) d) _ MsgWriteData MsgWriteData h s f n k data d w0 _ _ c st p Hl eq_refl ltac:(done) Hm
      Hn Hd Hcarry Hr Ht) as (st1 & p1 & s0 & w1 & Hdel & Hfin); [simpl in Hk; lia|done|].
    exists (next_client c), st1, p1, s0, w1. rewrite Hdel, bind_Ok. split; [reflexivity|].
    cbn [concat]. by rewrite app_nil_r.
  - destruct (chunk_acked a now (chunk_message MsgWriteData (Z.of_nat k) (Z.of_nat n) d) _ MsgWriteData MsgWriteData h s f n k data d w0 _ _ c st p Hl eq_refl ltac:(done) Hm
      Hh Hn Hd Hcarry Hr Ht) as (st1 & p1 & Hdel & Hmid); [destruct ds; simpl in *; [done|lia]|].
    rewrite Hdel, bind_Ok. cbn [concat]. rewrite app_assoc. apply (IH (S k) _ _ st1 p1 Hmid); [lia|done|done].
Qed.
End Chunks.

(** A request whose length is a multiple of four, alone and with a chunk. *)
Lemma padding_request h size s : padding (start_request h size s) = [].
Proof. apply padding_whole. rewrite zlen_start_request. by destruct s. Qed.

Lemma start_request_type h size s : ∃ rest, start_request h size s = z2b (start_type s) :: rest.
Proof. destruct s; by eexists. Qed.

(** The whole write, up to the reply. *)
Section Whole.
Context (a : AddrPort) (now h : Z) (s : write_start) (f : fileHandle W) (chunks : list (list byte)).
Context (c : client) (st : state (Backend W * W)) (p : peer).
Context (Hl : linked a c st p) (Hf : holds h ss f (fst (world st))) (Hro : fh_readOnly f = false).
Context (Hh : 0 <= h <= 64) (Hne : chunks ≠ []) (Hn : zlen chunks < 65536) (Hfit : start_fits ss s).

Lemma separate_run :
  Forall (λ m, zlen m <= 1408) (write_messages false h s chunks) →
  ∃ c' st' p' s0 w1, send_messages a now (write_messages false h s chunks) c st = Ok (c', st') ∧
    finished a h s f (concat chunks) (batched (wire (sess (p_conn p)))) (snd (world st)) c' st' p' s0 w1.
Proof.
  unfold write_messages. set (size := zlen (concat chunks)). intros [Hm Hfits]%Forall_cons.
  destruct (start_request_type h size s) as [rest Hreq].
  destruct (start_next h size s f (length chunks) [] (fst (world st)) (snd (world st)) Hf Hro Hh Hfit)
    as (b' & w' & Ht & Hr & Hrun); [by left|].
  destruct (message_acked a now (start_request h size s) (start_type s) rest h c st p (b', w') Hl Hreq)
    as (st1 & p1 & Hdel & Hl1 & Hwh & Hw1 & Hb); [by destruct s|done|simpl; lia| |].
  { intros c0 _. rewrite padding_request. exists 0. rewrite <-surjective_pairing in Hrun. rewrite Hrun. by rewrite decide_True. }
  cbn [send_messages]. rewrite Hdel, bind_Ok.
  apply (data_messages_run a now h s f (length chunks) _ _ Hh Hn Hfit chunks 0 [] _ st1 p1); [|done..].
  split; rewrite ?Hw1; done.
Qed.

Lemma inline_run :
  Forall (λ m, zlen m <= 1408) (write_messages true h s chunks) →
  ∃ c' st' p' s0 w1, send_messages a now (write_messages true h s chunks) c st = Ok (c', st') ∧
    finished a h s f (concat chunks) (batched (wire (sess (p_conn p)))) (snd (world st)) c' st' p' s0 w1.
Proof.
  unfold write_messages. set (size := zlen (concat chunks)). destruct chunks as [|d ds]; [done|].
  set (n := length (d :: ds)) in *. change (zlen (d :: ds)) with (Z.of_nat n) in *.
  intros [Hm Hfits]%Forall_cons. set (m := start_request h size s ++ chunk_message 0 0 (Z.of_nat n) d) in *.
  destruct (start_request_type h size s) as [rest Hreq]. pose proof (zlen_nonneg d) as Hd0.
  assert (zlen m = zlen (start_request h size s) + (8 + zlen d)) as Hz by (unfold m; by rewrite zlen_app, zlen_chunk_message).
  rewrite zlen_start_request in Hz. assert (zlen d < 65536) as Hd by (destruct s; lia).
  destruct (start_next h size s f n (chunk_message 0 0 (Z.of_nat n) d ++ padding m) (fst (world st)) (snd (world st)) Hf Hro Hh Hfit)
    as (b' & w' & Ht & Hr & Hrun); [right; rewrite zlen_app, zlen_chunk_message; pose proof (zlen_nonneg (padding m)); lia|].
  assert (carries m (start_type s) 0 h n 0 d st p b' w') as Hcarry.
  { exists (padding m). intros c0 _. unfold m at 1. rewrite <-app_assoc, (surjective_pairing (world st)), Hrun.
    rewrite decide_False by done. unfold m at 3. by rewrite <-app_assoc. }
  assert (m = z2b (start_type s) :: rest ++ chunk_message 0 0 (Z.of_nat n) d) as Hfirst by (unfold m; by rewrite Hreq).
  assert (0 <= start_type s < 256) as Hmsg by by destruct s. cbn [send_messages]. destruct (decide (ds = [])) as [->|Hds].
  - destruct (chunk_finished a now m _ (start_type s) 0 h s f n 0 [] d (snd (world st)) w' b' c st p Hl Hfirst Hmsg Hm
      Hn Hd Hcarry Hr Ht) as (st1 & p1 & s0 & w1 & Hdel & Hfin); [done|done|].
    exists (next_client c), st1, p1, s0, w1. rewrite Hdel, bind_Ok. split; [reflexivity|].
    cbn [concat]. by rewrite app_nil_r.
  - destruct (chunk_acked a now m _ (start_type s) 0 h s f n 0 [] d (snd (world st)) w' b' c st p Hl Hfirst Hmsg Hm
      Hh Hn Hd Hcarry Hr Ht) as (st1 & p1 & Hdel & Hmid); [unfold n; destruct ds; simpl; [done|lia]|].
    rewrite Hdel, bind_Ok. cbn [concat].
    by apply (data_messages_run a now h s f n _ _ Hh Hn Hfit ds 1 d _ st1 p1 Hmid).
Qed.
End Whole.

Lemma done_fields r : i32 (le_at (concat [PackWriteDone r ++ padding (PackWriteDone r)]) 4 4) = i32 r.
Proof.
  change (le_at (concat [PackWriteDone r ++ padding (PackWriteDone r)]) 4 4) with (le_get (le_put 4 (u32 r))).
  rewrite le_get_put4 by apply u32_bound. unfold i32, u32. zlia.
Qed.

(** The reply is acknowledged, and the client has it; both sides are ready again. *)
Lemma finished_reply a now h s f data pre w0 c st p s0 w1 :
  finished a h s f data pre w0 c st p s0 w1 →
  ∃ st' p' payloads r, acknowledge 2 a now st = Ok st' ∧
    process_all (drop (length pre) (sent_to a st')) (cl_sess c) = Ok (payloads, r) ∧
    i32 (le_at (concat payloads) 4 4) = i32 (done_result (finish h ss s f data w1)) ∧
    linked a (mkClient r (cl_seq c)) st' p' ∧ activeWriteHandle (p_conn p') = -1 ∧ world st' = world st.
Proof.
  intros [Hp Hi Hc Hcl Hs0 Hrep Hreq <- Hwh _ _ Hsend]. set (result := done_result _) in *.
  destruct (message_delivers (PackWriteDone result) s0 (cl_sess c) Hs0 Hcl Hrep)
    as (s1 & s2 & r & pkts & Hsend' & Hset1 & Hdrive & Hset & Hpend & Hfin & Hrx2 & Hb2 & Hproc & Hokr & Hrxr);
    [done|vm_compute; discriminate|].
  rewrite Hsend in Hsend'. injection Hsend' as <-.
  destruct (acknowledge_drive 2 a now (p_conn p) st p s2 Hp Hi eq_refl Hc Hset1 Hdrive)
    as (st2 & p2 & Hack & Hp2 & Hi2 & Hs2 & Hc2 & Hw2).
  assert (sess (p_conn p2) = s2) as Es by (by rewrite Hs2).
  exists st2, p2. do 2 eexists. split; [exact Hack|]. split; [|split; [apply done_fields|]].
  { unfold sent_to. rewrite Hp2, Es, Hb2, drop_app_length. exact Hproc. }
  split; [|split; [by rewrite Hs2|done]].
  split; [done..|by rewrite Es|rewrite Es; cbn [cl_seq]; congruence|unfold sending; by rewrite Es, Hpend, Hfin].
Qed.

(** C4: what a client writes reaches the file, end to end.  A client whose connection
    to the server is idle starts a write, or a write of sectors, on a handle that is
    open for writing, sends its data in chunks, the first of them in the request or
    all in messages of their own, and acknowledges the reply; each message passes
    through the server's session and the handlers to the file system.  The file gets
    one write of the concatenated chunks, whatever padding their packets had, at its
    position or at the sector asked for; nothing else happens to the system but that
    the clock is read; the result that the client reads from WRITE_DONE is the number
    or the error of that write; and client and server are ready for the next request,
    with no write left open. *)
Theorem client_writes_file inline a now h s f chunks c st p :
  linked a c st p → holds h ss f (fst (world st)) → fh_readOnly f = false → 0 <= h <= 64 →
  chunks ≠ [] → zlen chunks < 65536 → start_fits ss s →
  Forall (λ m, zlen m <= 1408) (write_messages inline h s chunks) →
  ∃ w1 c' st' p', ticks (snd (world st)) w1 ∧
    client_write inline a now h s chunks c st =
      Ok (i32 (done_result (finish h ss s f (concat chunks) w1)), c', st') ∧
    snd (world st') = snd (finish h ss s f (concat chunks) w1) ∧
    linked a c' st' p' ∧ activeWriteHandle (p_conn p') = -1.
Proof.
  intros Hl Hf Hro Hh Hne Hn Hfit Hfits.
  assert (∃ c' st' p' s0 w1, send_messages a now (write_messages inline h s chunks) c st = Ok (c', st') ∧
    finished a h s f (concat chunks) (batched (wire (sess (p_conn p)))) (snd (world st)) c' st' p' s0 w1)
    as (c1 & st1 & p1 & s0 & w1 & Hsend & Hfin) by (destruct inline; [by apply inline_run|by apply separate_run]).
  destruct (finished_reply a now h s f _ _ _ c1 st1 p1 s0 w1 Hfin) as (st2 & p2 & payloads & r & Hack & Hproc & Hres & Hl2 & Hwh & Hw).
  exists w1, (mkClient r (cl_seq c1)), st2, p2. split; [exact (fd_ticks _ _ _ _ _ _ _ _ _ _ _ _ Hfin)|]. split; [|split_and!; [|done..]].
  - assert (sent_to a st = batched (wire (sess (p_conn p)))) as Hsent by (unfold sent_to; by rewrite (ln_peer _ _ _ _ Hl)).
    unfold client_write. by rewrite Hsent, Hsend, bind_Ok, Hack, bind_Ok, Hproc, bind_Ok, Hres.
  - rewrite Hw. exact (fd_world _ _ _ _ _ _ _ _ _ _ _ _ Hfin).
Qed.
End Writing.

(** A new connection to a server whose handle 1 is a file of the small system, open
    for writing; two chunks of two bytes and one are three bytes written. *)
Definition writing_server : state (Backend MemOs.world * MemOs.world) :=
  started (ram_server <| cMap := {[client_a := fresh_peer]} |>) (ram_open, ram1).

Lemma writing_server_linked : linked (HW := write_contract 512) client_a new_client writing_server fresh_peer.
Proof. split; try reflexivity; [by split|apply NewConnection_ok|exact NewSession_ok]. Qed.

Lemma client_writes_file_witness :
  ∃ w1 c' st', ticks ram1 w1 ∧
    client_write true client_a 0 1 PlainWrite [map z2b [7; 8]; map z2b [9]] new_client writing_server =
      Ok (i32 (done_result (finish 1 512 PlainWrite ram_file (map z2b [7; 8; 9]) w1)), c', st') ∧
    snd (world st') = snd (finish 1 512 PlainWrite ram_file (map z2b [7; 8; 9]) w1).
Proof.
  destruct (client_writes_file 512 true client_a 0 1 PlainWrite ram_file [map z2b [7; 8]; map z2b [9]] new_client writing_server
    _ writing_server_linked ram_holds eq_refl) as (w1 & c' & st' & p' & Ht & Hr & Hw & _);
    [lia|discriminate|reflexivity|exact I|repeat constructor; discriminate|].
  exists w1, c', st'. split_and!; [exact Ht|exact Hr|exact Hw].
Defined.

(** The same three bytes, run: the file has them afterwards, whether the first chunk
    comes in the request or not; sectors in a block write the same. *)
Definition written (inline : bool) (s : write_start) : option (Z * list (list byte)) :=
  match client_write inline client_a 0 1 s [map z2b [7; 8]; map z2b [9]] new_client writing_server with
  | Ok (r, _, st) => Some (r, map snd (MemOs.files (snd (world st))))
  | _ => None
  end.

Example client_write_runs :
  written true PlainWrite = Some (3, [map z2b [7; 8; 9]]) ∧ written false PlainWrite = Some (3, [map z2b [7; 8; 9]]) ∧
  written false (BlockWrite 0 1) = Some (0, [map z2b [7; 8; 9]]).
Proof. split_and!; vm_compute; reflexivity. Qed.
